(** * ScaLAPACKMatrix: a shallow embedding of source/lac/scalapack.cc

    The C++ class is a per-process object of an SPMD program: every process of
    the job holds its own [ScaLAPACKMatrix] (shape, block sizes, grid, state,
    property and the local block-cyclic share of the entries) and all of them
    call each member function collectively.  The embedding keeps that shape:

    - a member function is a function on the calling process's object that
      returns a [Result] ([Throw] for a failed [Assert]/[AssertThrow]; the
      debug build is modelled, in which [Assert] is active);
    - a [World] lists the objects of all processes in rank order; collective
      kernels (redistribution, PBLAS addition, MPI reductions, broadcast to
      inactive processes) read the world, everything else is local; where
      one process alone can throw before a collective operation
      ([load_serial]), every process has its own [Outcome];
    - [int] and [unsigned int] values are integers of [Z]; the conversions of
      [global_row]/[global_column], of the index limits and chunk sizes and
      of the [unsigned int] arguments of [ExcIndexRange] are written out, all
      other quantities are matrix dimensions, block sizes and grid
      coordinates, which are non-negative and stay far below the 32-bit
      range.

    The file has the program first (the functions of scalapack.cc in the order
    of the source, each with its line numbers, and the external routines they
    call, modelled from their contracts), then the vocabulary of the
    properties and the concrete inputs, then the properties and their
    instances at the concrete inputs. *)

From Stdlib Require Import ZArith List Lia Bool String Ascii.
Import ListNotations.
Open Scope Z_scope.

(** ** Exceptions and the result of a member function

    The exception classes are declared in base/exceptions.h, which is not
    among the sources; [ExcIndexRange] is declared there with three [int]
    fields, so an [unsigned int] argument is converted when the exception is
    built: the functions below write that conversion out ([to_signed]). *)

Inductive Exc : Type :=
| ExcMessage (msg : string)
| ExcDimensionMismatch (a b : Z)
| ExcIndexRange (i lo hi : Z)
| ExcErrorCode (routine : string) (code : Z)
| ExcIO
| ExcInternalError
| ExcNotImplemented.

Inductive Result (T : Type) : Type :=
| Ok (x : T)
| Throw (e : Exc).

Arguments Ok {T} x.
Arguments Throw {T} e.

Definition bind {T U : Type} (c : Result T) (k : T -> Result U) : Result U :=
  match c with
  | Ok x => k x
  | Throw e => Throw e
  end.

Notation "x <- c ;; k" := (bind c (fun x => k))
  (at level 61, c at next level, right associativity).
Notation "c ;;; k" := (bind c (fun _ => k))
  (at level 61, right associativity).

(** [Assert] (debug-mode check) and [AssertThrow] (always checked). *)
Definition Assert (cond : bool) (e : Exc) : Result unit :=
  if cond then Ok tt else Throw e.

Definition AssertThrow (cond : bool) (e : Exc) : Result unit :=
  if cond then Ok tt else Throw e.

Fixpoint mapM {T U : Type} (f : T -> Result U) (l : list T) : Result (list U) :=
  match l with
  | [] => Ok []
  | x :: l' => y <- f x ;; ys <- mapM f l' ;; Ok (y :: ys)
  end.

(** ** LAPACKSupport::State and LAPACKSupport::Property

    The enumerators are the ones scalapack.cc names (all of them appear in
    [create_HDF5_state_enum_id] and [create_HDF5_property_enum_id]); their
    integer values are those of lapack_support.h. *)

Module LAPACKSupport.

Inductive State : Type :=
| matrix | inverse_matrix | lu | cholesky | eigenvalues | svd | inverse_svd | unusable.

Inductive Property : Type :=
| general | symmetric | upper_triangular | lower_triangular | diagonal | hessenberg.

Definition State_eqb (a b : State) : bool :=
  match a, b with
  | matrix, matrix | inverse_matrix, inverse_matrix | lu, lu | cholesky, cholesky
  | eigenvalues, eigenvalues | svd, svd | inverse_svd, inverse_svd | unusable, unusable => true
  | _, _ => false
  end.

Definition Property_eqb (a b : Property) : bool :=
  match a, b with
  | general, general | symmetric, symmetric | upper_triangular, upper_triangular
  | lower_triangular, lower_triangular | diagonal, diagonal | hessenberg, hessenberg => true
  | _, _ => false
  end.

(** [static_cast<int>] of an enumerator. *)
Definition State_to_int (s : State) : Z :=
  match s with
  | matrix => 0 | inverse_matrix => 1 | lu => 2 | cholesky => 3
  | eigenvalues => 4 | svd => 5 | inverse_svd => 6 | unusable => 32768
  end.

Definition Property_to_int (p : Property) : Z :=
  match p with
  | general => 0 | symmetric => 1 | upper_triangular => 2
  | lower_triangular => 4 | diagonal => 6 | hessenberg => 8
  end.

Definition all_States : list State :=
  [matrix; inverse_matrix; lu; cholesky; eigenvalues; svd; inverse_svd; unusable].

Definition all_Properties : list Property :=
  [general; symmetric; upper_triangular; lower_triangular; diagonal; hessenberg].

(** [static_cast<State>(int)]: the enumerator with that value, if there is one. *)
Definition State_of_int (z : Z) : option State :=
  find (fun s => State_to_int s =? z) all_States.

Definition Property_of_int (z : Z) : option Property :=
  find (fun p => Property_to_int p =? z) all_Properties.

End LAPACKSupport.

Import LAPACKSupport.

(** ** The template parameter NumberType

    The class is a template over the scalar type; the embedding is generic
    over it in the same way.  [of_int] is the conversion from an integer
    literal, [to_int] the conversion to [int] (used for [lwork = work[0]]),
    [less] is [operator<], [is_nan] is [std::isnan], [quiet_NaN] is
    [std::numeric_limits<NumberType>::quiet_NaN ()] and [hdf5_type_class] is
    the class of [hdf5_type_id] for the type. *)

Class NumberType (Number : Type) : Type := {
  of_int : Z -> Number;
  to_int : Number -> Z;
  plus : Number -> Number -> Number;
  times : Number -> Number -> Number;
  less : Number -> Number -> bool;
  is_nan : Number -> bool;
  quiet_NaN : Number;
  hdf5_type_class : Z;
  is_nan_quiet_NaN : is_nan quiet_NaN = true
}.

(** A concrete scalar type for runs of the model: the integers with one
    not-a-number value ([None]), which every operation propagates and which
    compares with nothing. *)
Definition ZN : Type := option Z.

Definition ZN_lift (f : Z -> Z -> Z) (a b : ZN) : ZN :=
  match a, b with
  | Some x, Some y => Some (f x y)
  | _, _ => None
  end.

#[export] Instance ZN_NumberType : NumberType ZN := {
  of_int := fun z => Some z;
  to_int := fun a => match a with Some z => z | None => 0 end;
  plus := ZN_lift Z.add;
  times := ZN_lift Z.mul;
  less := fun a b => match a, b with Some x, Some y => x <? y | _, _ => false end;
  is_nan := fun a => match a with Some _ => false | None => true end;
  quiet_NaN := None;
  hdf5_type_class := 0;
  is_nan_quiet_NaN := eq_refl
}.

(** [std::min] and [std::max] as the standard library defines them. *)
Definition std_min {T : Type} (lt : T -> T -> bool) (a b : T) : T :=
  if lt b a then b else a.

Definition std_max {T : Type} (lt : T -> T -> bool) (a b : T) : T :=
  if lt a b then b else a.

(** ** 32-bit conversions *)

Definition to_unsigned (z : Z) : Z := z mod 2 ^ 32.

Definition to_signed (z : Z) : Z := (z + 2 ^ 31) mod 2 ^ 32 - 2 ^ 31.

Definition invalid_unsigned_int : Z := 2 ^ 32 - 1.

(** ** ScaLAPACK TOOLS routines *)

(** Modelled from the spec: [numroc_], the local extent of one dimension.
    Only its declaration (scalapack.templates.h) belongs to the repository;
    the spec describes it as the count of how many of the blocks, dealt
    cyclically starting at the first process, land on this process, each
    contributing [nb] elements and the last block possibly fewer. *)
Definition numroc_ (n nb iproc isrcproc nprocs : Z) : Z :=
  let mydist := (nprocs + iproc - isrcproc) mod nprocs in
  let nblocks := n / nb in
  let numroc := (nblocks / nprocs) * nb in
  let extrablks := nblocks mod nprocs in
  if mydist <? extrablks then numroc + nb
  else if mydist =? extrablks then numroc + n mod nb
  else numroc.

(** Modelled from the spec: [indxl2g_], the spec's [local_to_global] with
    Fortran (1-based) indices: local block [k] of the process at cyclic
    distance [d] from the first process is global block [k * nprocs + d]. *)
Definition indxl2g_ (indxloc nb iproc isrcproc nprocs : Z) : Z :=
  nprocs * nb * ((indxloc - 1) / nb) + (indxloc - 1) mod nb
  + ((nprocs + iproc - isrcproc) mod nprocs) * nb + 1.

(** Modelled from the spec: [indxg2p_], the owning coordinate of the spec's
    [owner_and_local]: global block [j] lives on process
    [(isrcproc + j) mod nprocs]. *)
Definition indxg2p_ (indxglob nb iproc isrcproc nprocs : Z) : Z :=
  (isrcproc + (indxglob - 1) / nb) mod nprocs.

(** Modelled from the spec: [indxg2l_], the local index of the spec's
    [owner_and_local] (1-based). *)
Definition indxg2l_ (indxglob nb iproc isrcproc nprocs : Z) : Z :=
  nb * ((indxglob - 1) / (nb * nprocs)) + (indxglob - 1) mod nb + 1.

(** The spec's pure layout functions on 0-based indices. *)
Definition owner_and_local (global_index block_size grid_dim first_process_coord : Z)
  : Z * Z :=
  (indxg2p_ (global_index + 1) block_size 0 first_process_coord grid_dim,
   indxg2l_ (global_index + 1) block_size 0 0 grid_dim - 1).

Definition local_to_global
  (local_index block_size this_coord first_process_coord grid_dim : Z) : Z :=
  indxl2g_ (local_index + 1) block_size this_coord first_process_coord grid_dim - 1.

(** Modelled from the spec: [descinit_] builds the descriptor, nine integers
    (type, grid handle, shape, block sizes, first-process coordinate, local
    leading dimension), and reports a status that is zero for legal arguments.
    [nprow], [npcol] and [myrow] are what the routine reads from the grid
    behind the handle. *)
Definition descinit_ (m n mb nb irsrc icsrc ictxt lld nprow npcol myrow : Z)
  : list Z * Z :=
  let info :=
    if m <? 0 then -2
    else if n <? 0 then -3
    else if mb <? 1 then -4
    else if nb <? 1 then -5
    else if (irsrc <? 0) || (nprow <=? irsrc) then -6
    else if (icsrc <? 0) || (npcol <=? icsrc) then -7
    else if lld <? Z.max 1 (numroc_ m mb myrow irsrc nprow) then -9
    else 0 in
  ([1; ictxt; m; n; mb; nb; irsrc; icsrc; lld], info).

(** Slots of a descriptor. *)
Definition desc_at (k : nat) (desc : list Z) : Z := nth k desc 0.

Definition DTYPE_ : nat := 0%nat.
Definition CTXT_ : nat := 1%nat.
Definition M_ : nat := 2%nat.
Definition N_ : nat := 3%nat.
Definition MB_ : nat := 4%nat.
Definition NB_ : nat := 5%nat.
Definition RSRC_ : nat := 6%nat.
Definition CSRC_ : nat := 7%nat.
Definition LLD_ : nat := 8%nat.

(** ** Loops *)

(** The values [lo, lo+1, ..., hi-1] of a C [for] loop. *)
Definition zrange (lo hi : Z) : list Z :=
  map (fun k => lo + Z.of_nat k) (seq 0 (Z.to_nat (hi - lo))).

Definition for_loop {S : Type} (lo hi : Z) (body : Z -> S -> S) (s : S) : S :=
  fold_left (fun acc i => body i acc) (zrange lo hi) s.

Definition for_loopM {S : Type} (lo hi : Z) (body : Z -> S -> Result S) (s : S)
  : Result S :=
  fold_left (fun acc i => a <- acc ;; body i a) (zrange lo hi) (Ok s).

(** ** Utilities::MPI::ProcessGrid *)

Record ProcessGrid : Type := {
  grid_address : Z;            (* identity of the shared object ([shared_ptr] comparison) *)
  mpi_communicator : Z;        (* communicator handle *)
  this_mpi_process : Z;
  n_mpi_processes : Z;
  n_process_rows : Z;
  n_process_columns : Z;
  this_process_row : Z;
  this_process_column : Z;
  mpi_process_is_active : bool;
  blacs_context : Z
}.

(** Modelled from the spec: the [ProcessGrid] constructor (process_grid.cc is
    not among the sources).  It arranges the first [R * C] ranks of the
    communicator into an [R] x [C] grid and marks the excess ranks inactive;
    the ranks are dealt column by column (the "Col" order the sources pass to
    [Cblacs_gridinit]) and an inactive process has coordinates [-1].
    [address] is the address of the new object, [P] the size of the
    communicator and [rank] the rank of the calling process. *)
Definition make_ProcessGrid (address comm P rank context R C : Z) : ProcessGrid :=
  let active := rank <? R * C in
  {| grid_address := address;
     mpi_communicator := comm;
     this_mpi_process := rank;
     n_mpi_processes := P;
     n_process_rows := R;
     n_process_columns := C;
     this_process_row := if active then rank mod R else -1;
     this_process_column := if active then rank / R else -1;
     mpi_process_is_active := active;
     blacs_context := context |}.

(** A [World] holds one value per process of the job, in rank order. *)
Definition World (T : Type) : Type := list T.

(** Modelled from the spec: [ProcessGrid::send_to_inactive]: the active
    representative (the process at grid position (0,0)) broadcasts its value
    to all inactive processes; active processes keep their own.  [values]
    pairs every process's grid with the value it passes in. *)
Definition send_to_inactive {T : Type} (values : World (ProcessGrid * T))
  (grid : ProcessGrid) (mine : T) : T :=
  if mpi_process_is_active grid then mine
  else
    match find (fun gv => mpi_process_is_active (fst gv)
                          && (this_process_row (fst gv) =? 0)
                          && (this_process_column (fst gv) =? 0)) values with
    | Some gv => snd gv
    | None => mine
    end.

(** What one process of a collective call does: it returns, it throws, or
    it waits in a collective operation that a process which has thrown [e]
    never enters. *)
Inductive Outcome (T : Type) : Type :=
| Returns (x : T)
| Throws (e : Exc)
| Waits (e : Exc).

Arguments Returns {T} x.
Arguments Throws {T} e.
Arguments Waits {T} e.

(** A step that every process takes by itself ([stepw], in rank order),
    followed by a collective operation and what comes after it ([rest]).  A
    process that throws in the step throws; the others are then left
    waiting in the collective operation. *)
Definition then_collective {T U : Type} (stepw : World (Result T))
  (rest : World T -> World (Outcome U)) : World (Outcome U) :=
  match mapM (fun r => r) stepw with
  | Ok xs => rest xs
  | Throw e =>
      map (fun r => match r with Ok _ => Waits e | Throw e' => Throws e' end) stepw
  end.

(** A collective call as the job sees it: the results when every process
    returns, and otherwise the exception of the first process in rank order:
    the one it throws, or the one it waits for. *)
Definition job_result {T : Type} (w : World (Outcome T)) : Result (World T) :=
  mapM (fun o => match o with
                 | Returns x => Ok x
                 | Throws e | Waits e => Throw e
                 end) w.

Section Model.

Context {Number : Type} {NT : NumberType Number}.

(** ** FullMatrix, the replicated dense matrix (external collaborator) *)

Record FullMatrix : Type := {
  fm_m : Z;                       (* number of rows *)
  fm_n : Z;                       (* number of columns *)
  fm_el : Z -> Z -> Number        (* [matrix(i,j)] *)
}.

(** The update of the entry at [(i, j)]. *)
Definition fm_put (M : FullMatrix) (i j : Z) (v : Number) : FullMatrix :=
  {| fm_m := fm_m M;
     fm_n := fm_n M;
     fm_el := fun i' j' => if (i' =? i) && (j' =? j) then v else fm_el M i' j' |}.

(** [matrix(i,j) = v].  [FullMatrix] is declared in lac/full_matrix.h and
    base/table.h, which are not among the sources; its element access checks
    both indices against the shape in the debug build (the build modelled
    here), and that check is written out.  Where the sources read
    [matrix(i,j)] they stay inside the shape ([operator =] reads at global
    positions of a matrix whose shape is asserted to be the dense matrix's,
    the fill of [copy_to] reads at [(j, i)] with [j < m] and [i < n]), so a
    read is [fm_el]. *)
Definition fm_set (M : FullMatrix) (i j : Z) (v : Number) : Result FullMatrix :=
  Assert ((0 <=? i) && (i <? fm_m M))
    (ExcIndexRange (to_signed i) 0 (to_signed (fm_m M))) ;;;
  Assert ((0 <=? j) && (j <? fm_n M))
    (ExcIndexRange (to_signed j) 0 (to_signed (fm_n M))) ;;;
  Ok (fm_put M i j v).

(** [matrix = 0.] *)
Definition fm_zero (M : FullMatrix) : FullMatrix :=
  {| fm_m := fm_m M; fm_n := fm_n M; fm_el := fun _ _ => of_int 0 |}.

(** [Utilities::MPI::sum (matrix, communicator, matrix)]: the entrywise sum
    of the matrices of all processes; [mine] is the calling process's. *)
Definition MPI_sum (all : World FullMatrix) (mine : FullMatrix) : FullMatrix :=
  {| fm_m := fm_m mine;
     fm_n := fm_n mine;
     fm_el := fun i j =>
       match all with
       | [] => fm_el mine i j
       | M :: rest => fold_left (fun acc X => plus acc (fm_el X i j)) rest (fm_el M i j)
       end |}.

(** ** The class ScaLAPACKMatrix *)

Record ScaLAPACKMatrix : Type := {
  (* base class TransposeTable<NumberType>: the table sizes and the storage *)
  table_n_rows : Z;
  table_n_cols : Z;
  values : list Number;
  (* members *)
  state : State;
  property : Property;
  grid : ProcessGrid;
  n_rows : Z;
  n_columns : Z;
  row_block_size : Z;
  column_block_size : Z;
  n_local_rows : Z;
  n_local_columns : Z;
  descriptor : list Z;
  work : list Number;
  iwork : list Z;
  uplo : ascii;
  first_process_row : Z;
  first_process_column : Z;
  submatrix_row : Z;
  submatrix_column : Z
}.

Definition set_values (A : ScaLAPACKMatrix) (v : list Number) : ScaLAPACKMatrix :=
  {| table_n_rows := table_n_rows A; table_n_cols := table_n_cols A; values := v;
     state := state A; property := property A; grid := grid A;
     n_rows := n_rows A; n_columns := n_columns A;
     row_block_size := row_block_size A; column_block_size := column_block_size A;
     n_local_rows := n_local_rows A; n_local_columns := n_local_columns A;
     descriptor := descriptor A; work := work A; iwork := iwork A; uplo := uplo A;
     first_process_row := first_process_row A;
     first_process_column := first_process_column A;
     submatrix_row := submatrix_row A; submatrix_column := submatrix_column A |}.

Definition set_state (A : ScaLAPACKMatrix) (s : State) : ScaLAPACKMatrix :=
  {| table_n_rows := table_n_rows A; table_n_cols := table_n_cols A; values := values A;
     state := s; property := property A; grid := grid A;
     n_rows := n_rows A; n_columns := n_columns A;
     row_block_size := row_block_size A; column_block_size := column_block_size A;
     n_local_rows := n_local_rows A; n_local_columns := n_local_columns A;
     descriptor := descriptor A; work := work A; iwork := iwork A; uplo := uplo A;
     first_process_row := first_process_row A;
     first_process_column := first_process_column A;
     submatrix_row := submatrix_row A; submatrix_column := submatrix_column A |}.

Definition set_property (A : ScaLAPACKMatrix) (p : Property) : ScaLAPACKMatrix :=
  {| table_n_rows := table_n_rows A; table_n_cols := table_n_cols A; values := values A;
     state := state A; property := p; grid := grid A;
     n_rows := n_rows A; n_columns := n_columns A;
     row_block_size := row_block_size A; column_block_size := column_block_size A;
     n_local_rows := n_local_rows A; n_local_columns := n_local_columns A;
     descriptor := descriptor A; work := work A; iwork := iwork A; uplo := uplo A;
     first_process_row := first_process_row A;
     first_process_column := first_process_column A;
     submatrix_row := submatrix_row A; submatrix_column := submatrix_column A |}.

Definition set_work (A : ScaLAPACKMatrix) (w : list Number) (iw : list Z)
  : ScaLAPACKMatrix :=
  {| table_n_rows := table_n_rows A; table_n_cols := table_n_cols A; values := values A;
     state := state A; property := property A; grid := grid A;
     n_rows := n_rows A; n_columns := n_columns A;
     row_block_size := row_block_size A; column_block_size := column_block_size A;
     n_local_rows := n_local_rows A; n_local_columns := n_local_columns A;
     descriptor := descriptor A; work := w; iwork := iw; uplo := uplo A;
     first_process_row := first_process_row A;
     first_process_column := first_process_column A;
     submatrix_row := submatrix_row A; submatrix_column := submatrix_column A |}.

(** scalapack.cc:72-129, the constructor.  [property_] defaults to
    [general] in the callers below, as in the class declaration. *)
Definition ScaLAPACKMatrix_ctor (n_rows_ n_columns_ : Z) (process_grid : ProcessGrid)
  (row_block_size_ column_block_size_ : Z) (property_ : Property)
  : Result ScaLAPACKMatrix :=
  Assert (0 <? row_block_size_) (ExcMessage "Row block size has to be positive.") ;;;
  Assert (0 <? column_block_size_) (ExcMessage "Column block size has to be positive.") ;;;
  Assert (row_block_size_ <=? n_rows_)
    (ExcMessage "Row block size can not be greater than the number of rows of the matrix") ;;;
  Assert (column_block_size_ <=? n_columns_)
    (ExcMessage "Column block size can not be greater than the number of columns of the matrix") ;;;
  let first_process_row_ := 0 in
  let first_process_column_ := 0 in
  if mpi_process_is_active process_grid then
    let n_local_rows_ :=
      numroc_ n_rows_ row_block_size_ (this_process_row process_grid)
        first_process_row_ (n_process_rows process_grid) in
    let n_local_columns_ :=
      numroc_ n_columns_ column_block_size_ (this_process_column process_grid)
        first_process_column_ (n_process_columns process_grid) in
    let lda := Z.max 1 n_local_rows_ in
    let '(descriptor_, info) :=
      descinit_ n_rows_ n_columns_ row_block_size_ column_block_size_
        first_process_row_ first_process_column_ (blacs_context process_grid) lda
        (n_process_rows process_grid) (n_process_columns process_grid)
        (this_process_row process_grid) in
    AssertThrow (info =? 0) (ExcErrorCode "descinit_" info) ;;;
    Ok {| table_n_rows := n_local_rows_; table_n_cols := n_local_columns_;
          values := repeat (of_int 0) (Z.to_nat (n_local_rows_ * n_local_columns_));
          state := matrix; property := property_; grid := process_grid;
          n_rows := n_rows_; n_columns := n_columns_;
          row_block_size := row_block_size_; column_block_size := column_block_size_;
          n_local_rows := n_local_rows_; n_local_columns := n_local_columns_;
          descriptor := descriptor_; work := []; iwork := []; uplo := "L"%char;
          first_process_row := first_process_row_;
          first_process_column := first_process_column_;
          submatrix_row := 1; submatrix_column := 1 |}
  else
    Ok {| table_n_rows := 0; table_n_cols := 0; values := [];
          state := matrix; property := property_; grid := process_grid;
          n_rows := n_rows_; n_columns := n_columns_;
          row_block_size := row_block_size_; column_block_size := column_block_size_;
          n_local_rows := -1; n_local_columns := -1;
          descriptor := repeat (-1) 9; work := []; iwork := []; uplo := "L"%char;
          first_process_row := first_process_row_;
          first_process_column := first_process_column_;
          submatrix_row := 1; submatrix_column := 1 |}.

(** scalapack.cc:133-145, the constructor of a square matrix. *)
Definition ScaLAPACKMatrix_ctor_square (size : Z) (process_grid : ProcessGrid)
  (block_size : Z) (property_ : Property) : Result ScaLAPACKMatrix :=
  ScaLAPACKMatrix_ctor size size process_grid block_size block_size property_.

(** [local_el (i, j)]: the element of the column-major local table. *)
Definition local_el (A : ScaLAPACKMatrix) (loc_row loc_column : Z) : Number :=
  nth (Z.to_nat (loc_column * table_n_rows A + loc_row)) (values A) (of_int 0).

(** scalapack.cc:206-214 *)
Definition global_row (A : ScaLAPACKMatrix) (loc_row : Z) : Result Z :=
  Assert ((0 <=? n_local_rows A) && (loc_row <? to_unsigned (n_local_rows A)))
    (ExcIndexRange (to_signed loc_row) 0 (n_local_rows A)) ;;;
  let i := to_signed (to_unsigned (loc_row + 1)) in
  Ok (to_unsigned
        (indxl2g_ i (row_block_size A) (this_process_row (grid A))
           (first_process_row A) (n_process_rows (grid A)) - 1)).

(** scalapack.cc:218-226 *)
Definition global_column (A : ScaLAPACKMatrix) (loc_column : Z) : Result Z :=
  Assert ((0 <=? n_local_columns A) && (loc_column <? to_unsigned (n_local_columns A)))
    (ExcIndexRange (to_signed loc_column) 0 (n_local_columns A)) ;;;
  let j := to_signed (to_unsigned (loc_column + 1)) in
  Ok (to_unsigned
        (indxl2g_ j (column_block_size A) (this_process_column (grid A))
           (first_process_column A) (n_process_columns (grid A)) - 1)).

(** scalapack.cc:230-253, [copy_to (FullMatrix &)] up to the reduction: what
    one process does on its own. *)
Definition copy_to_FullMatrix_local (A : ScaLAPACKMatrix) (matrix_ : FullMatrix)
  : Result FullMatrix :=
  Assert (n_rows A =? fm_m matrix_) (ExcDimensionMismatch (n_rows A) (fm_m matrix_)) ;;;
  Assert (n_columns A =? fm_n matrix_) (ExcDimensionMismatch (n_columns A) (fm_n matrix_)) ;;;
  if mpi_process_is_active (grid A) then
    for_loopM 0 (n_local_rows A)
      (fun i M =>
         glob_i <- global_row A i ;;
         for_loopM 0 (n_local_columns A)
           (fun j M' =>
              glob_j <- global_column A j ;;
              fm_set M' (to_signed glob_i) (to_signed glob_j) (local_el A i j))
           M)
      (fm_zero matrix_)
  else Ok matrix_.

(** scalapack.cc:256-266, the fill of the half that is not stored. *)
Definition copy_to_FullMatrix_fill (A : ScaLAPACKMatrix) (matrix_ : FullMatrix)
  : Result FullMatrix :=
  match property A with
  | lower_triangular =>
      for_loopM 0 (fm_n matrix_)
        (fun i M =>
           for_loopM (i + 1) (fm_m M)
             (fun j M' =>
                fm_set M' i j
                  (if State_eqb (state A) inverse_matrix then fm_el M' j i else of_int 0))
             M)
        matrix_
  | upper_triangular =>
      for_loopM 0 (fm_n matrix_)
        (fun i M =>
           for_loopM 0 i
             (fun j M' =>
                fm_set M' i j
                  (if State_eqb (state A) inverse_matrix then fm_el M' j i else of_int 0))
             M)
        matrix_
  | _ => Ok matrix_
  end.

(** scalapack.cc:230-267, [copy_to (FullMatrix &)] as all processes run it:
    the local scatter, the sum over the communicator, the fill. *)
Definition copy_to_FullMatrix (thisw : World ScaLAPACKMatrix) (matrixw : World FullMatrix)
  : Result (World FullMatrix) :=
  locals <- mapM (fun AM => copy_to_FullMatrix_local (fst AM) (snd AM))
              (combine thisw matrixw) ;;
  mapM (fun AL => copy_to_FullMatrix_fill (fst AL) (MPI_sum locals (snd AL)))
    (combine thisw locals).

(** ** Collective kernels *)

(** What one process passes to a kernel for one distributed operand: the
    local buffer (empty for a null pointer), the descriptor, and the grid
    information the kernel obtains from the descriptor's context. *)
Record Operand : Type := {
  op_values : list Number;
  op_desc : list Z;
  op_nprow : Z;
  op_npcol : Z;
  op_myrow : Z;
  op_mycol : Z
}.

Definition op_participates (o : Operand) : bool :=
  negb (desc_at CTXT_ (op_desc o) =? -1).

(** Entry [(gi, gj)] (0-based) of a distributed operand: the layout is the
    one any participating process describes, the value is read from the
    buffer of the process that owns the entry. *)
Definition operand_el (Aw : World Operand) (gi gj : Z) : Number :=
  match find op_participates Aw with
  | None => of_int 0
  | Some o0 =>
      let d := op_desc o0 in
      let pr := indxg2p_ (gi + 1) (desc_at MB_ d) 0 (desc_at RSRC_ d) (op_nprow o0) in
      let pc := indxg2p_ (gj + 1) (desc_at NB_ d) 0 (desc_at CSRC_ d) (op_npcol o0) in
      match find (fun o => op_participates o
                           && (op_myrow o =? pr) && (op_mycol o =? pc)) Aw with
      | None => of_int 0
      | Some o =>
          let li := indxg2l_ (gi + 1) (desc_at MB_ d) 0 0 (op_nprow o0) - 1 in
          let lj := indxg2l_ (gj + 1) (desc_at NB_ d) 0 0 (op_npcol o0) - 1 in
          nth (Z.to_nat (lj * desc_at LLD_ (op_desc o) + li)) (op_values o) (of_int 0)
      end
  end.

(** Global (0-based) row and column of position [k] of a local buffer. *)
Definition operand_global_row (o : Operand) (k : Z) : Z :=
  let d := op_desc o in
  indxl2g_ (k mod desc_at LLD_ d + 1) (desc_at MB_ d) (op_myrow o)
    (desc_at RSRC_ d) (op_nprow o) - 1.

Definition operand_global_column (o : Operand) (k : Z) : Z :=
  let d := op_desc o in
  indxl2g_ (k / desc_at LLD_ d + 1) (desc_at NB_ d) (op_mycol o)
    (desc_at CSRC_ d) (op_npcol o) - 1.

(** Modelled from the spec: [pgemr2d], the vendor redistribution kernel.  It
    copies the [m] x [n] block of A that starts at (ia, ja) onto the block
    of B that starts at (ib, jb) (1-based), whatever the two layouts are;
    a process whose descriptor carries the sentinel [-1] in the context slot
    holds no piece of B and is skipped.  The result is the local buffer of B
    on the calling process. *)
Definition pgemr2d (m n : Z) (Aw : World Operand) (ia ja : Z)
  (B : Operand) (ib jb : Z) : list Number :=
  if op_participates B then
    map (fun k =>
           let gi := operand_global_row B k in
           let gj := operand_global_column B k in
           if (ib - 1 <=? gi) && (gi <? ib - 1 + m) && (jb - 1 <=? gj) && (gj <? jb - 1 + n)
           then operand_el Aw (gi - (ib - 1) + (ia - 1)) (gj - (jb - 1) + (ja - 1))
           else nth (Z.to_nat k) (op_values B) (of_int 0))
      (zrange 0 (Z.of_nat (List.length (op_values B))))
  else op_values B.

(** Modelled from the spec: [pgeadd], the PBLAS routine that, in the words
    of scalapack.cc:180-184, "computes the sum of two matrices
    B:=a*A+b*B": sub(C) := beta * sub(C) + alpha * op(sub(A)), with op the
    transpose for [trans = 'T'].  The result is the local buffer of C on the
    calling process. *)
Definition pgeadd (trans : ascii) (m n : Z) (alpha : Number) (Aw : World Operand)
  (ia ja : Z) (beta : Number) (C : Operand) (ic jc : Z) : list Number :=
  map (fun k =>
         let gi := operand_global_row C k in
         let gj := operand_global_column C k in
         let c := nth (Z.to_nat k) (op_values C) (of_int 0) in
         if (ic - 1 <=? gi) && (gi <? ic - 1 + m) && (jc - 1 <=? gj) && (gj <? jc - 1 + n)
         then
           let i := gi - (ic - 1) in
           let j := gj - (jc - 1) in
           let a := if Ascii.eqb trans "T"%char
                    then operand_el Aw (j + (ia - 1)) (i + (ja - 1))
                    else operand_el Aw (i + (ia - 1)) (j + (ja - 1)) in
           plus (times beta c) (times alpha a)
         else c)
    (zrange 0 (Z.of_nat (List.length (op_values C)))).

(** [Cblacs_gridinfo] on the context of a matrix's grid. *)
Definition Cblacs_gridinfo (g : ProcessGrid) : Z * Z * Z * Z :=
  (n_process_rows g, n_process_columns g, this_process_row g, this_process_column g).

Definition make_Operand (loc_vals : list Number) (desc : list Z) (g : ProcessGrid)
  : Operand :=
  {| op_values := loc_vals; op_desc := desc;
     op_nprow := n_process_rows g; op_npcol := n_process_columns g;
     op_myrow := this_process_row g; op_mycol := this_process_column g |}.

(** ** Copying *)

(** scalapack.cc:312-364: the buffer and the descriptor one process hands to
    [pgemr2d] for a matrix in the sub-block copy.  A process outside the
    matrix's context sets only slot 1 of its descriptor, to [-1]. *)
Definition submatrix_operand (A : ScaLAPACKMatrix) : Operand :=
  let '(n_grid_rows, n_grid_columns, my_row, my_column) := Cblacs_gridinfo (grid A) in
  let in_context :=
    ((0 <=? my_row) && (my_row <? n_grid_rows))
    && ((0 <=? my_column) && (my_column <? n_grid_columns)) in
  if in_context
  then make_Operand (values A) (descriptor A) (grid A)
  else make_Operand [] [0; -1; 0; 0; 0; 0; 0; 0; 0] (grid A).

(** scalapack.cc:271-375, the copy of a rectangular sub-block.  [Aw] and
    [Bw] are the two matrices on all processes, [A] and [B] the objects of the
    calling process; the result is the new [B]. *)
Definition copy_to_submatrix (Aw Bw : World ScaLAPACKMatrix) (A B : ScaLAPACKMatrix)
  (offset_A offset_B submatrix_size : Z * Z) : Result ScaLAPACKMatrix :=
  (* submatrix is empty *)
  if (fst submatrix_size =? 0) || (snd submatrix_size =? 0) then Ok B
  else
    (* range checking for matrix A *)
    Assert (fst offset_A <? to_unsigned (n_rows A - fst submatrix_size + 1))
      (ExcIndexRange (to_signed (fst offset_A)) 0
         (to_signed (to_unsigned (n_rows A - fst submatrix_size + 1)))) ;;;
    Assert (snd offset_A <? to_unsigned (n_columns A - snd submatrix_size + 1))
      (ExcIndexRange (to_signed (snd offset_A)) 0
         (to_signed (to_unsigned (n_columns A - snd submatrix_size + 1)))) ;;;
    (* range checking for matrix B *)
    Assert (fst offset_B <? to_unsigned (n_rows B - fst submatrix_size + 1))
      (ExcIndexRange (to_signed (fst offset_B)) 0
         (to_signed (to_unsigned (n_rows B - fst submatrix_size + 1)))) ;;;
    Assert (snd offset_B <? to_unsigned (n_columns B - snd submatrix_size + 1))
      (ExcIndexRange (to_signed (snd offset_B)) 0
         (to_signed (to_unsigned (n_columns B - snd submatrix_size + 1)))) ;;;
    Assert (mpi_communicator (grid A) =? mpi_communicator (grid B))
      (ExcMessage "Matrix A and B must have a common MPI Communicator") ;;;
    let n_rows_submatrix := fst submatrix_size in
    let n_columns_submatrix := snd submatrix_size in
    let ia := fst offset_A + 1 in
    let ja := snd offset_A + 1 in
    let ib := fst offset_B + 1 in
    let jb := snd offset_B + 1 in
    let loc_vals_B :=
      pgemr2d n_rows_submatrix n_columns_submatrix
        (map submatrix_operand Aw) ia ja (submatrix_operand B) ib jb in
    let B' := if (0 <? Z.of_nat (List.length (values B))) && op_participates (submatrix_operand B)
              then set_values B loc_vals_B else B in
    Ok (set_state B' matrix).

(** scalapack.cc:435-450: what one process hands to [pgemr2d] in the copy of
    a whole matrix. *)
Definition whole_operand (A : ScaLAPACKMatrix) : Operand :=
  make_Operand
    (if mpi_process_is_active (grid A) && (0 <? Z.of_nat (List.length (values A)))
     then values A else [])
    (descriptor A) (grid A).

(** scalapack.cc:379-467, the copy of the whole matrix; the result is the
    new [dest] of the calling process. *)
Definition copy_to (thisw : World ScaLAPACKMatrix) (this dest : ScaLAPACKMatrix)
  : Result ScaLAPACKMatrix :=
  Assert (n_rows this =? n_rows dest) (ExcDimensionMismatch (n_rows this) (n_rows dest)) ;;;
  Assert (n_columns this =? n_columns dest)
    (ExcDimensionMismatch (n_columns this) (n_columns dest)) ;;;
  (if mpi_process_is_active (grid this)
   then AssertThrow (desc_at DTYPE_ (descriptor this) =? 1)
          (ExcMessage "Copying of ScaLAPACK matrices only implemented for dense matrices")
   else Ok tt) ;;;
  (if mpi_process_is_active (grid dest)
   then AssertThrow (desc_at DTYPE_ (descriptor dest) =? 1)
          (ExcMessage "Copying of ScaLAPACK matrices only implemented for dense matrices")
   else Ok tt) ;;;
  let dest' :=
    if negb (grid_address (grid this) =? grid_address (grid dest))
       || negb (row_block_size this =? row_block_size dest)
       || negb (column_block_size this =? column_block_size dest)
    then
      let loc_vals_dest :=
        pgemr2d (n_rows this) (n_columns this)
          (map whole_operand thisw) (submatrix_row this) (submatrix_column this)
          (whole_operand dest) (submatrix_row dest) (submatrix_column dest) in
      if mpi_process_is_active (grid dest) && (0 <? Z.of_nat (List.length (values dest)))
      then set_values dest loc_vals_dest else dest
    else
      (* process is active in the process grid *)
      if mpi_process_is_active (grid this) then set_values dest (values this) else dest in
  Ok (set_property (set_state dest' (state this)) (property this)).

(** ** Addition *)

(** scalapack.cc:479-512, [add (B, alpha, beta, transpose_B)]; [Bw] is B on
    all processes, the result is the new [*this] of the calling process. *)
Definition add (this : ScaLAPACKMatrix) (Bw : World ScaLAPACKMatrix) (B : ScaLAPACKMatrix)
  (alpha beta : Number) (transpose_B : bool) : Result ScaLAPACKMatrix :=
  (if transpose_B then
     Assert (n_rows this =? n_columns B) (ExcDimensionMismatch (n_rows this) (n_columns B)) ;;;
     Assert (n_columns this =? n_rows B) (ExcDimensionMismatch (n_columns this) (n_rows B)) ;;;
     Assert (column_block_size this =? row_block_size B)
       (ExcDimensionMismatch (column_block_size this) (row_block_size B)) ;;;
     Assert (row_block_size this =? column_block_size B)
       (ExcDimensionMismatch (row_block_size this) (column_block_size B))
   else
     Assert (n_rows this =? n_rows B) (ExcDimensionMismatch (n_rows this) (n_rows B)) ;;;
     Assert (n_columns this =? n_columns B)
       (ExcDimensionMismatch (n_columns this) (n_columns B)) ;;;
     Assert (column_block_size this =? column_block_size B)
       (ExcDimensionMismatch (column_block_size this) (column_block_size B)) ;;;
     Assert (row_block_size this =? row_block_size B)
       (ExcDimensionMismatch (row_block_size this) (row_block_size B))) ;;;
  Assert (grid_address (grid this) =? grid_address (grid B))
    (ExcMessage "The matrices A and B need to have the same process grid") ;;;
  let this' :=
    if mpi_process_is_active (grid this) then
      let trans_b := if transpose_B then "T"%char else "N"%char in
      let A_loc := values this in
      let B_operands := map (fun X => make_Operand (values X) (descriptor X) (grid X)) Bw in
      set_values this
        (pgeadd trans_b (n_rows this) (n_columns this)
           beta B_operands (submatrix_row B) (submatrix_column B)
           alpha (make_Operand A_loc (descriptor this) (grid this))
           (submatrix_row this) (submatrix_column this))
    else this in
  Ok (set_state this' matrix).

(** scalapack.cc:471-475 *)
Definition copy_transposed (this : ScaLAPACKMatrix) (Bw : World ScaLAPACKMatrix)
  (B : ScaLAPACKMatrix) : Result ScaLAPACKMatrix :=
  add this Bw B (of_int 0) (of_int 1) true.

(** ** Factorization and inversion

    The numerical kernels are external; each is a parameter that returns the
    new contents of the local buffer and the status [info]. *)

Section Factorization.

Variable ppotrf : ascii -> Z -> list Number -> Z -> Z -> list Z -> list Number * Z.
Variable ppotri : ascii -> Z -> list Number -> Z -> Z -> list Z -> list Number * Z.

(** scalapack.cc:658-674 *)
Definition compute_cholesky_factorization (this : ScaLAPACKMatrix)
  : Result ScaLAPACKMatrix :=
  Assert (n_columns this =? n_rows this)
    (ExcMessage "Cholesky factorization can be applied to SPD matrices only.") ;;;
  this1 <- (if mpi_process_is_active (grid this) then
              let '(A_loc, info) :=
                ppotrf (uplo this) (n_columns this) (values this)
                  (submatrix_row this) (submatrix_column this) (descriptor this) in
              AssertThrow (info =? 0) (ExcErrorCode "ppotrf" info) ;;;
              Ok (set_values this A_loc)
            else Ok this) ;;
  Ok (set_state
        (set_property this1
           (if Ascii.eqb (uplo this1) "L"%char then lower_triangular else upper_triangular))
        cholesky).

(** scalapack.cc:678-692 *)
Definition invert (this : ScaLAPACKMatrix) : Result ScaLAPACKMatrix :=
  this1 <- (if State_eqb (state this) matrix
            then compute_cholesky_factorization this
            else Ok this) ;;
  this2 <- (if mpi_process_is_active (grid this1) then
              let '(A_loc, info) :=
                ppotri (uplo this1) (n_columns this1) (values this1)
                  (submatrix_row this1) (submatrix_column this1) (descriptor this1) in
              AssertThrow (info =? 0) (ExcErrorCode "ppotri" info) ;;;
              Ok (set_values this1 A_loc)
            else Ok this1) ;;
  Ok (set_state this2 inverse_matrix).

End Factorization.

(** ** Symmetric eigenproblems *)

(** [std::vector::resize] *)
Definition resize {T : Type} (l : list T) (n : Z) (fill : T) : list T :=
  firstn (Z.to_nat n) l ++ repeat fill (Z.to_nat n - List.length l).

(** What [psyev] leaves in its output arguments. *)
Record psyev_out : Type := {
  psyev_A : list Number;
  psyev_w : list Number;
  psyev_Z : list Number;
  psyev_work : list Number;
  psyev_info : Z
}.

(** What [psyevx] leaves in its output arguments. *)
Record psyevx_out : Type := {
  psyevx_A : list Number;
  psyevx_m : Z;
  psyevx_nz : Z;
  psyevx_w : list Number;
  psyevx_Z : list Number;
  psyevx_work : list Number;
  psyevx_iwork : list Z;
  psyevx_ifail : list Z;
  psyevx_iclustr : list Z;
  psyevx_gap : list Number;
  psyevx_info : Z
}.

Section Eigenpairs.

(** [psyev (jobz, uplo, n, A, ia, ja, desca, w, Z, iz, jz, descz, work, lwork)];
    [Z] is [None] for a null pointer. *)
Variable psyev :
  ascii -> ascii -> Z -> list Number -> Z -> Z -> list Z -> list Number ->
  option (list Number) -> Z -> Z -> list Z -> list Number -> Z -> psyev_out.

(** [psyevx (jobz, range, uplo, n, A, ia, ja, desca, vl, vu, il, iu, abstol,
    m, nz, w, orfac, Z, iz, jz, descz, work, lwork, iwork, liwork, ifail,
    iclustr, gap)] *)
Variable psyevx :
  ascii -> ascii -> ascii -> Z -> list Number -> Z -> Z -> list Z ->
  Number -> Number -> Z -> Z -> Number -> Z -> Z -> list Number -> Number ->
  option (list Number) -> Z -> Z -> list Z ->
  list Number -> Z -> list Z -> Z -> list Z -> list Z -> list Number -> psyevx_out.

(** [plamch (context, cmach)] *)
Variable plamch : Z -> ascii -> Number.

(** scalapack.cc:759-882, the part run by an active process.  The result is
    the matrix with its new buffer and scratch arrays, the number [m] of
    eigenvalues found and the eigenvalues. *)
Definition eigenpairs_symmetric_active (this eigenvectors : ScaLAPACKMatrix)
  (compute_eigenvectors use_values use_indices : bool)
  (eigenvalue_idx : Z * Z) (eigenvalue_limits : Number * Number)
  (m : Z) (ev : list Number) : Result (ScaLAPACKMatrix * Z * list Number) :=
  let g := grid this in
  let jobz := if compute_eigenvectors then "V"%char else "N"%char in
  let nz := 0 in
  let orfac := of_int 0 in
  let ifail := @nil Z in
  let iclustr := @nil Z in
  let gap := repeat (of_int 0) (Z.to_nat (n_local_rows this * n_local_columns this)) in
  let '(range, all_eigenpairs, vl, vu, il, iu) :=
    if negb use_indices then
      if negb use_values then ("A"%char, true, of_int 0, of_int 0, 1, 1)
      else ("V"%char, false,
            std_min less (fst eigenvalue_limits) (snd eigenvalue_limits),
            std_max less (fst eigenvalue_limits) (snd eigenvalue_limits), 1, 1)
    else ("I"%char, false, of_int 0, of_int 0,
          to_signed (to_unsigned (std_min Z.ltb (fst eigenvalue_idx) (snd eigenvalue_idx) + 1)),
          to_signed (to_unsigned (std_max Z.ltb (fst eigenvalue_idx) (snd eigenvalue_idx) + 1))) in
  let A_loc := values this in
  let lwork := -1 in
  let liwork := -1 in
  let eigenvectors_loc := if compute_eigenvectors then Some (values eigenvectors) else None in
  let work1 := resize (work this) 1 (of_int 0) in
  let iwork1 := resize (iwork this) 1 0 in
  r <- (if all_eigenpairs then
          let q := psyev jobz (uplo this) (n_rows this) A_loc
                     (submatrix_row this) (submatrix_column this) (descriptor this) ev
                     eigenvectors_loc (submatrix_row eigenvectors)
                     (submatrix_column eigenvectors) (descriptor eigenvectors)
                     work1 lwork in
          AssertThrow (psyev_info q =? 0) (ExcErrorCode "psyev" (psyev_info q)) ;;;
          let lwork := to_int (nth 0 (psyev_work q) (of_int 0)) in
          let work2 := resize (psyev_work q) lwork (of_int 0) in
          let c := psyev jobz (uplo this) (n_rows this) (psyev_A q)
                     (submatrix_row this) (submatrix_column this) (descriptor this)
                     (psyev_w q)
                     (if compute_eigenvectors then Some (psyev_Z q) else None)
                     (submatrix_row eigenvectors)
                     (submatrix_column eigenvectors) (descriptor eigenvectors)
                     work2 lwork in
          AssertThrow (psyev_info c =? 0) (ExcErrorCode "psyev" (psyev_info c)) ;;;
          Ok (psyev_A c, psyev_Z c, psyev_w c, psyev_work c, iwork1, m)
        else
          let cmach := if compute_eigenvectors then "U"%char else "S"%char in
          let abstol := times (plamch (blacs_context g) cmach) (of_int 2) in
          let ifail := resize ifail (n_rows this) 0 in
          let iclustr := resize iclustr (2 * n_process_rows g * n_process_columns g) 0 in
          let gap := resize gap (n_process_rows g * n_process_columns g) (of_int 0) in
          let q := psyevx jobz range (uplo this) (n_rows this) A_loc
                     (submatrix_row this) (submatrix_column this) (descriptor this)
                     vl vu il iu abstol m nz ev orfac
                     eigenvectors_loc (submatrix_row eigenvectors)
                     (submatrix_column eigenvectors) (descriptor eigenvectors)
                     work1 lwork iwork1 liwork ifail iclustr gap in
          AssertThrow (psyevx_info q =? 0) (ExcErrorCode "psyevx" (psyevx_info q)) ;;;
          let lwork := to_int (nth 0 (psyevx_work q) (of_int 0)) in
          let work2 := resize (psyevx_work q) lwork (of_int 0) in
          let liwork := nth 0 (psyevx_iwork q) 0 in
          AssertThrow (0 <? liwork) ExcInternalError ;;;
          let iwork2 := resize (psyevx_iwork q) liwork 0 in
          let c := psyevx jobz range (uplo this) (n_rows this) (psyevx_A q)
                     (submatrix_row this) (submatrix_column this) (descriptor this)
                     vl vu il iu abstol (psyevx_m q) (psyevx_nz q) (psyevx_w q) orfac
                     (if compute_eigenvectors then Some (psyevx_Z q) else None)
                     (submatrix_row eigenvectors)
                     (submatrix_column eigenvectors) (descriptor eigenvectors)
                     work2 lwork iwork2 liwork
                     (psyevx_ifail q) (psyevx_iclustr q) (psyevx_gap q) in
          AssertThrow (psyevx_info c =? 0) (ExcErrorCode "psyevx" (psyevx_info c)) ;;;
          Ok (psyevx_A c, psyevx_Z c, psyevx_w c, psyevx_work c, psyevx_iwork c,
              psyevx_m c)) ;;
  let '(A_out, Z_out, ev_out, work_out, iwork_out, m_out) := r in
  (* if eigenvectors are queried, swap the local arrays *)
  let values_out := if compute_eigenvectors then Z_out else A_out in
  (* adapt the size of ev to fit m upon return *)
  let ev_final := if m_out <? Z.of_nat (List.length ev_out)
                  then firstn (Z.to_nat m_out) ev_out else ev_out in
  Ok (set_work (set_values this values_out) work_out iwork_out, m_out, ev_final).

(** scalapack.cc:730-911.  [m_of_all] and [ev_of_all] are what the processes
    of the job pass to the two [send_to_inactive] calls (each with its grid);
    the result is the vector of eigenvalues and the new [*this]. *)
Definition eigenpairs_symmetric (this : ScaLAPACKMatrix)
  (m_of_all : World (ProcessGrid * Z)) (ev_of_all : World (ProcessGrid * list Number))
  (compute_eigenvectors : bool)
  (eigenvalue_idx : Z * Z) (eigenvalue_limits : Number * Number)
  : Result (list Number * ScaLAPACKMatrix) :=
  Assert (State_eqb (state this) matrix)
    (ExcMessage "Matrix has to be in Matrix state before calling this function.") ;;;
  Assert (Property_eqb (property this) symmetric)
    (ExcMessage "Matrix has to be symmetric for this operation.") ;;;
  let use_values :=
    if is_nan (fst eigenvalue_limits) || is_nan (snd eigenvalue_limits)
    then false else true in
  let use_indices :=
    if (fst eigenvalue_idx =? invalid_unsigned_int)
       || (snd eigenvalue_idx =? invalid_unsigned_int)
    then false else true in
  Assert (negb (use_values && use_indices))
    (ExcMessage "Prescribing both the index and value range for the eigenvalues is ambiguous") ;;;
  (* if eigenvectors are not required use a sufficiently small distributed matrix *)
  eigenvectors0 <-
    (if compute_eigenvectors
     then ScaLAPACKMatrix_ctor_square (n_rows this) (grid this) (row_block_size this) general
     else ScaLAPACKMatrix_ctor (n_process_rows (grid this)) (n_process_columns (grid this))
            (grid this) 1 1 general) ;;
  let eigenvectors := set_property eigenvectors0 (property this) in
  let m := n_rows this in
  let ev := repeat (of_int 0) (Z.to_nat (n_rows this)) in
  r <- (if mpi_process_is_active (grid this)
        then eigenpairs_symmetric_active this eigenvectors compute_eigenvectors
               use_values use_indices eigenvalue_idx eigenvalue_limits m ev
        else Ok (this, m, ev)) ;;
  let '(this1, m1, ev1) := r in
  (* send number of computed eigenvalues to inactive processes *)
  let m2 := send_to_inactive m_of_all (grid this) m1 in
  (* inactive processes have to resize array of eigenvalues *)
  let ev2 := if negb (mpi_process_is_active (grid this))
             then resize ev1 m2 (of_int 0) else ev1 in
  let ev3 := send_to_inactive ev_of_all (grid this) ev2 in
  if compute_eigenvectors
  then Ok (ev3, set_state (set_property this1 general) eigenvalues)
  else Ok (ev3, set_state this1 unusable).

(** scalapack.cc:696-712.  The two calls pass the default arguments of the
    declaration: no index range is [(invalid_unsigned_int,
    invalid_unsigned_int)], no value range is a pair of quiet NaNs. *)
Definition eigenpairs_symmetric_by_index (this : ScaLAPACKMatrix)
  (m_of_all : World (ProcessGrid * Z)) (ev_of_all : World (ProcessGrid * list Number))
  (index_limits : Z * Z) (compute_eigenvectors : bool)
  : Result (list Number * ScaLAPACKMatrix) :=
  Assert (fst index_limits <? to_unsigned (n_rows this))
    (ExcIndexRange (to_signed (fst index_limits)) 0 (n_rows this)) ;;;
  Assert (snd index_limits <? to_unsigned (n_rows this))
    (ExcIndexRange (to_signed (snd index_limits)) 0 (n_rows this)) ;;;
  let idx := (std_min Z.ltb (fst index_limits) (snd index_limits),
              std_max Z.ltb (fst index_limits) (snd index_limits)) in
  (* compute all eigenvalues/eigenvectors *)
  if (fst idx =? 0) && (snd idx =? to_unsigned (to_unsigned (n_rows this) - 1))
  then eigenpairs_symmetric this m_of_all ev_of_all compute_eigenvectors
         (invalid_unsigned_int, invalid_unsigned_int) (quiet_NaN, quiet_NaN)
  else eigenpairs_symmetric this m_of_all ev_of_all compute_eigenvectors
         idx (quiet_NaN, quiet_NaN).

(** scalapack.cc:716-726 *)
Definition eigenpairs_symmetric_by_value (this : ScaLAPACKMatrix)
  (m_of_all : World (ProcessGrid * Z)) (ev_of_all : World (ProcessGrid * list Number))
  (value_limits : Number * Number) (compute_eigenvectors : bool)
  : Result (list Number * ScaLAPACKMatrix) :=
  Assert (negb (is_nan (fst value_limits))) (ExcMessage "value_limits.first is NaN") ;;;
  Assert (negb (is_nan (snd value_limits))) (ExcMessage "value_limits.second is NaN") ;;;
  let indices := (invalid_unsigned_int, invalid_unsigned_int) in
  eigenpairs_symmetric this m_of_all ev_of_all compute_eigenvectors indices value_limits.

(** ** The kernel calls of [eigenpairs_symmetric]

    What an active process passes to the kernels at scalapack.cc:830-871:
    first a workspace query with [lwork = -1] (and [liwork = -1]), then the
    computing call on what the query left in the arrays, with the workspace
    sizes the query returned.  [psyev] is called when neither selector is
    supplied, [psyevx] otherwise. *)

Definition use_values (eigenvalue_limits : Number * Number) : bool :=
  if is_nan (fst eigenvalue_limits) || is_nan (snd eigenvalue_limits)
  then false else true.

Definition use_indices (eigenvalue_idx : Z * Z) : bool :=
  if (fst eigenvalue_idx =? invalid_unsigned_int)
     || (snd eigenvalue_idx =? invalid_unsigned_int)
  then false else true.










End Eigenpairs.

(** ** Checkpoint files

    Modelled from the spec: the HDF5 library.  A checkpoint file holds one
    2-D dataset "/matrix" (its element class, its dimensions, its chunk
    dimensions and, in row-major order, its elements) and two 1-element
    enumeration datasets "/state" and "/property", each stored as the
    enumeration type of the file (names with values) and the value written.
    Reading an enumeration converts by name from the file's type to the
    type in memory.  All calls whose status the sources check succeed, apart
    from the failures written out below. *)

Definition H5T_enum : Type := list (string * Z).

Record HDF5File : Type := {
  h5_matrix_class : Z;
  h5_matrix_dims : Z * Z;
  h5_matrix_chunk : Z * Z;
  h5_matrix : list Number;
  h5_state : option (H5T_enum * Z);
  h5_property : option (H5T_enum * Z)
}.

Definition H5Tenum_nameof (ty : H5T_enum) (value : Z) : option string :=
  option_map fst (find (fun nv => snd nv =? value) ty).

Definition H5Tenum_valueof (ty : H5T_enum) (name : string) : option Z :=
  option_map snd (find (fun nv => String.eqb (fst nv) name) ty).

(** [H5Dread] of a 1-element enumeration dataset with memory type [mem]. *)
Definition H5Dread_enum (dataset : option (H5T_enum * Z)) (mem : H5T_enum) : option Z :=
  match dataset with
  | None => None
  | Some (file_type, value) =>
      match H5Tenum_nameof file_type value with
      | None => None
      | Some name => H5Tenum_valueof mem name
      end
  end.

(** [H5Dread] of a whole dataset into a buffer. *)
Definition H5Dread_all (data buffer : list Number) : list Number :=
  firstn (List.length buffer) data ++ skipn (List.length data) buffer.

(** Position in the row-major dataset of element [k] of a hyperslab with
    the given offset and count (no stride, no block). *)
Definition hyperslab_position (dims offset count : Z * Z) (k : Z) : Z :=
  (fst offset + k / snd count) * snd dims + (snd offset + k mod snd count).

(** [H5Dwrite] of a memory buffer onto a hyperslab of the dataset. *)
Definition H5Dwrite_hyperslab (data : list Number) (dims offset count : Z * Z)
  (buffer : list Number) : list Number :=
  map (fun p =>
         let r := p / snd dims in
         let c := p mod snd dims in
         if (fst offset <=? r) && (r <? fst offset + fst count)
            && (snd offset <=? c) && (c <? snd offset + snd count)
         then nth (Z.to_nat ((r - fst offset) * snd count + (c - snd offset))) buffer (of_int 0)
         else nth (Z.to_nat p) data (of_int 0))
    (zrange 0 (Z.of_nat (List.length data))).

(** [H5Dread] of a hyperslab of the dataset into a memory buffer. *)
Definition H5Dread_hyperslab (data : list Number) (dims offset count : Z * Z)
  (buffer : list Number) : list Number :=
  map (fun k =>
         if k <? fst count * snd count
         then nth (Z.to_nat (hyperslab_position dims offset count k)) data (of_int 0)
         else nth (Z.to_nat k) buffer (of_int 0))
    (zrange 0 (Z.of_nat (List.length buffer))).

(** scalapack.cc:1199-1228 *)
Definition create_HDF5_state_enum_id : H5T_enum :=
  [("cholesky"%string, State_to_int cholesky);
   ("eigenvalues"%string, State_to_int eigenvalues);
   ("inverse_matrix"%string, State_to_int inverse_matrix);
   ("inverse_svd"%string, State_to_int inverse_svd);
   ("lu"%string, State_to_int lu);
   ("matrix"%string, State_to_int matrix);
   ("svd"%string, State_to_int svd);
   ("unusable"%string, State_to_int unusable)].

(** scalapack.cc:1230-1252 *)
Definition create_HDF5_property_enum_id : H5T_enum :=
  [("diagonal"%string, Property_to_int diagonal);
   ("general"%string, Property_to_int general);
   ("hessenberg"%string, Property_to_int hessenberg);
   ("lower_triangular"%string, Property_to_int lower_triangular);
   ("symmetric"%string, Property_to_int symmetric);
   ("upper_triangular"%string, Property_to_int upper_triangular)].

(** The enumeration value that [H5Dread] stored in a [State] or [Property]
    member; a value that is no enumerator cannot be held by the model. *)
Definition State_from_memory (v : Z) : Result State :=
  match State_of_int v with
  | Some s => Ok s
  | None => Throw ExcInternalError
  end.

Definition Property_from_memory (v : Z) : Result Property :=
  match Property_of_int v with
  | Some p => Ok p
  | None => Throw ExcInternalError
  end.

(** scalapack.cc:1269-1278, the chunk size [save] passes on. *)
Definition save_chunk_size (this : ScaLAPACKMatrix) (chunk_size : Z * Z)
  : Result (Z * Z) :=
  let chunks_size_ :=
    if (fst chunk_size =? invalid_unsigned_int) || (snd chunk_size =? invalid_unsigned_int)
    then (to_unsigned (n_rows this), 1)
    else chunk_size in
  Assert ((fst chunks_size_ <=? to_unsigned (n_rows this)) && (0 <? fst chunks_size_))
    (ExcIndexRange (to_signed (fst chunks_size_)) 1 (n_rows this + 1)) ;;;
  Assert ((snd chunks_size_ <=? to_unsigned (n_columns this)) && (0 <? snd chunks_size_))
    (ExcIndexRange (to_signed (snd chunks_size_)) 1 (n_columns this + 1)) ;;;
  Ok chunks_size_.

(** The state and property datasets, as lines 1354-1383 and 1544-1573 write
    them. *)
Definition write_state_and_property (this : ScaLAPACKMatrix) (f : HDF5File) : HDF5File :=
  {| h5_matrix_class := h5_matrix_class f;
     h5_matrix_dims := h5_matrix_dims f;
     h5_matrix_chunk := h5_matrix_chunk f;
     h5_matrix := h5_matrix f;
     h5_state := Some (create_HDF5_state_enum_id, State_to_int (state this));
     h5_property := Some (create_HDF5_property_enum_id, Property_to_int (property this)) |}.

(** scalapack.cc:1311-1314: the 1x1 grid and the matrix that gathers the
    contents.  [address] and [context] are the address and the BLACS context
    of the new grid object. *)
Definition save_serial_tmp (this : ScaLAPACKMatrix) (address context : Z)
  : Result ScaLAPACKMatrix :=
  let column_grid :=
    make_ProcessGrid address (mpi_communicator (grid this)) (n_mpi_processes (grid this))
      (this_mpi_process (grid this)) context 1 1 in
  let MB := n_rows this in
  let NB := n_columns this in
  ScaLAPACKMatrix_ctor (n_rows this) (n_columns this) column_grid MB NB general.

(** scalapack.cc:1317-1414: the process of the 1x1 grid writes the file. *)
Definition save_serial_write (this tmp : ScaLAPACKMatrix) (chunk_size : Z * Z)
  (file : option HDF5File) : option HDF5File :=
  if mpi_process_is_active (grid tmp) then
    (* create a new file, truncating an existing one *)
    let chunk_dims := (snd chunk_size, fst chunk_size) in
    let dims := (n_columns this, n_rows this) in
    Some (write_state_and_property this
            {| h5_matrix_class := hdf5_type_class;
               h5_matrix_dims := dims;
               h5_matrix_chunk := chunk_dims;
               h5_matrix := firstn (Z.to_nat (fst dims * snd dims)) (values tmp);
               h5_state := None;
               h5_property := None |})
  else file.

(** scalapack.cc:1294-1416, [save_serial] as all processes run it: [thisw]
    are the matrices, [chunks] the chunk sizes [save] computed, [file] is
    what the file name held before. *)
Definition save_serial (thisw : World ScaLAPACKMatrix) (chunks : World (Z * Z))
  (address context : Z) (file : option HDF5File) : Result (option HDF5File) :=
  tmpw <- mapM (fun this => save_serial_tmp this address context) thisw ;;
  tmpw' <- mapM (fun tt => copy_to thisw (fst tt) (snd tt)) (combine thisw tmpw) ;;
  Ok (fold_left (fun f ttc => save_serial_write (fst (fst ttc)) (snd (fst ttc)) (snd ttc) f)
        (combine (combine thisw tmpw') chunks) file).

(** scalapack.cc:1430-1441: the 1 x P grid and the matrix on it.  The block
    size is the quotient of an [int] by an [unsigned int], an unsigned
    division, handed to [std::ceil]. *)
Definition parallel_tmp (this : ScaLAPACKMatrix) (address context : Z)
  : Result ScaLAPACKMatrix :=
  let n_mpi_processes_ := to_unsigned (n_mpi_processes (grid this)) in
  let column_grid :=
    make_ProcessGrid address (mpi_communicator (grid this)) (n_mpi_processes (grid this))
      (this_mpi_process (grid this)) context 1 n_mpi_processes_ in
  let MB := n_rows this in
  let NB := to_signed (to_unsigned (n_columns this) / n_mpi_processes_) in
  ScaLAPACKMatrix_ctor (n_rows this) (n_columns this) column_grid MB NB general.

(** The offset of a process's hyperslab: the local columns of the processes
    of lower rank (lines 1487-1503 and 1834-1849). *)
Definition hyperslab_offset (proc_n_local_columns : list Z) (my_rank : Z) : Z * Z :=
  (for_loop 0 my_rank (fun i acc => acc + nth (Z.to_nat i) proc_n_local_columns 0) 0, 0).

(** scalapack.cc:1420-1592, [save_parallel] as all processes run it. *)
Definition save_parallel (thisw : World ScaLAPACKMatrix) (chunks : World (Z * Z))
  (address context : Z) (file : option HDF5File) : Result (option HDF5File) :=
  tmpw <- mapM (fun this => parallel_tmp this address context) thisw ;;
  tmpw' <- mapM (fun tt => copy_to thisw (fst tt) (snd tt)) (combine thisw tmpw) ;;
  match combine tmpw' chunks with
  | [] => Ok file
  | (tmp0, chunk0) :: _ =>
      (* the file and the dataset are created collectively *)
      let dims := (n_columns tmp0, n_rows tmp0) in
      let created :=
        {| h5_matrix_class := hdf5_type_class;
           h5_matrix_dims := dims;
           h5_matrix_chunk := (snd chunk0, fst chunk0);
           h5_matrix := repeat (of_int 0) (Z.to_nat (fst dims * snd dims));
           h5_state := None;
           h5_property := None |} in
      (* gather the number of local columns from all processes *)
      let proc_n_local_columns := map n_local_columns tmpw' in
      (* every process with data writes its hyperslab *)
      let data :=
        fold_left
          (fun d tmp =>
             let my_rank := this_mpi_process (grid tmp) in
             let count := (n_local_columns tmp, n_rows tmp) in
             let offset := hyperslab_offset proc_n_local_columns my_rank in
             if 0 <? Z.of_nat (List.length (values tmp))
             then H5Dwrite_hyperslab d dims offset count (values tmp)
             else d)
          tmpw' (h5_matrix created) in
      let written :=
        {| h5_matrix_class := h5_matrix_class created;
           h5_matrix_dims := h5_matrix_dims created;
           h5_matrix_chunk := h5_matrix_chunk created;
           h5_matrix := data;
           h5_state := None;
           h5_property := None |} in
      (* only root process will write state and property to the file *)
      Ok (Some (fold_left
                  (fun f tt =>
                     if this_mpi_process (grid (snd tt)) =? 0
                     then write_state_and_property (fst tt) f else f)
                  (combine thisw tmpw') written))
  end.

(** scalapack.cc:1259-1290; [H5_HAVE_PARALLEL] tells whether the HDF5
    library was built with parallel I/O. *)
Definition save (H5_HAVE_PARALLEL : bool) (thisw : World ScaLAPACKMatrix)
  (chunk_size : Z * Z) (address context : Z) (file : option HDF5File)
  : Result (option HDF5File) :=
  chunks <- mapM (fun this => save_chunk_size this chunk_size) thisw ;;
  if H5_HAVE_PARALLEL
  then save_parallel thisw chunks address context file
  else save_serial thisw chunks address context file.

(** scalapack.cc:1629-1632 *)
Definition load_serial_tmp (this : ScaLAPACKMatrix) (address context : Z)
  : Result ScaLAPACKMatrix :=
  let one_grid :=
    make_ProcessGrid address (mpi_communicator (grid this)) (n_mpi_processes (grid this))
      (this_mpi_process (grid this)) context 1 1 in
  let MB := n_rows this in
  let NB := n_columns this in
  ScaLAPACKMatrix_ctor (n_rows this) (n_columns this) one_grid MB NB general.

(** The reads of "/state" and "/property" (lines 1676-1723, 1862-1901). *)
Definition read_state_and_property (f : HDF5File) : Result (State * Property) :=
  AssertThrow (match h5_state f with Some _ => true | None => false end) ExcIO ;;;
  AssertThrow (match h5_property f with Some _ => true | None => false end) ExcIO ;;;
  s <- match H5Dread_enum (h5_state f) create_HDF5_state_enum_id with
       | Some v => State_from_memory v
       | None => Throw ExcIO
       end ;;
  p <- match H5Dread_enum (h5_property f) create_HDF5_property_enum_id with
       | Some v => Property_from_memory v
       | None => Throw ExcIO
       end ;;
  Ok (s, p).

(** scalapack.cc:1634-1752: the process of the 1x1 grid reads the file.  The
    result is the new [tmp] with [state_int] and [property_int]. *)
Definition load_serial_read (this tmp : ScaLAPACKMatrix) (file : option HDF5File)
  : Result (ScaLAPACKMatrix * Z * Z) :=
  let state_int := -1 in
  let property_int := -1 in
  if mpi_process_is_active (grid tmp) then
    match file with
    | None => Throw ExcIO
    | Some f =>
        AssertThrow (h5_matrix_class f =? hdf5_type_class)
          (ExcMessage "The data type of the matrix to be read does not match the archive") ;;;
        AssertThrow (to_signed (fst (h5_matrix_dims f)) =? n_columns this)
          (ExcMessage "The number of columns of the matrix does not match the content of the archive") ;;;
        AssertThrow (to_signed (snd (h5_matrix_dims f)) =? n_rows this)
          (ExcMessage "The number of rows of the matrix does not match the content of the archive") ;;;
        let tmp1 := set_values tmp (H5Dread_all (h5_matrix f) (values tmp)) in
        sp <- read_state_and_property f ;;
        let tmp2 := set_property (set_state tmp1 (fst sp)) (snd sp) in
        Ok (tmp2, State_to_int (state tmp2), Property_to_int (property tmp2))
    end
  else Ok (tmp, state_int, property_int).

(** scalapack.cc:1753-1759: the broadcast of the two integers and the casts
    back. *)
Definition load_serial_broadcast (readw : World (ScaLAPACKMatrix * Z * Z))
  (mine : ScaLAPACKMatrix * Z * Z) : Result ScaLAPACKMatrix :=
  let '(tmp, state_int, property_int) := mine in
  let state_int' :=
    send_to_inactive (map (fun r => (grid (fst (fst r)), snd (fst r))) readw)
      (grid tmp) state_int in
  let property_int' :=
    send_to_inactive (map (fun r => (grid (fst (fst r)), snd r)) readw)
      (grid tmp) property_int in
  s <- State_from_memory state_int' ;;
  p <- Property_from_memory property_int' ;;
  Ok (set_property (set_state tmp s) p).

(** scalapack.cc:1616-1764, [load_serial] as all processes run it, with
    what every process does.  Up to the broadcast a process works by itself:
    it builds [tmp] and, when it is the process of the 1x1 grid, reads the
    file; a failed check of the file throws on that process only, and the
    others wait in [send_to_inactive].  After the broadcast come the casts
    back, and then [copy_to], which is collective again. *)
Definition load_serial (thisw : World ScaLAPACKMatrix) (address context : Z)
  (file : option HDF5File) : World (Outcome ScaLAPACKMatrix) :=
  then_collective
    (map (fun this => tmp <- load_serial_tmp this address context ;;
                      load_serial_read this tmp file) thisw)
    (fun readw =>
       then_collective (map (load_serial_broadcast readw) readw)
         (fun tmpw' =>
            then_collective
              (map (fun tt => copy_to tmpw' (snd tt) (fst tt)) (combine thisw tmpw'))
              (map Returns))).

(** scalapack.cc:1791-1925: what one process reads in [load_parallel]. *)
Definition load_parallel_read (this tmp : ScaLAPACKMatrix)
  (proc_n_local_columns : list Z) (file : option HDF5File) : Result ScaLAPACKMatrix :=
  match file with
  | None => Throw ExcIO
  | Some f =>
      AssertThrow (h5_matrix_class f =? hdf5_type_class)
        (ExcMessage "The data type of the matrix to be read does not match the archive") ;;;
      let dims := h5_matrix_dims f in
      AssertThrow (to_signed (fst dims) =? n_columns this)
        (ExcMessage "The number of columns of the matrix does not match the content of the archive") ;;;
      AssertThrow (to_signed (snd dims) =? n_rows this)
        (ExcMessage "The number of rows of the matrix does not match the content of the archive") ;;;
      let my_rank := this_mpi_process (grid tmp) in
      let count := (n_local_columns tmp, n_local_rows tmp) in
      let offset := hyperslab_offset proc_n_local_columns my_rank in
      let tmp1 :=
        set_values tmp (H5Dread_hyperslab (h5_matrix f) dims offset count (values tmp)) in
      sp <- read_state_and_property f ;;
      Ok (set_property (set_state tmp1 (fst sp)) (snd sp))
  end.

(** scalapack.cc:1768-1932, [load_parallel] as all processes run it. *)
Definition load_parallel (thisw : World ScaLAPACKMatrix) (address context : Z)
  (file : option HDF5File) : Result (World ScaLAPACKMatrix) :=
  tmpw <- mapM (fun this => parallel_tmp this address context) thisw ;;
  let proc_n_local_columns := map n_local_columns tmpw in
  tmpw' <- mapM (fun tt => load_parallel_read (fst tt) (snd tt) proc_n_local_columns file)
             (combine thisw tmpw) ;;
  mapM (fun tt => copy_to tmpw' (snd tt) (fst tt)) (combine thisw tmpw').

(** scalapack.cc:1596-1612, as the job sees it. *)
Definition load (H5_HAVE_PARALLEL : bool) (thisw : World ScaLAPACKMatrix)
  (address context : Z) (file : option HDF5File) : Result (World ScaLAPACKMatrix) :=
  if H5_HAVE_PARALLEL
  then load_parallel thisw address context file
  else job_result (load_serial thisw address context file).

(** * The rest of the class *)

(** ** Assignment from a replicated dense matrix *)

(** [l[k] = v] for a [std::vector]; the index is in range wherever the
    sources write (outside, the list is left as it is). *)
Fixpoint list_set {T : Type} (l : list T) (k : nat) (v : T) : list T :=
  match l, k with
  | [], _ => []
  | _ :: l', O => v :: l'
  | x :: l', S k' => x :: list_set l' k' v
  end.

(** [local_el (i, j) = v]: the element of the column-major local table. *)
Definition set_local_el (A : ScaLAPACKMatrix) (loc_row loc_column : Z) (v : Number)
  : ScaLAPACKMatrix :=
  set_values A
    (list_set (values A) (Z.to_nat (loc_column * table_n_rows A + loc_row)) v).

(** scalapack.cc:176-202, [operator = (const FullMatrix &)]. *)
Definition assign_FullMatrix (this : ScaLAPACKMatrix) (matrix_ : FullMatrix)
  : Result ScaLAPACKMatrix :=
  Assert (n_rows this =? fm_m matrix_) (ExcDimensionMismatch (n_rows this) (fm_m matrix_)) ;;;
  Assert (n_columns this =? fm_n matrix_)
    (ExcDimensionMismatch (n_columns this) (fm_n matrix_)) ;;;
  this1 <-
    (if mpi_process_is_active (grid this) then
       for_loopM 0 (n_local_rows this)
         (fun i A =>
            glob_i <- global_row A i ;;
            for_loopM 0 (n_local_columns A)
              (fun j A' =>
                 glob_j <- global_column A' j ;;
                 Ok (set_local_el A' i j
                       (fm_el matrix_ (to_signed glob_i) (to_signed glob_j))))
              A)
         this
     else Ok this) ;;
  Ok (set_state this1 matrix).

(** ** Addition of a multiple *)

(** scalapack.cc:516-521, [add (a, B)]. *)
Definition add_scaled (this : ScaLAPACKMatrix) (a : Number)
  (Bw : World ScaLAPACKMatrix) (B : ScaLAPACKMatrix) : Result ScaLAPACKMatrix :=
  add this Bw B (of_int 1) a false.

(** scalapack.cc:525-530, [Tadd (a, B)]. *)
Definition Tadd (this : ScaLAPACKMatrix) (a : Number)
  (Bw : World ScaLAPACKMatrix) (B : ScaLAPACKMatrix) : Result ScaLAPACKMatrix :=
  add this Bw B (of_int 1) a true.

(** ** Multiplication *)

(** Modelled from the spec: [pgemm], the PBLAS routine behind [mult], in the
    spec's words C := alpha op(A) op(B) + beta C: sub(C), [m] x [n], becomes
    [alpha * sum_l op(sub(A))(i,l) * op(sub(B))(l,j) + beta * sub(C)(i,j)],
    the sum over [l] in [0, k), with op the transpose for a flag ['T'].  The
    result is the local buffer of C on the calling process. *)
Definition pgemm (transa transb : ascii) (m n k : Z) (alpha : Number)
  (Aw : World Operand) (ia ja : Z) (Bw : World Operand) (ib jb : Z)
  (beta : Number) (C : Operand) (ic jc : Z) : list Number :=
  map (fun q =>
         let gi := operand_global_row C q in
         let gj := operand_global_column C q in
         let c := nth (Z.to_nat q) (op_values C) (of_int 0) in
         if (ic - 1 <=? gi) && (gi <? ic - 1 + m) && (jc - 1 <=? gj) && (gj <? jc - 1 + n)
         then
           let i := gi - (ic - 1) in
           let j := gj - (jc - 1) in
           let a l := if Ascii.eqb transa "T"%char
                      then operand_el Aw (l + (ia - 1)) (i + (ja - 1))
                      else operand_el Aw (i + (ia - 1)) (l + (ja - 1)) in
           let b l := if Ascii.eqb transb "T"%char
                      then operand_el Bw (j + (ib - 1)) (l + (jb - 1))
                      else operand_el Bw (l + (ib - 1)) (j + (jb - 1)) in
           let s := for_loop 0 k (fun l acc => plus acc (times (a l) (b l))) (of_int 0) in
           plus (times alpha s) (times beta c)
         else c)
    (zrange 0 (Z.of_nat (List.length (op_values C)))).

(** scalapack.cc:534-602, [mult (b, B, c, C, transpose_A, transpose_B)];
    [thisw] and [Bw] are A and B on all processes, the result is the new [C]
    of the calling process.  The arguments of the exceptions are those the
    source passes. *)
Definition mult (thisw : World ScaLAPACKMatrix) (this : ScaLAPACKMatrix) (b : Number)
  (Bw : World ScaLAPACKMatrix) (B : ScaLAPACKMatrix) (c : Number) (C : ScaLAPACKMatrix)
  (transpose_A transpose_B : bool) : Result ScaLAPACKMatrix :=
  Assert (grid_address (grid this) =? grid_address (grid B))
    (ExcMessage "The matrices A and B need to have the same process grid") ;;;
  Assert (grid_address (grid C) =? grid_address (grid B))
    (ExcMessage "The matrices B and C need to have the same process grid") ;;;
  (if negb transpose_A && negb transpose_B then
     Assert (n_columns this =? n_rows B) (ExcDimensionMismatch (n_columns this) (n_rows B)) ;;;
     Assert (n_rows this =? n_rows C) (ExcDimensionMismatch (n_rows this) (n_rows C)) ;;;
     Assert (n_columns B =? n_columns C) (ExcDimensionMismatch (n_columns B) (n_columns C)) ;;;
     Assert (row_block_size this =? row_block_size C)
       (ExcDimensionMismatch (row_block_size this) (row_block_size C)) ;;;
     Assert (column_block_size this =? row_block_size B)
       (ExcDimensionMismatch (column_block_size this) (row_block_size B)) ;;;
     Assert (column_block_size B =? column_block_size C)
       (ExcDimensionMismatch (column_block_size B) (column_block_size C))
   else if transpose_A && negb transpose_B then
     Assert (n_rows this =? n_rows B) (ExcDimensionMismatch (n_rows this) (n_rows B)) ;;;
     Assert (n_columns this =? n_rows C) (ExcDimensionMismatch (n_columns this) (n_rows C)) ;;;
     Assert (n_columns B =? n_columns C) (ExcDimensionMismatch (n_columns B) (n_columns C)) ;;;
     Assert (column_block_size this =? row_block_size C)
       (ExcDimensionMismatch (column_block_size this) (row_block_size C)) ;;;
     Assert (row_block_size this =? row_block_size B)
       (ExcDimensionMismatch (row_block_size this) (row_block_size B)) ;;;
     Assert (column_block_size B =? column_block_size C)
       (ExcDimensionMismatch (column_block_size B) (column_block_size C))
   else if negb transpose_A && transpose_B then
     Assert (n_columns this =? n_columns B)
       (ExcDimensionMismatch (n_columns this) (n_columns B)) ;;;
     Assert (n_rows this =? n_rows C) (ExcDimensionMismatch (n_rows this) (n_rows C)) ;;;
     Assert (n_rows B =? n_columns C) (ExcDimensionMismatch (n_rows B) (n_columns C)) ;;;
     Assert (row_block_size this =? row_block_size C)
       (ExcDimensionMismatch (row_block_size this) (row_block_size C)) ;;;
     Assert (column_block_size this =? column_block_size B)
       (ExcDimensionMismatch (column_block_size this) (column_block_size B)) ;;;
     Assert (row_block_size B =? column_block_size C)
       (ExcDimensionMismatch (row_block_size B) (column_block_size C))
   else
     Assert (n_rows this =? n_columns B) (ExcDimensionMismatch (n_rows this) (n_columns B)) ;;;
     Assert (n_columns this =? n_rows C) (ExcDimensionMismatch (n_columns this) (n_rows C)) ;;;
     Assert (n_rows B =? n_columns C) (ExcDimensionMismatch (n_rows B) (n_columns C)) ;;;
     Assert (column_block_size this =? row_block_size C)
       (ExcDimensionMismatch (row_block_size this) (row_block_size C)) ;;;
     Assert (row_block_size this =? column_block_size B)
       (ExcDimensionMismatch (column_block_size this) (row_block_size B)) ;;;
     Assert (row_block_size B =? column_block_size C)
       (ExcDimensionMismatch (column_block_size B) (column_block_size C))) ;;;
  let C' :=
    if mpi_process_is_active (grid this) then
      let trans_a := if transpose_A then "T"%char else "N"%char in
      let trans_b := if transpose_B then "T"%char else "N"%char in
      let m := n_rows C in
      let n := n_columns C in
      let k := if transpose_A then n_rows this else n_columns this in
      set_values C
        (pgemm trans_a trans_b m n k
           b (map (fun X => make_Operand (values X) (descriptor X) (grid X)) thisw)
           (submatrix_row this) (submatrix_column this)
           (map (fun X => make_Operand (values X) (descriptor X) (grid X)) Bw)
           (submatrix_row B) (submatrix_column B)
           c (make_Operand (values C) (descriptor C) (grid C))
           (submatrix_row C) (submatrix_column C))
    else C in
  Ok (set_state C' matrix).

(** scalapack.cc:606-615 *)
Definition mmult (thisw : World ScaLAPACKMatrix) (this C : ScaLAPACKMatrix)
  (Bw : World ScaLAPACKMatrix) (B : ScaLAPACKMatrix) (adding : bool)
  : Result ScaLAPACKMatrix :=
  if adding
  then mult thisw this (of_int 1) Bw B (of_int 1) C false false
  else mult thisw this (of_int 1) Bw B (of_int 0) C false false.

(** scalapack.cc:619-628 *)
Definition Tmmult (thisw : World ScaLAPACKMatrix) (this C : ScaLAPACKMatrix)
  (Bw : World ScaLAPACKMatrix) (B : ScaLAPACKMatrix) (adding : bool)
  : Result ScaLAPACKMatrix :=
  if adding
  then mult thisw this (of_int 1) Bw B (of_int 1) C true false
  else mult thisw this (of_int 1) Bw B (of_int 0) C true false.

(** scalapack.cc:632-641 *)
Definition mTmult (thisw : World ScaLAPACKMatrix) (this C : ScaLAPACKMatrix)
  (Bw : World ScaLAPACKMatrix) (B : ScaLAPACKMatrix) (adding : bool)
  : Result ScaLAPACKMatrix :=
  if adding
  then mult thisw this (of_int 1) Bw B (of_int 1) C false true
  else mult thisw this (of_int 1) Bw B (of_int 0) C false true.

(** scalapack.cc:645-654 *)
Definition TmTmult (thisw : World ScaLAPACKMatrix) (this C : ScaLAPACKMatrix)
  (Bw : World ScaLAPACKMatrix) (B : ScaLAPACKMatrix) (adding : bool)
  : Result ScaLAPACKMatrix :=
  if adding
  then mult thisw this (of_int 1) Bw B (of_int 1) C true true
  else mult thisw this (of_int 1) Bw B (of_int 0) C true true.

(** ** Scaling of rows and columns *)

(** scalapack.cc:1941-1954, [internal::scale_columns]; [factors] is the array
    the view shows.  [matrix.n ()], [matrix.local_m ()] and
    [matrix.local_n ()] are [n_columns], [n_local_rows] and
    [n_local_columns], as unsigned numbers. *)
Definition internal_scale_columns (matrix_ : ScaLAPACKMatrix) (factors : list Number)
  : Result ScaLAPACKMatrix :=
  Assert (to_unsigned (n_columns matrix_) =? Z.of_nat (List.length factors))
    (ExcDimensionMismatch (to_unsigned (n_columns matrix_)) (Z.of_nat (List.length factors))) ;;;
  for_loopM 0 (to_unsigned (n_local_columns matrix_))
    (fun i M =>
       gc <- global_column M i ;;
       let s := nth (Z.to_nat gc) factors (of_int 0) in
       Ok (for_loop 0 (to_unsigned (n_local_rows M))
             (fun j M' => set_local_el M' j i (times (local_el M' j i) s))
             M))
    matrix_.

(** scalapack.cc:1956-1969, [internal::scale_rows]. *)
Definition internal_scale_rows (matrix_ : ScaLAPACKMatrix) (factors : list Number)
  : Result ScaLAPACKMatrix :=
  Assert (to_unsigned (n_rows matrix_) =? Z.of_nat (List.length factors))
    (ExcDimensionMismatch (to_unsigned (n_rows matrix_)) (Z.of_nat (List.length factors))) ;;;
  for_loopM 0 (to_unsigned (n_local_rows matrix_))
    (fun i M =>
       gr <- global_row M i ;;
       let s := nth (Z.to_nat gr) factors (of_int 0) in
       Ok (for_loop 0 (to_unsigned (n_local_columns M))
             (fun j M' => set_local_el M' i j (times (local_el M' i j) s))
             M))
    matrix_.

(** scalapack.cc:1976-1982 *)
Definition scale_columns (this : ScaLAPACKMatrix) (factors : list Number)
  : Result ScaLAPACKMatrix :=
  if mpi_process_is_active (grid this)
  then internal_scale_columns this factors
  else Ok this.

(** scalapack.cc:1986-1992 *)
Definition scale_rows (this : ScaLAPACKMatrix) (factors : list Number)
  : Result ScaLAPACKMatrix :=
  if mpi_process_is_active (grid this)
  then internal_scale_rows this factors
  else Ok this.

(** ** Singular values, least squares, condition number and norms

    The kernels are external; each is a parameter that returns what the
    routine leaves in its output arguments. *)

(** What [pgesvd] leaves in its output arguments. *)
Record pgesvd_out : Type := {
  pgesvd_A : list Number;
  pgesvd_s : list Number;
  pgesvd_U : list Number;
  pgesvd_VT : list Number;
  pgesvd_work : list Number;
  pgesvd_info : Z
}.

(** What [pgels] leaves in its output arguments. *)
Record pgels_out : Type := {
  pgels_A : list Number;
  pgels_B : list Number;
  pgels_work : list Number;
  pgels_info : Z
}.

(** What [ppocon] leaves in its output arguments. *)
Record ppocon_out : Type := {
  ppocon_rcond : Number;
  ppocon_work : list Number;
  ppocon_iwork : list Z;
  ppocon_info : Z
}.

(** What a matrix that may be absent hands to [pgesvd]: the local buffer,
    the sub-matrix position and the descriptor, [None] for a null pointer. *)
Definition optional_operand (U : option ScaLAPACKMatrix)
  : option (list Number * Z * Z * list Z) :=
  option_map (fun X => (values X, submatrix_row X, submatrix_column X, descriptor X)) U.

Section Decompositions.

(** [pgesvd (jobu, jobvt, m, n, A, ia, ja, desca, s, U, VT, work, lwork)] *)
Variable pgesvd :
  ascii -> ascii -> Z -> Z -> list Number -> Z -> Z -> list Z -> list Number ->
  option (list Number * Z * Z * list Z) -> option (list Number * Z * Z * list Z) ->
  list Number -> Z -> pgesvd_out.

(** [pgels (trans, m, n, nrhs, A, ia, ja, desca, B, ib, jb, descb, work, lwork)] *)
Variable pgels :
  ascii -> Z -> Z -> Z -> list Number -> Z -> Z -> list Z ->
  list Number -> Z -> Z -> list Z -> list Number -> Z -> pgels_out.

(** [ppocon (uplo, n, A, ia, ja, desca, anorm, rcond, work, lwork, iwork, liwork)] *)
Variable ppocon :
  ascii -> Z -> list Number -> Z -> Z -> list Z -> Number -> Number ->
  list Number -> Z -> list Z -> Z -> ppocon_out.

(** [plange (norm, m, n, A, ia, ja, desca, work)] *)
Variable plange : ascii -> Z -> Z -> list Number -> Z -> Z -> list Z -> list Number -> Number.

(** [plansy (norm, uplo, n, A, ia, ja, desca, work)] *)
Variable plansy :
  ascii -> ascii -> Z -> list Number -> Z -> Z -> list Z -> list Number -> Number.

(** The ScaLAPACK tools [ilcm_] and [iceil_], and [std::ceil] followed by the
    conversion to [int]. *)
Variable ilcm_ : Z -> Z -> Z.
Variable iceil_ : Z -> Z -> Z.
Variable ceil_to_int : Number -> Z.

(** scalapack.cc:926-941: the checks [compute_SVD] makes on a matrix of
    singular vectors; [n] is the dimension it has to have. *)
Definition check_singular_vectors (this : ScaLAPACKMatrix) (n : Z)
  (U : option ScaLAPACKMatrix) : Result unit :=
  match U with
  | None => Ok tt
  | Some U_ =>
      Assert (n =? n_rows U_) (ExcDimensionMismatch n (n_rows U_)) ;;;
      Assert (n_rows U_ =? n_columns U_) (ExcDimensionMismatch (n_rows U_) (n_columns U_)) ;;;
      Assert (row_block_size this =? row_block_size U_)
        (ExcDimensionMismatch (row_block_size this) (row_block_size U_)) ;;;
      Assert (column_block_size this =? column_block_size U_)
        (ExcDimensionMismatch (column_block_size this) (column_block_size U_)) ;;;
      Assert (blacs_context (grid this) =? blacs_context (grid U_))
        (ExcDimensionMismatch (blacs_context (grid this)) (blacs_context (grid U_)))
  end.

(** scalapack.cc:915-985, [compute_SVD (U, VT)].  [sv_of_all] is what the
    processes of the job pass to [send_to_inactive]; the result is the vector
    of singular values and the new [*this], [*U] and [*VT]. *)
Definition compute_SVD (this : ScaLAPACKMatrix)
  (sv_of_all : World (ProcessGrid * list Number))
  (U VT : option ScaLAPACKMatrix)
  : Result (list Number * ScaLAPACKMatrix * option ScaLAPACKMatrix
            * option ScaLAPACKMatrix) :=
  Assert (State_eqb (state this) matrix)
    (ExcMessage "Matrix has to be in Matrix state before calling this function.") ;;;
  Assert (row_block_size this =? column_block_size this)
    (ExcDimensionMismatch (row_block_size this) (column_block_size this)) ;;;
  let left_singluar_vectors := match U with Some _ => true | None => false end in
  let right_singluar_vectors := match VT with Some _ => true | None => false end in
  check_singular_vectors this (n_rows this) U ;;;
  check_singular_vectors this (n_columns this) VT ;;;
  let sv := repeat (of_int 0) (Z.to_nat (Z.min (n_rows this) (n_columns this))) in
  r <- (if mpi_process_is_active (grid this) then
          let jobu := if left_singluar_vectors then "V"%char else "N"%char in
          let jobvt := if right_singluar_vectors then "V"%char else "N"%char in
          let lwork := -1 in
          let work1 := resize (work this) 1 (of_int 0) in
          let q := pgesvd jobu jobvt (n_rows this) (n_columns this) (values this)
                     (submatrix_row this) (submatrix_column this) (descriptor this)
                     sv (optional_operand U) (optional_operand VT) work1 lwork in
          AssertThrow (pgesvd_info q =? 0) (ExcErrorCode "pgesvd" (pgesvd_info q)) ;;;
          let lwork := to_int (nth 0 (pgesvd_work q) (of_int 0)) in
          let work2 := resize (pgesvd_work q) lwork (of_int 0) in
          let U1 := option_map (fun X => set_values X (pgesvd_U q)) U in
          let VT1 := option_map (fun X => set_values X (pgesvd_VT q)) VT in
          let c := pgesvd jobu jobvt (n_rows this) (n_columns this) (pgesvd_A q)
                     (submatrix_row this) (submatrix_column this) (descriptor this)
                     (pgesvd_s q) (optional_operand U1) (optional_operand VT1)
                     work2 lwork in
          AssertThrow (pgesvd_info c =? 0) (ExcErrorCode "pgesvd" (pgesvd_info c)) ;;;
          Ok (pgesvd_s c,
              set_work (set_values this (pgesvd_A c)) (pgesvd_work c) (iwork this),
              option_map (fun X => set_values X (pgesvd_U c)) U,
              option_map (fun X => set_values X (pgesvd_VT c)) VT)
        else Ok (sv, this, U, VT)) ;;
  let '(sv1, this1, U', VT') := r in
  (* send the singular values to processors not being part of the process grid *)
  let sv2 := send_to_inactive sv_of_all (grid this) sv1 in
  Ok (sv2, set_state (set_property this1 general) unusable, U', VT').

(** scalapack.cc:989-1039, [least_squares (B, transpose)]; the result is the
    new [*this] and the new [B]. *)
Definition least_squares (this B : ScaLAPACKMatrix) (transpose : bool)
  : Result (ScaLAPACKMatrix * ScaLAPACKMatrix) :=
  Assert (grid_address (grid this) =? grid_address (grid B))
    (ExcMessage "The matrices A and B need to have the same process grid") ;;;
  Assert (State_eqb (state this) matrix)
    (ExcMessage "Matrix has to be in Matrix state before calling this function.") ;;;
  Assert (State_eqb (state B) matrix)
    (ExcMessage "Matrix B has to be in Matrix state before calling this function.") ;;;
  (if transpose
   then Assert (n_columns this =? n_rows B) (ExcDimensionMismatch (n_columns this) (n_rows B))
   else Assert (n_rows this =? n_rows B) (ExcDimensionMismatch (n_rows this) (n_rows B))) ;;;
  Assert (row_block_size this =? column_block_size this)
    (ExcMessage "Use identical block sizes for rows and columns of matrix A") ;;;
  Assert (row_block_size B =? column_block_size B)
    (ExcMessage "Use identical block sizes for rows and columns of matrix B") ;;;
  Assert (row_block_size this =? row_block_size B)
    (ExcMessage "Use identical block-cyclic distribution for matrices A and B") ;;;
  r <- (if mpi_process_is_active (grid this) then
          let trans := if transpose then "T"%char else "N"%char in
          let lwork := -1 in
          let work1 := resize (work this) 1 (of_int 0) in
          let q := pgels trans (n_rows this) (n_columns this) (n_columns B) (values this)
                     (submatrix_row this) (submatrix_column this) (descriptor this)
                     (values B) (submatrix_row B) (submatrix_column B) (descriptor B)
                     work1 lwork in
          AssertThrow (pgels_info q =? 0) (ExcErrorCode "pgels" (pgels_info q)) ;;;
          let lwork := to_int (nth 0 (pgels_work q) (of_int 0)) in
          let work2 := resize (pgels_work q) lwork (of_int 0) in
          let c := pgels trans (n_rows this) (n_columns this) (n_columns B) (pgels_A q)
                     (submatrix_row this) (submatrix_column this) (descriptor this)
                     (pgels_B q) (submatrix_row B) (submatrix_column B) (descriptor B)
                     work2 lwork in
          AssertThrow (pgels_info c =? 0) (ExcErrorCode "pgels" (pgels_info c)) ;;;
          Ok (set_work (set_values this (pgels_A c)) (pgels_work c) (iwork this),
              set_values B (pgels_B c))
        else Ok (this, B)) ;;
  Ok (set_state (fst r) unusable, snd r).

(** scalapack.cc:1043-1075, [reciprocal_condition_number (a_norm)].  The
    function is [const]; the scratch arrays it resizes are [mutable], so the
    result is the number and [*this] with its new scratch arrays.
    [rcond_of_all] is what the processes pass to [send_to_inactive]. *)
Definition reciprocal_condition_number (this : ScaLAPACKMatrix)
  (rcond_of_all : World (ProcessGrid * Number)) (a_norm : Number)
  : Result (Number * ScaLAPACKMatrix) :=
  Assert (State_eqb (state this) cholesky)
    (ExcMessage "Matrix has to be in Cholesky state before calling this function.") ;;;
  let rcond := of_int 0 in
  r <- (if mpi_process_is_active (grid this) then
          let liwork := n_local_rows this in
          let iwork1 := resize (iwork this) liwork 0 in
          let lwork := -1 in
          let work1 := resize (work this) 1 (of_int 0) in
          let q := ppocon (uplo this) (n_columns this) (values this)
                     (submatrix_row this) (submatrix_column this) (descriptor this)
                     a_norm rcond work1 lwork iwork1 liwork in
          AssertThrow (ppocon_info q =? 0) (ExcErrorCode "pdpocon" (ppocon_info q)) ;;;
          let lwork := ceil_to_int (nth 0 (ppocon_work q) (of_int 0)) in
          let work2 := resize (ppocon_work q) lwork (of_int 0) in
          (* now the actual run *)
          let c := ppocon (uplo this) (n_columns this) (values this)
                     (submatrix_row this) (submatrix_column this) (descriptor this)
                     a_norm (ppocon_rcond q) work2 lwork (ppocon_iwork q) liwork in
          AssertThrow (ppocon_info c =? 0) (ExcErrorCode "pdpocon" (ppocon_info c)) ;;;
          Ok (ppocon_rcond c, set_work this (ppocon_work c) (ppocon_iwork c))
        else Ok (rcond, this)) ;;
  Ok (send_to_inactive rcond_of_all (grid this) (fst r), snd r).

(** scalapack.cc:1118-1149, [norm_general (type)]; [const] with [mutable]
    scratch, as above. *)
Definition norm_general (this : ScaLAPACKMatrix)
  (res_of_all : World (ProcessGrid * Number)) (type : ascii)
  : Result (Number * ScaLAPACKMatrix) :=
  Assert (State_eqb (state this) matrix || State_eqb (state this) inverse_matrix)
    (ExcMessage "norms can be called in matrix state only.") ;;;
  let res := of_int 0 in
  let r :=
    if mpi_process_is_active (grid this) then
      let iarow := indxg2p_ (submatrix_row this) (row_block_size this)
                     (this_process_row (grid this)) (first_process_row this)
                     (n_process_rows (grid this)) in
      let iacol := indxg2p_ (submatrix_column this) (column_block_size this)
                     (this_process_column (grid this)) (first_process_column this)
                     (n_process_columns (grid this)) in
      let mp0 := numroc_ (n_rows this) (row_block_size this)
                   (this_process_row (grid this)) iarow (n_process_rows (grid this)) in
      let nq0 := numroc_ (n_columns this) (column_block_size this)
                   (this_process_column (grid this)) iacol
                   (n_process_columns (grid this)) in
      let lwork :=
        if Ascii.eqb type "O"%char || Ascii.eqb type "1"%char then nq0
        else if Ascii.eqb type "I"%char then mp0
        else 0 in
      let work1 := resize (work this) lwork (of_int 0) in
      (plange type (n_rows this) (n_columns this) (values this)
         (submatrix_row this) (submatrix_column this) (descriptor this) work1,
       set_work this work1 (iwork this))
    else (res, this) in
  Ok (send_to_inactive res_of_all (grid this) (fst r), snd r).

(** scalapack.cc:1153-1190, [norm_symmetric (type)]. *)
Definition norm_symmetric (this : ScaLAPACKMatrix)
  (res_of_all : World (ProcessGrid * Number)) (type : ascii)
  : Result (Number * ScaLAPACKMatrix) :=
  Assert (State_eqb (state this) matrix || State_eqb (state this) inverse_matrix)
    (ExcMessage "norms can be called in matrix state only.") ;;;
  Assert (Property_eqb (property this) symmetric)
    (ExcMessage "Matrix has to be symmetric for this operation.") ;;;
  let res := of_int 0 in
  let r :=
    if mpi_process_is_active (grid this) then
      let lcm := ilcm_ (n_process_rows (grid this)) (n_process_columns (grid this)) in
      let v2 := lcm / n_process_rows (grid this) in
      let IAROW := indxg2p_ (submatrix_row this) (row_block_size this)
                     (this_process_row (grid this)) (first_process_row this)
                     (n_process_rows (grid this)) in
      let IACOL := indxg2p_ (submatrix_column this) (column_block_size this)
                     (this_process_column (grid this)) (first_process_column this)
                     (n_process_columns (grid this)) in
      let Np0 := numroc_ (n_columns this) (row_block_size this)
                   (this_process_row (grid this)) IAROW (n_process_rows (grid this)) in
      let Nq0 := numroc_ (n_columns this) (column_block_size this)
                   (this_process_column (grid this)) IACOL
                   (n_process_columns (grid this)) in
      let v1 := iceil_ Np0 (row_block_size this) in
      let ldw := if n_local_rows this =? n_local_columns this
                 then 0
                 else row_block_size this * iceil_ v1 v2 in
      let lwork :=
        if Ascii.eqb type "M"%char || Ascii.eqb type "F"%char || Ascii.eqb type "E"%char
        then 0
        else 2 * Nq0 + Np0 + ldw in
      let work1 := resize (work this) lwork (of_int 0) in
      (plansy type (uplo this) (n_columns this) (values this)
         (submatrix_row this) (submatrix_column this) (descriptor this) work1,
       set_work this work1 (iwork this))
    else (res, this) in
  Ok (send_to_inactive res_of_all (grid this) (fst r), snd r).

(** scalapack.cc:1079-1088 *)
Definition l1_norm (this : ScaLAPACKMatrix) (res_of_all : World (ProcessGrid * Number))
  : Result (Number * ScaLAPACKMatrix) :=
  let type := "O"%char in
  if Property_eqb (property this) symmetric
  then norm_symmetric this res_of_all type
  else norm_general this res_of_all type.

(** scalapack.cc:1092-1101 *)
Definition linfty_norm (this : ScaLAPACKMatrix) (res_of_all : World (ProcessGrid * Number))
  : Result (Number * ScaLAPACKMatrix) :=
  let type := "I"%char in
  if Property_eqb (property this) symmetric
  then norm_symmetric this res_of_all type
  else norm_general this res_of_all type.

(** scalapack.cc:1105-1114 *)
Definition frobenius_norm (this : ScaLAPACKMatrix)
  (res_of_all : World (ProcessGrid * Number)) : Result (Number * ScaLAPACKMatrix) :=
  let type := "F"%char in
  if Property_eqb (property this) symmetric
  then norm_symmetric this res_of_all type
  else norm_general this res_of_all type.

End Decompositions.

(** * Vocabulary of the properties

    The definitions below belong to the statements, not to the program:
    the objects the constructor builds, layouts of distributed matrices and
    their entries, and what the collective operations leave behind. *)

(** ** The objects the constructor builds *)

(** The object the constructor builds on an active process. *)
Definition constructed_active (n_rows_ n_columns_ : Z) (g : ProcessGrid)
  (row_block_size_ column_block_size_ : Z) (property_ : Property) : ScaLAPACKMatrix :=
  let nlr := numroc_ n_rows_ row_block_size_ (this_process_row g) 0 (n_process_rows g) in
  let nlc := numroc_ n_columns_ column_block_size_ (this_process_column g) 0
               (n_process_columns g) in
  {| table_n_rows := nlr; table_n_cols := nlc;
     values := repeat (of_int 0) (Z.to_nat (nlr * nlc));
     state := matrix; property := property_; grid := g;
     n_rows := n_rows_; n_columns := n_columns_;
     row_block_size := row_block_size_; column_block_size := column_block_size_;
     n_local_rows := nlr; n_local_columns := nlc;
     descriptor := [1; blacs_context g; n_rows_; n_columns_; row_block_size_;
                    column_block_size_; 0; 0; Z.max 1 nlr];
     work := []; iwork := []; uplo := "L"%char;
     first_process_row := 0; first_process_column := 0;
     submatrix_row := 1; submatrix_column := 1 |}.

(** The object the constructor builds on an inactive process. *)
Definition constructed_inactive (n_rows_ n_columns_ : Z) (g : ProcessGrid)
  (row_block_size_ column_block_size_ : Z) (property_ : Property) : ScaLAPACKMatrix :=
  {| table_n_rows := 0; table_n_cols := 0; values := [];
     state := matrix; property := property_; grid := g;
     n_rows := n_rows_; n_columns := n_columns_;
     row_block_size := row_block_size_; column_block_size := column_block_size_;
     n_local_rows := -1; n_local_columns := -1;
     descriptor := repeat (-1) 9; work := []; iwork := []; uplo := "L"%char;
     first_process_row := 0; first_process_column := 0;
     submatrix_row := 1; submatrix_column := 1 |}.

(** ** The checks of the sub-block copy *)

(** What the assertions of the sub-block copy (scalapack.cc:283-298) ask of
    the offsets and of the two communicators. *)
Definition submatrix_in_range (A B : ScaLAPACKMatrix)
  (offset_A offset_B submatrix_size : Z * Z) : Prop :=
  fst offset_A < to_unsigned (n_rows A - fst submatrix_size + 1)
  /\ snd offset_A < to_unsigned (n_columns A - snd submatrix_size + 1)
  /\ fst offset_B < to_unsigned (n_rows B - fst submatrix_size + 1)
  /\ snd offset_B < to_unsigned (n_columns B - snd submatrix_size + 1)
  /\ mpi_communicator (grid A) = mpi_communicator (grid B).

(** ** The serial load where every process returns

    The steps of [load_serial] with the processes in sequence: what
    [load_serial] does when no process throws (lemma
    [load_serial_returns]). *)
Definition load_serial_returning (thisw : World ScaLAPACKMatrix) (address context : Z)
  (file : option HDF5File) : Result (World ScaLAPACKMatrix) :=
  tmpw <- mapM (fun this => load_serial_tmp this address context) thisw ;;
  readw <- mapM (fun tt => load_serial_read (fst tt) (snd tt) file) (combine thisw tmpw) ;;
  tmpw' <- mapM (load_serial_broadcast readw) readw ;;
  mapM (fun tt => copy_to tmpw' (snd tt) (fst tt)) (combine thisw tmpw').

(** ** The dense copy without the range checks

    The loops of [copy_to (FullMatrix &)] with the plain update [fm_put] in
    place of the checked [fm_set]: what the function computes when no index
    leaves the dense matrix.  The properties are proved of these loops and
    carried over to the function where the checks pass. *)
Definition copy_to_FullMatrix_local_unchecked (A : ScaLAPACKMatrix) (matrix_ : FullMatrix)
  : Result FullMatrix :=
  Assert (n_rows A =? fm_m matrix_) (ExcDimensionMismatch (n_rows A) (fm_m matrix_)) ;;;
  Assert (n_columns A =? fm_n matrix_) (ExcDimensionMismatch (n_columns A) (fm_n matrix_)) ;;;
  if mpi_process_is_active (grid A) then
    for_loopM 0 (n_local_rows A)
      (fun i M =>
         glob_i <- global_row A i ;;
         for_loopM 0 (n_local_columns A)
           (fun j M' =>
              glob_j <- global_column A j ;;
              Ok (fm_put M' (to_signed glob_i) (to_signed glob_j) (local_el A i j)))
           M)
      (fm_zero matrix_)
  else Ok matrix_.

(** The fill. *)
Definition copy_to_FullMatrix_fill_unchecked (A : ScaLAPACKMatrix) (matrix_ : FullMatrix)
  : FullMatrix :=
  match property A with
  | lower_triangular =>
      for_loop 0 (fm_n matrix_)
        (fun i M =>
           for_loop (i + 1) (fm_m M)
             (fun j M' =>
                fm_put M' i j
                  (if State_eqb (state A) inverse_matrix then fm_el M' j i else of_int 0))
             M)
        matrix_
  | upper_triangular =>
      for_loop 0 (fm_n matrix_)
        (fun i M =>
           for_loop 0 i
             (fun j M' =>
                fm_put M' i j
                  (if State_eqb (state A) inverse_matrix then fm_el M' j i else of_int 0))
             M)
        matrix_
  | _ => matrix_
  end.

(** The local scatter, the sum over the communicator and the fill. *)
Definition copy_to_FullMatrix_unchecked (thisw : World ScaLAPACKMatrix)
  (matrixw : World FullMatrix) : Result (World FullMatrix) :=
  locals <- mapM (fun AM => copy_to_FullMatrix_local_unchecked (fst AM) (snd AM))
              (combine thisw matrixw) ;;
  Ok (map (fun AL => copy_to_FullMatrix_fill_unchecked (fst AL) (MPI_sum locals (snd AL)))
        (combine thisw locals)).

(** ** The fill of a triangular matrix *)

(** The value the fill writes at [(i, j)]: the mirrored entry for an
    inverse, zero otherwise. *)
Definition fill_value (A : ScaLAPACKMatrix) (M : FullMatrix) (i j : Z) : Number :=
  if State_eqb (state A) inverse_matrix then fm_el M j i else of_int 0.

(** ** Distributed matrices

    A [Layout] names what all processes of a job agree on for one matrix:
    the shape, the block sizes, the grid (its dimensions, the communicator
    and its size, the address and the context of the grid object). *)

Record Layout : Type := {
  lay_m : Z;
  lay_n : Z;
  lay_mb : Z;
  lay_nb : Z;
  lay_R : Z;
  lay_C : Z;
  lay_P : Z;
  lay_comm : Z;
  lay_address : Z;
  lay_context : Z
}.

Definition Layout_valid (L : Layout) : Prop :=
  1 <= lay_mb L <= lay_m L /\ lay_m L < 2 ^ 31
  /\ 1 <= lay_nb L <= lay_n L /\ lay_n L < 2 ^ 31
  /\ 1 <= lay_R L /\ 1 <= lay_C L /\ lay_R L * lay_C L <= lay_P L
  /\ 0 <= lay_context L.

Definition layout_grid (L : Layout) (rank : Z) : ProcessGrid :=
  make_ProcessGrid (lay_address L) (lay_comm L) (lay_P L) rank (lay_context L)
    (lay_R L) (lay_C L).

(** The object with its buffer zeroed, its state reset and its scratch
    arrays emptied: what the constructor would have produced. *)
Definition as_constructed (A : ScaLAPACKMatrix) : ScaLAPACKMatrix :=
  set_work
    (set_state (set_values A (repeat (of_int 0) (List.length (values A)))) matrix)
    [] [].

(** [A] is the object of process [rank] for a matrix of layout [L]: it was
    built by the constructor, and since then only its buffer contents, state,
    property and scratch arrays have changed. *)
Definition in_layout (L : Layout) (rank : Z) (A : ScaLAPACKMatrix) : Prop :=
  ScaLAPACKMatrix_ctor (lay_m L) (lay_n L) (layout_grid L rank) (lay_mb L) (lay_nb L)
    (property A) = Ok (as_constructed A).

(** A matrix of layout [L] on all processes of the job, which agree on its
    state and property. *)
Definition distributed (L : Layout) (s : State) (p : Property)
  (Aw : World ScaLAPACKMatrix) : Prop :=
  Forall2 (fun rank A => in_layout L rank A /\ state A = s /\ property A = p)
    (zrange 0 (lay_P L)) Aw.

(** The fields of an object in a layout. *)
Record has_layout (L : Layout) (rank : Z) (A : ScaLAPACKMatrix) : Prop := {
  hl_grid : grid A = layout_grid L rank;
  hl_n_rows : n_rows A = lay_m L;
  hl_n_columns : n_columns A = lay_n L;
  hl_row_block_size : row_block_size A = lay_mb L;
  hl_column_block_size : column_block_size A = lay_nb L;
  hl_first_process_row : first_process_row A = 0;
  hl_first_process_column : first_process_column A = 0;
  hl_submatrix_row : submatrix_row A = 1;
  hl_submatrix_column : submatrix_column A = 1;
  hl_active :
    rank < lay_R L * lay_C L ->
    n_local_rows A = numroc_ (lay_m L) (lay_mb L) (rank mod lay_R L) 0 (lay_R L)
    /\ n_local_columns A = numroc_ (lay_n L) (lay_nb L) (rank / lay_R L) 0 (lay_C L)
    /\ table_n_rows A = n_local_rows A
    /\ descriptor A = [1; lay_context L; lay_m L; lay_n L; lay_mb L; lay_nb L; 0; 0;
                       Z.max 1 (n_local_rows A)]
    /\ List.length (values A) = Z.to_nat (n_local_rows A * n_local_columns A);
  hl_inactive :
    lay_R L * lay_C L <= rank ->
    descriptor A = repeat (-1) 9 /\ values A = []
}.

Definition ranked (L : Layout) (Aw : World ScaLAPACKMatrix) : Prop :=
  List.length Aw = Z.to_nat (lay_P L)
  /\ forall k A, nth_error Aw k = Some A -> has_layout L (Z.of_nat k) A.

(** Owner and local position of a global entry in a layout. *)
Definition owner_row (L : Layout) (gi : Z) : Z :=
  fst (owner_and_local gi (lay_mb L) (lay_R L) 0).

Definition local_row (L : Layout) (gi : Z) : Z :=
  snd (owner_and_local gi (lay_mb L) (lay_R L) 0).

Definition owner_column (L : Layout) (gj : Z) : Z :=
  fst (owner_and_local gj (lay_nb L) (lay_C L) 0).

Definition local_column (L : Layout) (gj : Z) : Z :=
  snd (owner_and_local gj (lay_nb L) (lay_C L) 0).

(** The rank of the process at grid position (owner row, owner column). *)
Definition owner_rank (L : Layout) (gi gj : Z) : Z :=
  owner_row L gi + owner_column L gj * lay_R L.

(** The entry [(gi, gj)] of a distributed matrix, read from its owner. *)
Definition layout_el (L : Layout) (Aw : World ScaLAPACKMatrix) (gi gj : Z) : Number :=
  match nth_error Aw (Z.to_nat (owner_rank L gi gj)) with
  | Some A => local_el A (local_row L gi) (local_column L gj)
  | None => of_int 0
  end.

(** Some active process holds [v] at the local position (a pair of unsigned
    indices) that [global_row] and [global_column] map to [(gi, gj)]. *)
Definition entry (Aw : World ScaLAPACKMatrix) (gi gj : Z) (v : Number) : Prop :=
  exists (r : nat) (A : ScaLAPACKMatrix) (li lj : Z),
    nth_error Aw r = Some A
    /\ mpi_process_is_active (grid A) = true
    /\ 0 <= li /\ 0 <= lj
    /\ global_row A li = Ok gi
    /\ global_column A lj = Ok gj
    /\ local_el A li lj = v.

(** ** What the collective operations read and leave behind *)

(** An operand built from a matrix object passes its descriptor and grid
    on, and the buffer of an active process. *)
Definition faithful_operand (opf : ScaLAPACKMatrix -> Operand) : Prop :=
  forall A,
    op_desc (opf A) = descriptor A
    /\ op_nprow (opf A) = n_process_rows (grid A)
    /\ op_npcol (opf A) = n_process_columns (grid A)
    /\ op_myrow (opf A) = this_process_row (grid A)
    /\ op_mycol (opf A) = this_process_column (grid A)
    /\ (mpi_process_is_active (grid A) = true -> op_values (opf A) = values A).

(** What [copy_to] leaves in the destination when it redistributes. *)
Definition redistributed (Aw : World ScaLAPACKMatrix) (A B : ScaLAPACKMatrix)
  : ScaLAPACKMatrix :=
  set_property
    (set_state
       (if mpi_process_is_active (grid B) && (0 <? Z.of_nat (List.length (values B)))
        then set_values B
               (pgemr2d (n_rows A) (n_columns A) (map whole_operand Aw)
                  (submatrix_row A) (submatrix_column A)
                  (whole_operand B) (submatrix_row B) (submatrix_column B))
        else B)
       (state A))
    (property A).

(** ** Checkpoints through one process *)

(** The layout of the matrix on the 1x1 grid that gathers a matrix of
    layout [L]; [address] and [context] belong to the new grid object. *)
Definition gather_layout (L : Layout) (address context : Z) : Layout :=
  {| lay_m := lay_m L; lay_n := lay_n L; lay_mb := lay_m L; lay_nb := lay_n L;
     lay_R := 1; lay_C := 1; lay_P := lay_P L; lay_comm := lay_comm L;
     lay_address := address; lay_context := context |}.

(** The chunk sizes [save] accepts: the default (an invalid component), or
    a chunk within the matrix. *)
Definition chunk_size_allowed (L : Layout) (chunk_size : Z * Z) : Prop :=
  fst chunk_size = invalid_unsigned_int \/ snd chunk_size = invalid_unsigned_int
  \/ (0 < fst chunk_size <= lay_m L /\ 0 < snd chunk_size <= lay_n L).

(** The file [save_serial] leaves behind, given the gathered matrix. *)
Definition serial_file (A0 T0 : ScaLAPACKMatrix) (chunk : Z * Z) : HDF5File :=
  write_state_and_property A0
    {| h5_matrix_class := hdf5_type_class;
       h5_matrix_dims := (n_columns A0, n_rows A0);
       h5_matrix_chunk := (snd chunk, fst chunk);
       h5_matrix := firstn (Z.to_nat (n_columns A0 * n_rows A0)) (values T0);
       h5_state := None;
       h5_property := None |}.

(** What [load_serial_read] returns on a process, for a file with state
    [s] and property [p]. *)
Definition read_result (f : HDF5File) (s : State) (p : Property) (T : ScaLAPACKMatrix)
  : ScaLAPACKMatrix * Z * Z :=
  if mpi_process_is_active (grid T)
  then (set_property
          (set_state (set_values T (H5Dread_all (h5_matrix f) (values T))) s) p,
        State_to_int s, Property_to_int p)
  else (T, -1, -1).

(** The gathering matrix after the read and the broadcast. *)
Definition loaded_tmp (f : HDF5File) (s : State) (p : Property) (T : ScaLAPACKMatrix)
  : ScaLAPACKMatrix :=
  set_property
    (set_state
       (if mpi_process_is_active (grid T)
        then set_values T (H5Dread_all (h5_matrix f) (values T))
        else T)
       s)
    p.

(** ** Addition *)

(** The position of the entry of [op(B)] that is added to entry [(gi, gj)]. *)
Definition op_position (transpose_B : bool) (gi gj : Z) : Z * Z :=
  if transpose_B then (gj, gi) else (gi, gj).

(** The shapes and block sizes [add] requires, for the transpose flag. *)
Definition add_compatible (transpose_B : bool) (LA LB : Layout) : Prop :=
  if transpose_B
  then lay_m LA = lay_n LB /\ lay_n LA = lay_m LB
       /\ lay_nb LA = lay_mb LB /\ lay_mb LA = lay_nb LB
  else lay_m LA = lay_m LB /\ lay_n LA = lay_n LB
       /\ lay_nb LA = lay_nb LB /\ lay_mb LA = lay_mb LB.

(** What [add] leaves in [*this]. *)
Definition added (A : ScaLAPACKMatrix) (Bw : World ScaLAPACKMatrix) (B : ScaLAPACKMatrix)
  (alpha beta : Number) (transpose_B : bool) : ScaLAPACKMatrix :=
  set_state
    (if mpi_process_is_active (grid A)
     then set_values A
            (pgeadd (if transpose_B then "T"%char else "N"%char) (n_rows A) (n_columns A)
               beta (map (fun X => make_Operand (values X) (descriptor X) (grid X)) Bw)
               (submatrix_row B) (submatrix_column B)
               alpha (make_Operand (values A) (descriptor A) (grid A))
               (submatrix_row A) (submatrix_column A))
     else A)
    matrix.

(** ** Scatter loops, stored positions, assignment as a whole *)

(** The nest of two loops that writes, at key [key i j] of a store, [f i j]
    of the value it finds there. *)
Definition scatter {St K V : Type} (get : St -> K -> V) (set : St -> K -> V -> St)
  (nr nc : Z) (key : Z -> Z -> K) (f : Z -> Z -> V -> V) (s0 : St) : St :=
  for_loop 0 nr
    (fun i s => for_loop 0 nc (fun j s' => set s' (key i j) (f i j (get s' (key i j)))) s)
    s0.

(** The global index of a local row and of a local column, as functions. *)
Definition global_row_of (A : ScaLAPACKMatrix) (li : Z) : Z :=
  match global_row A li with Ok g => to_signed g | Throw _ => 0 end.

Definition global_column_of (A : ScaLAPACKMatrix) (lj : Z) : Z :=
  match global_column A lj with Ok g => to_signed g | Throw _ => 0 end.

(** The positions a matrix with property [p] stores: one half for a
    triangular matrix, all of them otherwise. *)
Definition stored (p : Property) (gi gj : Z) : Prop :=
  match p with
  | lower_triangular => gj <= gi
  | upper_triangular => gi <= gj
  | _ => True
  end.

(** [operator =] as all processes run it. *)
Definition assign_FullMatrix_all (thisw : World ScaLAPACKMatrix)
  (matrixw : World FullMatrix) : Result (World ScaLAPACKMatrix) :=
  mapM (fun AM => assign_FullMatrix (fst AM) (snd AM)) (combine thisw matrixw).


(** ** The sub-block copy as a whole *)

(** Position [(gi, gj)] lies in the block of size [sz] at [offset]. *)
Definition in_block (offset sz : Z * Z) (gi gj : Z) : bool :=
  (fst offset <=? gi) && (gi <? fst offset + fst sz)
  && (snd offset <=? gj) && (gj <? snd offset + snd sz).

(** What the sub-block copy leaves in the destination [B] of one process. *)
Definition block_copied (Aw : World ScaLAPACKMatrix) (offset_A offset_B sz : Z * Z)
  (B : ScaLAPACKMatrix) : ScaLAPACKMatrix :=
  set_state
    (if (0 <? Z.of_nat (List.length (values B))) && op_participates (submatrix_operand B)
     then set_values B
            (pgemr2d (fst sz) (snd sz) (map submatrix_operand Aw)
               (fst offset_A + 1) (snd offset_A + 1)
               (submatrix_operand B) (fst offset_B + 1) (snd offset_B + 1))
     else B)
    matrix.


(** ** Multiplication as a whole *)

(** Two layouts on one grid object. *)
Definition same_grid (L L' : Layout) : Prop :=
  lay_address L = lay_address L' /\ lay_R L = lay_R L' /\ lay_C L = lay_C L'
  /\ lay_P L = lay_P L' /\ lay_comm L = lay_comm L' /\ lay_context L = lay_context L'.

(** The shapes and block sizes [mult] asserts, case by case as in
    scalapack.cc:546-581. *)
Definition mult_compatible (transpose_A transpose_B : bool) (LA LB LC : Layout) : Prop :=
  match transpose_A, transpose_B with
  | false, false =>
      lay_n LA = lay_m LB /\ lay_m LA = lay_m LC /\ lay_n LB = lay_n LC
      /\ lay_mb LA = lay_mb LC /\ lay_nb LA = lay_mb LB /\ lay_nb LB = lay_nb LC
  | true, false =>
      lay_m LA = lay_m LB /\ lay_n LA = lay_m LC /\ lay_n LB = lay_n LC
      /\ lay_nb LA = lay_mb LC /\ lay_mb LA = lay_mb LB /\ lay_nb LB = lay_nb LC
  | false, true =>
      lay_n LA = lay_n LB /\ lay_m LA = lay_m LC /\ lay_m LB = lay_n LC
      /\ lay_mb LA = lay_mb LC /\ lay_nb LA = lay_nb LB /\ lay_mb LB = lay_nb LC
  | true, true =>
      lay_m LA = lay_n LB /\ lay_n LA = lay_m LC /\ lay_m LB = lay_n LC
      /\ lay_nb LA = lay_mb LC /\ lay_mb LA = lay_nb LB /\ lay_mb LB = lay_nb LC
  end.

(** The sum of [a l * b l] over [l] in [0, k), in the order of the loop. *)
Definition dot (k : Z) (a b : Z -> Number) : Number :=
  for_loop 0 k (fun l acc => plus acc (times (a l) (b l))) (of_int 0).

(** [mult] as all processes run it: process by process, [A], [B] and [C]. *)
Definition mult_all (Aw : World ScaLAPACKMatrix) (b : Number) (Bw : World ScaLAPACKMatrix)
  (c : Number) (Cw : World ScaLAPACKMatrix) (transpose_A transpose_B : bool)
  : Result (World ScaLAPACKMatrix) :=
  mapM (fun X => mult Aw (fst (fst X)) b Bw (snd (fst X)) c (snd X) transpose_A transpose_B)
    (combine (combine Aw Bw) Cw).

(** What [mult] leaves in [C] on one process. *)
Definition multiplied (Aw : World ScaLAPACKMatrix) (b : Number) (Bw : World ScaLAPACKMatrix)
  (c : Number) (transpose_A transpose_B : bool) (k : Z) (C : ScaLAPACKMatrix)
  : ScaLAPACKMatrix :=
  set_state
    (if mpi_process_is_active (grid C) then
       set_values C
         (pgemm (if transpose_A then "T"%char else "N"%char)
            (if transpose_B then "T"%char else "N"%char)
            (n_rows C) (n_columns C) k
            b (map (fun X => make_Operand (values X) (descriptor X) (grid X)) Aw) 1 1
            (map (fun X => make_Operand (values X) (descriptor X) (grid X)) Bw) 1 1
            c (make_Operand (values C) (descriptor C) (grid C)) 1 1)
     else C)
    matrix.


(** ** What the properties say of further kernels *)

(** The kernel [ppocon] reports success. *)
Definition ppocon_succeeds
  (ppocon : ascii -> Z -> list Number -> Z -> Z -> list Z -> Number -> Number ->
            list Number -> Z -> list Z -> Z -> ppocon_out) : Prop :=
  forall uplo_ n A ia ja desca anorm rcond work_ lwork iwork_ liwork,
    ppocon_info (ppocon uplo_ n A ia ja desca anorm rcond work_ lwork iwork_ liwork) = 0.


(** ** The parallel checkpoint path *)

(** The layout of the matrix on the 1 x P grid that the parallel checkpoint
    path redistributes a matrix of layout [L] onto; [address] and [context]
    belong to the new grid object. *)
Definition band_layout (L : Layout) (address context : Z) : Layout :=
  {| lay_m := lay_m L; lay_n := lay_n L; lay_mb := lay_m L;
     lay_nb := lay_n L / lay_P L;
     lay_R := 1; lay_C := lay_P L; lay_P := lay_P L; lay_comm := lay_comm L;
     lay_address := address; lay_context := context |}.

(** The first row of the dataset that the process of rank [r] writes and
    reads, given the numbers of local columns of all processes. *)
Definition slab_start (cols : list Z) (r : Z) : Z := fst (hyperslab_offset cols r).

(** The objects on the 1 x P grid after [load_parallel] has read the file:
    the objects of the load with the buffers of the save. *)
Definition band_loaded (s : State) (p : Property) (ST : ScaLAPACKMatrix * ScaLAPACKMatrix)
  : ScaLAPACKMatrix :=
  set_property (set_state (set_values (snd ST) (values (fst ST))) s) p.


(** The four products [mmult], [Tmmult], [mTmult] and [TmTmult] by what they
    transpose, and one of them as all processes run it: process by process,
    [A], [C] and [B]. *)
Definition product (transpose_A transpose_B : bool)
  : World ScaLAPACKMatrix -> ScaLAPACKMatrix -> ScaLAPACKMatrix ->
    World ScaLAPACKMatrix -> ScaLAPACKMatrix -> bool -> Result ScaLAPACKMatrix :=
  match transpose_A, transpose_B with
  | false, false => mmult
  | true, false => Tmmult
  | false, true => mTmult
  | true, true => TmTmult
  end.

Definition product_all (transpose_A transpose_B : bool)
  (Aw Cw Bw : World ScaLAPACKMatrix) (adding : bool) : Result (World ScaLAPACKMatrix) :=
  mapM (fun X => product transpose_A transpose_B Aw (fst (fst X)) (snd X) Bw (snd (fst X))
                   adding)
    (combine (combine Aw Bw) Cw).

End Model.

(** * Concrete inputs

    The model is executable; the runs use the scalar type [ZN] and
    small worlds built by the constructor. *)

(** The rows of a dense matrix. *)
Definition fm_rows {Number : Type} (M : @FullMatrix Number) : list (list Number) :=
  map (fun i => map (fun j => fm_el M i j) (zrange 0 (fm_n M))) (zrange 0 (fm_m M)).

(** The object of process [rank] for a matrix of layout [L] whose entry
    [(i, j)] is [f i j]. *)
Definition example_object (L : Layout) (s : State) (p : Property) (f : Z -> Z -> Z)
  (rank : Z) : @ScaLAPACKMatrix ZN :=
  let A := if rank <? lay_R L * lay_C L
           then constructed_active (lay_m L) (lay_n L) (layout_grid L rank)
                  (lay_mb L) (lay_nb L) p
           else constructed_inactive (lay_m L) (lay_n L) (layout_grid L rank)
                  (lay_mb L) (lay_nb L) p in
  set_state
    (set_values A
       (map (fun k =>
               Some (f (local_to_global (k mod n_local_rows A) (row_block_size A)
                          (this_process_row (grid A)) 0 (n_process_rows (grid A)))
                       (local_to_global (k / n_local_rows A) (column_block_size A)
                          (this_process_column (grid A)) 0 (n_process_columns (grid A)))))
          (zrange 0 (Z.of_nat (List.length (values A))))))
    s.

Definition example_world (L : Layout) (s : State) (p : Property) (f : Z -> Z -> Z)
  : World (@ScaLAPACKMatrix ZN) :=
  map (example_object L s p f) (zrange 0 (lay_P L)).

(** A 6x6 matrix in blocks of 2 on a 2x2 grid, in a job of 5 processes (one
    of them inactive). *)
Definition L66 : Layout :=
  {| lay_m := 6; lay_n := 6; lay_mb := 2; lay_nb := 2; lay_R := 2; lay_C := 2;
     lay_P := 5; lay_comm := 0; lay_address := 1000; lay_context := 0 |}.

Definition f66 (i j : Z) : Z := 10 * (i + j) + i * j.

Definition W66 : World (@ScaLAPACKMatrix ZN) :=
  example_world L66 cholesky symmetric f66.

(** The same matrix on the same grid in a job of seven processes: more
    processes than columns. *)
Definition L667 : Layout :=
  {| lay_m := 6; lay_n := 6; lay_mb := 2; lay_nb := 2; lay_R := 2; lay_C := 2;
     lay_P := 7; lay_comm := 0; lay_address := 1000; lay_context := 0 |}.

Definition W667 : World (@ScaLAPACKMatrix ZN) :=
  example_world L667 matrix symmetric f66.

(** A second 6x6 matrix on the same grid object. *)
Definition g66 (i j : Z) : Z := i - 3 * j.

Definition V66 : World (@ScaLAPACKMatrix ZN) :=
  example_world L66 matrix general g66.

(** The objects of process 0. *)
Definition A66 : @ScaLAPACKMatrix ZN := example_object L66 cholesky symmetric f66 0.

Definition B66 : @ScaLAPACKMatrix ZN := example_object L66 matrix general g66 0.

(** A 2x5 matrix with entries [10 i + j] in a job of 2 processes, and a 2x1
    matrix in the same job. *)
Definition L25 : Layout :=
  {| lay_m := 2; lay_n := 5; lay_mb := 1; lay_nb := 1; lay_R := 2; lay_C := 1;
     lay_P := 2; lay_comm := 0; lay_address := 1000; lay_context := 0 |}.

Definition f25 (i j : Z) : Z := 10 * i + j.

Definition W25 : World (@ScaLAPACKMatrix ZN) := example_world L25 matrix general f25.

Definition L21 : Layout :=
  {| lay_m := 2; lay_n := 1; lay_mb := 1; lay_nb := 1; lay_R := 2; lay_C := 1;
     lay_P := 2; lay_comm := 0; lay_address := 1000; lay_context := 0 |}.

Definition W21 : World (@ScaLAPACKMatrix ZN) := example_world L21 matrix general f25.

(** The global columns that a process holds. *)
Definition held_columns {Number : Type} (A : @ScaLAPACKMatrix Number) : Result (list Z) :=
  mapM (global_column A) (zrange 0 (n_local_columns A)).

(** A 2x2 matrix on a 1x1 grid in a job of one process, holding the factor
    [[1, 0], [2, 4]] in its lower half and 7 in the half that is not used. *)
Definition L22 : Layout :=
  {| lay_m := 2; lay_n := 2; lay_mb := 2; lay_nb := 2; lay_R := 1; lay_C := 1;
     lay_P := 1; lay_comm := 0; lay_address := 1000; lay_context := 0 |}.

Definition lower22 (i j : Z) : Z :=
  if j <=? i then 1 + i + 2 * j else 7.

Definition zero22 : @FullMatrix ZN :=
  {| fm_m := 2; fm_n := 2; fm_el := fun _ _ => Some 0 |}.

(** Kernels that touch nothing and report success. *)
Definition idle_ppotrf (uplo_ : ascii) (n : Z) (A : list ZN) (ia ja : Z) (desca : list Z)
  : list ZN * Z := (A, 0).

Definition idle_psyev (jobz uplo_ : ascii) (n : Z) (A : list ZN) (ia ja : Z)
  (desca : list Z) (w : list ZN) (Z_ : option (list ZN)) (iz jz : Z) (descz : list Z)
  (work_ : list ZN) (lwork : Z) : @psyev_out ZN :=
  {| psyev_A := A; psyev_w := w;
     psyev_Z := match Z_ with Some z => z | None => [] end;
     psyev_work := [Some 1]; psyev_info := 0 |}.

Definition idle_psyevx (jobz range uplo_ : ascii) (n : Z) (A : list ZN) (ia ja : Z)
  (desca : list Z) (vl vu : ZN) (il iu : Z) (abstol : ZN) (m nz : Z) (w : list ZN)
  (orfac : ZN) (Z_ : option (list ZN)) (iz jz : Z) (descz : list Z)
  (work_ : list ZN) (lwork : Z) (iwork_ : list Z) (liwork : Z)
  (ifail iclustr : list Z) (gap : list ZN) : @psyevx_out ZN :=
  {| psyevx_A := A; psyevx_m := iu - il + 1; psyevx_nz := 0; psyevx_w := w;
     psyevx_Z := match Z_ with Some z => z | None => [] end;
     psyevx_work := [Some 1]; psyevx_iwork := [1];
     psyevx_ifail := ifail; psyevx_iclustr := iclustr; psyevx_gap := gap;
     psyevx_info := 0 |}.

Definition idle_plamch (context : Z) (cmach : ascii) : ZN := Some 0.

(** The object of process 0 for the 6x6 matrix in state [matrix]. *)
Definition S66 : @ScaLAPACKMatrix ZN := example_object L66 matrix symmetric f66 0.

(** A 20x20 matrix in blocks of 2 on a 3x3 grid; the object of process 0. *)
Definition L20 : Layout :=
  {| lay_m := 20; lay_n := 20; lay_mb := 2; lay_nb := 2; lay_R := 3; lay_C := 3;
     lay_P := 9; lay_comm := 0; lay_address := 1000; lay_context := 0 |}.

Definition A20 : @ScaLAPACKMatrix ZN := example_object L20 matrix general f25 0.

(** The factor of [L22] in three states. *)
Definition Winv22 : World (@ScaLAPACKMatrix ZN) :=
  example_world L22 inverse_matrix lower_triangular lower22.

Definition Wcho22 : World (@ScaLAPACKMatrix ZN) :=
  example_world L22 cholesky lower_triangular lower22.

Definition Wmat22 : World (@ScaLAPACKMatrix ZN) :=
  example_world L22 matrix lower_triangular lower22.

(** The dense copies that [copy_to] makes of a world of one process. *)
Definition dense_of (thisw : World (@ScaLAPACKMatrix ZN)) : World (@FullMatrix ZN) :=
  match copy_to_FullMatrix thisw [zero22] with
  | Ok Dw => Dw
  | Throw _ => []
  end.


(** The 6x6 dense matrix with entries [g66], and the zero 6x6 matrix. *)
Definition dense66 : @FullMatrix ZN :=
  {| fm_m := 6; fm_n := 6; fm_el := fun i j => Some (g66 i j) |}.

Definition zero66 : @FullMatrix ZN :=
  {| fm_m := 6; fm_n := 6; fm_el := fun _ _ => Some 0 |}.

(** A 3x2 matrix with property [lower_triangular] on a 1x1 grid, and the
    dense matrix of its shape. *)
Definition L32 : Layout :=
  {| lay_m := 3; lay_n := 2; lay_mb := 1; lay_nb := 1; lay_R := 1; lay_C := 1;
     lay_P := 1; lay_comm := 0; lay_address := 1000; lay_context := 0 |}.

Definition W32 : World (@ScaLAPACKMatrix ZN) :=
  example_world L32 matrix lower_triangular f25.

Definition zero32 : @FullMatrix ZN :=
  {| fm_m := 3; fm_n := 2; fm_el := fun _ _ => Some 0 |}.

(** One factor per column of a 6x6 matrix. *)
Definition factors6 : list ZN := [Some 1; Some 2; Some 3; Some 4; Some 5; Some 6].

(** A second layout for 6x6 matrices in the job of [L66]: blocks of 3 on a
    1x3 grid, another grid object. *)
Definition L66b : Layout :=
  {| lay_m := 6; lay_n := 6; lay_mb := 3; lay_nb := 3; lay_R := 1; lay_C := 3;
     lay_P := 5; lay_comm := 0; lay_address := 2000; lay_context := 1 |}.

Definition U66b : World (@ScaLAPACKMatrix ZN) :=
  example_world L66b matrix general (fun _ _ => 0).


(** Further kernels that touch nothing and report success, and helper
    routines of ScaLAPACK. *)
Definition idle_ppotri (uplo_ : ascii) (n : Z) (A : list ZN) (ia ja : Z) (desca : list Z)
  : list ZN * Z := (A, 0).

Definition idle_pgesvd (jobu jobvt : ascii) (m n : Z) (A : list ZN) (ia ja : Z)
  (desca : list Z) (s : list ZN) (U VT : option (list ZN * Z * Z * list Z))
  (work_ : list ZN) (lwork : Z) : @pgesvd_out ZN :=
  {| pgesvd_A := A; pgesvd_s := s;
     pgesvd_U := match U with Some u => fst (fst (fst u)) | None => [] end;
     pgesvd_VT := match VT with Some v => fst (fst (fst v)) | None => [] end;
     pgesvd_work := [Some 1]; pgesvd_info := 0 |}.

Definition idle_pgels (trans : ascii) (m n nrhs : Z) (A : list ZN) (ia ja : Z)
  (desca : list Z) (B : list ZN) (ib jb : Z) (descb : list Z)
  (work_ : list ZN) (lwork : Z) : @pgels_out ZN :=
  {| pgels_A := A; pgels_B := B; pgels_work := [Some 1]; pgels_info := 0 |}.

Definition idle_ppocon (uplo_ : ascii) (n : Z) (A : list ZN) (ia ja : Z) (desca : list Z)
  (anorm rcond : ZN) (work_ : list ZN) (lwork : Z) (iwork_ : list Z) (liwork : Z)
  : @ppocon_out ZN :=
  {| ppocon_rcond := rcond; ppocon_work := [Some 1]; ppocon_iwork := iwork_;
     ppocon_info := 0 |}.

Definition idle_plange (norm : ascii) (m n : Z) (A : list ZN) (ia ja : Z) (desca : list Z)
  (work_ : list ZN) : ZN := Some 0.

Definition idle_plansy (norm uplo_ : ascii) (n : Z) (A : list ZN) (ia ja : Z)
  (desca : list Z) (work_ : list ZN) : ZN := Some 0.

Definition ZN_ceil_to_int (x : ZN) : Z :=
  match x with Some z => z | None => 0 end.

Definition ceil_quotient (a b : Z) : Z := (a + b - 1) / b.

(** The 6x6 symmetric matrix of process 0 after [eigenpairs_symmetric]
    without eigenvectors, and after [compute_cholesky_factorization]. *)
Definition E66 : @ScaLAPACKMatrix ZN :=
  match eigenpairs_symmetric idle_psyev idle_psyevx idle_plamch S66
          [(grid S66, 6)] [(grid S66, repeat (Some 0) 6)] false
          (invalid_unsigned_int, invalid_unsigned_int) (None, None) with
  | Ok r => snd r
  | Throw _ => S66
  end.

Definition F66 : @ScaLAPACKMatrix ZN :=
  match compute_cholesky_factorization idle_ppotrf S66 with
  | Ok this1 => this1
  | Throw _ => S66
  end.

(** A 3x6 matrix in blocks of 1x3 on a 1x2 grid, in a job of 2 processes. *)
Definition L36 : Layout :=
  {| lay_m := 3; lay_n := 6; lay_mb := 1; lay_nb := 3; lay_R := 1; lay_C := 2;
     lay_P := 2; lay_comm := 0; lay_address := 1000; lay_context := 0 |}.

Definition W36 : World (@ScaLAPACKMatrix ZN) := example_world L36 matrix general f25.

(** A second 2x5 matrix in the layout of [W25], all zero, in another state. *)
Definition Z25 : World (@ScaLAPACKMatrix ZN) :=
  example_world L25 inverse_matrix symmetric (fun _ _ => 0).

(** * Properties *)

Section Properties.

Context {Number : Type} {NT : NumberType Number}.

(** The types of the model at the scalar type of this section. *)
#[local] Abbreviation ScaLAPACKMatrix := (@ScaLAPACKMatrix Number).
#[local] Abbreviation FullMatrix := (@FullMatrix Number).
#[local] Abbreviation Operand := (@Operand Number).
#[local] Abbreviation HDF5File := (@HDF5File Number).
#[local] Abbreviation psyev_out := (@psyev_out Number).
#[local] Abbreviation psyevx_out := (@psyevx_out Number).
#[local] Abbreviation faithful_operand := (@faithful_operand Number).
#[local] Abbreviation pgesvd_out := (@pgesvd_out Number).
#[local] Abbreviation pgels_out := (@pgels_out Number).
#[local] Abbreviation ppocon_out := (@ppocon_out Number).

(** ** The result monad *)

Lemma bind_Ok_inv (T U : Type) (c : Result T) (k : T -> Result U) (y : U) :
  bind c k = Ok y -> exists x, c = Ok x /\ k x = Ok y.
Proof.
  destruct c as [x|e]; simpl; intros H.
  - exists x. split; [reflexivity | exact H].
  - discriminate H.
Qed.

Lemma Assert_Ok_inv (cond : bool) (e : Exc) (u : unit) :
  Assert cond e = Ok u -> cond = true.
Proof.
  unfold Assert. destruct cond; [reflexivity | discriminate].
Qed.

Lemma Assert_true (cond : bool) (e : Exc) : cond = true -> Assert cond e = Ok tt.
Proof. intros ->. reflexivity. Qed.


Lemma State_eqb_eq (a b : State) : State_eqb a b = true <-> a = b.
Proof. destruct a, b; simpl; split; intros H; congruence. Qed.

Lemma Property_eqb_eq (a b : Property) : Property_eqb a b = true <-> a = b.
Proof. destruct a, b; simpl; split; intros H; congruence. Qed.

Lemma State_of_int_to_int (s : State) : State_of_int (State_to_int s) = Some s.
Proof. destruct s; reflexivity. Qed.

Lemma Property_of_int_to_int (p : Property) :
  Property_of_int (Property_to_int p) = Some p.
Proof. destruct p; reflexivity. Qed.

(** ** Sub-block copy of an empty block *)

(** C9: with [submatrix_size.first == 0] or [submatrix_size.second == 0] the
    sub-block copy returns at once: the destination object it hands back is
    the one it was given (buffer, state, property and all), and no offset is
    checked, whatever the offsets are. *)
Theorem copy_to_submatrix_empty_is_identity
  (Aw Bw : World ScaLAPACKMatrix) (A B : ScaLAPACKMatrix)
  (offset_A offset_B submatrix_size : Z * Z) :
  fst submatrix_size = 0 \/ snd submatrix_size = 0 ->
  copy_to_submatrix Aw Bw A B offset_A offset_B submatrix_size = Ok B.
Proof.
  intros Hempty. unfold copy_to_submatrix.
  assert (Hguard : (fst submatrix_size =? 0) || (snd submatrix_size =? 0) = true).
  { apply orb_true_iff. destruct Hempty as [H|H]; [left|right]; apply Z.eqb_eq; exact H. }
  rewrite Hguard. reflexivity.
Qed.

(** A non-empty sub-block copy that returns normally leaves the destination
    in state [matrix]. *)
Lemma copy_to_submatrix_state
  (Aw Bw : World ScaLAPACKMatrix) (A B B' : ScaLAPACKMatrix)
  (offset_A offset_B submatrix_size : Z * Z) :
  fst submatrix_size <> 0 -> snd submatrix_size <> 0 ->
  copy_to_submatrix Aw Bw A B offset_A offset_B submatrix_size = Ok B' ->
  state B' = matrix.
Proof.
  intros H1 H2. unfold copy_to_submatrix.
  apply Z.eqb_neq in H1. apply Z.eqb_neq in H2. rewrite H1, H2. simpl orb. cbv iota.
  intros H.
  repeat (apply bind_Ok_inv in H; destruct H as [? [_ H]]).
  inversion H. reflexivity.
Qed.

(** ** Copy of the whole matrix *)

Lemma copy_to_succeeds (thisw : World ScaLAPACKMatrix) (this dest : ScaLAPACKMatrix) :
  n_rows this = n_rows dest ->
  n_columns this = n_columns dest ->
  (mpi_process_is_active (grid this) = true -> desc_at DTYPE_ (descriptor this) = 1) ->
  (mpi_process_is_active (grid dest) = true -> desc_at DTYPE_ (descriptor dest) = 1) ->
  exists dest', copy_to thisw this dest = Ok dest'.
Proof.
  intros Hr Hc Ht Hd. unfold copy_to.
  rewrite Hr, Hc, !Z.eqb_refl. simpl.
  destruct (mpi_process_is_active (grid this)).
  - rewrite (Ht eq_refl). simpl.
    destruct (mpi_process_is_active (grid dest)).
    + rewrite (Hd eq_refl). simpl. eexists; reflexivity.
    + simpl. eexists; reflexivity.
  - simpl. destruct (mpi_process_is_active (grid dest)).
    + rewrite (Hd eq_refl). simpl. eexists; reflexivity.
    + simpl. eexists; reflexivity.
Qed.

Lemma copy_to_Ok_inv (thisw : World ScaLAPACKMatrix) (this dest dest' : ScaLAPACKMatrix) :
  copy_to thisw this dest = Ok dest' ->
  exists d, dest' = set_property (set_state d (state this)) (property this)
            /\ (d = dest \/ exists v, d = set_values dest v).
Proof.
  unfold copy_to. intros H.
  repeat (apply bind_Ok_inv in H; destruct H as [? [_ H]]).
  inversion H as [H']. clear H H'.
  eexists. split; [reflexivity|].
  repeat match goal with
         | |- context [if ?c then _ else _] => destruct c
         end; eauto.
Qed.

(** The sub-block copy of a block that is not empty returns when its
    assertions hold. *)
Lemma copy_to_submatrix_Ok
  (Aw Bw : World ScaLAPACKMatrix) (A B : ScaLAPACKMatrix)
  (offset_A offset_B submatrix_size : Z * Z) :
  fst submatrix_size <> 0 -> snd submatrix_size <> 0 ->
  submatrix_in_range A B offset_A offset_B submatrix_size ->
  exists B', copy_to_submatrix Aw Bw A B offset_A offset_B submatrix_size = Ok B'.
Proof.
  intros H1 H2 [Ha1 [Ha2 [Hb1 [Hb2 Hcomm]]]]. unfold copy_to_submatrix.
  apply Z.eqb_neq in H1. apply Z.eqb_neq in H2. rewrite H1, H2. simpl orb. cbv iota.
  rewrite (Assert_true (fst offset_A <? _)) by (apply Z.ltb_lt; exact Ha1).
  rewrite (Assert_true (snd offset_A <? _)) by (apply Z.ltb_lt; exact Ha2).
  rewrite (Assert_true (fst offset_B <? _)) by (apply Z.ltb_lt; exact Hb1).
  rewrite (Assert_true (snd offset_B <? _)) by (apply Z.ltb_lt; exact Hb2).
  rewrite (Assert_true (mpi_communicator (grid A) =? _)) by (apply Z.eqb_eq; exact Hcomm).
  cbn [bind]. eexists. reflexivity.
Qed.

(** C8 (as amended): the copy of the whole matrix hands the source's state and
    property to the destination, for every source state and property; the
    sub-block copy sets the destination's state to [matrix], whenever the
    sub-block is not empty (and it returns when its assertions hold). *)
Theorem copy_to_transfers_state_and_property
  (thisw : World ScaLAPACKMatrix) (this dest : ScaLAPACKMatrix) :
  n_rows this = n_rows dest ->
  n_columns this = n_columns dest ->
  (mpi_process_is_active (grid this) = true -> desc_at DTYPE_ (descriptor this) = 1) ->
  (mpi_process_is_active (grid dest) = true -> desc_at DTYPE_ (descriptor dest) = 1) ->
  (exists dest', copy_to thisw this dest = Ok dest'
                 /\ state dest' = state this
                 /\ property dest' = property this)
  /\ (forall Bw offset_A offset_B submatrix_size,
        fst submatrix_size <> 0 -> snd submatrix_size <> 0 ->
        (forall B',
            copy_to_submatrix thisw Bw this dest offset_A offset_B submatrix_size = Ok B' ->
            state B' = matrix)
        /\ (submatrix_in_range this dest offset_A offset_B submatrix_size ->
            exists B',
              copy_to_submatrix thisw Bw this dest offset_A offset_B submatrix_size
              = Ok B')).
Proof.
  intros Hr Hc Ht Hd. split.
  - destruct (copy_to_succeeds thisw this dest Hr Hc Ht Hd) as [dest' H].
    exists dest'. split; [exact H|].
    apply copy_to_Ok_inv in H. destruct H as [d [-> _]]. split; reflexivity.
  - intros Bw oA oB sz H1 H2. split.
    + intros B' H. eapply copy_to_submatrix_state; eassumption.
    + intros Hrange. apply copy_to_submatrix_Ok; assumption.
Qed.

(** ** The constructor *)

Lemma descinit_info_zero (m n mb nb ictxt nprow npcol myrow : Z) :
  0 <= m -> 0 <= n -> 1 <= mb -> 1 <= nb -> 1 <= nprow -> 1 <= npcol ->
  descinit_ m n mb nb 0 0 ictxt (Z.max 1 (numroc_ m mb myrow 0 nprow)) nprow npcol myrow
  = ([1; ictxt; m; n; mb; nb; 0; 0; Z.max 1 (numroc_ m mb myrow 0 nprow)], 0).
Proof.
  intros Hm Hn Hmb Hnb Hr Hc. unfold descinit_.
  rewrite (proj2 (Z.ltb_ge m 0)) by lia.
  rewrite (proj2 (Z.ltb_ge n 0)) by lia.
  rewrite (proj2 (Z.ltb_ge mb 1)) by lia.
  rewrite (proj2 (Z.ltb_ge nb 1)) by lia.
  rewrite (proj2 (Z.ltb_ge 0 0)) by lia.
  rewrite (proj2 (Z.leb_gt nprow 0)) by lia.
  rewrite (proj2 (Z.leb_gt npcol 0)) by lia.
  rewrite Z.ltb_irrefl. reflexivity.
Qed.

Lemma ScaLAPACKMatrix_ctor_Ok (m n : Z) (g : ProcessGrid) (mb nb : Z) (p : Property) :
  1 <= mb <= m -> 1 <= nb <= n ->
  1 <= n_process_rows g -> 1 <= n_process_columns g ->
  ScaLAPACKMatrix_ctor m n g mb nb p
  = Ok (if mpi_process_is_active g
        then constructed_active m n g mb nb p
        else constructed_inactive m n g mb nb p).
Proof.
  intros Hmb Hnb HR HC. unfold ScaLAPACKMatrix_ctor.
  rewrite (Assert_true (0 <? mb)) by (apply Z.ltb_lt; lia).
  rewrite (Assert_true (0 <? nb)) by (apply Z.ltb_lt; lia).
  rewrite (Assert_true (mb <=? m)) by (apply Z.leb_le; lia).
  rewrite (Assert_true (nb <=? n)) by (apply Z.leb_le; lia).
  cbv beta iota zeta delta [bind].
  destruct (mpi_process_is_active g); [|reflexivity].
  rewrite descinit_info_zero by lia.
  reflexivity.
Qed.

(** ** Cholesky factorization *)



(** ** Symmetric eigenproblems *)

Section EigenpairsProperties.

Variable psyev :
  ascii -> ascii -> Z -> list Number -> Z -> Z -> list Z -> list Number ->
  option (list Number) -> Z -> Z -> list Z -> list Number -> Z -> psyev_out.

Variable psyevx :
  ascii -> ascii -> ascii -> Z -> list Number -> Z -> Z -> list Z ->
  Number -> Number -> Z -> Z -> Number -> Z -> Z -> list Number -> Number ->
  option (list Number) -> Z -> Z -> list Z ->
  list Number -> Z -> list Z -> Z -> list Z -> list Z -> list Number -> psyevx_out.

Variable plamch : Z -> ascii -> Number.



(** The two limits of a pair are normalized by [std::min] and [std::max]. *)
Lemma std_min_Z_comm (a b : Z) : std_min Z.ltb a b = std_min Z.ltb b a.
Proof.
  unfold std_min.
  destruct (Z.ltb_spec b a), (Z.ltb_spec a b); lia.
Qed.

Lemma std_max_Z_comm (a b : Z) : std_max Z.ltb a b = std_max Z.ltb b a.
Proof.
  unfold std_max.
  destruct (Z.ltb_spec b a), (Z.ltb_spec a b); lia.
Qed.

Lemma eigenpairs_symmetric_active_swap_idx (this eigenvectors : ScaLAPACKMatrix)
  (compute_eigenvectors use_values use_indices : bool)
  (a b : Z) (eigenvalue_limits : Number * Number) (m : Z) (ev : list Number) :
  eigenpairs_symmetric_active psyev psyevx plamch this eigenvectors compute_eigenvectors
    use_values use_indices (a, b) eigenvalue_limits m ev
  = eigenpairs_symmetric_active psyev psyevx plamch this eigenvectors compute_eigenvectors
      use_values use_indices (b, a) eigenvalue_limits m ev.
Proof.
  unfold eigenpairs_symmetric_active. cbn [fst snd].
  rewrite (std_min_Z_comm a b), (std_max_Z_comm a b). reflexivity.
Qed.

Lemma eigenpairs_symmetric_active_swap_limits (this eigenvectors : ScaLAPACKMatrix)
  (compute_eigenvectors use_values use_indices : bool)
  (eigenvalue_idx : Z * Z) (a b : Number) (m : Z) (ev : list Number) :
  std_min less a b = std_min less b a ->
  std_max less a b = std_max less b a ->
  eigenpairs_symmetric_active psyev psyevx plamch this eigenvectors compute_eigenvectors
    use_values use_indices eigenvalue_idx (a, b) m ev
  = eigenpairs_symmetric_active psyev psyevx plamch this eigenvectors compute_eigenvectors
      use_values use_indices eigenvalue_idx (b, a) m ev.
Proof.
  intros Hmin Hmax. unfold eigenpairs_symmetric_active. cbn [fst snd].
  rewrite Hmin, Hmax. reflexivity.
Qed.

Lemma eigenpairs_symmetric_swap_idx (this : ScaLAPACKMatrix)
  (m_of_all : World (ProcessGrid * Z)) (ev_of_all : World (ProcessGrid * list Number))
  (compute_eigenvectors : bool) (a b : Z) (eigenvalue_limits : Number * Number) :
  eigenpairs_symmetric psyev psyevx plamch this m_of_all ev_of_all compute_eigenvectors
    (a, b) eigenvalue_limits
  = eigenpairs_symmetric psyev psyevx plamch this m_of_all ev_of_all compute_eigenvectors
      (b, a) eigenvalue_limits.
Proof.
  unfold eigenpairs_symmetric. cbn [fst snd].
  rewrite (orb_comm (a =? invalid_unsigned_int) (b =? invalid_unsigned_int)).
  unfold Assert.
  destruct (State_eqb (state this) matrix); [|reflexivity].
  destruct (Property_eqb (property this) symmetric); [|reflexivity].
  match goal with |- context [negb ?c] => destruct (negb c) end; [|reflexivity].
  cbn [bind].
  match goal with |- bind ?c _ = _ => destruct c as [e0|e] end; [|reflexivity].
  cbn [bind].
  rewrite (eigenpairs_symmetric_active_swap_idx this (set_property e0 (property this))
             compute_eigenvectors _ _ a b).
  reflexivity.
Qed.

Lemma eigenpairs_symmetric_swap_limits (this : ScaLAPACKMatrix)
  (m_of_all : World (ProcessGrid * Z)) (ev_of_all : World (ProcessGrid * list Number))
  (compute_eigenvectors : bool) (eigenvalue_idx : Z * Z) (a b : Number) :
  std_min less a b = std_min less b a ->
  std_max less a b = std_max less b a ->
  eigenpairs_symmetric psyev psyevx plamch this m_of_all ev_of_all compute_eigenvectors
    eigenvalue_idx (a, b)
  = eigenpairs_symmetric psyev psyevx plamch this m_of_all ev_of_all compute_eigenvectors
      eigenvalue_idx (b, a).
Proof.
  intros Hmin Hmax.
  unfold eigenpairs_symmetric. cbn [fst snd].
  rewrite (orb_comm (is_nan a) (is_nan b)).
  unfold Assert.
  destruct (State_eqb (state this) matrix); [|reflexivity].
  destruct (Property_eqb (property this) symmetric); [|reflexivity].
  match goal with |- context [negb ?c] => destruct (negb c) end; [|reflexivity].
  cbn [bind].
  match goal with |- bind ?c _ = _ => destruct c as [e0|e] end; [|reflexivity].
  cbn [bind].
  rewrite (eigenpairs_symmetric_active_swap_limits this (set_property e0 (property this))
             compute_eigenvectors _ _ eigenvalue_idx a b _ _ Hmin Hmax).
  reflexivity.
Qed.

Lemma std_min_max_swap (x y : Number) :
  (less x y = true -> less y x = false) ->
  (less x y = false -> less y x = false -> x = y) ->
  std_min less x y = std_min less y x /\ std_max less x y = std_max less y x.
Proof.
  intros Hasym Htotal. unfold std_min, std_max.
  destruct (less x y) eqn:Hxy, (less y x) eqn:Hyx; split; try reflexivity;
    first [ specialize (Hasym eq_refl); discriminate Hasym
          | apply Htotal; reflexivity
          | symmetry; apply Htotal; reflexivity ].
Qed.

(** C10: [eigenpairs_symmetric_by_index] and [eigenpairs_symmetric_by_value]
    take their two limits in either order.  For two indices of which one at
    least is in range, and for two values that are not NaN and that
    [operator<] orders (one is less than the other, or they are equal),
    swapping the components of the pair gives the same result: the
    eigenvalues, the matrix left behind, or the exception. *)
Theorem eigenpairs_symmetric_limits_in_either_order
  (this : ScaLAPACKMatrix)
  (m_of_all : World (ProcessGrid * Z)) (ev_of_all : World (ProcessGrid * list Number))
  (compute_eigenvectors : bool) :
  (forall a b : Z,
      a < to_unsigned (n_rows this) \/ b < to_unsigned (n_rows this) ->
      eigenpairs_symmetric_by_index psyev psyevx plamch this m_of_all ev_of_all
        (a, b) compute_eigenvectors
      = eigenpairs_symmetric_by_index psyev psyevx plamch this m_of_all ev_of_all
          (b, a) compute_eigenvectors)
  /\ (forall x y : Number,
         is_nan x = false -> is_nan y = false ->
         (less x y = true -> less y x = false) ->
         (less x y = false -> less y x = false -> x = y) ->
         eigenpairs_symmetric_by_value psyev psyevx plamch this m_of_all ev_of_all
           (x, y) compute_eigenvectors
         = eigenpairs_symmetric_by_value psyev psyevx plamch this m_of_all ev_of_all
             (y, x) compute_eigenvectors).
Proof.
  split.
  - intros a b Hab. unfold eigenpairs_symmetric_by_index. cbn [fst snd].
    destruct (Z.ltb_spec a (to_unsigned (n_rows this))) as [Ha|Ha];
      destruct (Z.ltb_spec b (to_unsigned (n_rows this))) as [Hb|Hb];
      cbn [Assert bind]; try reflexivity; [|lia].
    rewrite (std_min_Z_comm a b), (std_max_Z_comm a b). reflexivity.
  - intros x y Hx Hy Hasym Htotal. unfold eigenpairs_symmetric_by_value. cbn [fst snd].
    rewrite Hx, Hy. cbn [negb Assert bind].
    destruct (std_min_max_swap x y Hasym Htotal) as [Hmin Hmax].
    apply eigenpairs_symmetric_swap_limits; assumption.
Qed.

End EigenpairsProperties.

(** ** Loops *)

Lemma zrange_cons (lo hi : Z) : lo < hi -> zrange lo hi = lo :: zrange (lo + 1) hi.
Proof.
  intros H. unfold zrange.
  replace (Z.to_nat (hi - lo)) with (S (Z.to_nat (hi - (lo + 1)))) by lia.
  cbn [seq map]. f_equal; [lia|].
  rewrite <- seq_shift, map_map. apply map_ext. intros k. lia.
Qed.

Lemma zrange_nil (lo hi : Z) : hi <= lo -> zrange lo hi = [].
Proof.
  intros H. unfold zrange. replace (Z.to_nat (hi - lo)) with 0%nat by lia. reflexivity.
Qed.

Lemma zrange_length (lo hi : Z) : List.length (zrange lo hi) = Z.to_nat (hi - lo).
Proof. unfold zrange. rewrite length_map, length_seq. reflexivity. Qed.

Lemma zrange_nth (n : Z) (k : nat) (d : Z) :
  (k < Z.to_nat n)%nat -> nth k (zrange 0 n) d = Z.of_nat k.
Proof.
  intros H. unfold zrange. rewrite Z.sub_0_r.
  rewrite (nth_indep _ d (0 + Z.of_nat 0)) by (rewrite length_map, length_seq; exact H).
  rewrite (map_nth (fun k => 0 + Z.of_nat k)), seq_nth by exact H. lia.
Qed.

Lemma In_zrange (lo hi x : Z) : In x (zrange lo hi) <-> lo <= x < hi.
Proof.
  unfold zrange. rewrite in_map_iff. split.
  - intros [k [<- Hk]]. apply in_seq in Hk. lia.
  - intros H. exists (Z.to_nat (x - lo)). split; [lia|]. apply in_seq. lia.
Qed.

(** The invariant rule for a [for] loop. *)
Lemma for_loop_invariant (S : Type) (Inv : Z -> S -> Prop) (lo hi : Z)
  (body : Z -> S -> S) (s : S) :
  lo <= hi ->
  Inv lo s ->
  (forall i x, lo <= i < hi -> Inv i x -> Inv (i + 1) (body i x)) ->
  Inv hi (for_loop lo hi body s).
Proof.
  intros Hle H0 Hstep. unfold for_loop.
  assert (Haux : forall (n : nat) (i : Z) (x : S),
             Z.to_nat (hi - i) = n -> lo <= i <= hi -> Inv i x ->
             Inv hi (fold_left (fun acc k => body k acc) (zrange i hi) x)).
  { induction n as [|n IH]; intros i x Hn Hi Hx.
    - rewrite zrange_nil by lia. replace hi with i by lia. exact Hx.
    - rewrite zrange_cons by lia. cbn [fold_left].
      apply IH; [lia | lia |]. apply Hstep; [lia | exact Hx]. }
  apply (Haux (Z.to_nat (hi - lo)) lo s); [reflexivity | lia | exact H0].
Qed.

(** A loop with an empty range does nothing. *)
Lemma for_loop_empty (S : Type) (lo hi : Z) (body : Z -> S -> S) (s : S) :
  hi <= lo -> for_loop lo hi body s = s.
Proof. intros H. unfold for_loop. rewrite zrange_nil by exact H. reflexivity. Qed.

(** The invariant rule for a loop whose body may throw. *)
Lemma for_loopM_invariant (S : Type) (Inv : S -> Prop) (lo hi : Z)
  (body : Z -> S -> Result S) (s s' : S) :
  Inv s ->
  (forall i x y, lo <= i < hi -> Inv x -> body i x = Ok y -> Inv y) ->
  for_loopM lo hi body s = Ok s' ->
  Inv s'.
Proof.
  intros H0 Hstep. unfold for_loopM.
  assert (Haux : forall (l : list Z) (acc : Result S),
             (forall i, In i l -> lo <= i < hi) ->
             (forall x, acc = Ok x -> Inv x) ->
             fold_left (fun a i => x <- a ;; body i x) l acc = Ok s' -> Inv s').
  { induction l as [|i l IH]; intros acc Hin Hacc Hrun.
    - cbn [fold_left] in Hrun. apply Hacc. exact Hrun.
    - cbn [fold_left] in Hrun. apply (IH _ (fun k Hk => Hin k (or_intror Hk))) in Hrun.
      + exact Hrun.
      + intros y Hy. apply bind_Ok_inv in Hy. destruct Hy as [x [Hx Hb]].
        apply (Hstep i x y); [apply Hin; left; reflexivity | apply Hacc; exact Hx | exact Hb]. }
  apply Haux.
  - intros i Hi. apply In_zrange. exact Hi.
  - intros x Hx. inversion Hx. subst. exact H0.
Qed.

(** ** Copy into a replicated dense matrix *)

Lemma fill_lower_row (A : ScaLAPACKMatrix) (M : FullMatrix) (i : Z) :
  let M' := for_loop (i + 1) (fm_m M)
              (fun j M' => fm_put M' i j (fill_value A M' i j)) M in
  fm_m M' = fm_m M /\ fm_n M' = fm_n M
  /\ forall a b, fm_el M' a b
                 = if (a =? i) && (i + 1 <=? b) && (b <? fm_m M)
                   then fill_value A M i b else fm_el M a b.
Proof.
  cbv zeta.
  destruct (Z_le_gt_dec (i + 1) (fm_m M)) as [Hle|Hgt].
  - apply (for_loop_invariant FullMatrix
             (fun j M' =>
                fm_m M' = fm_m M /\ fm_n M' = fm_n M
                /\ forall a b, fm_el M' a b
                               = if (a =? i) && (i + 1 <=? b) && (b <? j)
                                 then fill_value A M i b else fm_el M a b)).
    + exact Hle.
    + split; [reflexivity|]. split; [reflexivity|]. intros a b.
      destruct (a =? i), (Z.leb_spec (i + 1) b), (Z.ltb_spec b (i + 1)); try reflexivity; lia.
    + intros j X Hj [Hm [Hn Hel]]. split; [exact Hm|]. split; [exact Hn|].
      intros a b. cbn [fm_put fm_el].
      destruct (Z.eqb_spec a i) as [->|Hai]; cbn [andb].
      * destruct (Z.eqb_spec b j) as [->|Hbj].
        -- rewrite (proj2 (Z.leb_le (i + 1) j)) by lia.
           rewrite (proj2 (Z.ltb_lt j (j + 1))) by lia. cbn [andb].
           unfold fill_value. destruct (State_eqb (state A) inverse_matrix); [|reflexivity].
           rewrite Hel. rewrite (proj2 (Z.eqb_neq j i)) by lia. reflexivity.
        -- rewrite Hel, Z.eqb_refl. cbn [andb].
           destruct (Z.leb_spec (i + 1) b); cbn [andb]; [|reflexivity].
           destruct (Z.ltb_spec b j), (Z.ltb_spec b (j + 1)); try reflexivity; lia.
      * rewrite Hel. rewrite (proj2 (Z.eqb_neq a i)) by exact Hai. reflexivity.
  - rewrite for_loop_empty by lia.
    split; [reflexivity|]. split; [reflexivity|]. intros a b.
    destruct (a =? i), (Z.leb_spec (i + 1) b), (Z.ltb_spec b (fm_m M)); try reflexivity; lia.
Qed.

(** The fill for [lower_triangular]: every entry above the diagonal becomes
    the fill value computed from the entry below, all others stay. *)
Lemma fill_lower (A : ScaLAPACKMatrix) (M : FullMatrix) :
  property A = lower_triangular ->
  0 <= fm_n M ->
  let D := copy_to_FullMatrix_fill_unchecked A M in
  fm_m D = fm_m M /\ fm_n D = fm_n M
  /\ forall a b, fm_el D a b
                 = if (0 <=? a) && (a <? fm_n M) && (a <? b) && (b <? fm_m M)
                   then fill_value A M a b else fm_el M a b.
Proof.
  intros Hp Hn. cbv zeta. unfold copy_to_FullMatrix_fill_unchecked. rewrite Hp.
  apply (for_loop_invariant FullMatrix
           (fun i D =>
              fm_m D = fm_m M /\ fm_n D = fm_n M
              /\ forall a b, fm_el D a b
                             = if (0 <=? a) && (a <? i) && (a <? b) && (b <? fm_m M)
                               then fill_value A M a b else fm_el M a b)).
  - exact Hn.
  - split; [reflexivity|]. split; [reflexivity|]. intros a b.
    destruct (Z.leb_spec 0 a), (Z.ltb_spec a 0); try reflexivity; lia.
  - intros i X Hi [Hm [Hn' Hel]].
    destruct (fill_lower_row A X i) as [Hm1 [Hn1 Hel1]].
    fold (fill_value A) in *.
    change (fun (j : Z) (M' : FullMatrix) =>
              fm_put M' i j
                (if State_eqb (state A) inverse_matrix then fm_el M' j i else of_int 0))
      with (fun (j : Z) (M' : FullMatrix) => fm_put M' i j (fill_value A M' i j)).
    split; [congruence|]. split; [congruence|].
    intros a b. rewrite Hel1, Hm.
    destruct (Z.eqb_spec a i) as [->|Hai]; cbn [andb].
    + rewrite (proj2 (Z.leb_le 0 i)) by lia.
      rewrite (proj2 (Z.ltb_lt i (i + 1))) by lia. cbn [andb].
      destruct (Z.leb_spec (i + 1) b), (Z.ltb_spec i b); try lia; cbn [andb].
      * destruct (Z.ltb_spec b (fm_m M)).
        -- unfold fill_value. destruct (State_eqb (state A) inverse_matrix); [|reflexivity].
           rewrite Hel. destruct (Z.leb_spec 0 b); cbn [andb]; [|reflexivity].
           destruct (Z.ltb_spec b i); cbn [andb]; [lia | reflexivity].
        -- rewrite Hel. rewrite Z.ltb_irrefl. rewrite andb_false_r. reflexivity.
      * rewrite Hel. rewrite Z.ltb_irrefl. rewrite andb_false_r. reflexivity.
    + rewrite Hel.
      destruct (Z.leb_spec 0 a); cbn [andb]; [|reflexivity].
      destruct (Z.ltb_spec a i), (Z.ltb_spec a (i + 1)); try reflexivity; lia.
Qed.

(** ** Worlds *)

Lemma mapM_Ok_nth (T U : Type) (f : T -> Result U) (l : list T) (l' : list U) :
  mapM f l = Ok l' ->
  List.length l' = List.length l
  /\ forall r y, nth_error l' r = Some y ->
                 exists x, nth_error l r = Some x /\ f x = Ok y.
Proof.
  revert l'. induction l as [|x l IH]; intros l' H; cbn [mapM] in H.
  - inversion H. split; [reflexivity|]. intros [|r] y Hy; discriminate Hy.
  - apply bind_Ok_inv in H. destruct H as [y0 [Hx H]].
    apply bind_Ok_inv in H. destruct H as [ys [Hl H]].
    inversion H. subst l'. destruct (IH ys Hl) as [Hlen Hnth].
    split; [cbn [List.length]; congruence|].
    intros [|r] y Hy; cbn [nth_error] in *.
    + inversion Hy. subst. exists x. split; [reflexivity | exact Hx].
    + apply Hnth. exact Hy.
Qed.

Lemma mapM_Ok_intro (T U : Type) (f : T -> Result U) (g : T -> U) (l : list T) :
  (forall x, In x l -> f x = Ok (g x)) -> mapM f l = Ok (map g l).
Proof.
  induction l as [|x l IH]; intros H; cbn [mapM map].
  - reflexivity.
  - rewrite (H x (or_introl eq_refl)). cbn [bind].
    rewrite IH by (intros y Hy; apply H; right; exact Hy). reflexivity.
Qed.

Lemma mapM_Ok_exists (T U : Type) (f : T -> Result U) (l : list T) :
  (forall x, In x l -> exists y, f x = Ok y) -> exists l', mapM f l = Ok l'.
Proof.
  induction l as [|x l IH]; intros H; cbn [mapM].
  - eexists; reflexivity.
  - destruct (H x (or_introl eq_refl)) as [y Hy]. rewrite Hy. cbn [bind].
    destruct (IH (fun z Hz => H z (or_intror Hz))) as [l' Hl']. rewrite Hl'.
    cbn [bind]. eexists; reflexivity.
Qed.

Lemma nth_error_combine_inv (T U : Type) (l1 : list T) (l2 : list U) (r : nat) (x : T) (y : U) :
  nth_error (combine l1 l2) r = Some (x, y) ->
  nth_error l1 r = Some x /\ nth_error l2 r = Some y.
Proof.
  revert l2 r. induction l1 as [|a l1 IH]; intros [|b l2] [|r] H; cbn in H; try discriminate H.
  - inversion H. split; reflexivity.
  - cbn [nth_error]. apply IH. exact H.
Qed.

Lemma nth_error_combine_intro (T U : Type) (l1 : list T) (l2 : list U) (r : nat) (x : T) (y : U) :
  nth_error l1 r = Some x -> nth_error l2 r = Some y ->
  nth_error (combine l1 l2) r = Some (x, y).
Proof.
  revert l2 r. induction l1 as [|a l1 IH]; intros [|b l2] [|r] H1 H2; cbn in *;
    try discriminate H1; try discriminate H2.
  - inversion H1. inversion H2. reflexivity.
  - apply IH; assumption.
Qed.

Lemma nth_error_map_inv (T U : Type) (f : T -> U) (l : list T) (r : nat) (y : U) :
  nth_error (map f l) r = Some y -> exists x, nth_error l r = Some x /\ y = f x.
Proof.
  rewrite nth_error_map. destruct (nth_error l r) as [x|]; cbn; intros H; [|discriminate H].
  inversion H. exists x. split; reflexivity.
Qed.

(** ** Copy into a replicated dense matrix, as a whole *)

Lemma copy_to_FullMatrix_local_dims (A : ScaLAPACKMatrix) (M L : FullMatrix) :
  copy_to_FullMatrix_local_unchecked A M = Ok L ->
  fm_m L = n_rows A /\ fm_n L = n_columns A.
Proof.
  unfold copy_to_FullMatrix_local_unchecked. intros H.
  apply bind_Ok_inv in H. destruct H as [? [Hm H]]. apply Assert_Ok_inv, Z.eqb_eq in Hm.
  apply bind_Ok_inv in H. destruct H as [? [Hn H]]. apply Assert_Ok_inv, Z.eqb_eq in Hn.
  destruct (mpi_process_is_active (grid A)).
  - apply (for_loopM_invariant FullMatrix
             (fun X => fm_m X = n_rows A /\ fm_n X = n_columns A)) in H; [exact H | | ].
    + split; cbn [fm_zero fm_m fm_n]; congruence.
    + intros i X Y _ HX HY. apply bind_Ok_inv in HY. destruct HY as [gi [_ HY]].
      apply (for_loopM_invariant FullMatrix
               (fun X => fm_m X = n_rows A /\ fm_n X = n_columns A)) in HY;
        [exact HY | exact HX | ].
      intros j X' Y' _ HX' HY'. apply bind_Ok_inv in HY'. destruct HY' as [gj [_ HY']].
      inversion HY'. exact HX'.
  - inversion H. subst. split; congruence.
Qed.

(** What the fill leaves in the dense matrix of a process, for a square
    matrix with property [lower_triangular]. *)
Lemma copy_to_FullMatrix_fill_outcome
  (thisw : World ScaLAPACKMatrix) (matrixw Dw : World FullMatrix)
  (r : nat) (A : ScaLAPACKMatrix) (D : FullMatrix) :
  copy_to_FullMatrix_unchecked thisw matrixw = Ok Dw ->
  nth_error thisw r = Some A ->
  nth_error Dw r = Some D ->
  property A = lower_triangular ->
  n_rows A = n_columns A ->
  (state A = inverse_matrix ->
   forall i j, 0 <= i < n_rows A -> 0 <= j < n_rows A -> fm_el D i j = fm_el D j i)
  /\ (state A <> inverse_matrix ->
      forall i j, 0 <= i -> i < j -> j < n_rows A -> fm_el D i j = of_int 0).
Proof.
  intros Hrun HA HD Hprop Hsq. unfold copy_to_FullMatrix_unchecked in Hrun.
  apply bind_Ok_inv in Hrun. destruct Hrun as [locals [Hloc Hrun]].
  inversion Hrun as [HDw]. clear Hrun. subst Dw.
  apply nth_error_map_inv in HD. destruct HD as [[A' L] [HAL ->]].
  apply nth_error_combine_inv in HAL. destruct HAL as [HA' HL].
  rewrite HA in HA'. inversion HA'. subst A'. clear HA'.
  destruct (mapM_Ok_nth _ _ _ _ _ Hloc) as [_ Hnth].
  destruct (Hnth r L HL) as [[A'' M] [HAM Hlocal]].
  apply nth_error_combine_inv in HAM. destruct HAM as [HA'' _].
  rewrite HA in HA''. inversion HA''. subst A''. clear HA''. cbn [fst snd] in *.
  apply copy_to_FullMatrix_local_dims in Hlocal. destruct Hlocal as [Hm Hn].
  set (S := MPI_sum locals L).
  assert (HSm : fm_m S = n_rows A) by (cbn; exact Hm).
  assert (HSn : fm_n S = n_rows A) by (cbn; congruence).
  destruct (Z_lt_le_dec (n_rows A) 0) as [Hneg|Hpos].
  { split; intros; lia. }
  destruct (fill_lower A S Hprop ltac:(lia)) as [_ [_ Hel]].
  rewrite HSm, HSn in Hel.
  split.
  - intros Hinv i j Hi Hj. rewrite !Hel. unfold fill_value.
    rewrite Hinv. cbn [State_eqb].
    rewrite (proj2 (Z.leb_le 0 i)), (proj2 (Z.ltb_lt i (n_rows A))) by lia.
    rewrite (proj2 (Z.leb_le 0 j)), (proj2 (Z.ltb_lt j (n_rows A))) by lia.
    cbn [andb].
    destruct (Z.ltb_spec i j), (Z.ltb_spec j i); try reflexivity; try lia.
    replace j with i by lia. reflexivity.
  - intros Hninv i j Hi Hij Hj. rewrite Hel. unfold fill_value.
    destruct (State_eqb (state A) inverse_matrix) eqn:Hs.
    + apply State_eqb_eq in Hs. contradiction.
    + rewrite (proj2 (Z.leb_le 0 i)), (proj2 (Z.ltb_lt i (n_rows A))) by lia.
      rewrite (proj2 (Z.ltb_lt i j)), (proj2 (Z.ltb_lt j (n_rows A))) by lia.
      reflexivity.
Qed.

(** ** The block-cyclic layout *)

Lemma to_unsigned_small (z : Z) : 0 <= z < 2 ^ 32 -> to_unsigned z = z.
Proof. intros H. unfold to_unsigned. apply Z.mod_small. exact H. Qed.

Lemma to_signed_small (z : Z) : - 2 ^ 31 <= z < 2 ^ 31 -> to_signed z = z.
Proof.
  intros H. unfold to_signed. rewrite Z.mod_small by lia. lia.
Qed.

(** The cyclic distance of the owner of [g] from the first process. *)
Lemma mydist_owner (g nb src p : Z) :
  0 <= g -> 1 <= nb -> 1 <= p -> 0 <= src < p ->
  (p + indxg2p_ (g + 1) nb 0 src p - src) mod p = (g / nb) mod p.
Proof.
  intros Hg Hnb Hp Hsrc. unfold indxg2p_.
  replace (g + 1 - 1) with g by lia.
  pose proof (Z.div_mod (src + g / nb) p ltac:(lia)) as E.
  replace (p + (src + g / nb) mod p - src)
    with (g / nb + (1 - (src + g / nb) / p) * p) by lia.
  apply Z.mod_add. lia.
Qed.

Lemma indxg2p_range (g nb src p : Z) :
  1 <= p -> 0 <= indxg2p_ (g + 1) nb 0 src p < p.
Proof. intros Hp. unfold indxg2p_. apply Z.mod_pos_bound. lia. Qed.

(** Local to global after global to (owner, local) is the identity. *)
Lemma indxl2g_indxg2l (g nb src p : Z) :
  0 <= g -> 1 <= nb -> 1 <= p -> 0 <= src < p ->
  indxl2g_ (indxg2l_ (g + 1) nb 0 0 p) nb (indxg2p_ (g + 1) nb 0 src p) src p = g + 1.
Proof.
  intros Hg Hnb Hp Hsrc. unfold indxl2g_.
  rewrite mydist_owner by assumption.
  unfold indxg2l_. replace (g + 1 - 1) with g by lia.
  set (k := g / (nb * p)).
  replace (nb * k + g mod nb + 1 - 1) with (g mod nb + k * nb) by lia.
  rewrite Z.div_add by lia. rewrite Z.mod_add by lia.
  rewrite Z.mod_mod by lia.
  rewrite (Z.div_small (g mod nb) nb) by (apply Z.mod_pos_bound; lia).
  assert (Hk : k = (g / nb) / p) by (unfold k; rewrite Z.div_div by lia; reflexivity).
  pose proof (Z.div_mod g nb ltac:(lia)) as E1.
  pose proof (Z.div_mod (g / nb) p ltac:(lia)) as E2.
  rewrite <- Hk in E2. nia.
Qed.

(** The local index of [g] lies within the local extent of its owner. *)
Lemma indxg2l_lt_numroc (g n nb src p : Z) :
  0 <= g < n -> 1 <= nb -> 1 <= p -> 0 <= src < p ->
  0 <= indxg2l_ (g + 1) nb 0 0 p - 1 < numroc_ n nb (indxg2p_ (g + 1) nb 0 src p) src p.
Proof.
  intros Hg Hnb Hp Hsrc. unfold numroc_.
  rewrite mydist_owner by lia.
  unfold indxg2l_. replace (g + 1 - 1) with g by lia.
  rewrite <- Z.div_div by lia.
  set (B := g / nb). set (x := g mod nb). set (NB := n / nb).
  pose proof (Z.div_mod g nb ltac:(lia)) as E1.
  pose proof (Z.mod_pos_bound g nb ltac:(lia)) as B1.
  pose proof (Z.div_mod n nb ltac:(lia)) as E2.
  pose proof (Z.mod_pos_bound n nb ltac:(lia)) as B2.
  pose proof (Z.div_mod B p ltac:(lia)) as E3.
  pose proof (Z.mod_pos_bound B p ltac:(lia)) as B3.
  pose proof (Z.div_mod NB p ltac:(lia)) as E4.
  pose proof (Z.mod_pos_bound NB p ltac:(lia)) as B4.
  fold B x NB in E1, B1, E2, B2, E3, B3, E4, B4.
  assert (HB0 : 0 <= B) by (apply Z.div_pos; lia).
  assert (HN0 : 0 <= NB) by (apply Z.div_pos; lia).
  assert (HBp : 0 <= B / p) by (apply Z.div_pos; lia).
  assert (HBN : B <= NB) by (apply Z.div_le_mono; lia).
  assert (HBNp : B / p <= NB / p) by (apply Z.div_le_mono; lia).
  assert (Hm : nb * (B / p) <= nb * (NB / p)) by (apply Z.mul_le_mono_nonneg_l; lia).
  assert (Hm0 : 0 <= nb * (B / p)) by (apply Z.mul_nonneg_nonneg; lia).
  assert (Hcase : B / p = NB / p \/ B / p + 1 <= NB / p) by lia.
  assert (Hstep : B / p + 1 <= NB / p -> nb * (B / p) + nb <= nb * (NB / p)).
  { intros Hl. replace (nb * (B / p) + nb) with (nb * (B / p + 1)) by ring.
    apply Z.mul_le_mono_nonneg_l; lia. }
  destruct (Z.ltb_spec (B mod p) (NB mod p)) as [Hlt|Hge]; [lia|].
  destruct (Z.eqb_spec (B mod p) (NB mod p)) as [Heq|Hne].
  - split; [lia|]. destruct Hcase as [He|Hl].
    + assert (HBeq : B = NB) by (rewrite E3, E4, He, Heq; reflexivity).
      rewrite HBeq in E1. rewrite He. lia.
    + specialize (Hstep Hl). lia.
  - split; [lia|]. destruct Hcase as [He|Hl].
    + exfalso. rewrite E3, E4, He in HBN. lia.
    + specialize (Hstep Hl). lia.
Qed.

(** A local extent is between zero and the global extent. *)
Lemma numroc_bounds (n nb iproc src p : Z) :
  0 <= n -> 1 <= nb -> 1 <= p -> 0 <= numroc_ n nb iproc src p <= n.
Proof.
  intros Hn Hnb Hp. unfold numroc_.
  set (NB := n / nb). set (d := (p + iproc - src) mod p).
  pose proof (Z.div_mod n nb ltac:(lia)) as E2.
  pose proof (Z.mod_pos_bound n nb ltac:(lia)) as B2.
  pose proof (Z.div_mod NB p ltac:(lia)) as E4.
  pose proof (Z.mod_pos_bound NB p ltac:(lia)) as B4.
  pose proof (Z.mod_pos_bound (p + iproc - src) p ltac:(lia)) as Bd.
  fold NB d in E2, B2, E4, B4, Bd.
  assert (HN0 : 0 <= NB) by (apply Z.div_pos; lia).
  assert (HNp : 0 <= NB / p) by (apply Z.div_pos; lia).
  assert (H0 : 0 <= NB / p * nb) by (apply Z.mul_nonneg_nonneg; lia).
  assert (H1 : NB / p <= NB).
  { rewrite E4 at 2. assert (NB / p <= p * (NB / p)) by nia. lia. }
  assert (H2 : NB / p * nb <= NB * nb) by (apply Z.mul_le_mono_nonneg_r; lia).
  assert (H3 : nb * NB = NB * nb) by ring.
  destruct (Z.ltb_spec d (NB mod p)) as [Hlt|Hge].
  - split; [lia|].
    assert (H4 : NB / p + 1 <= NB).
    { rewrite E4 at 2. assert (NB / p <= p * (NB / p)) by nia. lia. }
    assert (H5 : (NB / p + 1) * nb <= NB * nb) by (apply Z.mul_le_mono_nonneg_r; lia).
    lia.
  - destruct (Z.eqb_spec d (NB mod p)); lia.
Qed.

Lemma local_to_global_owner (g b p src : Z) :
  0 <= g -> 1 <= b -> 1 <= p -> 0 <= src < p ->
  local_to_global (snd (owner_and_local g b p src)) b
    (fst (owner_and_local g b p src)) src p = g.
Proof.
  intros Hg Hb Hp Hsrc. unfold owner_and_local, local_to_global. cbn [fst snd].
  replace (indxg2l_ (g + 1) b 0 0 p - 1 + 1) with (indxg2l_ (g + 1) b 0 0 p) by lia.
  rewrite indxl2g_indxg2l by lia. lia.
Qed.

(** [global_row] on the process that owns global row [g]. *)
Lemma global_row_owner (A : ScaLAPACKMatrix) (g : Z) :
  0 <= g < n_rows A -> n_rows A < 2 ^ 31 ->
  1 <= row_block_size A -> 1 <= n_process_rows (grid A) ->
  0 <= first_process_row A < n_process_rows (grid A) ->
  this_process_row (grid A)
  = fst (owner_and_local g (row_block_size A) (n_process_rows (grid A)) (first_process_row A)) ->
  n_local_rows A
  = numroc_ (n_rows A) (row_block_size A) (this_process_row (grid A))
      (first_process_row A) (n_process_rows (grid A)) ->
  global_row A
    (snd (owner_and_local g (row_block_size A) (n_process_rows (grid A)) (first_process_row A)))
  = Ok g.
Proof.
  intros Hg Hn Hb Hp Hsrc Hrow Hnl. unfold global_row.
  pose proof (local_to_global_owner g _ _ _ ltac:(lia) Hb Hp Hsrc) as Hround.
  rewrite <- Hrow in Hround. unfold local_to_global in Hround.
  pose proof (indxg2l_lt_numroc g (n_rows A) _ _ _ Hg Hb Hp Hsrc) as Hl.
  pose proof (numroc_bounds (n_rows A) (row_block_size A) (this_process_row (grid A))
                (first_process_row A) (n_process_rows (grid A)) ltac:(lia) Hb Hp) as Hnb.
  unfold owner_and_local in *. cbn [fst snd] in *.
  rewrite <- Hrow, <- Hnl in Hl.
  rewrite (to_unsigned_small (n_local_rows A)) by lia.
  rewrite Assert_true
    by (apply andb_true_iff; split; [apply Z.leb_le | apply Z.ltb_lt]; lia).
  cbn [bind].
  rewrite (to_unsigned_small (indxg2l_ _ _ _ _ _ - 1 + 1)) by lia.
  rewrite to_signed_small by lia.
  rewrite Hround. rewrite to_unsigned_small by lia. reflexivity.
Qed.

(** [global_column] on the process that owns global column [g]. *)
Lemma global_column_owner (A : ScaLAPACKMatrix) (g : Z) :
  0 <= g < n_columns A -> n_columns A < 2 ^ 31 ->
  1 <= column_block_size A -> 1 <= n_process_columns (grid A) ->
  0 <= first_process_column A < n_process_columns (grid A) ->
  this_process_column (grid A)
  = fst (owner_and_local g (column_block_size A) (n_process_columns (grid A))
           (first_process_column A)) ->
  n_local_columns A
  = numroc_ (n_columns A) (column_block_size A) (this_process_column (grid A))
      (first_process_column A) (n_process_columns (grid A)) ->
  global_column A
    (snd (owner_and_local g (column_block_size A) (n_process_columns (grid A))
            (first_process_column A)))
  = Ok g.
Proof.
  intros Hg Hn Hb Hp Hsrc Hcol Hnl. unfold global_column.
  pose proof (local_to_global_owner g _ _ _ ltac:(lia) Hb Hp Hsrc) as Hround.
  rewrite <- Hcol in Hround. unfold local_to_global in Hround.
  pose proof (indxg2l_lt_numroc g (n_columns A) _ _ _ Hg Hb Hp Hsrc) as Hl.
  pose proof (numroc_bounds (n_columns A) (column_block_size A)
                (this_process_column (grid A)) (first_process_column A)
                (n_process_columns (grid A)) ltac:(lia) Hb Hp) as Hnb.
  unfold owner_and_local in *. cbn [fst snd] in *.
  rewrite <- Hcol, <- Hnl in Hl.
  rewrite (to_unsigned_small (n_local_columns A)) by lia.
  rewrite Assert_true
    by (apply andb_true_iff; split; [apply Z.leb_le | apply Z.ltb_lt]; lia).
  cbn [bind].
  rewrite (to_unsigned_small (indxg2l_ _ _ _ _ _ - 1 + 1)) by lia.
  rewrite to_signed_small by lia.
  rewrite Hround. rewrite to_unsigned_small by lia. reflexivity.
Qed.

(** C2: mapping a global index [g] to its owning process coordinate and
    local index, and that local index back on the owning coordinate, gives
    [g] again, for every block size [b >= 1], grid dimension [p >= 1] and
    first-process coordinate, a 1x1 grid and a block as large as the dimension
    included.  This holds for the pure layout functions and for [global_row]
    and [global_column] of a matrix object on the owning process. *)
Theorem block_cyclic_round_trip (g b p src : Z) :
  0 <= g < 2 ^ 31 - 1 -> 1 <= b -> 1 <= p -> 0 <= src < p ->
  let owner := fst (owner_and_local g b p src) in
  let l := snd (owner_and_local g b p src) in
  local_to_global l b owner src p = g
  /\ (forall A : ScaLAPACKMatrix,
         row_block_size A = b -> n_process_rows (grid A) = p ->
         first_process_row A = src -> this_process_row (grid A) = owner ->
         g < n_rows A < 2 ^ 31 ->
         n_local_rows A = numroc_ (n_rows A) b owner src p ->
         global_row A l = Ok g)
  /\ (forall A : ScaLAPACKMatrix,
         column_block_size A = b -> n_process_columns (grid A) = p ->
         first_process_column A = src -> this_process_column (grid A) = owner ->
         g < n_columns A < 2 ^ 31 ->
         n_local_columns A = numroc_ (n_columns A) b owner src p ->
         global_column A l = Ok g).
Proof.
  intros Hg Hb Hp Hsrc. cbv zeta.
  split; [apply local_to_global_owner; lia|].
  split.
  - intros A Hbs HR Hsrc' Hrow Hn Hnl. subst b p src.
    apply global_row_owner; try lia; try assumption. rewrite Hrow. exact Hnl.
  - intros A Hbs HC Hsrc' Hcol Hn Hnl. subst b p src.
    apply global_column_owner; try lia; try assumption. rewrite Hcol. exact Hnl.
Qed.

(** The owner and the local index of the global index that
    [local_to_global] gives are the coordinate and the local index it was
    given: the layout functions are inverse to each other in both
    directions. *)
Lemma owner_and_local_local_to_global (l b coord src p : Z) :
  0 <= l -> 1 <= b -> 1 <= p -> 0 <= coord < p -> 0 <= src < p ->
  0 <= local_to_global l b coord src p
  /\ owner_and_local (local_to_global l b coord src p) b p src = (coord, l).
Proof.
  intros Hl Hb Hp Hc Hs. unfold owner_and_local, local_to_global, indxl2g_.
  replace (l + 1 - 1) with l by lia.
  set (d := (p + coord - src) mod p).
  set (k := l / b). set (x := l mod b).
  pose proof (Z.div_mod l b ltac:(lia)) as El.
  pose proof (Z.mod_pos_bound l b ltac:(lia)) as Bl.
  pose proof (Z.div_mod (p + coord - src) p ltac:(lia)) as Ed.
  pose proof (Z.mod_pos_bound (p + coord - src) p ltac:(lia)) as Bd.
  fold d in Ed, Bd. fold k x in El, Bl.
  assert (Hk : 0 <= k) by (apply Z.div_pos; lia).
  assert (Hpbk : 0 <= p * b * k) by (apply Z.mul_nonneg_nonneg; nia).
  assert (Hdb : 0 <= d * b) by (apply Z.mul_nonneg_nonneg; lia).
  assert (Hdb' : d * b + x < b * p) by nia.
  set (g := p * b * k + x + d * b + 1 - 1).
  assert (Hg0 : 0 <= g) by (unfold g; lia).
  split; [exact Hg0|].
  assert (Hgb : g / b = p * k + d).
  { symmetry. apply (Z.div_unique_pos g b (p * k + d) x); [lia | unfold g; ring]. }
  assert (Hgm : g mod b = x).
  { symmetry. apply (Z.mod_unique_pos g b (p * k + d) x); [lia | unfold g; ring]. }
  assert (Hgbp : g / (b * p) = k).
  { symmetry. apply (Z.div_unique_pos g (b * p) k (d * b + x)); [lia | unfold g; ring]. }
  unfold indxg2p_, indxg2l_. replace (g + 1 - 1) with g by lia.
  rewrite Hgb, Hgm, Hgbp. f_equal; [|lia].
  set (q := (p + coord - src) / p) in *.
  symmetry. apply (Z.mod_unique_pos _ p (k + 1 - q) coord); [lia|].
  lia.
Qed.

(** A local index below the local extent maps to a global index below the
    global extent. *)
Lemma local_to_global_lt (l n b coord src p : Z) :
  0 <= n -> 1 <= b -> 1 <= p ->
  0 <= l < numroc_ n b coord src p ->
  local_to_global l b coord src p < n.
Proof.
  intros Hn Hb Hp Hl. unfold local_to_global, indxl2g_.
  replace (l + 1 - 1) with l by lia.
  unfold numroc_ in Hl.
  set (d := (p + coord - src) mod p) in *.
  set (k := l / b). set (x := l mod b).
  set (NB := n / b) in *. set (q := NB / p) in *. set (e := NB mod p) in *.
  pose proof (Z.div_mod l b ltac:(lia)) as El.
  pose proof (Z.mod_pos_bound l b ltac:(lia)) as Bl.
  pose proof (Z.div_mod n b ltac:(lia)) as En.
  pose proof (Z.mod_pos_bound n b ltac:(lia)) as Bn.
  pose proof (Z.div_mod NB p ltac:(lia)) as EN.
  pose proof (Z.mod_pos_bound NB p ltac:(lia)) as BN.
  pose proof (Z.mod_pos_bound (p + coord - src) p ltac:(lia)) as Bd.
  fold d in Bd. fold k x in El, Bl. fold NB in En. fold q e in EN, BN.
  assert (Hk : 0 <= k) by (apply Z.div_pos; lia).
  assert (HNB : 0 <= NB) by (apply Z.div_pos; lia).
  assert (Hq : 0 <= q) by (apply Z.div_pos; lia).
  (* the global block index is [p * k + d] *)
  assert (Hform : p * b * k + x + d * b + 1 - 1 = b * (p * k + d) + x) by ring.
  rewrite Hform.
  assert (Hblock : forall B, B + 1 <= NB -> b * B + x < n).
  { intros B HB. assert (b * (B + 1) <= b * NB) by (apply Z.mul_le_mono_nonneg_l; lia). lia. }
  assert (Hkq : forall K, k <= K -> p * k <= p * K).
  { intros K HK. apply Z.mul_le_mono_nonneg_l; lia. }
  assert (Hbk : forall K, K <= k -> b * K <= b * k).
  { intros K HK. apply Z.mul_le_mono_nonneg_l; lia. }
  destruct (Z.ltb_spec d e) as [Hlt|Hge].
  - (* l < q * b + b, so k <= q *)
    assert (Hkle : k <= q).
    { destruct (Z_le_gt_dec k q) as [H|H]; [exact H|].
      specialize (Hbk (q + 1) ltac:(lia)). lia. }
    specialize (Hkq q Hkle). apply Hblock. lia.
  - destruct (Z.eqb_spec d e) as [Heq|Hne].
    + assert (Hkle : k <= q).
      { destruct (Z_le_gt_dec k q) as [H|H]; [exact H|].
        specialize (Hbk (q + 1) ltac:(lia)). lia. }
      destruct (Z.eq_dec k q) as [Hkq'|Hkq'].
      * subst k. rewrite Hkq' in *. rewrite Heq, <- EN. lia.
      * specialize (Hkq (q - 1) ltac:(lia)). apply Hblock. lia.
    + assert (Hkle : k <= q - 1).
      { destruct (Z_le_gt_dec k (q - 1)) as [H|H]; [exact H|].
        specialize (Hbk q ltac:(lia)). lia. }
      specialize (Hkq (q - 1) Hkle). apply Hblock. lia.
Qed.

(** ** Distributed matrices *)

Lemma layout_grid_active (L : Layout) (rank : Z) :
  mpi_process_is_active (layout_grid L rank) = (rank <? lay_R L * lay_C L).
Proof. reflexivity. Qed.

Lemma in_layout_has_layout (L : Layout) (rank : Z) (A : ScaLAPACKMatrix) :
  Layout_valid L -> in_layout L rank A -> has_layout L rank A.
Proof.
  intros [Hmb [Hm [Hnb [Hn [HR [HC [HP Hctx]]]]]]] H. unfold in_layout in H.
  rewrite ScaLAPACKMatrix_ctor_Ok in H by (cbn; lia).
  rewrite layout_grid_active in H.
  assert (HA : (if rank <? lay_R L * lay_C L
                then constructed_active (lay_m L) (lay_n L) (layout_grid L rank)
                       (lay_mb L) (lay_nb L) (property A)
                else constructed_inactive (lay_m L) (lay_n L) (layout_grid L rank)
                       (lay_mb L) (lay_nb L) (property A)) = as_constructed A)
    by congruence.
  clear H.
  destruct (Z.ltb_spec rank (lay_R L * lay_C L)) as [Hact|Hinact].
  - pose proof (f_equal grid HA) as Hg. pose proof (f_equal n_rows HA) as E1.
    pose proof (f_equal n_columns HA) as E2. pose proof (f_equal row_block_size HA) as E3.
    pose proof (f_equal column_block_size HA) as E4.
    pose proof (f_equal first_process_row HA) as E5.
    pose proof (f_equal first_process_column HA) as E6.
    pose proof (f_equal submatrix_row HA) as E7.
    pose proof (f_equal submatrix_column HA) as E8.
    pose proof (f_equal n_local_rows HA) as E9.
    pose proof (f_equal n_local_columns HA) as E10.
    pose proof (f_equal table_n_rows HA) as E11.
    pose proof (f_equal descriptor HA) as E12.
    pose proof (f_equal (fun X => List.length (values X)) HA) as E13.
    cbn in Hg, E1, E2, E3, E4, E5, E6, E7, E8, E9, E10, E11, E12, E13.
    rewrite (proj2 (Z.ltb_lt rank (lay_R L * lay_C L)) Hact) in *.
    rewrite !repeat_length in E13.
    constructor; try (symmetry; assumption); try (intros; lia).
    intros _. rewrite <- E9, <- E10, <- E11, <- E12, <- E13. repeat split; reflexivity.
  - pose proof (f_equal grid HA) as Hg. pose proof (f_equal n_rows HA) as E1.
    pose proof (f_equal n_columns HA) as E2. pose proof (f_equal row_block_size HA) as E3.
    pose proof (f_equal column_block_size HA) as E4.
    pose proof (f_equal first_process_row HA) as E5.
    pose proof (f_equal first_process_column HA) as E6.
    pose proof (f_equal submatrix_row HA) as E7.
    pose proof (f_equal submatrix_column HA) as E8.
    pose proof (f_equal descriptor HA) as E12.
    pose proof (f_equal (fun X => List.length (values X)) HA) as E13.
    cbn in Hg, E1, E2, E3, E4, E5, E6, E7, E8, E12, E13.
    rewrite repeat_length in E13.
    constructor; try (symmetry; assumption); try (intros; lia).
    intros _. split; [symmetry; exact E12|].
    apply length_zero_iff_nil. symmetry. exact E13.
Qed.

Lemma Forall2_nth_error (T U : Type) (R : T -> U -> Prop) (l1 : list T) (l2 : list U) :
  Forall2 R l1 l2 ->
  List.length l2 = List.length l1
  /\ forall k y, nth_error l2 k = Some y -> exists x, nth_error l1 k = Some x /\ R x y.
Proof.
  induction 1 as [|x y l1 l2 Hxy _ [IHlen IHnth]].
  - split; [reflexivity|]. intros [|k] y Hy; discriminate Hy.
  - split; [cbn; congruence|]. intros [|k] y' Hy; cbn in *.
    + inversion Hy. subst. exists x. split; [reflexivity | exact Hxy].
    + apply IHnth. exact Hy.
Qed.

Lemma nth_error_zrange (n : Z) (k : nat) (x : Z) :
  nth_error (zrange 0 n) k = Some x -> x = Z.of_nat k /\ (k < Z.to_nat n)%nat.
Proof.
  intros H. assert (Hk : (k < List.length (zrange 0 n))%nat).
  { apply nth_error_Some. congruence. }
  rewrite zrange_length, Z.sub_0_r in Hk. split; [|exact Hk].
  apply (nth_error_nth _ _ 0) in H. rewrite zrange_nth in H by exact Hk. congruence.
Qed.

Lemma distributed_ranked (L : Layout) (s : State) (p : Property)
  (Aw : World ScaLAPACKMatrix) :
  Layout_valid L -> distributed L s p Aw ->
  ranked L Aw
  /\ forall k A, nth_error Aw k = Some A -> state A = s /\ property A = p.
Proof.
  intros Hv H. apply Forall2_nth_error in H. destruct H as [Hlen Hnth].
  rewrite zrange_length, Z.sub_0_r in Hlen.
  split; [split; [exact Hlen|]|].
  - intros k A HA. destruct (Hnth k A HA) as [x [Hx [Hin _]]].
    apply nth_error_zrange in Hx. destruct Hx as [-> _].
    apply in_layout_has_layout; assumption.
  - intros k A HA. destruct (Hnth k A HA) as [x [_ [_ Hsp]]]. exact Hsp.
Qed.

Lemma ranked_nth (L : Layout) (Aw : World ScaLAPACKMatrix) (r : Z) :
  ranked L Aw -> 0 <= r < lay_P L ->
  exists A, nth_error Aw (Z.to_nat r) = Some A /\ has_layout L r A.
Proof.
  intros [Hlen Hnth] Hr.
  destruct (nth_error Aw (Z.to_nat r)) as [A|] eqn:HA.
  - exists A. split; [reflexivity|]. specialize (Hnth _ _ HA).
    rewrite Z2Nat.id in Hnth by lia. exact Hnth.
  - apply nth_error_None in HA. lia.
Qed.

Lemma owner_rank_facts (L : Layout) (gi gj : Z) :
  Layout_valid L ->
  0 <= owner_rank L gi gj < lay_R L * lay_C L
  /\ owner_rank L gi gj mod lay_R L = owner_row L gi
  /\ owner_rank L gi gj / lay_R L = owner_column L gj.
Proof.
  intros [Hmb [Hm [Hnb [Hn [HR [HC [HP Hctx]]]]]]].
  unfold owner_rank, owner_row, owner_column, owner_and_local. cbn [fst snd].
  pose proof (indxg2p_range gi (lay_mb L) 0 (lay_R L) HR) as Hpr.
  pose proof (indxg2p_range gj (lay_nb L) 0 (lay_C L) HC) as Hpc.
  set (pr := indxg2p_ (gi + 1) (lay_mb L) 0 0 (lay_R L)) in *.
  set (pc := indxg2p_ (gj + 1) (lay_nb L) 0 0 (lay_C L)) in *.
  split; [nia|]. split.
  - rewrite Z.mod_add by lia. apply Z.mod_small. lia.
  - rewrite Z.div_add by lia. rewrite Z.div_small by lia. lia.
Qed.

Lemma rank_of_coordinates (R r pr pc : Z) :
  1 <= R -> r mod R = pr -> r / R = pc -> r = pr + pc * R.
Proof.
  intros HR Hm Hd. pose proof (Z.div_mod r R ltac:(lia)) as E. subst pr pc. lia.
Qed.

(** The object of the owner of [(gi, gj)]. *)
Lemma owner_object (L : Layout) (Aw : World ScaLAPACKMatrix) (gi gj : Z) :
  Layout_valid L -> ranked L Aw ->
  0 <= gi < lay_m L -> 0 <= gj < lay_n L ->
  exists A,
    nth_error Aw (Z.to_nat (owner_rank L gi gj)) = Some A
    /\ has_layout L (owner_rank L gi gj) A
    /\ mpi_process_is_active (grid A) = true
    /\ this_process_row (grid A) = owner_row L gi
    /\ this_process_column (grid A) = owner_column L gj
    /\ 0 <= local_row L gi < n_local_rows A
    /\ 0 <= local_column L gj < n_local_columns A
    /\ global_row A (local_row L gi) = Ok gi
    /\ global_column A (local_column L gj) = Ok gj.
Proof.
  intros Hv Hrk Hgi Hgj.
  destruct (owner_rank_facts L gi gj Hv) as [Hr [Hmod Hdiv]].
  pose proof Hv as [Hmb [Hm [Hnb [Hn [HR [HC [HP Hctx]]]]]]].
  destruct (ranked_nth L Aw (owner_rank L gi gj) Hrk ltac:(lia)) as [A [HA Hl]].
  exists A. split; [exact HA|]. split; [exact Hl|].
  destruct Hl as [Hg Hnr Hnc Hrbs Hcbs Hfr Hfc Hsr Hsc Hact _].
  destruct (Hact ltac:(lia)) as [Hnlr [Hnlc _]].
  assert (Hactive : mpi_process_is_active (grid A) = true).
  { rewrite Hg, layout_grid_active. apply Z.ltb_lt. lia. }
  assert (Hrow : this_process_row (grid A) = owner_row L gi).
  { rewrite Hg. cbn. rewrite (proj2 (Z.ltb_lt _ _)) by lia. exact Hmod. }
  assert (Hcol : this_process_column (grid A) = owner_column L gj).
  { rewrite Hg. cbn. rewrite (proj2 (Z.ltb_lt _ _)) by lia. exact Hdiv. }
  assert (HRg : n_process_rows (grid A) = lay_R L) by (rewrite Hg; reflexivity).
  assert (HCg : n_process_columns (grid A) = lay_C L) by (rewrite Hg; reflexivity).
  split; [exact Hactive|]. split; [exact Hrow|]. split; [exact Hcol|].
  split.
  { rewrite Hnlr, Hmod. unfold local_row, owner_row, owner_and_local. cbn [fst snd].
    apply indxg2l_lt_numroc; lia. }
  split.
  { rewrite Hnlc, Hdiv. unfold local_column, owner_column, owner_and_local. cbn [fst snd].
    apply indxg2l_lt_numroc; lia. }
  split.
  - unfold local_row. rewrite <- Hrbs, <- HRg, <- Hfr.
    apply global_row_owner; rewrite ?Hnr, ?Hrbs, ?HRg, ?Hfr; try lia.
    + exact Hrow.
    + rewrite Hrow, Hnlr, Hmod. reflexivity.
  - unfold local_column. rewrite <- Hcbs, <- HCg, <- Hfc.
    apply global_column_owner; rewrite ?Hnc, ?Hcbs, ?HCg, ?Hfc; try lia.
    + exact Hcol.
    + rewrite Hcol, Hnlc, Hdiv. reflexivity.
Qed.

(** [layout_el] is an entry in the sense of [global_row], [global_column]
    and [local_el]. *)
Lemma entry_layout_el (L : Layout) (Aw : World ScaLAPACKMatrix) (gi gj : Z) :
  Layout_valid L -> ranked L Aw ->
  0 <= gi < lay_m L -> 0 <= gj < lay_n L ->
  entry Aw gi gj (layout_el L Aw gi gj).
Proof.
  intros Hv Hrk Hgi Hgj.
  destruct (owner_object L Aw gi gj Hv Hrk Hgi Hgj)
    as [A [HA [_ [Hact [_ [_ [[Hli _] [[Hlj _] [Hrow Hcol]]]]]]]]].
  unfold entry, layout_el. rewrite HA.
  exists (Z.to_nat (owner_rank L gi gj)), A, (local_row L gi), (local_column L gj).
  repeat split; assumption.
Qed.

(** [global_row] read backwards: an active process of the layout that maps
    its local row [li] to [gi] is the owner of row [gi], and [li] is the local
    index of [gi]. *)
Lemma global_row_position (L : Layout) (r : Z) (A : ScaLAPACKMatrix) (li gi : Z) :
  Layout_valid L -> has_layout L r A -> 0 <= r < lay_R L * lay_C L ->
  0 <= li -> global_row A li = Ok gi ->
  0 <= gi < lay_m L /\ r mod lay_R L = owner_row L gi /\ li = local_row L gi.
Proof.
  intros Hv Hl Hr Hli H.
  destruct Hv as [Hmb [Hm [Hnb [Hn [HR [HC [HP Hctx]]]]]]].
  destruct Hl as [Hg Hnr Hnc Hrbs Hcbs Hfr Hfc Hsr Hsc Hact _].
  destruct (Hact ltac:(lia)) as [Hnlr _].
  assert (Hrow : this_process_row (grid A) = r mod lay_R L).
  { rewrite Hg. cbn. rewrite (proj2 (Z.ltb_lt _ _)) by lia. reflexivity. }
  assert (HRg : n_process_rows (grid A) = lay_R L) by (rewrite Hg; reflexivity).
  pose proof (Z.mod_pos_bound r (lay_R L) ltac:(lia)) as Hc.
  pose proof (numroc_bounds (lay_m L) (lay_mb L) (r mod lay_R L) 0 (lay_R L)
                ltac:(lia) ltac:(lia) HR) as Hnb'.
  unfold global_row in H. apply bind_Ok_inv in H. destruct H as [u [Hassert H]].
  apply Assert_Ok_inv in Hassert. apply andb_true_iff in Hassert.
  destruct Hassert as [_ Hlt]. apply Z.ltb_lt in Hlt.
  rewrite Hnlr, to_unsigned_small in Hlt by lia.
  rewrite Hrbs, Hrow, Hfr, HRg in H.
  rewrite (to_unsigned_small (li + 1)) in H by lia.
  rewrite to_signed_small in H by lia.
  pose proof (local_to_global_lt li (lay_m L) (lay_mb L) (r mod lay_R L) 0 (lay_R L)
                ltac:(lia) ltac:(lia) HR ltac:(lia)) as Hlt'.
  destruct (owner_and_local_local_to_global li (lay_mb L) (r mod lay_R L) 0 (lay_R L)
              Hli ltac:(lia) HR Hc ltac:(lia)) as [H0 Hinv].
  unfold local_to_global in Hlt', H0, Hinv.
  rewrite to_unsigned_small in H by lia.
  injection H as H. subst gi.
  split; [lia|]. unfold owner_row, local_row. rewrite Hinv. split; reflexivity.
Qed.

Lemma global_column_position (L : Layout) (r : Z) (A : ScaLAPACKMatrix) (lj gj : Z) :
  Layout_valid L -> has_layout L r A -> 0 <= r < lay_R L * lay_C L ->
  0 <= lj -> global_column A lj = Ok gj ->
  0 <= gj < lay_n L /\ r / lay_R L = owner_column L gj /\ lj = local_column L gj.
Proof.
  intros Hv Hl Hr Hlj H.
  destruct Hv as [Hmb [Hm [Hnb [Hn [HR [HC [HP Hctx]]]]]]].
  destruct Hl as [Hg Hnr Hnc Hrbs Hcbs Hfr Hfc Hsr Hsc Hact _].
  destruct (Hact ltac:(lia)) as [_ [Hnlc _]].
  assert (Hcol : this_process_column (grid A) = r / lay_R L).
  { rewrite Hg. cbn. rewrite (proj2 (Z.ltb_lt _ _)) by lia. reflexivity. }
  assert (HCg : n_process_columns (grid A) = lay_C L) by (rewrite Hg; reflexivity).
  assert (Hc : 0 <= r / lay_R L < lay_C L).
  { split; [apply Z.div_pos; lia|]. apply Z.div_lt_upper_bound; lia. }
  pose proof (numroc_bounds (lay_n L) (lay_nb L) (r / lay_R L) 0 (lay_C L)
                ltac:(lia) ltac:(lia) HC) as Hnb'.
  unfold global_column in H. apply bind_Ok_inv in H. destruct H as [u [Hassert H]].
  apply Assert_Ok_inv in Hassert. apply andb_true_iff in Hassert.
  destruct Hassert as [_ Hlt]. apply Z.ltb_lt in Hlt.
  rewrite Hnlc, to_unsigned_small in Hlt by lia.
  rewrite Hcbs, Hcol, Hfc, HCg in H.
  rewrite (to_unsigned_small (lj + 1)) in H by lia.
  rewrite to_signed_small in H by lia.
  pose proof (local_to_global_lt lj (lay_n L) (lay_nb L) (r / lay_R L) 0 (lay_C L)
                ltac:(lia) ltac:(lia) HC ltac:(lia)) as Hlt'.
  destruct (owner_and_local_local_to_global lj (lay_nb L) (r / lay_R L) 0 (lay_C L)
              Hlj ltac:(lia) HC Hc ltac:(lia)) as [H0 Hinv].
  unfold local_to_global in Hlt', H0, Hinv.
  rewrite to_unsigned_small in H by lia.
  injection H as H. subst gj.
  split; [lia|]. unfold owner_column, local_column. rewrite Hinv. split; reflexivity.
Qed.

(** A distributed matrix has one value at each global position, the one
    [layout_el] reads, and none outside the shape. *)
Lemma entry_unique (L : Layout) (Aw : World ScaLAPACKMatrix) (gi gj : Z) (v : Number) :
  Layout_valid L -> ranked L Aw -> entry Aw gi gj v ->
  0 <= gi < lay_m L /\ 0 <= gj < lay_n L /\ v = layout_el L Aw gi gj.
Proof.
  intros Hv Hrk [r [A [li [lj [HA [Hact [Hli [Hlj [Hrow [Hcol Hel]]]]]]]]]].
  pose proof Hv as [Hmb [Hm [Hnb [Hn [HR [HC [HP Hctx]]]]]]].
  destruct Hrk as [Hlen Hnth]. pose proof (Hnth r A HA) as Hl.
  assert (Hr : 0 <= Z.of_nat r < lay_R L * lay_C L).
  { split; [lia|]. rewrite (hl_grid _ _ _ Hl), layout_grid_active in Hact.
    apply Z.ltb_lt. exact Hact. }
  destruct (global_row_position L _ A li gi Hv Hl Hr Hli Hrow) as [Hgi [Hor Hlr]].
  destruct (global_column_position L _ A lj gj Hv Hl Hr Hlj Hcol) as [Hgj [Hoc Hlc]].
  split; [exact Hgi|]. split; [exact Hgj|].
  unfold layout_el, owner_rank.
  rewrite <- (rank_of_coordinates (lay_R L) (Z.of_nat r) _ _ HR Hor Hoc).
  rewrite Nat2Z.id, HA. subst li lj. symmetry. exact Hel.
Qed.

(** ** Copy of a distributed matrix into a replicated dense matrix *)

(** A loop whose body returns at every index returns. *)
Lemma for_loopM_Ok (S : Type) (lo hi : Z) (body : Z -> S -> Result S) (s : S) :
  (forall i x, lo <= i < hi -> exists y, body i x = Ok y) ->
  exists s', for_loopM lo hi body s = Ok s'.
Proof.
  intros Hbody. unfold for_loopM.
  assert (Haux : forall (l : list Z) (x : S),
             (forall i, In i l -> lo <= i < hi) ->
             exists s', fold_left (fun a i => x <- a ;; body i x) l (Ok x) = Ok s').
  { induction l as [|i l IH]; intros x Hin.
    - exists x. reflexivity.
    - cbn [fold_left bind].
      destruct (Hbody i x (Hin i (or_introl eq_refl))) as [y Hy]. rewrite Hy.
      apply IH. intros k Hk. apply Hin. right. exact Hk. }
  apply Haux. intros i Hi. apply In_zrange. exact Hi.
Qed.

Lemma global_row_Ok (A : ScaLAPACKMatrix) (i : Z) :
  n_local_rows A < 2 ^ 32 -> 0 <= i < n_local_rows A -> exists g, global_row A i = Ok g.
Proof.
  intros Hn Hi. unfold global_row.
  rewrite (to_unsigned_small (n_local_rows A)) by lia.
  rewrite Assert_true
    by (apply andb_true_iff; split; [apply Z.leb_le | apply Z.ltb_lt]; lia).
  cbn [bind]. eexists. reflexivity.
Qed.

Lemma global_column_Ok (A : ScaLAPACKMatrix) (j : Z) :
  n_local_columns A < 2 ^ 32 -> 0 <= j < n_local_columns A ->
  exists g, global_column A j = Ok g.
Proof.
  intros Hn Hj. unfold global_column.
  rewrite (to_unsigned_small (n_local_columns A)) by lia.
  rewrite Assert_true
    by (apply andb_true_iff; split; [apply Z.leb_le | apply Z.ltb_lt]; lia).
  cbn [bind]. eexists. reflexivity.
Qed.

(** The local part of [copy_to (FullMatrix &)] returns on every process of a
    distributed matrix, given a dense matrix of the same shape. *)
Lemma copy_to_FullMatrix_local_Ok (L : Layout) (r : Z) (A : ScaLAPACKMatrix)
  (M : FullMatrix) :
  Layout_valid L -> has_layout L r A ->
  fm_m M = lay_m L -> fm_n M = lay_n L ->
  exists D, copy_to_FullMatrix_local_unchecked A M = Ok D.
Proof.
  intros Hv Hl HMm HMn.
  pose proof Hv as [Hmb [Hm [Hnb [Hn [HR [HC [HP Hctx]]]]]]].
  destruct Hl as [Hg Hnr Hnc Hrbs Hcbs Hfr Hfc Hsr Hsc Hact _].
  unfold copy_to_FullMatrix_local_unchecked.
  rewrite (Assert_true (n_rows A =? fm_m M)) by (apply Z.eqb_eq; congruence).
  rewrite (Assert_true (n_columns A =? fm_n M)) by (apply Z.eqb_eq; congruence).
  cbn [bind]. rewrite Hg, layout_grid_active.
  destruct (Z.ltb_spec r (lay_R L * lay_C L)) as [Hr|Hr]; [|eexists; reflexivity].
  destruct (Hact Hr) as [Hnlr [Hnlc _]].
  pose proof (numroc_bounds (lay_m L) (lay_mb L) (r mod lay_R L) 0 (lay_R L)
                ltac:(lia) ltac:(lia) HR) as Hbr.
  pose proof (numroc_bounds (lay_n L) (lay_nb L) (r / lay_R L) 0 (lay_C L)
                ltac:(lia) ltac:(lia) HC) as Hbc.
  apply for_loopM_Ok. intros i X Hi.
  destruct (global_row_Ok A i ltac:(lia) Hi) as [gi Hgi]. rewrite Hgi. cbn [bind].
  apply for_loopM_Ok. intros j X' Hj.
  destruct (global_column_Ok A j ltac:(lia) Hj) as [gj Hgj]. rewrite Hgj. cbn [bind].
  eexists. reflexivity.
Qed.

(** [copy_to (FullMatrix &)] returns on a distributed matrix when every
    process passes a dense matrix of the shape of the matrix. *)
Lemma copy_to_FullMatrix_Ok (L : Layout) (thisw : World ScaLAPACKMatrix)
  (matrixw : World FullMatrix) :
  Layout_valid L -> ranked L thisw ->
  List.length matrixw = List.length thisw ->
  (forall M, In M matrixw -> fm_m M = lay_m L /\ fm_n M = lay_n L) ->
  exists Dw, copy_to_FullMatrix_unchecked thisw matrixw = Ok Dw
             /\ List.length Dw = List.length thisw.
Proof.
  intros Hv Hrk Hlen Hdims. unfold copy_to_FullMatrix_unchecked.
  destruct (mapM_Ok_exists _ _
              (fun AM => copy_to_FullMatrix_local_unchecked (fst AM) (snd AM))
              (combine thisw matrixw)) as [locals Hloc].
  { intros [A M] Hin. cbn [fst snd]. apply In_nth_error in Hin. destruct Hin as [k Hk].
    apply nth_error_combine_inv in Hk. destruct Hk as [HA HM].
    destruct (Hdims M (nth_error_In _ _ HM)) as [Hm Hn].
    apply (copy_to_FullMatrix_local_Ok L (Z.of_nat k)); try assumption.
    apply (proj2 Hrk). exact HA. }
  rewrite Hloc. cbn [bind]. eexists. split; [reflexivity|].
  apply mapM_Ok_nth in Hloc. destruct Hloc as [Hl _].
  rewrite length_map, length_combine, Hl, length_combine, Hlen.
  rewrite !Nat.min_id. reflexivity.
Qed.

(** ** The range checks of the dense copy *)

Lemma fold_bind_Throw (S : Type) (body : Z -> S -> Result S) (l : list Z) (e : Exc) :
  fold_left (fun a i => x <- a ;; body i x) l (Throw e) = Throw e.
Proof. induction l as [|i l IH]; [reflexivity | exact IH]. Qed.

(** A loop that returns still returns, with the same result, for a body
    that returns what the first body returns as long as an invariant holds. *)
Lemma for_loopM_transfer (S : Type) (Inv : S -> Prop) (lo hi : Z)
  (f g : Z -> S -> Result S) (s s' : S) :
  Inv s ->
  (forall i x y, lo <= i < hi -> Inv x -> f i x = Ok y -> g i x = Ok y /\ Inv y) ->
  for_loopM lo hi f s = Ok s' ->
  for_loopM lo hi g s = Ok s' /\ Inv s'.
Proof.
  intros H0 Hstep. unfold for_loopM.
  assert (Haux : forall (l : list Z) (x : S),
             (forall i, In i l -> lo <= i < hi) -> Inv x ->
             fold_left (fun a i => x <- a ;; f i x) l (Ok x) = Ok s' ->
             fold_left (fun a i => x <- a ;; g i x) l (Ok x) = Ok s' /\ Inv s').
  { induction l as [|i l IH]; intros x Hin Hx Hrun; cbn [fold_left bind] in *.
    - inversion Hrun. subst. split; [reflexivity | exact Hx].
    - destruct (f i x) as [y|e] eqn:E.
      + destruct (Hstep i x y (Hin i (or_introl eq_refl)) Hx E) as [Hg Hy].
        rewrite Hg. apply IH; [intros k Hk; apply Hin; right; exact Hk | exact Hy | exact Hrun].
      + rewrite fold_bind_Throw in Hrun. discriminate Hrun. }
  apply Haux; [intros i Hi; apply In_zrange; exact Hi | exact H0].
Qed.

(** A loop whose body returns the value of a function as long as an
    invariant holds returns what the function computes. *)
Lemma for_loopM_checked (S : Type) (Inv : S -> Prop) (lo hi : Z)
  (g : Z -> S -> Result S) (f : Z -> S -> S) (s : S) :
  Inv s ->
  (forall i x, lo <= i < hi -> Inv x -> g i x = Ok (f i x) /\ Inv (f i x)) ->
  for_loopM lo hi g s = Ok (for_loop lo hi f s) /\ Inv (for_loop lo hi f s).
Proof.
  intros H0 Hstep. unfold for_loopM, for_loop.
  assert (Haux : forall (l : list Z) (x : S),
             (forall i, In i l -> lo <= i < hi) -> Inv x ->
             fold_left (fun a i => x <- a ;; g i x) l (Ok x)
             = Ok (fold_left (fun acc i => f i acc) l x)
             /\ Inv (fold_left (fun acc i => f i acc) l x)).
  { induction l as [|i l IH]; intros x Hin Hx; cbn [fold_left bind].
    - split; [reflexivity | exact Hx].
    - destruct (Hstep i x (Hin i (or_introl eq_refl)) Hx) as [Hg Hy].
      rewrite Hg. apply IH; [intros k Hk; apply Hin; right; exact Hk | exact Hy]. }
  apply Haux; [intros i Hi; apply In_zrange; exact Hi | exact H0].
Qed.

Lemma mapM_transfer (T U : Type) (f g : T -> Result U) (l : list T) (l' : list U) :
  (forall x y, In x l -> f x = Ok y -> g x = Ok y) ->
  mapM f l = Ok l' -> mapM g l = Ok l'.
Proof.
  revert l'. induction l as [|x l IH]; intros l' H Hrun; cbn [mapM] in *.
  - exact Hrun.
  - apply bind_Ok_inv in Hrun. destruct Hrun as [y [Hy Hrun]].
    apply bind_Ok_inv in Hrun. destruct Hrun as [ys [Hys Hrun]].
    rewrite (H x y (or_introl eq_refl) Hy). cbn [bind].
    rewrite (IH ys (fun z w Hz => H z w (or_intror Hz)) Hys). exact Hrun.
Qed.

(** An update inside the dense matrix passes the checks. *)
Lemma fm_set_inside (M : FullMatrix) (i j : Z) (v : Number) :
  0 <= i < fm_m M -> 0 <= j < fm_n M -> fm_set M i j v = Ok (fm_put M i j v).
Proof.
  intros Hi Hj. unfold fm_set.
  rewrite !Assert_true
    by (apply andb_true_iff; split; [apply Z.leb_le | apply Z.ltb_lt]; lia).
  reflexivity.
Qed.

(** The local scatter of a process of a distributed matrix writes inside
    the dense matrix. *)
Lemma copy_to_FullMatrix_local_checks_pass (L : Layout) (r : Z) (A : ScaLAPACKMatrix)
  (M D : FullMatrix) :
  Layout_valid L -> has_layout L r A -> 0 <= r ->
  copy_to_FullMatrix_local_unchecked A M = Ok D ->
  copy_to_FullMatrix_local A M = Ok D.
Proof.
  intros Hv Hl Hr. pose proof Hv as [Hmb [Hm [Hnb [Hn [HR [HC [HP Hctx]]]]]]].
  unfold copy_to_FullMatrix_local_unchecked, copy_to_FullMatrix_local. intros H.
  apply bind_Ok_inv in H. destruct H as [? [Hm' H]]. rewrite Hm'. cbn [bind].
  apply bind_Ok_inv in H. destruct H as [? [Hn' H]]. rewrite Hn'. cbn [bind].
  apply Assert_Ok_inv, Z.eqb_eq in Hm'. apply Assert_Ok_inv, Z.eqb_eq in Hn'.
  rewrite (hl_n_rows _ _ _ Hl) in Hm'. rewrite (hl_n_columns _ _ _ Hl) in Hn'.
  destruct (mpi_process_is_active (grid A)) eqn:Hact; [|exact H].
  rewrite (hl_grid _ _ _ Hl), layout_grid_active in Hact. apply Z.ltb_lt in Hact.
  refine (proj1 (for_loopM_transfer FullMatrix
                   (fun X => fm_m X = lay_m L /\ fm_n X = lay_n L) _ _ _ _ _ _ _ _ H)).
  - cbn [fm_zero fm_m fm_n]. split; congruence.
  - intros i X Y Hi HX HY.
    apply bind_Ok_inv in HY. destruct HY as [gi [Hgi HY]]. rewrite Hgi. cbn [bind].
    destruct (global_row_position L r A i gi Hv Hl ltac:(lia) ltac:(lia) Hgi) as [Hgir _].
    refine (for_loopM_transfer FullMatrix
              (fun X => fm_m X = lay_m L /\ fm_n X = lay_n L) _ _ _ _ _ _ HX _ HY).
    intros j X' Y' Hj [HXm HXn] HY'.
    apply bind_Ok_inv in HY'. destruct HY' as [gj [Hgj HY']]. rewrite Hgj. cbn [bind].
    destruct (global_column_position L r A j gj Hv Hl ltac:(lia) ltac:(lia) Hgj)
      as [Hgjr _].
    inversion HY'. subst Y'.
    rewrite fm_set_inside by (rewrite !to_signed_small by lia; lia).
    split; [reflexivity|]. cbn [fm_put fm_m fm_n]. split; assumption.
Qed.

(** The fill writes inside a square dense matrix; for a matrix that is not
    triangular there is nothing to fill. *)
Lemma copy_to_FullMatrix_fill_checks_pass (A : ScaLAPACKMatrix) (M : FullMatrix) :
  (property A = lower_triangular \/ property A = upper_triangular -> fm_m M = fm_n M) ->
  copy_to_FullMatrix_fill A M = Ok (copy_to_FullMatrix_fill_unchecked A M).
Proof.
  intros Hsq. unfold copy_to_FullMatrix_fill, copy_to_FullMatrix_fill_unchecked.
  destruct (property A); try reflexivity.
  all: assert (Hs : fm_m M = fm_n M) by (apply Hsq; auto).
  all: refine (proj1 (for_loopM_checked FullMatrix
                        (fun X => fm_m X = fm_m M /\ fm_n X = fm_n M) _ _ _ _ _ _ _));
    [split; reflexivity|].
  all: intros i X Hi [HXm HXn]; try rewrite HXm.
  all: refine (for_loopM_checked FullMatrix
                 (fun X => fm_m X = fm_m M /\ fm_n X = fm_n M) _ _ _ _ _ _ _);
    [split; assumption|].
  all: intros j X' Hj [HXm' HXn']; rewrite fm_set_inside by lia;
    split; [reflexivity|]; cbn [fm_put fm_m fm_n]; split; assumption.
Qed.

(** [copy_to (FullMatrix &)] on a distributed matrix that is square whenever
    its property is triangular: every check of the element access passes. *)
Lemma copy_to_FullMatrix_checks_pass (L : Layout) (thisw : World ScaLAPACKMatrix)
  (matrixw Dw : World FullMatrix) :
  Layout_valid L -> ranked L thisw ->
  (forall k A, nth_error thisw k = Some A ->
     property A = lower_triangular \/ property A = upper_triangular ->
     lay_m L = lay_n L) ->
  copy_to_FullMatrix_unchecked thisw matrixw = Ok Dw ->
  copy_to_FullMatrix thisw matrixw = Ok Dw.
Proof.
  intros Hv Hrk Hsq H. unfold copy_to_FullMatrix_unchecked in H. unfold copy_to_FullMatrix.
  apply bind_Ok_inv in H. destruct H as [locals [Hloc H]]. inversion H as [HDw]. clear H.
  assert (Hloc' : mapM (fun AM => copy_to_FullMatrix_local (fst AM) (snd AM))
                    (combine thisw matrixw) = Ok locals).
  { apply (mapM_transfer _ _
             (fun AM => copy_to_FullMatrix_local_unchecked (fst AM) (snd AM)));
      [|exact Hloc].
    intros [A M] D Hin HD. cbn [fst snd] in *.
    apply In_nth_error in Hin. destruct Hin as [k Hk].
    apply nth_error_combine_inv in Hk. destruct Hk as [HA _].
    apply (copy_to_FullMatrix_local_checks_pass L (Z.of_nat k));
      [exact Hv | apply (proj2 Hrk); exact HA | lia | exact HD]. }
  rewrite Hloc'. cbn [bind]. apply mapM_Ok_intro.
  intros [A Lo] Hin. cbn [fst snd].
  apply In_nth_error in Hin. destruct Hin as [k Hk].
  apply nth_error_combine_inv in Hk. destruct Hk as [HA HLo].
  destruct (mapM_Ok_nth _ _ _ _ _ Hloc) as [_ Hnth].
  destruct (Hnth k Lo HLo) as [[A' M] [HAM Hlocal]].
  apply nth_error_combine_inv in HAM. destruct HAM as [HA' _].
  rewrite HA in HA'. inversion HA'. subst A'. clear HA'. cbn [fst snd] in Hlocal.
  apply copy_to_FullMatrix_local_dims in Hlocal. destruct Hlocal as [HLm HLn].
  pose proof (proj2 Hrk k A HA) as Hl.
  apply copy_to_FullMatrix_fill_checks_pass. intros Hp.
  cbn [MPI_sum fm_m fm_n]. rewrite HLm, HLn.
  rewrite (hl_n_rows _ _ _ Hl), (hl_n_columns _ _ _ Hl). apply (Hsq k A HA Hp).
Qed.

(** C3 (as amended): for a square distributed matrix with property
    [lower_triangular], [copy_to] into dense matrices of its shape returns,
    and the dense matrix every process receives is symmetric when the state
    is [inverse_matrix] (the half above the diagonal is filled from the stored
    half); in every other state the half above the diagonal is zero. *)
Theorem copy_to_FullMatrix_lower_triangular
  (L : Layout) (s : State) (thisw : World ScaLAPACKMatrix) (matrixw : World FullMatrix) :
  Layout_valid L -> lay_m L = lay_n L ->
  distributed L s lower_triangular thisw ->
  List.length matrixw = List.length thisw ->
  (forall M, In M matrixw -> fm_m M = lay_m L /\ fm_n M = lay_n L) ->
  exists Dw,
    copy_to_FullMatrix thisw matrixw = Ok Dw
    /\ List.length Dw = List.length thisw
    /\ forall r D, nth_error Dw r = Some D ->
         (s = inverse_matrix ->
          forall i j, 0 <= i < lay_m L -> 0 <= j < lay_m L -> fm_el D i j = fm_el D j i)
         /\ (s <> inverse_matrix ->
             forall i j, 0 <= i -> i < j -> j < lay_m L -> fm_el D i j = of_int 0).
Proof.
  intros Hv Hsq Hd Hlen Hdims.
  destruct (distributed_ranked L s lower_triangular thisw Hv Hd) as [Hrk Hsp].
  destruct (copy_to_FullMatrix_Ok L thisw matrixw Hv Hrk Hlen Hdims) as [Dw [Hrun HlenD]].
  exists Dw.
  split; [apply (copy_to_FullMatrix_checks_pass L); try assumption; intros; exact Hsq|].
  split; [exact HlenD|].
  intros r D HD.
  destruct (nth_error thisw r) as [A|] eqn:HA.
  - destruct (Hsp r A HA) as [Hs Hp].
    pose proof (proj2 Hrk r A HA) as Hl.
    pose proof (hl_n_rows _ _ _ Hl) as Hnr. pose proof (hl_n_columns _ _ _ Hl) as Hnc.
    destruct (copy_to_FullMatrix_fill_outcome thisw matrixw Dw r A D Hrun HA HD Hp
                ltac:(congruence)) as [Hinv Hzero].
    rewrite Hs, Hnr in Hinv, Hzero. split; assumption.
  - apply nth_error_None in HA.
    assert (Hr : (r < List.length Dw)%nat) by (apply nth_error_Some; congruence).
    lia.
Qed.

(** ** What the kernels read *)

Lemma whole_operand_faithful : faithful_operand whole_operand.
Proof.
  intros A. unfold whole_operand, make_Operand. cbn.
  repeat split. intros ->. cbn [andb].
  destruct (Z.ltb_spec 0 (Z.of_nat (List.length (values A)))) as [H|H]; [reflexivity|].
  symmetry. apply length_zero_iff_nil. lia.
Qed.

Lemma make_Operand_faithful :
  faithful_operand (fun X => make_Operand (values X) (descriptor X) (grid X)).
Proof. intros A. unfold make_Operand. cbn. repeat split. Qed.

Lemma participates_iff_active (L : Layout) (opf : ScaLAPACKMatrix -> Operand)
  (k : Z) (A : ScaLAPACKMatrix) :
  Layout_valid L -> faithful_operand opf -> has_layout L k A ->
  op_participates (opf A) = (k <? lay_R L * lay_C L).
Proof.
  intros Hv Hf Hl. destruct (Hf A) as [Hd _].
  destruct Hv as [_ [_ [_ [_ [_ [_ [_ Hctx]]]]]]].
  unfold op_participates. rewrite Hd.
  destruct (Z.ltb_spec k (lay_R L * lay_C L)) as [Hact|Hin].
  - destruct (hl_active _ _ _ Hl Hact) as [_ [_ [_ [Hdesc _]]]]. rewrite Hdesc.
    cbn. destruct (Z.eqb_spec (lay_context L) (-1)); [lia | reflexivity].
  - destruct (hl_inactive _ _ _ Hl Hin) as [Hdesc _]. rewrite Hdesc. reflexivity.
Qed.

(** A kernel reads entry [(gi, gj)] of a distributed matrix from the local
    buffer of the owner. *)
Lemma operand_el_layout (L : Layout) (Aw : World ScaLAPACKMatrix)
  (opf : ScaLAPACKMatrix -> Operand) (gi gj : Z) :
  Layout_valid L -> ranked L Aw -> faithful_operand opf ->
  0 <= gi < lay_m L -> 0 <= gj < lay_n L ->
  operand_el (map opf Aw) gi gj = layout_el L Aw gi gj.
Proof.
  intros Hv Hrk Hf Hgi Hgj.
  destruct (owner_object L Aw gi gj Hv Hrk Hgi Hgj)
    as [A [HA [Hl [Hact [Hrow [Hcol [Hli [Hlj _]]]]]]]].
  destruct (owner_rank_facts L gi gj Hv) as [Hr [Hmod Hdiv]].
  pose proof Hv as [Hmb [Hm [Hnb [Hn [HR [HC [HP Hctx]]]]]]].
  assert (HpA : op_participates (opf A) = true).
  { rewrite (participates_iff_active L opf _ A Hv Hf Hl). apply Z.ltb_lt. lia. }
  assert (HinA : In (opf A) (map opf Aw)).
  { apply in_map. eapply nth_error_In. exact HA. }
  unfold operand_el.
  destruct (find op_participates (map opf Aw)) as [o0|] eqn:F1.
  2:{ exfalso. pose proof (find_none _ _ F1 _ HinA) as Hc. congruence. }
  apply find_some in F1. destruct F1 as [Hin0 Hp0].
  apply in_map_iff in Hin0. destruct Hin0 as [A1 [<- HinA1]].
  apply In_nth_error in HinA1. destruct HinA1 as [k1 Hk1].
  pose proof (proj2 Hrk k1 A1 Hk1) as Hl1.
  rewrite (participates_iff_active L opf _ A1 Hv Hf Hl1) in Hp0. apply Z.ltb_lt in Hp0.
  destruct (hl_active _ _ _ Hl1 Hp0) as [_ [_ [_ [Hdesc1 _]]]].
  destruct (Hf A1) as [Hd1 [Hnr1 [Hnc1 _]]].
  rewrite Hd1, Hnr1, Hnc1, Hdesc1, (hl_grid _ _ _ Hl1).
  cbn [desc_at nth MB_ NB_ RSRC_ CSRC_ layout_grid make_ProcessGrid
         n_process_rows n_process_columns].
  change (indxg2p_ (gi + 1) (lay_mb L) 0 0 (lay_R L)) with (owner_row L gi).
  change (indxg2p_ (gj + 1) (lay_nb L) 0 0 (lay_C L)) with (owner_column L gj).
  change (indxg2l_ (gi + 1) (lay_mb L) 0 0 (lay_R L) - 1) with (local_row L gi).
  change (indxg2l_ (gj + 1) (lay_nb L) 0 0 (lay_C L) - 1) with (local_column L gj).
  match goal with |- context [find ?f (map opf Aw)] =>
    destruct (find f (map opf Aw)) as [o|] eqn:F2 end.
  2:{ exfalso. pose proof (find_none _ _ F2 _ HinA) as Hc. cbv beta in Hc.
      destruct (Hf A) as [_ [_ [_ [Hmr [Hmc _]]]]].
      rewrite HpA, Hmr, Hmc, Hrow, Hcol, !Z.eqb_refl in Hc. discriminate Hc. }
  apply find_some in F2. destruct F2 as [Hin2 Hp2].
  apply in_map_iff in Hin2. destruct Hin2 as [A2 [<- HinA2]].
  apply In_nth_error in HinA2. destruct HinA2 as [k2 Hk2].
  pose proof (proj2 Hrk k2 A2 Hk2) as Hl2.
  apply andb_true_iff in Hp2. destruct Hp2 as [Hp2 Hc2].
  apply andb_true_iff in Hp2. destruct Hp2 as [Hp2 Hr2].
  rewrite (participates_iff_active L opf _ A2 Hv Hf Hl2) in Hp2. apply Z.ltb_lt in Hp2.
  destruct (Hf A2) as [Hd2 [_ [_ [Hmr2 [Hmc2 Hv2]]]]].
  rewrite Hmr2 in Hr2. rewrite Hmc2 in Hc2.
  apply Z.eqb_eq in Hr2. apply Z.eqb_eq in Hc2.
  rewrite (hl_grid _ _ _ Hl2) in Hr2, Hc2. cbn in Hr2, Hc2.
  rewrite (proj2 (Z.ltb_lt _ _) Hp2) in Hr2, Hc2.
  assert (Hk2r : Z.of_nat k2 = owner_rank L gi gj).
  { rewrite (rank_of_coordinates (lay_R L) (Z.of_nat k2) _ _ HR Hr2 Hc2).
    reflexivity. }
  assert (HA2 : A2 = A).
  { rewrite <- Hk2r, Nat2Z.id in HA. congruence. }
  subst A2.
  rewrite Hd2, Hv2 by exact Hact.
  destruct (hl_active _ _ _ Hl ltac:(lia)) as [_ [_ [Htab [HdescA _]]]].
  rewrite HdescA. cbn [desc_at nth LLD_].
  unfold layout_el. rewrite HA. unfold local_el. rewrite Htab.
  rewrite Z.max_r by lia. reflexivity.
Qed.

Lemma nth_map_zrange (T : Type) (f : Z -> T) (n k : Z) (d : T) :
  0 <= k < n -> nth (Z.to_nat k) (map f (zrange 0 n)) d = f k.
Proof.
  intros Hk.
  rewrite (nth_indep _ d (f 0)) by (rewrite length_map, zrange_length; lia).
  rewrite map_nth, zrange_nth by lia. f_equal. lia.
Qed.

Lemma length_map_zrange (T : Type) (f : Z -> T) (n : nat) :
  List.length (map f (zrange 0 (Z.of_nat n))) = n.
Proof. rewrite length_map, zrange_length. lia. Qed.

Lemma pgemr2d_length (m n : Z) (Aw : World Operand) (ia ja : Z) (B : Operand) (ib jb : Z) :
  List.length (pgemr2d m n Aw ia ja B ib jb) = List.length (op_values B).
Proof.
  unfold pgemr2d. destruct (op_participates B); [|reflexivity].
  apply length_map_zrange.
Qed.

(** Position [lj * lld + li] of the buffer of the owner of [(gi, gj)] is
    global position [(gi, gj)]. *)
Lemma owner_position (L : Layout) (Aw : World ScaLAPACKMatrix)
  (opf : ScaLAPACKMatrix -> Operand) (gi gj : Z) (A : ScaLAPACKMatrix) :
  Layout_valid L -> ranked L Aw -> faithful_operand opf ->
  0 <= gi < lay_m L -> 0 <= gj < lay_n L ->
  nth_error Aw (Z.to_nat (owner_rank L gi gj)) = Some A ->
  let k := local_column L gj * table_n_rows A + local_row L gi in
  0 <= k < Z.of_nat (List.length (values A))
  /\ operand_global_row (opf A) k = gi
  /\ operand_global_column (opf A) k = gj.
Proof.
  intros Hv Hrk Hf Hgi Hgj HA. cbv zeta.
  destruct (owner_object L Aw gi gj Hv Hrk Hgi Hgj)
    as [A' [HA' [Hl [Hact [Hrow [Hcol [Hli [Hlj _]]]]]]]].
  rewrite HA in HA'. inversion HA'. subst A'. clear HA'.
  destruct (owner_rank_facts L gi gj Hv) as [Hr [Hmod Hdiv]].
  pose proof Hv as [Hmb [Hm [Hnb [Hn [HR [HC [HP Hctx]]]]]]].
  destruct (hl_active _ _ _ Hl ltac:(lia)) as [_ [_ [Htab [Hdesc Hlen]]]].
  destruct (Hf A) as [Hd [Hnr [Hnc [Hmr [Hmc _]]]]].
  rewrite Htab, Hlen.
  set (nlr := n_local_rows A) in *. set (nlc := n_local_columns A) in *.
  set (li := local_row L gi) in *. set (lj := local_column L gj) in *.
  assert (Hk : 0 <= lj * nlr + li < nlr * nlc) by nia.
  split; [lia|].
  assert (Hkm : (lj * nlr + li) mod nlr = li).
  { rewrite Z.add_comm, Z.mod_add by lia. apply Z.mod_small. lia. }
  assert (Hkd : (lj * nlr + li) / nlr = lj).
  { rewrite Z.add_comm, Z.div_add by lia. rewrite Z.div_small by lia. lia. }
  unfold operand_global_row, operand_global_column.
  rewrite Hd, Hnr, Hnc, Hmr, Hmc, Hdesc.
  cbn [desc_at nth MB_ NB_ RSRC_ CSRC_ LLD_].
  fold nlr. rewrite Z.max_r by lia. rewrite Hkm, Hkd.
  rewrite (hl_grid _ _ _ Hl) in *.
  cbn [layout_grid make_ProcessGrid n_process_rows n_process_columns] in *.
  rewrite Hrow, Hcol.
  split.
  - apply (local_to_global_owner gi (lay_mb L) (lay_R L) 0); lia.
  - apply (local_to_global_owner gj (lay_nb L) (lay_C L) 0); lia.
Qed.

(** The redistribution kernel leaves, at the owner of [(gi, gj)] in the
    destination's layout, the entry [(gi, gj)] of the source. *)
Lemma pgemr2d_owner_el (LA LB : Layout) (Aw Bw : World ScaLAPACKMatrix)
  (gi gj : Z) (B : ScaLAPACKMatrix) :
  Layout_valid LA -> ranked LA Aw -> Layout_valid LB -> ranked LB Bw ->
  lay_m LB = lay_m LA -> lay_n LB = lay_n LA ->
  0 <= gi < lay_m LA -> 0 <= gj < lay_n LA ->
  nth_error Bw (Z.to_nat (owner_rank LB gi gj)) = Some B ->
  local_el
    (set_values B
       (pgemr2d (lay_m LA) (lay_n LA) (map whole_operand Aw) 1 1 (whole_operand B) 1 1))
    (local_row LB gi) (local_column LB gj)
  = layout_el LA Aw gi gj.
Proof.
  intros HvA HrA HvB HrB Hm Hn Hgi Hgj HB.
  destruct (owner_position LB Bw whole_operand gi gj B HvB HrB whole_operand_faithful
              ltac:(lia) ltac:(lia) HB) as [Hk [Hrow Hcol]].
  destruct (owner_object LB Bw gi gj HvB HrB ltac:(lia) ltac:(lia))
    as [B' [HB' [Hl [Hact _]]]].
  rewrite HB in HB'. inversion HB'. subst B'. clear HB'.
  destruct (owner_rank_facts LB gi gj HvB) as [Hr _].
  assert (Hp : op_participates (whole_operand B) = true).
  { rewrite (participates_iff_active LB whole_operand _ B HvB whole_operand_faithful Hl).
    apply Z.ltb_lt. lia. }
  destruct (whole_operand_faithful B) as [_ [_ [_ [_ [_ Hvals]]]]].
  specialize (Hvals Hact).
  unfold local_el. cbn [set_values values table_n_rows].
  unfold pgemr2d. rewrite Hp, Hvals.
  rewrite nth_map_zrange by exact Hk.
  rewrite Hrow, Hcol.
  replace (1 - 1) with 0 by lia.
  rewrite (proj2 (Z.leb_le 0 gi)), (proj2 (Z.ltb_lt gi (0 + lay_m LA))) by lia.
  rewrite (proj2 (Z.leb_le 0 gj)), (proj2 (Z.ltb_lt gj (0 + lay_n LA))) by lia.
  cbn [andb].
  replace (gi - 0 + 0) with gi by lia. replace (gj - 0 + 0) with gj by lia.
  apply operand_el_layout; try assumption. apply whole_operand_faithful.
Qed.

(** ** Redistribution between two layouts *)

Lemma has_layout_update (L : Layout) (k : Z) (B : ScaLAPACKMatrix)
  (v : list Number) (s : State) (p : Property) :
  has_layout L k B -> List.length v = List.length (values B) ->
  has_layout L k (set_property (set_state (set_values B v) s) p).
Proof.
  intros [Hg Hnr Hnc Hrbs Hcbs Hfr Hfc Hsr Hsc Hact Hin] Hlen.
  constructor; cbn; try assumption.
  - intros Hk. destruct (Hact Hk) as [H1 [H2 [H3 [H4 H5]]]].
    repeat split; try assumption. congruence.
  - intros Hk. destruct (Hin Hk) as [H1 H2]. split; [exact H1|].
    apply length_zero_iff_nil. rewrite Hlen, H2. reflexivity.
Qed.

Lemma has_layout_state_property (L : Layout) (k : Z) (B : ScaLAPACKMatrix)
  (s : State) (p : Property) :
  has_layout L k B -> has_layout L k (set_property (set_state B s) p).
Proof.
  intros [Hg Hnr Hnc Hrbs Hcbs Hfr Hfc Hsr Hsc Hact Hin].
  constructor; cbn; assumption.
Qed.

Lemma copy_to_redistributes (LA LB : Layout) (Aw : World ScaLAPACKMatrix)
  (k : Z) (A B : ScaLAPACKMatrix) :
  Layout_valid LA -> Layout_valid LB ->
  has_layout LA k A -> has_layout LB k B ->
  lay_m LB = lay_m LA -> lay_n LB = lay_n LA ->
  lay_address LA <> lay_address LB ->
  copy_to Aw A B = Ok (redistributed Aw A B).
Proof.
  intros HvA HvB HlA HlB Hm Hn Haddr. unfold copy_to.
  rewrite (hl_n_rows _ _ _ HlA), (hl_n_rows _ _ _ HlB), Hm, Z.eqb_refl.
  rewrite (hl_n_columns _ _ _ HlA), (hl_n_columns _ _ _ HlB), Hn, Z.eqb_refl.
  cbn [Assert bind].
  assert (HdA : (if mpi_process_is_active (grid A)
                 then AssertThrow (desc_at DTYPE_ (descriptor A) =? 1)
                        (ExcMessage "Copying of ScaLAPACK matrices only implemented for dense matrices")
                 else Ok tt) = Ok tt).
  { rewrite (hl_grid _ _ _ HlA), layout_grid_active.
    destruct (Z.ltb_spec k (lay_R LA * lay_C LA)) as [Hact|_]; [|reflexivity].
    destruct (hl_active _ _ _ HlA Hact) as [_ [_ [_ [Hd _]]]]. rewrite Hd. reflexivity. }
  assert (HdB : (if mpi_process_is_active (grid B)
                 then AssertThrow (desc_at DTYPE_ (descriptor B) =? 1)
                        (ExcMessage "Copying of ScaLAPACK matrices only implemented for dense matrices")
                 else Ok tt) = Ok tt).
  { rewrite (hl_grid _ _ _ HlB), layout_grid_active.
    destruct (Z.ltb_spec k (lay_R LB * lay_C LB)) as [Hact|_]; [|reflexivity].
    destruct (hl_active _ _ _ HlB Hact) as [_ [_ [_ [Hd _]]]]. rewrite Hd. reflexivity. }
  rewrite HdA, HdB. cbn [bind].
  assert (Hdiff : negb (grid_address (grid A) =? grid_address (grid B)) = true).
  { rewrite (hl_grid _ _ _ HlA), (hl_grid _ _ _ HlB). cbn.
    apply negb_true_iff. apply Z.eqb_neq. exact Haddr. }
  rewrite Hdiff. cbn [orb]. unfold redistributed.
  rewrite (hl_n_rows _ _ _ HlA), (hl_n_columns _ _ _ HlA). reflexivity.
Qed.

Lemma ranked_combine (LA LB : Layout) (Aw Bw : World ScaLAPACKMatrix)
  (A B : ScaLAPACKMatrix) :
  ranked LA Aw -> ranked LB Bw -> In (A, B) (combine Aw Bw) ->
  exists k : nat, nth_error Aw k = Some A /\ nth_error Bw k = Some B
                  /\ has_layout LA (Z.of_nat k) A /\ has_layout LB (Z.of_nat k) B.
Proof.
  intros HrA HrB Hin. apply In_nth_error in Hin. destruct Hin as [k Hk].
  apply nth_error_combine_inv in Hk. destruct Hk as [HA HB]. exists k.
  split; [exact HA|]. split; [exact HB|]. split.
  - apply (proj2 HrA). exact HA.
  - apply (proj2 HrB). exact HB.
Qed.

(** The copy of a whole matrix onto a matrix with another grid object, as
    all processes run it: it succeeds, the destination keeps its layout, takes
    the state and the property of the source, and holds the entries of the
    source. *)
Lemma copy_to_world (LA LB : Layout) (s : State) (p : Property)
  (Aw Bw : World ScaLAPACKMatrix) :
  Layout_valid LA -> Layout_valid LB -> ranked LA Aw -> ranked LB Bw ->
  (forall k A, nth_error Aw k = Some A -> state A = s /\ property A = p) ->
  lay_m LB = lay_m LA -> lay_n LB = lay_n LA -> lay_P LB = lay_P LA ->
  lay_address LA <> lay_address LB ->
  exists Bw',
    mapM (fun tt => copy_to Aw (fst tt) (snd tt)) (combine Aw Bw) = Ok Bw'
    /\ ranked LB Bw'
    /\ (forall k B', nth_error Bw' k = Some B' -> state B' = s /\ property B' = p)
    /\ (forall gi gj, 0 <= gi < lay_m LA -> 0 <= gj < lay_n LA ->
                      layout_el LB Bw' gi gj = layout_el LA Aw gi gj).
Proof.
  intros HvA HvB HrA HrB Hsp Hm Hn HP Haddr.
  exists (map (fun tt => redistributed Aw (fst tt) (snd tt)) (combine Aw Bw)).
  assert (Hlen : List.length (combine Aw Bw) = Z.to_nat (lay_P LB)).
  { rewrite length_combine, (proj1 HrA), (proj1 HrB), HP. apply Nat.min_id. }
  assert (Hnth : forall k B',
             nth_error (map (fun tt => redistributed Aw (fst tt) (snd tt))
                          (combine Aw Bw)) k = Some B' ->
             exists A B, nth_error Aw k = Some A /\ nth_error Bw k = Some B
                         /\ B' = redistributed Aw A B).
  { intros k B' HB'. apply nth_error_map_inv in HB'. destruct HB' as [[A B] [HAB ->]].
    apply nth_error_combine_inv in HAB. destruct HAB as [HA HB].
    exists A, B. repeat split; assumption. }
  split; [|split; [|split]].
  - apply mapM_Ok_intro. intros [A B] Hin. cbn [fst snd].
    destruct (ranked_combine LA LB Aw Bw A B HrA HrB Hin) as [k [_ [_ [HlA HlB]]]].
    apply (copy_to_redistributes LA LB Aw (Z.of_nat k)); assumption.
  - split; [rewrite length_map; exact Hlen|].
    intros k B' HB'. destruct (Hnth k B' HB') as [A [B [HA [HB ->]]]].
    pose proof (proj2 HrB k B HB) as HlB. unfold redistributed.
    destruct (mpi_process_is_active (grid B) && (0 <? Z.of_nat (List.length (values B)))) eqn:Hc.
    + apply has_layout_update; [exact HlB|]. rewrite pgemr2d_length.
      apply andb_true_iff in Hc. destruct Hc as [Hact _].
      destruct (whole_operand_faithful B) as [_ [_ [_ [_ [_ Hvals]]]]].
      rewrite (Hvals Hact). reflexivity.
    + apply has_layout_state_property. exact HlB.
  - intros k B' HB'. destruct (Hnth k B' HB') as [A [B [HA [HB ->]]]].
    cbn. apply (Hsp k A HA).
  - intros gi gj Hgi Hgj.
    destruct (owner_object LB Bw gi gj HvB HrB ltac:(lia) ltac:(lia))
      as [B [HB [HlB [Hact [_ [_ [Hli [Hlj _]]]]]]]].
    destruct (owner_rank_facts LB gi gj HvB) as [Hr _].
    pose proof HvB as [_ [_ [_ [_ [_ [_ [HPB _]]]]]]].
    destruct (ranked_nth LA Aw (owner_rank LB gi gj) HrA ltac:(lia)) as [A [HA HlA]].
    unfold layout_el at 1.
    rewrite (map_nth_error (fun tt => redistributed Aw (fst tt) (snd tt))
               (Z.to_nat (owner_rank LB gi gj)) (combine Aw Bw)
               (nth_error_combine_intro _ _ _ _ _ _ _ HA HB)).
    cbn [fst snd]. unfold redistributed.
    destruct (hl_active _ _ _ HlB ltac:(lia)) as [_ [_ [_ [_ Hvlen]]]].
    assert (Hne : (0 <? Z.of_nat (List.length (values B))) = true).
    { apply Z.ltb_lt. rewrite Hvlen. nia. }
    rewrite Hact, Hne. cbn [andb].
    rewrite (hl_n_rows _ _ _ HlA), (hl_n_columns _ _ _ HlA).
    rewrite (hl_submatrix_row _ _ _ HlA), (hl_submatrix_column _ _ _ HlA).
    rewrite (hl_submatrix_row _ _ _ HlB), (hl_submatrix_column _ _ _ HlB).
    change (local_el (set_property (set_state ?X _) _) ?i ?j) with (local_el X i j).
    apply (pgemr2d_owner_el LA LB Aw Bw); assumption.
Qed.

(** ** Checkpoints through one process *)

Lemma ctor_has_layout (L : Layout) (k : Z) (pr : Property) (T : ScaLAPACKMatrix) :
  Layout_valid L ->
  ScaLAPACKMatrix_ctor (lay_m L) (lay_n L) (layout_grid L k) (lay_mb L) (lay_nb L) pr = Ok T ->
  has_layout L k T /\ state T = matrix /\ property T = pr.
Proof.
  intros Hv H. pose proof Hv as [Hmb [Hm [Hnb [Hn [HR [HC [HP Hctx]]]]]]].
  rewrite ScaLAPACKMatrix_ctor_Ok in H by (cbn; lia).
  rewrite layout_grid_active in H. inversion H as [HT]. clear H.
  destruct (Z.ltb_spec k (lay_R L * lay_C L)) as [Hact|Hin].
  - split; [|split; reflexivity].
    constructor; cbn; try reflexivity; try (intros; lia).
    intros _. rewrite (proj2 (Z.ltb_lt _ _) Hact).
    repeat split. apply repeat_length.
  - split; [|split; reflexivity].
    constructor; cbn; try reflexivity; try (intros; lia).
    intros _. split; reflexivity.
Qed.

Lemma gather_layout_valid (L : Layout) (address context : Z) :
  Layout_valid L -> 0 <= context -> Layout_valid (gather_layout L address context).
Proof.
  intros [Hmb [Hm [Hnb [Hn [HR [HC [HP Hctx]]]]]]] Hc.
  unfold Layout_valid. cbn. repeat split; lia.
Qed.

Lemma load_serial_tmp_eq : load_serial_tmp = save_serial_tmp.
Proof. reflexivity. Qed.

(** ** Collective calls where every process returns *)

Lemma mapM_map (T U V : Type) (f : T -> U) (g : U -> Result V) (l : list T) :
  mapM g (map f l) = mapM (fun x => g (f x)) l.
Proof.
  induction l as [|x l IH]; cbn [map mapM]; [reflexivity|]. rewrite IH. reflexivity.
Qed.

Lemma then_collective_Ok (T U : Type) (stepw : World (Result T)) (xs : World T)
  (rest : World T -> World (Outcome U)) :
  mapM (fun r => r) stepw = Ok xs -> then_collective stepw rest = rest xs.
Proof. intros H. unfold then_collective. rewrite H. reflexivity. Qed.

Lemma job_result_Returns (T : Type) (w : World T) : job_result (map Returns w) = Ok w.
Proof.
  unfold job_result. induction w as [|x w IH]; cbn [map mapM bind]; [reflexivity|].
  rewrite IH. reflexivity.
Qed.

(** A step in two parts, the second on the result of the first. *)
Lemma mapM_bind_combine (T U V : Type) (f : T -> Result U) (g : T -> U -> Result V)
  (l : list T) (ys : list U) :
  mapM f l = Ok ys ->
  mapM (fun x => y <- f x ;; g x y) l
  = mapM (fun tt => g (fst tt) (snd tt)) (combine l ys).
Proof.
  revert ys. induction l as [|x l IH]; intros ys H; cbn [mapM] in H.
  - inversion H. reflexivity.
  - destruct (f x) as [y|e] eqn:Hy; [|discriminate H]. cbn [bind] in H.
    destruct (mapM f l) as [ys'|e] eqn:Hys; [|discriminate H]. cbn [bind] in H.
    inversion H. subst ys. cbn [combine mapM fst snd]. rewrite Hy. cbn [bind].
    rewrite (IH ys' eq_refl). reflexivity.
Qed.

(** Where every process returns, [load_serial] is the sequence of its steps. *)
Lemma load_serial_returns (thisw Bw' : World ScaLAPACKMatrix) (address context : Z)
  (file : option HDF5File) :
  load_serial_returning thisw address context file = Ok Bw' ->
  load_serial thisw address context file = map Returns Bw'.
Proof.
  unfold load_serial_returning, load_serial. intros H.
  apply bind_Ok_inv in H. destruct H as [tmpw [Htmp H]].
  apply bind_Ok_inv in H. destruct H as [readw [Hread H]].
  apply bind_Ok_inv in H. destruct H as [tmpw' [Hcast H]].
  rewrite (then_collective_Ok _ _ _ readw).
  2:{ rewrite mapM_map.
      rewrite (mapM_bind_combine _ _ _
                 (fun this => load_serial_tmp this address context)
                 (fun this tmp => load_serial_read this tmp file) thisw tmpw Htmp).
      exact Hread. }
  rewrite (then_collective_Ok _ _ _ tmpw') by (rewrite mapM_map; exact Hcast).
  rewrite (then_collective_Ok _ _ _ Bw') by (rewrite mapM_map; exact H).
  reflexivity.
Qed.

Lemma load_serial_job (thisw Bw' : World ScaLAPACKMatrix) (address context : Z)
  (file : option HDF5File) :
  load_serial_returning thisw address context file = Ok Bw' ->
  load false thisw address context file = Ok Bw'.
Proof.
  intros H. unfold load. rewrite (load_serial_returns _ _ _ _ _ H).
  apply job_result_Returns.
Qed.

(** Every process builds its object of the gathering matrix. *)
Lemma gather_tmp_world (L : Layout) (Aw : World ScaLAPACKMatrix) (address context : Z) :
  Layout_valid L -> 0 <= context -> ranked L Aw ->
  exists tmpw,
    mapM (fun this => save_serial_tmp this address context) Aw = Ok tmpw
    /\ ranked (gather_layout L address context) tmpw
    /\ (forall k T, nth_error tmpw k = Some T -> state T = matrix /\ property T = general).
Proof.
  intros Hv Hc Hrk.
  pose proof (gather_layout_valid L address context Hv Hc) as Hvt.
  assert (Hctor : forall k A, nth_error Aw k = Some A ->
             save_serial_tmp A address context
             = ScaLAPACKMatrix_ctor (lay_m L) (lay_n L)
                 (layout_grid (gather_layout L address context) (Z.of_nat k))
                 (lay_m L) (lay_n L) general).
  { intros k A HA. pose proof (proj2 Hrk k A HA) as Hl. unfold save_serial_tmp.
    rewrite (hl_grid _ _ _ Hl), (hl_n_rows _ _ _ Hl), (hl_n_columns _ _ _ Hl).
    reflexivity. }
  destruct (mapM_Ok_exists _ _ (fun this => save_serial_tmp this address context) Aw)
    as [tmpw Htmp].
  { intros A Hin. apply In_nth_error in Hin. destruct Hin as [k HA].
    rewrite (Hctor k A HA).
    rewrite ScaLAPACKMatrix_ctor_Ok; [eexists; reflexivity | | | |];
      destruct Hv as [Hmb [Hm [Hnb [Hn _]]]]; cbn; lia. }
  exists tmpw. split; [exact Htmp|].
  destruct (mapM_Ok_nth _ _ _ _ _ Htmp) as [Hlen Hnth].
  assert (Hall : forall k T, nth_error tmpw k = Some T ->
             has_layout (gather_layout L address context) (Z.of_nat k) T
             /\ state T = matrix /\ property T = general).
  { intros k T HT. destruct (Hnth k T HT) as [A [HA Hrun]].
    rewrite (Hctor k A HA) in Hrun.
    apply (ctor_has_layout (gather_layout L address context)); assumption. }
  split; [split|].
  - rewrite Hlen. exact (proj1 Hrk).
  - intros k T HT. apply (Hall k T HT).
  - intros k T HT. apply (Hall k T HT).
Qed.

Lemma numroc_whole (n : Z) : 1 <= n -> numroc_ n n 0 0 1 = n.
Proof.
  intros Hn. unfold numroc_.
  rewrite Z.div_same by lia. rewrite (Z.mod_same n) by lia.
  change ((1 + 0 - 0) mod 1) with 0. change (1 mod 1) with 0. change (1 / 1) with 1.
  rewrite Z.ltb_irrefl, Z.eqb_refl. lia.
Qed.

(** On the 1x1 grid, process 0 owns everything, column by column. *)
Lemma gathered_el (L : Layout) (address context : Z) (Tw : World ScaLAPACKMatrix)
  (gi gj : Z) :
  Layout_valid L -> 0 <= context ->
  ranked (gather_layout L address context) Tw ->
  exists T0,
    nth_error Tw 0 = Some T0
    /\ has_layout (gather_layout L address context) 0 T0
    /\ List.length (values T0) = Z.to_nat (lay_m L * lay_n L)
    /\ (0 <= gi < lay_m L -> 0 <= gj < lay_n L ->
        layout_el (gather_layout L address context) Tw gi gj
        = nth (Z.to_nat (gj * lay_m L + gi)) (values T0) (of_int 0)).
Proof.
  intros Hv Hc Hrk.
  pose proof (gather_layout_valid L address context Hv Hc) as Hvt.
  pose proof Hv as [Hmb [Hm [Hnb [Hn [HR [HC [HP Hctx]]]]]]].
  destruct (ranked_nth _ Tw 0 Hrk ltac:(cbn; nia)) as [T0 [HT0 Hl]].
  change (Z.to_nat 0) with 0%nat in HT0.
  exists T0. split; [exact HT0|]. split; [exact Hl|].
  destruct (hl_active _ _ _ Hl ltac:(cbn; lia)) as [Hnlr [Hnlc [Htab [_ Hlen]]]].
  cbn [gather_layout lay_m lay_n lay_mb lay_nb lay_R lay_C] in Hnlr, Hnlc.
  rewrite Z.mod_1_r in Hnlr. rewrite Z.div_1_r in Hnlc.
  rewrite numroc_whole in Hnlr, Hnlc by lia.
  split; [rewrite Hlen, Hnlr, Hnlc; reflexivity|].
  intros Hgi Hgj. unfold layout_el, owner_rank, owner_row, owner_column, local_row,
    local_column, owner_and_local, indxg2p_, indxg2l_.
  cbn [gather_layout lay_m lay_n lay_mb lay_nb lay_R lay_C fst snd].
  rewrite !Z.mod_1_r. cbn [Z.add Z.mul Z.to_nat]. rewrite HT0.
  unfold local_el. rewrite Htab, Hnlr.
  replace (gi + 1 - 1) with gi by lia. replace (gj + 1 - 1) with gj by lia.
  rewrite !Z.mul_1_r.
  rewrite (Z.div_small gi), (Z.mod_small gi) by lia.
  rewrite (Z.div_small gj), (Z.mod_small gj) by lia.
  f_equal. lia.
Qed.

Lemma save_chunk_size_world (L : Layout) (Aw : World ScaLAPACKMatrix)
  (chunk_size : Z * Z) :
  Layout_valid L -> ranked L Aw -> chunk_size_allowed L chunk_size ->
  exists chunks,
    mapM (fun this => save_chunk_size this chunk_size) Aw = Ok chunks
    /\ List.length chunks = List.length Aw.
Proof.
  intros Hv Hrk Hchunk. pose proof Hv as [Hmb [Hm [Hnb [Hn _]]]].
  destruct (mapM_Ok_exists _ _ (fun this => save_chunk_size this chunk_size) Aw)
    as [chunks Hc].
  - intros A Hin. apply In_nth_error in Hin. destruct Hin as [k HA].
    pose proof (proj2 Hrk k A HA) as Hl. unfold save_chunk_size.
    rewrite (hl_n_rows _ _ _ Hl), (hl_n_columns _ _ _ Hl).
    rewrite !to_unsigned_small by lia.
    assert (Hd1 : forall e, Assert ((lay_m L <=? lay_m L) && (0 <? lay_m L)) e = Ok tt).
    { intros e. apply Assert_true; apply andb_true_iff; split;
        first [apply Z.leb_le | apply Z.ltb_lt]; lia. }
    assert (Hd2 : forall e, Assert ((1 <=? lay_n L) && (0 <? 1)) e = Ok tt).
    { intros e. apply Assert_true; apply andb_true_iff; split;
        first [apply Z.leb_le | apply Z.ltb_lt]; lia. }
    destruct Hchunk as [H|[H|[H1 H2]]].
    + rewrite H, Z.eqb_refl. cbn [orb fst snd]. rewrite Hd1, Hd2.
      eexists; reflexivity.
    + rewrite H, Z.eqb_refl, orb_true_r. cbn [fst snd]. rewrite Hd1, Hd2.
      eexists; reflexivity.
    + destruct ((fst chunk_size =? invalid_unsigned_int)
                || (snd chunk_size =? invalid_unsigned_int)).
      * cbn [fst snd]. rewrite Hd1, Hd2. eexists; reflexivity.
      * rewrite !Assert_true
          by (apply andb_true_iff; split; first [apply Z.leb_le | apply Z.ltb_lt]; lia).
        eexists; reflexivity.
  - exists chunks. split; [exact Hc|]. apply (mapM_Ok_nth _ _ _ _ _ Hc).
Qed.

Lemma fold_left_unchanged (T U : Type) (f : T -> U -> T) (l : list U) (acc : T) :
  (forall x a, In x l -> f a x = a) -> fold_left f l acc = acc.
Proof.
  revert acc. induction l as [|x l IH]; intros acc H; cbn [fold_left].
  - reflexivity.
  - rewrite (H x acc (or_introl eq_refl)). apply IH.
    intros y a Hy. apply H. right. exact Hy.
Qed.

(** Of the gathering matrix only the object of process 0 is active. *)
Lemma gather_active (L : Layout) (address context : Z) (k : nat) (T : ScaLAPACKMatrix) :
  has_layout (gather_layout L address context) (Z.of_nat k) T ->
  mpi_process_is_active (grid T) = match k with O => true | S _ => false end.
Proof.
  intros Hl. rewrite (hl_grid _ _ _ Hl), layout_grid_active. cbn [gather_layout lay_R lay_C].
  destruct k; [reflexivity|]. apply Z.ltb_ge. lia.
Qed.

Lemma save_serial_write_world (L : Layout) (address context : Z)
  (Aw Tw : World ScaLAPACKMatrix) (chunks : World (Z * Z)) (file : option HDF5File) :
  Layout_valid L ->
  ranked L Aw -> ranked (gather_layout L address context) Tw ->
  List.length chunks = List.length Aw ->
  exists A0 T0 c0,
    nth_error Aw 0 = Some A0 /\ nth_error Tw 0 = Some T0
    /\ fold_left
         (fun f ttc => save_serial_write (fst (fst ttc)) (snd (fst ttc)) (snd ttc) f)
         (combine (combine Aw Tw) chunks) file
       = Some (serial_file A0 T0 c0).
Proof.
  intros Hv HrA HrT Hlen.
  pose proof Hv as [_ [_ [_ [_ [HR [HC [HP _]]]]]]].
  assert (HPpos : 1 <= lay_P L) by nia.
  pose proof (proj1 HrA) as HlenA. pose proof (proj1 HrT) as HlenT.
  cbn [gather_layout lay_P] in HlenT.
  destruct Aw as [|A0 Aw']; [cbn in HlenA; lia|].
  destruct Tw as [|T0 Tw']; [cbn in HlenT; lia|].
  destruct chunks as [|c0 cs]; [cbn in Hlen; lia|].
  exists A0, T0, c0. split; [reflexivity|]. split; [reflexivity|].
  cbn [combine fold_left fst snd].
  rewrite fold_left_unchanged.
  - unfold save_serial_write.
    rewrite (gather_active L address context 0 T0 (proj2 HrT 0%nat T0 eq_refl)).
    reflexivity.
  - intros [[A T] c] acc Hin. cbn [fst snd].
    apply in_combine_l in Hin. apply in_combine_r in Hin.
    apply In_nth_error in Hin. destruct Hin as [k Hk].
    unfold save_serial_write.
    rewrite (gather_active L address context (S k) T (proj2 HrT (S k) T Hk)).
    reflexivity.
Qed.

Lemma H5Dread_state (s : State) :
  H5Dread_enum (Some (create_HDF5_state_enum_id, State_to_int s))
    create_HDF5_state_enum_id = Some (State_to_int s).
Proof. destruct s; reflexivity. Qed.

Lemma H5Dread_property (p : Property) :
  H5Dread_enum (Some (create_HDF5_property_enum_id, Property_to_int p))
    create_HDF5_property_enum_id = Some (Property_to_int p).
Proof. destruct p; reflexivity. Qed.

Lemma read_state_and_property_written (A0 : ScaLAPACKMatrix) (f : HDF5File) :
  read_state_and_property (write_state_and_property A0 f) = Ok (state A0, property A0).
Proof.
  unfold read_state_and_property, write_state_and_property.
  cbn [h5_state h5_property AssertThrow bind].
  rewrite H5Dread_state, H5Dread_property.
  unfold State_from_memory, Property_from_memory.
  rewrite State_of_int_to_int, Property_of_int_to_int. reflexivity.
Qed.

Lemma load_serial_read_world (LA LB : Layout) (address context : Z)
  (Bw Tw : World ScaLAPACKMatrix) (A0 T0 : ScaLAPACKMatrix) (c0 : Z * Z) :
  Layout_valid LA -> Layout_valid LB ->
  lay_m LB = lay_m LA -> lay_n LB = lay_n LA ->
  has_layout LA 0 A0 ->
  ranked LB Bw -> ranked (gather_layout LB address context) Tw ->
  mapM (fun tt => load_serial_read (fst tt) (snd tt) (Some (serial_file A0 T0 c0)))
    (combine Bw Tw)
  = Ok (map (fun tt => read_result (serial_file A0 T0 c0) (state A0) (property A0) (snd tt))
          (combine Bw Tw)).
Proof.
  intros HvA HvB Hm Hn HlA0 HrB HrT.
  pose proof HvA as [_ [HmA [_ [HnA _]]]].
  pose proof HvA as [HmbA [_ [HnbA _]]].
  apply mapM_Ok_intro. intros [B T] Hin. cbn [fst snd].
  destruct (ranked_combine LB _ Bw Tw B T HrB HrT Hin) as [k [_ [_ [HlB HlT]]]].
  unfold load_serial_read, read_result.
  destruct (mpi_process_is_active (grid T)); [|reflexivity].
  cbn [serial_file write_state_and_property h5_matrix_class h5_matrix_dims fst snd].
  rewrite Z.eqb_refl.
  rewrite (hl_n_rows _ _ _ HlA0), (hl_n_columns _ _ _ HlA0).
  rewrite (hl_n_rows _ _ _ HlB), (hl_n_columns _ _ _ HlB), Hm, Hn.
  rewrite !to_signed_small by lia. rewrite !Z.eqb_refl.
  cbn [AssertThrow bind].
  change (read_state_and_property _)
    with (read_state_and_property
            (write_state_and_property A0
               {| h5_matrix_class := hdf5_type_class;
                  h5_matrix_dims := (lay_n LA, lay_m LA);
                  h5_matrix_chunk := (snd c0, fst c0);
                  h5_matrix := firstn (Z.to_nat (lay_n LA * lay_m LA)) (values T0);
                  h5_state := None; h5_property := None |})).
  rewrite read_state_and_property_written. reflexivity.
Qed.

Lemma loaded_tmp_of_read_result (f : HDF5File) (s : State) (p : Property)
  (T : ScaLAPACKMatrix) :
  set_property (set_state (fst (fst (read_result f s p T))) s) p = loaded_tmp f s p T.
Proof.
  unfold read_result, loaded_tmp. destruct (mpi_process_is_active (grid T)); reflexivity.
Qed.

(** The broadcast hands the state and the property read by process 0 to
    every process. *)
Lemma load_serial_broadcast_world (L : Layout) (address context : Z)
  (f : HDF5File) (s : State) (p : Property) (Bw Tw : World ScaLAPACKMatrix) :
  Layout_valid L ->
  ranked (gather_layout L address context) Tw ->
  List.length Bw = List.length Tw ->
  let readw := map (fun tt => read_result f s p (snd tt)) (combine Bw Tw) in
  mapM (load_serial_broadcast readw) readw
  = Ok (map (fun tt => loaded_tmp f s p (snd tt)) (combine Bw Tw)).
Proof.
  intros Hv HrT Hlen. cbv zeta.
  pose proof Hv as [_ [_ [_ [_ [HR [HC [HP _]]]]]]].
  pose proof (proj1 HrT) as HlenT. cbn [gather_layout lay_P] in HlenT.
  destruct Tw as [|T0 Tw']; [cbn in HlenT; nia|].
  destruct Bw as [|B0 Bw']; [cbn in Hlen; lia|].
  pose proof (gather_active L address context 0 T0 (proj2 HrT 0%nat T0 eq_refl)) as Hact0.
  pose proof (hl_grid _ _ _ (proj2 HrT 0%nat T0 eq_refl)) as Hg0.
  cbv iota in Hact0.
  assert (Hrow0 : this_process_row (grid T0) = 0) by (rewrite Hg0; reflexivity).
  assert (Hcol0 : this_process_column (grid T0) = 0) by (rewrite Hg0; reflexivity).
  assert (Hr0 : read_result f s p T0
                = (set_property
                     (set_state (set_values T0 (H5Dread_all (h5_matrix f) (values T0))) s) p,
                   State_to_int s, Property_to_int p)).
  { unfold read_result. rewrite Hact0. reflexivity. }
  set (readw := map (fun tt => read_result f s p (snd tt))
                  (combine (B0 :: Bw') (T0 :: Tw'))).
  assert (Hroot : forall (T : Type) (pick : ScaLAPACKMatrix * Z * Z -> T),
             find (fun gv : ProcessGrid * T =>
                     mpi_process_is_active (fst gv)
                     && (this_process_row (fst gv) =? 0)
                     && (this_process_column (fst gv) =? 0))
               (map (fun r => (grid (fst (fst r)), pick r)) readw)
             = Some (grid T0, pick (read_result f s p T0))).
  { intros T pick. unfold readw. cbn [combine map snd]. rewrite Hr0.
    cbn [find fst snd set_property set_state set_values grid].
    rewrite Hact0, Hrow0, Hcol0. reflexivity. }
  assert (Hgoal : mapM (load_serial_broadcast readw) readw
                  = Ok (map (fun r => set_property (set_state (fst (fst r)) s) p) readw)).
  { apply mapM_Ok_intro. intros r Hin. unfold readw in Hin.
    apply in_map_iff in Hin. destruct Hin as [[B T] [<- _]]. cbn [snd].
    unfold load_serial_broadcast, send_to_inactive.
    rewrite (Hroot Z (fun r => snd (fst r))), (Hroot Z (fun r => snd r)). rewrite Hr0.
    unfold read_result. destruct (mpi_process_is_active (grid T)) eqn:HactT.
    - cbn [fst snd set_property set_state set_values grid]. rewrite HactT.
      unfold State_from_memory, Property_from_memory.
      rewrite State_of_int_to_int, Property_of_int_to_int. reflexivity.
    - cbn [fst snd]. rewrite HactT.
      unfold State_from_memory, Property_from_memory.
      rewrite State_of_int_to_int, Property_of_int_to_int. reflexivity. }
  rewrite Hgoal. unfold readw. rewrite map_map. f_equal.
  apply map_ext. intros [B T]. cbn [snd]. apply loaded_tmp_of_read_result.
Qed.

Lemma H5Dread_all_length (data buffer : list Number) :
  List.length (H5Dread_all data buffer) = List.length buffer.
Proof.
  unfold H5Dread_all. rewrite length_app, length_firstn, length_skipn. lia.
Qed.

Lemma H5Dread_all_same_length (data buffer : list Number) :
  List.length data = List.length buffer -> H5Dread_all data buffer = data.
Proof.
  intros H. unfold H5Dread_all. rewrite <- H, firstn_all, skipn_all2 by lia.
  apply app_nil_r.
Qed.

Lemma mapM_combine_swap (T U V : Type) (f : T -> U -> Result V) (l1 : list T) (l2 : list U) :
  mapM (fun tt => f (snd tt) (fst tt)) (combine l2 l1)
  = mapM (fun tt => f (fst tt) (snd tt)) (combine l1 l2).
Proof.
  revert l2. induction l1 as [|x l1 IH]; intros [|y l2]; cbn [combine mapM fst snd];
    try reflexivity.
  rewrite IH. reflexivity.
Qed.

(** The gathering matrix of [load_serial], after the read and the broadcast:
    it has its layout, the state and the property of the file, and the
    elements of the file. *)
Lemma loaded_tmp_world (L : Layout) (address context : Z) (f : HDF5File)
  (s : State) (p : Property) (Bw Tw : World ScaLAPACKMatrix) :
  Layout_valid L -> 0 <= context ->
  ranked (gather_layout L address context) Tw ->
  List.length Bw = List.length Tw ->
  List.length (h5_matrix f) = Z.to_nat (lay_m L * lay_n L) ->
  let Tw' := map (fun tt => loaded_tmp f s p (snd tt)) (combine Bw Tw) in
  ranked (gather_layout L address context) Tw'
  /\ (forall k X, nth_error Tw' k = Some X -> state X = s /\ property X = p)
  /\ (forall gi gj, 0 <= gi < lay_m L -> 0 <= gj < lay_n L ->
                    layout_el (gather_layout L address context) Tw' gi gj
                    = nth (Z.to_nat (gj * lay_m L + gi)) (h5_matrix f) (of_int 0)).
Proof.
  intros Hv Hc HrT Hlen Hdata. cbv zeta.
  set (Tw' := map (fun tt => loaded_tmp f s p (snd tt)) (combine Bw Tw)).
  assert (Hnth : forall k X, nth_error Tw' k = Some X ->
             exists T, nth_error Tw k = Some T /\ X = loaded_tmp f s p T).
  { intros k X HX. apply nth_error_map_inv in HX. destruct HX as [[B T] [HBT ->]].
    apply nth_error_combine_inv in HBT. exists T. split; [apply HBT | reflexivity]. }
  assert (Hrk' : ranked (gather_layout L address context) Tw').
  { split.
    - unfold Tw'. rewrite length_map, length_combine, Hlen, Nat.min_id. exact (proj1 HrT).
    - intros k X HX. destruct (Hnth k X HX) as [T [HT ->]].
      pose proof (proj2 HrT k T HT) as Hl. unfold loaded_tmp.
      destruct (mpi_process_is_active (grid T)).
      + apply has_layout_update; [exact Hl | apply H5Dread_all_length].
      + apply has_layout_state_property. exact Hl. }
  split; [exact Hrk'|]. split.
  - intros k X HX. destruct (Hnth k X HX) as [T [_ ->]]. split; reflexivity.
  - intros gi gj Hgi Hgj.
    destruct (gathered_el L address context Tw' gi gj Hv Hc Hrk')
      as [X0 [HX0 [_ [_ Hel]]]].
    rewrite (Hel Hgi Hgj).
    destruct (Hnth 0%nat X0 HX0) as [T0 [HT0 ->]].
    destruct (gathered_el L address context Tw gi gj Hv Hc HrT)
      as [T0' [HT0' [Hl0 [Hlen0 _]]]].
    rewrite HT0 in HT0'. inversion HT0'. subst T0'. clear HT0'.
    unfold loaded_tmp.
    rewrite (gather_active L address context 0 T0 Hl0).
    cbn [set_property set_state set_values values].
    rewrite H5Dread_all_same_length by congruence. reflexivity.
Qed.

(** X23: without parallel HDF5 ([save_serial], [load_serial]), [save]
    followed by [load] restores the matrix: both return on every process, and
    on every process the state and the property are those at the time of
    [save], the shape is the same, and for every position of the matrix the
    value an active process holds there (in the sense of [global_row],
    [global_column] and [local_el]) before [save] is held there after [load],
    and no other.  It holds for every grid of the saved and of the loading
    matrix, a 1x1 grid and a grid smaller than the job included; loading onto
    the saved matrix itself is the case [LB = LA], [Bw = Aw]. *)
Theorem save_load_serial_round_trip
  (LA LB : Layout) (s sB : State) (p pB : Property)
  (Aw Bw : World ScaLAPACKMatrix) (chunk_size : Z * Z)
  (address1 context1 address2 context2 : Z) (file0 : option HDF5File) :
  Layout_valid LA -> Layout_valid LB ->
  lay_m LB = lay_m LA -> lay_n LB = lay_n LA -> lay_P LB = lay_P LA ->
  distributed LA s p Aw -> distributed LB sB pB Bw ->
  chunk_size_allowed LA chunk_size ->
  address1 <> lay_address LA -> address2 <> lay_address LB ->
  0 <= context1 -> 0 <= context2 ->
  exists file Bw',
    save false Aw chunk_size address1 context1 file0 = Ok (Some file)
    /\ load false Bw address2 context2 (Some file) = Ok Bw'
    /\ List.length Bw' = List.length Bw
    /\ (forall k B', nth_error Bw' k = Some B' ->
                     state B' = s /\ property B' = p
                     /\ n_rows B' = lay_m LA /\ n_columns B' = lay_n LA)
    /\ (forall gi gj, 0 <= gi < lay_m LA -> 0 <= gj < lay_n LA ->
                      exists v, entry Aw gi gj v /\ entry Bw' gi gj v)
    /\ (forall gi gj v, entry Aw gi gj v <-> entry Bw' gi gj v).
Proof.
  intros HvA HvB Hm Hn HP HdA HdB Hchunk Ha1 Ha2 Hc1 Hc2.
  destruct (distributed_ranked LA s p Aw HvA HdA) as [HrA HspA].
  destruct (distributed_ranked LB sB pB Bw HvB HdB) as [HrB _].
  (* save *)
  destruct (save_chunk_size_world LA Aw chunk_size HvA HrA Hchunk) as [chunks [Hchunks Hclen]].
  destruct (gather_tmp_world LA Aw address1 context1 HvA Hc1 HrA) as [tmpw [Htmpw [HrT _]]].
  pose proof (gather_layout_valid LA address1 context1 HvA Hc1) as HvT1.
  destruct (copy_to_world LA (gather_layout LA address1 context1) s p Aw tmpw
              HvA HvT1 HrA HrT HspA eq_refl eq_refl eq_refl
              ltac:(cbn; congruence))
    as [tmpw' [Hcopy1 [HrT' [_ Hel1]]]].
  destruct (save_serial_write_world LA address1 context1 Aw tmpw' chunks file0
              HvA HrA HrT' Hclen)
    as [A0 [T0 [c0 [HA0 [HT0 Hfold]]]]].
  pose proof (proj2 HrA 0%nat A0 HA0) as HlA0.
  destruct (HspA 0%nat A0 HA0) as [HsA0 HpA0].
  exists (serial_file A0 T0 c0).
  (* the elements of the file *)
  assert (Hfile : List.length (h5_matrix (serial_file A0 T0 c0))
                  = Z.to_nat (lay_m LA * lay_n LA)
                  /\ forall gi gj, 0 <= gi < lay_m LA -> 0 <= gj < lay_n LA ->
                       nth (Z.to_nat (gj * lay_m LA + gi)) (h5_matrix (serial_file A0 T0 c0))
                         (of_int 0)
                       = layout_el LA Aw gi gj).
  { destruct (gathered_el LA address1 context1 tmpw' 0 0 HvA Hc1 HrT')
      as [T0' [HT0' [_ [Hlen0 _]]]].
    rewrite HT0 in HT0'. inversion HT0'. subst T0'. clear HT0'.
    assert (Hdata : h5_matrix (serial_file A0 T0 c0) = values T0).
    { cbn [serial_file write_state_and_property h5_matrix].
      rewrite (hl_n_rows _ _ _ HlA0), (hl_n_columns _ _ _ HlA0).
      apply firstn_all2. rewrite Hlen0. lia. }
    rewrite Hdata. split; [exact Hlen0|].
    intros gi gj Hgi Hgj.
    destruct (gathered_el LA address1 context1 tmpw' gi gj HvA Hc1 HrT')
      as [T0' [HT0' [_ [_ Hel]]]].
    rewrite HT0 in HT0'. inversion HT0'. subst T0'. clear HT0'.
    rewrite <- (Hel Hgi Hgj). apply Hel1; assumption. }
  destruct Hfile as [Hflen Hfel].
  (* load *)
  destruct (gather_tmp_world LB Bw address2 context2 HvB Hc2 HrB) as [tmpw2 [Htmpw2 [HrT2 _]]].
  pose proof (gather_layout_valid LB address2 context2 HvB Hc2) as HvT2.
  assert (HlenBT : List.length Bw = List.length tmpw2).
  { rewrite (proj1 HrB), (proj1 HrT2). reflexivity. }
  destruct (loaded_tmp_world LB address2 context2 (serial_file A0 T0 c0) s p Bw tmpw2
              HvB Hc2 HrT2 HlenBT ltac:(rewrite Hm, Hn; exact Hflen))
    as [HrT3 [HspT3 Hel3]].
  set (tmpw3 := map (fun tt => loaded_tmp (serial_file A0 T0 c0) s p (snd tt))
                  (combine Bw tmpw2)) in *.
  destruct (copy_to_world (gather_layout LB address2 context2) LB s p tmpw3 Bw
              HvT2 HvB HrT3 HrB HspT3 eq_refl eq_refl eq_refl
              ltac:(cbn; congruence))
    as [Bw' [Hcopy2 [HrB' [HspB' Hel2]]]].
  exists Bw'.
  split.
  { unfold save. rewrite Hchunks. cbn [bind]. unfold save_serial.
    rewrite Htmpw. cbn [bind]. rewrite Hcopy1. cbn [bind]. rewrite Hfold. reflexivity. }
  split.
  { apply load_serial_job. unfold load_serial_returning.
    rewrite load_serial_tmp_eq, Htmpw2. cbn [bind].
    rewrite (load_serial_read_world LA LB address2 context2 Bw tmpw2 A0 T0 c0
               HvA HvB Hm Hn HlA0 HrB HrT2).
    cbn [bind]. rewrite HsA0, HpA0.
    rewrite (load_serial_broadcast_world LB address2 context2 (serial_file A0 T0 c0) s p
               Bw tmpw2 HvB HrT2 HlenBT).
    cbn [bind]. fold tmpw3.
    rewrite (mapM_combine_swap _ _ _ (copy_to tmpw3)). exact Hcopy2. }
  split; [rewrite (proj1 HrB'), (proj1 HrB); reflexivity|].
  split.
  { intros k B' HB'. destruct (HspB' k B' HB') as [Hs' Hp'].
    pose proof (proj2 HrB' k B' HB') as Hl'.
    rewrite (hl_n_rows _ _ _ Hl'), (hl_n_columns _ _ _ Hl'). repeat split; assumption. }
  assert (Heq : forall gi gj, 0 <= gi < lay_m LA -> 0 <= gj < lay_n LA ->
                 layout_el LB Bw' gi gj = layout_el LA Aw gi gj).
  { intros gi gj Hgi Hgj. cbn [gather_layout lay_m lay_n] in Hel2, Hel3.
    rewrite Hel2 by lia. rewrite Hel3 by lia. rewrite Hm. apply Hfel; assumption. }
  split.
  - intros gi gj Hgi Hgj. exists (layout_el LA Aw gi gj). split.
    + apply entry_layout_el; assumption.
    + rewrite <- Heq by assumption. apply entry_layout_el; try assumption; lia.
  - intros gi gj v. split; intros Hentry.
    + destruct (entry_unique LA Aw gi gj v HvA HrA Hentry) as [Hgi [Hgj ->]].
      rewrite <- Heq by assumption. apply entry_layout_el; try assumption; lia.
    + destruct (entry_unique LB Bw' gi gj v HvB HrB' Hentry) as [Hgi [Hgj ->]].
      rewrite Heq by lia. apply entry_layout_el; try assumption; lia.
Qed.

(** ** Addition *)

Lemma added_has_layout (L : Layout) (k : Z) (A B : ScaLAPACKMatrix)
  (Bw : World ScaLAPACKMatrix) (alpha beta : Number) (transpose_B : bool) :
  has_layout L k A -> has_layout L k (added A Bw B alpha beta transpose_B).
Proof.
  intros [Hg Hnr Hnc Hrbs Hcbs Hfr Hfc Hsr Hsc Hact Hin]. unfold added.
  destruct (mpi_process_is_active (grid A)).
  - constructor; cbn; try assumption.
    + intros Hk. destruct (Hact Hk) as [H1 [H2 [H3 [H4 H5]]]].
      repeat split; try assumption.
      unfold pgeadd. rewrite length_map_zrange. cbn [make_Operand op_values]. exact H5.
    + intros Hk. destruct (Hin Hk) as [H1 H2]. split; [exact H1|].
      unfold pgeadd. cbn [make_Operand op_values]. rewrite H2. reflexivity.
  - constructor; cbn; assumption.
Qed.

Lemma add_Ok (LA LB : Layout) (k : Z) (A B : ScaLAPACKMatrix) (Bw : World ScaLAPACKMatrix)
  (alpha beta : Number) (transpose_B : bool) :
  has_layout LA k A -> has_layout LB k B ->
  add_compatible transpose_B LA LB ->
  lay_address LB = lay_address LA ->
  add A Bw B alpha beta transpose_B = Ok (added A Bw B alpha beta transpose_B).
Proof.
  intros HlA HlB Hcompat Haddr. unfold add.
  rewrite (hl_n_rows _ _ _ HlA), (hl_n_columns _ _ _ HlA).
  rewrite (hl_n_rows _ _ _ HlB), (hl_n_columns _ _ _ HlB).
  rewrite (hl_row_block_size _ _ _ HlA), (hl_column_block_size _ _ _ HlA).
  rewrite (hl_row_block_size _ _ _ HlB), (hl_column_block_size _ _ _ HlB).
  rewrite (hl_grid _ _ _ HlA), (hl_grid _ _ _ HlB).
  cbn [layout_grid make_ProcessGrid grid_address].
  rewrite Haddr, Z.eqb_refl.
  unfold add_compatible in Hcompat.
  destruct transpose_B; destruct Hcompat as [H1 [H2 [H3 H4]]];
    rewrite H1, H2, H3, H4, !Z.eqb_refl; cbn [Assert bind];
    unfold added;
    rewrite (hl_n_rows _ _ _ HlA), (hl_n_columns _ _ _ HlA), (hl_grid _ _ _ HlA);
    cbn [layout_grid make_ProcessGrid mpi_process_is_active];
    rewrite ?H1, ?H2; reflexivity.
Qed.

(** The PBLAS kernel leaves [alpha * a + beta * b] at the owner of
    [(gi, gj)], for the entries [a] of A and [b] of op(B). *)
Lemma pgeadd_owner_el (LA LB : Layout) (Aw Bw : World ScaLAPACKMatrix)
  (alpha beta : Number) (transpose_B : bool) (gi gj : Z) (A : ScaLAPACKMatrix) :
  Layout_valid LA -> ranked LA Aw -> Layout_valid LB -> ranked LB Bw ->
  add_compatible transpose_B LA LB ->
  0 <= gi < lay_m LA -> 0 <= gj < lay_n LA ->
  nth_error Aw (Z.to_nat (owner_rank LA gi gj)) = Some A ->
  nth (Z.to_nat (local_column LA gj * table_n_rows A + local_row LA gi))
    (pgeadd (if transpose_B then "T"%char else "N"%char) (lay_m LA) (lay_n LA)
       beta (map (fun X => make_Operand (values X) (descriptor X) (grid X)) Bw) 1 1
       alpha (make_Operand (values A) (descriptor A) (grid A)) 1 1)
    (of_int 0)
  = plus (times alpha (layout_el LA Aw gi gj))
      (times beta (layout_el LB Bw (fst (op_position transpose_B gi gj))
                     (snd (op_position transpose_B gi gj)))).
Proof.
  intros HvA HrA HvB HrB Hcompat Hgi Hgj HA.
  destruct (owner_position LA Aw (fun X => make_Operand (values X) (descriptor X) (grid X))
              gi gj A HvA HrA make_Operand_faithful Hgi Hgj HA) as [Hk [Hrow Hcol]].
  unfold pgeadd. cbn [make_Operand op_values].
  rewrite nth_map_zrange by exact Hk.
  rewrite Hrow, Hcol.
  replace (1 - 1) with 0 by lia.
  rewrite (proj2 (Z.leb_le 0 gi)), (proj2 (Z.ltb_lt gi (0 + lay_m LA))) by lia.
  rewrite (proj2 (Z.leb_le 0 gj)), (proj2 (Z.ltb_lt gj (0 + lay_n LA))) by lia.
  cbn [andb].
  replace (gi - 0 + 0) with gi by lia. replace (gj - 0 + 0) with gj by lia.
  f_equal.
  - f_equal. unfold layout_el. rewrite HA. reflexivity.
  - f_equal. unfold add_compatible in Hcompat.
    destruct transpose_B; destruct Hcompat as [H1 [H2 _]]; cbn [op_position fst snd].
    + change (Ascii.eqb "T" "T") with true. cbv iota.
      apply operand_el_layout; try assumption; try lia. apply make_Operand_faithful.
    + change (Ascii.eqb "N" "T") with false. cbv iota.
      apply operand_el_layout; try assumption; try lia. apply make_Operand_faithful.
Qed.

(** The value [add] leaves at position [(gi, gj)]. *)
Lemma added_entry (LA LB : Layout) (Aw Bw : World ScaLAPACKMatrix)
  (alpha beta : Number) (transpose_B : bool) (gi gj : Z) :
  Layout_valid LA -> Layout_valid LB -> ranked LA Aw -> ranked LB Bw ->
  lay_P LB = lay_P LA -> add_compatible transpose_B LA LB ->
  0 <= gi < lay_m LA -> 0 <= gj < lay_n LA ->
  entry (map (fun tt => added (fst tt) Bw (snd tt) alpha beta transpose_B) (combine Aw Bw))
    gi gj
    (plus (times alpha (layout_el LA Aw gi gj))
       (times beta (layout_el LB Bw (fst (op_position transpose_B gi gj))
                      (snd (op_position transpose_B gi gj))))).
Proof.
  intros HvA HvB HrA HrB HP Hcompat Hgi Hgj.
  destruct (owner_object LA Aw gi gj HvA HrA Hgi Hgj)
    as [A [HA [HlA [Hact [_ [_ [[Hli _] [[Hlj _] [Hrow Hcol]]]]]]]]].
  destruct (owner_rank_facts LA gi gj HvA) as [Hr _].
  pose proof HvA as [_ [_ [_ [_ [_ [_ [HPA _]]]]]]].
  destruct (ranked_nth LB Bw (owner_rank LA gi gj) HrB ltac:(lia)) as [B [HB HlB]].
  exists (Z.to_nat (owner_rank LA gi gj)), (added A Bw B alpha beta transpose_B),
    (local_row LA gi), (local_column LA gj).
  split.
  { exact (map_nth_error (fun tt => added (fst tt) Bw (snd tt) alpha beta transpose_B)
             (Z.to_nat (owner_rank LA gi gj)) (combine Aw Bw)
             (nth_error_combine_intro _ _ _ _ _ _ _ HA HB)). }
  split; [unfold added; rewrite Hact; exact Hact|].
  split; [exact Hli|]. split; [exact Hlj|].
  split; [unfold added; rewrite Hact; exact Hrow|].
  split; [unfold added; rewrite Hact; exact Hcol|].
  unfold added. rewrite Hact. unfold local_el.
  cbn [set_state set_values values table_n_rows].
  rewrite (hl_n_rows _ _ _ HlA), (hl_n_columns _ _ _ HlA).
  rewrite (hl_submatrix_row _ _ _ HlA), (hl_submatrix_column _ _ _ HlA).
  rewrite (hl_submatrix_row _ _ _ HlB), (hl_submatrix_column _ _ _ HlB).
  apply (pgeadd_owner_el LA LB Aw Bw); assumption.
Qed.

(** C7: [add (B, alpha, beta, transpose_B)], for A and B on the same process
    grid and with the shapes and block sizes the transpose flag requires,
    succeeds on every process, leaves A in state [matrix], and leaves at every
    position of A the value [alpha * a + beta * b] and no other, where [a] is
    the entry of A and [b] the entry of op(B) at that position before the
    call. *)
Theorem add_computes_linear_combination
  (LA LB : Layout) (sA sB : State) (pA pB : Property)
  (Aw Bw : World ScaLAPACKMatrix) (alpha beta : Number) (transpose_B : bool) :
  Layout_valid LA -> Layout_valid LB ->
  distributed LA sA pA Aw -> distributed LB sB pB Bw ->
  lay_address LB = lay_address LA -> lay_context LB = lay_context LA ->
  lay_R LB = lay_R LA -> lay_C LB = lay_C LA -> lay_P LB = lay_P LA ->
  add_compatible transpose_B LA LB ->
  exists Aw',
    mapM (fun tt => add (fst tt) Bw (snd tt) alpha beta transpose_B) (combine Aw Bw) = Ok Aw'
    /\ List.length Aw' = List.length Aw
    /\ (forall k A', nth_error Aw' k = Some A' -> state A' = matrix)
    /\ (forall gi gj, 0 <= gi < lay_m LA -> 0 <= gj < lay_n LA ->
          exists a b,
            entry Aw gi gj a
            /\ entry Bw (fst (op_position transpose_B gi gj))
                 (snd (op_position transpose_B gi gj)) b
            /\ entry Aw' gi gj (plus (times alpha a) (times beta b)))
    /\ (forall gi gj a b v,
          entry Aw gi gj a ->
          entry Bw (fst (op_position transpose_B gi gj))
            (snd (op_position transpose_B gi gj)) b ->
          entry Aw' gi gj v ->
          v = plus (times alpha a) (times beta b)).
Proof.
  intros HvA HvB HdA HdB Haddr Hctx HR HC HP Hcompat.
  destruct (distributed_ranked LA sA pA Aw HvA HdA) as [HrA _].
  destruct (distributed_ranked LB sB pB Bw HvB HdB) as [HrB _].
  exists (map (fun tt => added (fst tt) Bw (snd tt) alpha beta transpose_B) (combine Aw Bw)).
  assert (Hlen : List.length (combine Aw Bw) = List.length Aw).
  { rewrite length_combine, (proj1 HrA), (proj1 HrB), HP. apply Nat.min_id. }
  assert (HrA' : ranked LA (map (fun tt => added (fst tt) Bw (snd tt) alpha beta transpose_B)
                              (combine Aw Bw))).
  { split; [rewrite length_map, Hlen; exact (proj1 HrA)|].
    intros k A' HA'. apply nth_error_map_inv in HA'. destruct HA' as [[A B] [HAB ->]].
    apply nth_error_combine_inv in HAB. destruct HAB as [HA _]. cbn [fst snd].
    apply added_has_layout. exact (proj2 HrA k A HA). }
  split; [|split; [|split; [|split]]].
  - apply mapM_Ok_intro. intros [A B] Hin. cbn [fst snd].
    destruct (ranked_combine LA LB Aw Bw A B HrA HrB Hin) as [k [_ [_ [HlA HlB]]]].
    apply (add_Ok LA LB (Z.of_nat k)); assumption.
  - rewrite length_map. exact Hlen.
  - intros k A' HA'. apply nth_error_map_inv in HA'. destruct HA' as [[A B] [_ ->]].
    reflexivity.
  - intros gi gj Hgi Hgj.
    assert (Hop : 0 <= fst (op_position transpose_B gi gj) < lay_m LB
                  /\ 0 <= snd (op_position transpose_B gi gj) < lay_n LB).
    { unfold add_compatible in Hcompat.
      destruct transpose_B; destruct Hcompat as [H1 [H2 _]]; cbn [op_position fst snd]; lia. }
    destruct Hop as [Hoi Hoj].
    exists (layout_el LA Aw gi gj),
      (layout_el LB Bw (fst (op_position transpose_B gi gj))
         (snd (op_position transpose_B gi gj))).
    split; [apply entry_layout_el; assumption|].
    split; [apply entry_layout_el; assumption|].
    apply added_entry; assumption.
  - intros gi gj a b v Ha Hb Hv.
    destruct (entry_unique LA Aw gi gj a HvA HrA Ha) as [Hgi [Hgj ->]].
    destruct (entry_unique LB Bw _ _ b HvB HrB Hb) as [_ [_ ->]].
    destruct (entry_unique LA _ gi gj v HvA HrA' Hv) as [_ [_ ->]].
    destruct (entry_unique LA _ gi gj _ HvA HrA'
                (added_entry LA LB Aw Bw alpha beta transpose_B gi gj
                   HvA HvB HrA HrB HP Hcompat Hgi Hgj)) as [_ [_ Hu]].
    symmetry. exact Hu.
Qed.

(** ** The column grid of the parallel checkpoint path *)

(** The first process of the 1 x P grid holds more than one block whenever
    the block size is the rounded-down quotient and [P] does not divide the
    width. *)
Lemma numroc_floor_block (n P : Z) :
  1 <= P <= n -> n mod P <> 0 ->
  1 <= n / P /\ 2 <= P /\ n / P * P < n /\ n / P < numroc_ n (n / P) 0 0 P.
Proof.
  intros HP Hmod.
  pose proof (Z.div_mod n P ltac:(lia)) as En.
  pose proof (Z.mod_pos_bound n P ltac:(lia)) as Bn.
  set (NB := n / P) in *.
  assert (HNB : 1 <= NB).
  { unfold NB. apply Z.div_le_lower_bound; lia. }
  assert (HP2 : 2 <= P).
  { destruct (Z.eq_dec P 1) as [->|]; [rewrite Z.mod_1_r in Hmod; lia | lia]. }
  assert (Hlt : NB * P < n) by lia.
  split; [exact HNB|]. split; [exact HP2|]. split; [exact Hlt|].
  unfold numroc_. replace (P + 0 - 0) with P by lia. rewrite Z.mod_same by lia.
  set (K := n / NB).
  pose proof (Z.div_mod n NB ltac:(lia)) as EK.
  pose proof (Z.mod_pos_bound n NB ltac:(lia)) as BK.
  pose proof (Z.div_mod K P ltac:(lia)) as EQ.
  pose proof (Z.mod_pos_bound K P ltac:(lia)) as BQ.
  fold K in EK.
  assert (HK : P <= K).
  { unfold K. apply Z.div_le_lower_bound; lia. }
  assert (Hq : 1 <= K / P).
  { apply Z.div_le_lower_bound; lia. }
  assert (Hbase : NB * 1 <= NB * (K / P)) by (apply Z.mul_le_mono_nonneg_l; lia).
  destruct (Z.ltb_spec 0 (K mod P)) as [Hpos|Hzero]; [lia|].
  destruct (Z.eqb_spec 0 (K mod P)) as [Heq|Hne]; [|lia].
  destruct (Z.eq_dec (K / P) 1) as [H1|H1].
  - assert (HKP : K = P) by lia. rewrite HKP in EK. lia.
  - assert (Hbase2 : NB * 2 <= NB * (K / P)) by (apply Z.mul_le_mono_nonneg_l; lia).
    lia.
Qed.

(** Whenever the number of processes does not divide the width (and is not
    larger than it), the matrix that [save_parallel] and [load_parallel]
    build gives process 0 the columns up to [NB - 1] and then column
    [NB * P]: its columns are not one band. *)
Lemma parallel_tmp_wraps (this : ScaLAPACKMatrix) (address context : Z) :
  this_mpi_process (grid this) = 0 ->
  1 <= n_rows this ->
  1 <= n_mpi_processes (grid this) <= n_columns this ->
  n_columns this < 2 ^ 31 ->
  n_columns this mod n_mpi_processes (grid this) <> 0 ->
  exists tmp,
    parallel_tmp this address context = Ok tmp
    /\ column_block_size tmp = n_columns this / n_mpi_processes (grid this)
    /\ global_column tmp (column_block_size tmp - 1) = Ok (column_block_size tmp - 1)
    /\ global_column tmp (column_block_size tmp)
       = Ok (column_block_size tmp * n_mpi_processes (grid this))
    /\ column_block_size tmp < column_block_size tmp * n_mpi_processes (grid this).
Proof.
  intros Hrank Hm HP Hn Hmod.
  destruct (numroc_floor_block _ _ HP Hmod) as [HNB [HP2 [Hlt Hnum]]].
  set (P := n_mpi_processes (grid this)) in *.
  set (n := n_columns this) in *.
  set (NB := n / P) in *.
  pose proof (numroc_bounds n NB 0 0 P ltac:(lia) HNB ltac:(lia)) as Hnb.
  unfold parallel_tmp. fold P n.
  rewrite (to_unsigned_small P) by lia.
  rewrite (to_unsigned_small n) by lia.
  fold NB. rewrite (to_signed_small NB) by lia.
  set (g := make_ProcessGrid address (mpi_communicator (grid this)) P
              (this_mpi_process (grid this)) context 1 P).
  assert (Hact : mpi_process_is_active g = true).
  { unfold g, make_ProcessGrid. rewrite Hrank. cbn [mpi_process_is_active].
    apply Z.ltb_lt. lia. }
  assert (Hcol : this_process_column g = 0).
  { unfold g, make_ProcessGrid. rewrite Hrank. cbn [this_process_column].
    rewrite (proj2 (Z.ltb_lt 0 (1 * P))) by lia. reflexivity. }
  assert (HC : n_process_columns g = P) by reflexivity.
  assert (HNBn : NB <= n) by nia.
  rewrite ScaLAPACKMatrix_ctor_Ok by (unfold g, make_ProcessGrid; cbn [n_process_rows n_process_columns]; lia).
  rewrite Hact.
  eexists. split; [reflexivity|].
  split; [reflexivity|].
  unfold global_column.
  cbn [constructed_active column_block_size n_local_columns grid first_process_column].
  rewrite Hcol, HC.
  rewrite (to_unsigned_small (numroc_ n NB 0 0 P)) by lia.
  split; [|split].
  - rewrite Assert_true
      by (apply andb_true_iff; split; [apply Z.leb_le | apply Z.ltb_lt]; lia).
    cbn [bind]. replace (NB - 1 + 1) with NB by lia.
    rewrite (to_unsigned_small NB) by lia. rewrite to_signed_small by lia.
    unfold indxl2g_. replace (P + 0 - 0) with P by lia. rewrite Z.mod_same by lia.
    rewrite (Z.div_small (NB - 1) NB) by lia. rewrite (Z.mod_small (NB - 1) NB) by lia.
    rewrite to_unsigned_small by lia. f_equal. lia.
  - rewrite Assert_true
      by (apply andb_true_iff; split; [apply Z.leb_le | apply Z.ltb_lt]; lia).
    cbn [bind].
    rewrite (to_unsigned_small (NB + 1)) by lia. rewrite to_signed_small by lia.
    unfold indxl2g_. replace (P + 0 - 0) with P by lia. rewrite Z.mod_same by lia.
    replace (NB + 1 - 1) with NB by lia.
    rewrite Z.div_same by lia. rewrite Z.mod_same by lia.
    rewrite to_unsigned_small by lia. f_equal. lia.
  - nia.
Qed.

(** When the number of processes divides the width, every process holds
    the one band of [n / P] columns that starts at [rank * (n / P)]. *)
Lemma parallel_tmp_bands (this : ScaLAPACKMatrix) (address context : Z) :
  0 <= this_mpi_process (grid this) < n_mpi_processes (grid this) ->
  1 <= n_rows this ->
  1 <= n_mpi_processes (grid this) <= n_columns this ->
  n_columns this < 2 ^ 31 ->
  n_columns this mod n_mpi_processes (grid this) = 0 ->
  exists tmp,
    parallel_tmp this address context = Ok tmp
    /\ n_local_columns tmp = n_columns this / n_mpi_processes (grid this)
    /\ forall j, 0 <= j < n_local_columns tmp ->
                 global_column tmp j
                 = Ok (this_mpi_process (grid this) * n_local_columns tmp + j).
Proof.
  intros Hrank Hm HP Hn Hmod.
  set (P := n_mpi_processes (grid this)) in *.
  set (n := n_columns this) in *.
  set (r := this_mpi_process (grid this)) in *.
  pose proof (Z.div_mod n P ltac:(lia)) as En.
  set (NB := n / P) in *.
  assert (HNB : 1 <= NB) by (unfold NB; apply Z.div_le_lower_bound; lia).
  assert (HnNB : n = NB * P) by lia.
  assert (HNBn : NB <= n) by nia.
  assert (Hnum : numroc_ n NB r 0 P = NB).
  { assert (H1 : n / NB = P).
    { rewrite HnNB at 1. rewrite Z.mul_comm. apply Z.div_mul. lia. }
    assert (H2 : n mod NB = 0).
    { rewrite HnNB at 1. rewrite Z.mul_comm. apply Z.mod_mul. lia. }
    unfold numroc_. replace (P + r - 0) with (r + 1 * P) by lia.
    rewrite Z.mod_add by lia. rewrite (Z.mod_small r P) by lia.
    rewrite H1, H2. rewrite Z.div_same by lia. rewrite Z.mod_same by lia.
    destruct (Z.ltb_spec r 0) as [H|H]; [lia|].
    destruct (Z.eqb_spec r 0); lia. }
  unfold parallel_tmp. fold P n r.
  rewrite (to_unsigned_small P) by lia.
  rewrite (to_unsigned_small n) by lia.
  fold NB. rewrite (to_signed_small NB) by lia.
  set (g := make_ProcessGrid address (mpi_communicator (grid this)) P r context 1 P).
  assert (Hact : mpi_process_is_active g = true).
  { unfold g, make_ProcessGrid. cbn [mpi_process_is_active]. apply Z.ltb_lt. lia. }
  assert (Hcol : this_process_column g = r).
  { unfold g, make_ProcessGrid. cbn [this_process_column].
    rewrite (proj2 (Z.ltb_lt r (1 * P))) by lia. apply Z.div_1_r. }
  assert (HC : n_process_columns g = P) by reflexivity.
  rewrite ScaLAPACKMatrix_ctor_Ok
    by (unfold g, make_ProcessGrid; cbn [n_process_rows n_process_columns]; lia).
  rewrite Hact.
  eexists. split; [reflexivity|].
  cbn [constructed_active n_local_columns]. rewrite Hcol, HC, Hnum.
  split; [reflexivity|].
  intros j Hj. unfold global_column.
  cbn [constructed_active column_block_size n_local_columns grid first_process_column].
  rewrite Hcol, HC, Hnum.
  rewrite (to_unsigned_small NB) by lia.
  rewrite Assert_true
    by (apply andb_true_iff; split; [apply Z.leb_le | apply Z.ltb_lt]; lia).
  cbn [bind].
  rewrite (to_unsigned_small (j + 1)) by lia. rewrite to_signed_small by lia.
  unfold indxl2g_. replace (j + 1 - 1) with j by lia.
  replace (P + r - 0) with (r + 1 * P) by lia.
  rewrite Z.mod_add by lia. rewrite (Z.mod_small r P) by lia.
  rewrite (Z.div_small j NB) by lia. rewrite (Z.mod_small j NB) by lia.
  assert (HrNB : 0 <= r * NB /\ r * NB + NB <= n) by nia.
  rewrite to_unsigned_small by lia. f_equal. lia.
Qed.

(** ** Loops that write each position once *)

(** A loop whose body never throws on the states of a family [emb] is the
    pure loop on the family. *)
Lemma for_loopM_emb (X Y : Type) (emb : Y -> X) (lo hi : Z)
  (body : Z -> X -> Result X) (f : Z -> Y -> Y) (y0 : Y) :
  (forall i y, lo <= i < hi -> body i (emb y) = Ok (emb (f i y))) ->
  for_loopM lo hi body (emb y0) = Ok (emb (for_loop lo hi f y0)).
Proof.
  intros Hbody. unfold for_loopM, for_loop.
  assert (Haux : forall (l : list Z) (y : Y),
             (forall i, In i l -> lo <= i < hi) ->
             fold_left (fun a i => x <- a ;; body i x) l (Ok (emb y))
             = Ok (emb (fold_left (fun acc i => f i acc) l y))).
  { induction l as [|i l IH]; intros y Hin.
    - reflexivity.
    - cbn [fold_left bind]. rewrite Hbody by (apply Hin; left; reflexivity).
      apply IH. intros k Hk. apply Hin. right. exact Hk. }
  apply Haux. intros i Hi. apply In_zrange. exact Hi.
Qed.

(** Two loops whose bodies agree on the range are the same loop. *)
Lemma for_loop_ext (S : Type) (lo hi : Z) (f g : Z -> S -> S) (s : S) :
  (forall i x, lo <= i < hi -> f i x = g i x) ->
  for_loop lo hi f s = for_loop lo hi g s.
Proof.
  intros H. unfold for_loop.
  assert (Haux : forall (l : list Z) (x : S),
             (forall i, In i l -> lo <= i < hi) ->
             fold_left (fun acc i => f i acc) l x = fold_left (fun acc i => g i acc) l x).
  { induction l as [|i l IH]; intros x Hin.
    - reflexivity.
    - cbn [fold_left]. rewrite H by (apply Hin; left; reflexivity).
      apply IH. intros k Hk. apply Hin. right. exact Hk. }
  apply Haux. intros i Hi. apply In_zrange. exact Hi.
Qed.

Section Scatter.

(** A store with keys: [get] reads, [set] writes one key that is [valid]
    (writes keep keys valid). *)
Variables (St K V : Type).
Variable get : St -> K -> V.
Variable set : St -> K -> V -> St.
Variable valid : St -> K -> Prop.
Hypothesis get_set_same : forall s k v, valid s k -> get (set s k v) k = v.
Hypothesis get_set_other : forall s k k' v, k' <> k -> get (set s k v) k' = get s k'.
Hypothesis valid_set : forall s k k' v, valid s k' -> valid (set s k v) k'.

Variables (nr nc : Z) (key : Z -> Z -> K) (f : Z -> Z -> V -> V).

Hypothesis key_injective :
  forall i j i' j', 0 <= i < nr -> 0 <= j < nc -> 0 <= i' < nr -> 0 <= j' < nc ->
                    key i j = key i' j' -> i = i' /\ j = j'.

Lemma scatter_spec (s0 : St) :
  0 <= nr -> 0 <= nc ->
  (forall i j, 0 <= i < nr -> 0 <= j < nc -> valid s0 (key i j)) ->
  (forall i j, 0 <= i < nr -> 0 <= j < nc ->
               get (scatter get set nr nc key f s0) (key i j) = f i j (get s0 (key i j)))
  /\ (forall k, (forall i j, 0 <= i < nr -> 0 <= j < nc -> k <> key i j) ->
                get (scatter get set nr nc key f s0) k = get s0 k)
  /\ (forall k, valid s0 k -> valid (scatter get set nr nc key f s0) k).
Proof.
  intros Hnr Hnc Hvalid. unfold scatter.
  (* what holds once the rows below [a] and, of row [a], the columns below
     [b] are written *)
  pose (done := fun (a b i j : Z) =>
                  (0 <= i < a /\ 0 <= j < nc) \/ (i = a /\ 0 <= j < b)).
  pose (Inv := fun (a b : Z) (s : St) =>
                 (forall i j, 0 <= i < nr -> 0 <= j < nc ->
                              get s (key i j)
                              = if (i <? a) || ((i =? a) && (j <? b))
                                then f i j (get s0 (key i j))
                                else get s0 (key i j))
                 /\ (forall k, (forall i j, 0 <= i < nr -> 0 <= j < nc -> k <> key i j) ->
                               get s k = get s0 k)
                 /\ (forall k, valid s0 k -> valid s k)).
  assert (Hrow : forall a s, 0 <= a < nr -> Inv a 0 s ->
                   Inv (a + 1) 0
                     (for_loop 0 nc
                        (fun j s' => set s' (key a j) (f a j (get s' (key a j)))) s)).
  { intros a s Ha Hs.
    assert (Hin : Inv a nc
                    (for_loop 0 nc
                       (fun j s' => set s' (key a j) (f a j (get s' (key a j)))) s)).
    { apply (for_loop_invariant St (fun b s' => Inv a b s')); [lia | exact Hs |].
      intros b s' Hb [H1 [H2 H3]]. split; [|split].
      - intros i j Hi Hj.
        destruct (Z.eq_dec i a) as [Hia|Hia]; [destruct (Z.eq_dec j b) as [Hjb|Hjb]|].
        + subst i j. rewrite get_set_same by (apply H3, Hvalid; lia).
          rewrite (H1 a b Ha Hb).
          replace (a <? a) with false by (symmetry; apply Z.ltb_ge; lia).
          rewrite Z.eqb_refl.
          replace (b <? b) with false by (symmetry; apply Z.ltb_ge; lia).
          replace (b <? b + 1) with true by (symmetry; apply Z.ltb_lt; lia).
          reflexivity.
        + subst i. rewrite get_set_other.
          * rewrite (H1 a j Ha Hj). rewrite Z.eqb_refl. cbn [andb orb].
            destruct (Z.ltb_spec a a) as [?|_]; [lia|]. cbn [orb].
            destruct (Z.ltb_spec j b), (Z.ltb_spec j (b + 1)); try reflexivity; lia.
          * intros Hk. apply key_injective in Hk; try assumption. lia.
        + rewrite get_set_other.
          * rewrite (H1 i j Hi Hj).
            replace (i =? a) with false by (symmetry; apply Z.eqb_neq; exact Hia).
            reflexivity.
          * intros Hk. apply key_injective in Hk; try assumption. lia.
      - intros k Hk. rewrite get_set_other by (apply Hk; assumption). apply H2. exact Hk.
      - intros k Hk. apply valid_set. apply H3. exact Hk. }
    destruct Hin as [H1 [H2 H3]]. split; [|split; assumption].
    intros i j Hi Hj. rewrite (H1 i j Hi Hj).
    replace (j <? 0) with false by (symmetry; apply Z.ltb_ge; lia).
    replace (j <? nc) with true by (symmetry; apply Z.ltb_lt; lia).
    rewrite !andb_false_r, !andb_true_r, !orb_false_r.
    destruct (Z.ltb_spec i a), (Z.eqb_spec i a), (Z.ltb_spec i (a + 1));
      try reflexivity; lia. }
  assert (Hall : Inv nr 0
                   (for_loop 0 nr
                      (fun i s =>
                         for_loop 0 nc
                           (fun j s' => set s' (key i j) (f i j (get s' (key i j)))) s)
                      s0)).
  { apply (for_loop_invariant St (fun a s => Inv a 0 s)); [lia | |].
    - split; [|split].
      + intros i j Hi Hj.
        replace (i <? 0) with false by (symmetry; apply Z.ltb_ge; lia).
        replace (j <? 0) with false by (symmetry; apply Z.ltb_ge; lia).
        rewrite andb_false_r. reflexivity.
      + intros k _. reflexivity.
      + intros k Hk. exact Hk.
    - intros a s Ha Hs. apply Hrow; assumption. }
  destruct Hall as [H1 [H2 H3]]. split; [|split; assumption].
  intros i j Hi Hj. rewrite (H1 i j Hi Hj).
  replace (i <? nr) with true by (symmetry; apply Z.ltb_lt; lia). reflexivity.
Qed.

End Scatter.

(** ** The positions one process holds *)

(** The process whose rank is the owner of [(gi, gj)] holds the entry at the
    local position of [(gi, gj)]. *)
Lemma has_layout_owner (L : Layout) (r : Z) (A : ScaLAPACKMatrix) (gi gj : Z) :
  Layout_valid L -> has_layout L r A ->
  0 <= gi < lay_m L -> 0 <= gj < lay_n L ->
  owner_rank L gi gj = r ->
  0 <= local_row L gi < n_local_rows A
  /\ 0 <= local_column L gj < n_local_columns A
  /\ global_row A (local_row L gi) = Ok gi
  /\ global_column A (local_column L gj) = Ok gj.
Proof.
  intros Hv Hl Hgi Hgj Hown.
  destruct (owner_rank_facts L gi gj Hv) as [Hr [Hmod Hdiv]]. rewrite Hown in *.
  pose proof Hv as [Hmb [Hm [Hnb [Hn [HR [HC [HP Hctx]]]]]]].
  destruct Hl as [Hg Hnr Hnc Hrbs Hcbs Hfr Hfc Hsr Hsc Hact _].
  destruct (Hact ltac:(lia)) as [Hnlr [Hnlc _]].
  assert (Hrow : this_process_row (grid A) = owner_row L gi).
  { rewrite Hg. cbn. rewrite (proj2 (Z.ltb_lt _ _)) by lia. exact Hmod. }
  assert (Hcol : this_process_column (grid A) = owner_column L gj).
  { rewrite Hg. cbn. rewrite (proj2 (Z.ltb_lt _ _)) by lia. exact Hdiv. }
  assert (HRg : n_process_rows (grid A) = lay_R L) by (rewrite Hg; reflexivity).
  assert (HCg : n_process_columns (grid A) = lay_C L) by (rewrite Hg; reflexivity).
  split.
  { rewrite Hnlr, Hmod. unfold local_row, owner_row, owner_and_local. cbn [fst snd].
    apply indxg2l_lt_numroc; lia. }
  split.
  { rewrite Hnlc, Hdiv. unfold local_column, owner_column, owner_and_local. cbn [fst snd].
    apply indxg2l_lt_numroc; lia. }
  split.
  - unfold local_row. rewrite <- Hrbs, <- HRg, <- Hfr.
    apply global_row_owner; rewrite ?Hnr, ?Hrbs, ?HRg, ?Hfr; try lia.
    + exact Hrow.
    + rewrite Hrow, Hnlr, Hmod. reflexivity.
  - unfold local_column. rewrite <- Hcbs, <- HCg, <- Hfc.
    apply global_column_owner; rewrite ?Hnc, ?Hcbs, ?HCg, ?Hfc; try lia.
    + exact Hcol.
    + rewrite Hcol, Hnlc, Hdiv. reflexivity.
Qed.

(** The sizes of the local block of an active process. *)
Lemma has_layout_local_sizes (L : Layout) (r : Z) (A : ScaLAPACKMatrix) :
  Layout_valid L -> has_layout L r A -> 0 <= r < lay_R L * lay_C L ->
  0 <= n_local_rows A <= lay_m L /\ 0 <= n_local_columns A <= lay_n L
  /\ table_n_rows A = n_local_rows A
  /\ List.length (values A) = Z.to_nat (n_local_rows A * n_local_columns A).
Proof.
  intros Hv Hl Hr.
  destruct Hv as [Hmb [Hm [Hnb [Hn [HR [HC [HP Hctx]]]]]]].
  destruct (hl_active _ _ _ Hl ltac:(lia)) as [Hnlr [Hnlc [Htab [_ Hlen]]]].
  pose proof (numroc_bounds (lay_m L) (lay_mb L) (r mod lay_R L) 0 (lay_R L)
                ltac:(lia) ltac:(lia) HR) as Hbr.
  pose proof (numroc_bounds (lay_n L) (lay_nb L) (r / lay_R L) 0 (lay_C L)
                ltac:(lia) ltac:(lia) HC) as Hbc.
  rewrite Hnlr, Hnlc in *. repeat split; try lia; assumption.
Qed.


Lemma for_loopM_pure (X : Type) (lo hi : Z) (body : Z -> X -> Result X)
  (f : Z -> X -> X) (x0 : X) :
  (forall i x, lo <= i < hi -> body i x = Ok (f i x)) ->
  for_loopM lo hi body x0 = Ok (for_loop lo hi f x0).
Proof. intros H. exact (for_loopM_emb X X (fun x => x) lo hi body f x0 H). Qed.

(** [global_row] on the local rows of an active process. *)
Lemma global_row_of_Ok (L : Layout) (r : Z) (A : ScaLAPACKMatrix) (li : Z) :
  Layout_valid L -> has_layout L r A -> 0 <= r < lay_R L * lay_C L ->
  0 <= li < n_local_rows A ->
  global_row A li = Ok (global_row_of A li)
  /\ 0 <= global_row_of A li < lay_m L
  /\ r mod lay_R L = owner_row L (global_row_of A li)
  /\ li = local_row L (global_row_of A li).
Proof.
  intros Hv Hl Hr Hli.
  destruct (has_layout_local_sizes L r A Hv Hl Hr) as [Hnlr _].
  pose proof Hv as [_ [Hm _]].
  destruct (global_row_Ok A li ltac:(lia) Hli) as [g Hg].
  destruct (global_row_position L r A li g Hv Hl Hr ltac:(lia) Hg) as [Hgr [Hown Hloc]].
  unfold global_row_of. rewrite Hg. rewrite to_signed_small by lia.
  repeat split; try assumption; lia.
Qed.

Lemma global_column_of_Ok (L : Layout) (r : Z) (A : ScaLAPACKMatrix) (lj : Z) :
  Layout_valid L -> has_layout L r A -> 0 <= r < lay_R L * lay_C L ->
  0 <= lj < n_local_columns A ->
  global_column A lj = Ok (global_column_of A lj)
  /\ 0 <= global_column_of A lj < lay_n L
  /\ r / lay_R L = owner_column L (global_column_of A lj)
  /\ lj = local_column L (global_column_of A lj).
Proof.
  intros Hv Hl Hr Hlj.
  destruct (has_layout_local_sizes L r A Hv Hl Hr) as [_ [Hnlc _]].
  pose proof Hv as [_ [_ [_ [Hn _]]]].
  destruct (global_column_Ok A lj ltac:(lia) Hlj) as [g Hg].
  destruct (global_column_position L r A lj g Hv Hl Hr ltac:(lia) Hg) as [Hgr [Hown Hloc]].
  unfold global_column_of. rewrite Hg. rewrite to_signed_small by lia.
  repeat split; try assumption; lia.
Qed.

(** The pair of global indices of a local position is the position of one
    entry only. *)
Lemma global_position_injective (L : Layout) (r : Z) (A : ScaLAPACKMatrix)
  (i j i' j' : Z) :
  Layout_valid L -> has_layout L r A -> 0 <= r < lay_R L * lay_C L ->
  0 <= i < n_local_rows A -> 0 <= j < n_local_columns A ->
  0 <= i' < n_local_rows A -> 0 <= j' < n_local_columns A ->
  (global_row_of A i, global_column_of A j) = (global_row_of A i', global_column_of A j') ->
  i = i' /\ j = j'.
Proof.
  intros Hv Hl Hr Hi Hj Hi' Hj' H. inversion H as [[H1 H2]].
  destruct (global_row_of_Ok L r A i Hv Hl Hr Hi) as [_ [_ [_ E1]]].
  destruct (global_row_of_Ok L r A i' Hv Hl Hr Hi') as [_ [_ [_ E2]]].
  destruct (global_column_of_Ok L r A j Hv Hl Hr Hj) as [_ [_ [_ E3]]].
  destruct (global_column_of_Ok L r A j' Hv Hl Hr Hj') as [_ [_ [_ E4]]].
  split; congruence.
Qed.

(** ** The dense matrix one process fills *)

(** What the scatter loop of [copy_to (FullMatrix &)] leaves on an active
    process: its own entries at their global positions, zero elsewhere. *)
Lemma copy_to_FullMatrix_local_el (L : Layout) (r : Z) (A : ScaLAPACKMatrix)
  (M : FullMatrix) :
  Layout_valid L -> has_layout L r A -> 0 <= r < lay_R L * lay_C L ->
  fm_m M = lay_m L -> fm_n M = lay_n L ->
  exists D,
    copy_to_FullMatrix_local_unchecked A M = Ok D
    /\ forall gi gj, 0 <= gi < lay_m L -> 0 <= gj < lay_n L ->
         fm_el D gi gj
         = if owner_rank L gi gj =? r
           then local_el A (local_row L gi) (local_column L gj)
           else of_int 0.
Proof.
  intros Hv Hl Hr HMm HMn.
  destruct (has_layout_local_sizes L r A Hv Hl Hr) as [Hnlr [Hnlc _]].
  pose (get := fun (X : FullMatrix) (k : Z * Z) => fm_el X (fst k) (snd k)).
  pose (set := fun (X : FullMatrix) (k : Z * Z) (v : Number) => fm_put X (fst k) (snd k) v).
  pose (key := fun i j : Z => (global_row_of A i, global_column_of A j)).
  pose (f := fun (i j : Z) (_ : Number) => local_el A i j).
  exists (scatter get set (n_local_rows A) (n_local_columns A) key f (fm_zero M)).
  split.
  - unfold copy_to_FullMatrix_local_unchecked.
    rewrite (Assert_true (n_rows A =? fm_m M))
      by (apply Z.eqb_eq; rewrite (hl_n_rows _ _ _ Hl); congruence).
    rewrite (Assert_true (n_columns A =? fm_n M))
      by (apply Z.eqb_eq; rewrite (hl_n_columns _ _ _ Hl); congruence).
    cbn [bind]. rewrite (hl_grid _ _ _ Hl), layout_grid_active.
    rewrite (proj2 (Z.ltb_lt _ _)) by lia.
    unfold scatter. apply for_loopM_pure. intros i X Hi.
    destruct (global_row_of_Ok L r A i Hv Hl Hr Hi) as [Hgi [Hri _]].
    rewrite Hgi. cbn [bind]. apply for_loopM_pure. intros j X' Hj.
    destruct (global_column_of_Ok L r A j Hv Hl Hr Hj) as [Hgj [Hrj _]].
    rewrite Hgj. cbn [bind]. unfold set, key, f. cbn [fst snd].
    pose proof Hv as [_ [Hm [_ [Hn _]]]].
    rewrite !to_signed_small by lia. reflexivity.
  - destruct (scatter_spec FullMatrix (Z * Z) Number get set (fun _ _ => True)
                (fun X k v _ => ltac:(unfold get, set; cbn [fm_put fm_el];
                                       rewrite !Z.eqb_refl; reflexivity))
                (fun X k k' v Hk =>
                   ltac:(unfold get, set; cbn [fm_put fm_el];
                         destruct (Z.eqb_spec (fst k') (fst k));
                         destruct (Z.eqb_spec (snd k') (snd k)); try reflexivity;
                         exfalso; apply Hk; destruct k, k'; cbn [fst snd] in *; congruence))
                (fun _ _ _ _ _ => I)
                (n_local_rows A) (n_local_columns A) key f
                (fun i j i' j' Hi Hj Hi' Hj' H =>
                   global_position_injective L r A i j i' j' Hv Hl Hr Hi Hj Hi' Hj' H)
                (fm_zero M) ltac:(lia) ltac:(lia) (fun _ _ _ _ => I))
      as [Hin [Hout _]].
    intros gi gj Hgi Hgj.
    destruct (Z.eqb_spec (owner_rank L gi gj) r) as [Hown|Hown].
    + destruct (has_layout_owner L r A gi gj Hv Hl Hgi Hgj Hown) as [Hli [Hlj [Hrow Hcol]]].
      specialize (Hin _ _ Hli Hlj). unfold key at 2 3, f at 2 in Hin.
      unfold global_row_of, global_column_of in Hin. rewrite Hrow, Hcol in Hin.
      pose proof Hv as [_ [Hm [_ [Hn _]]]].
      rewrite !to_signed_small in Hin by lia. exact Hin.
    + specialize (Hout (gi, gj)).
      change (fm_el ?X gi gj) with (get X (gi, gj)).
      rewrite Hout; [reflexivity|].
      intros i j Hi Hj Hk. unfold key in Hk. inversion Hk as [[H1 H2]].
      destruct (global_row_of_Ok L r A i Hv Hl Hr Hi) as [_ [_ [Hor _]]].
      destruct (global_column_of_Ok L r A j Hv Hl Hr Hj) as [_ [_ [Hoc _]]].
      apply Hown. unfold owner_rank. rewrite <- H1 in Hor. rewrite <- H2 in Hoc.
      pose proof Hv as [_ [_ [_ [_ [HR _]]]]].
      symmetry. apply rank_of_coordinates; [exact HR | exact Hor | exact Hoc].
Qed.

(** ** The sum over the communicator *)

Section ZeroLaws.

(** Zero is neutral for the sum at the value [v]; for [float] and [double]
    that is every value but the negative zero. *)
Variable v : Number.
Hypothesis zero_plus_zero : plus (of_int 0) (of_int 0) = of_int 0.
Hypothesis zero_plus_v : plus (of_int 0) v = v.
Hypothesis v_plus_zero : plus v (of_int 0) = v.

Lemma fold_plus_zeros (l : list Number) :
  (forall x, In x l -> x = of_int 0) -> fold_left plus l v = v.
Proof.
  induction l as [|x l IH]; intros H; cbn [fold_left].
  - reflexivity.
  - rewrite (H x (or_introl eq_refl)), v_plus_zero.
    apply IH. intros y Hy. apply H. right. exact Hy.
Qed.

(** The sum of a list that is zero but at one position is the value there. *)
Lemma fold_plus_single (l : list Number) (o : nat) :
  nth_error l o = Some v ->
  (forall k x, nth_error l k = Some x -> k <> o -> x = of_int 0) ->
  fold_left plus l (of_int 0) = v.
Proof.
  revert o. induction l as [|x l IH]; intros [|o] Ho Hz; cbn [nth_error] in Ho;
    try discriminate Ho; cbn [fold_left].
  - inversion Ho. subst x. rewrite zero_plus_v. apply fold_plus_zeros.
    intros y Hy. apply In_nth_error in Hy. destruct Hy as [k Hk].
    apply (Hz (S k) y Hk). discriminate.
  - rewrite (Hz 0%nat x eq_refl) by discriminate. rewrite zero_plus_zero.
    apply (IH o Ho). intros k y Hk Hne. apply (Hz (S k) y Hk). congruence.
Qed.

End ZeroLaws.

(** The entry of [Utilities::MPI::sum] as a sum from zero, when zero is
    neutral at the entry of the first process. *)
Lemma MPI_sum_el (all : World FullMatrix) (mine : FullMatrix) (i j : Z) :
  (forall M rest, all = M :: rest -> plus (of_int 0) (fm_el M i j) = fm_el M i j) ->
  all <> [] ->
  fm_el (MPI_sum all mine) i j
  = fold_left plus (map (fun X => fm_el X i j) all) (of_int 0).
Proof.
  intros H0 Hne. destruct all as [|M rest]; [contradiction|].
  cbn [MPI_sum fm_el map fold_left]. rewrite (H0 M rest eq_refl). clear Hne H0.
  generalize (fm_el M i j).
  induction rest as [|X rest IH]; intros acc; cbn [map fold_left];
    [reflexivity | apply IH].
Qed.

(** The sum over the communicator of what the processes of a distributed
    matrix have scattered: the entry, then what the inactive processes had in
    their dense matrices, in rank order. *)
Lemma copy_to_FullMatrix_sum (L : Layout) (thisw : World ScaLAPACKMatrix)
  (matrixw locals : World FullMatrix) (mine : FullMatrix) (gi gj : Z) :
  plus (of_int 0) (of_int 0) = of_int 0 ->
  plus (of_int 0) (layout_el L thisw gi gj) = layout_el L thisw gi gj ->
  plus (layout_el L thisw gi gj) (of_int 0) = layout_el L thisw gi gj ->
  Layout_valid L -> ranked L thisw ->
  List.length matrixw = List.length thisw ->
  (forall M, In M matrixw -> fm_m M = lay_m L /\ fm_n M = lay_n L) ->
  mapM (fun AM => copy_to_FullMatrix_local_unchecked (fst AM) (snd AM))
    (combine thisw matrixw)
  = Ok locals ->
  0 <= gi < lay_m L -> 0 <= gj < lay_n L ->
  fm_el (MPI_sum locals mine) gi gj
  = fold_left plus
      (map (fun M => fm_el M gi gj) (skipn (Z.to_nat (lay_R L * lay_C L)) matrixw))
      (layout_el L thisw gi gj).
Proof.
  intros H00 H0v Hv0 Hv Hrk Hlen Hdims Hloc Hgi Hgj.
  pose proof Hv as [Hmb [Hm [Hnb [Hn [HR [HC [HP Hctx]]]]]]].
  destruct (mapM_Ok_nth _ _ _ _ _ Hloc) as [Hll Hnth].
  rewrite length_combine, Hlen, Nat.min_id, (proj1 Hrk) in Hll.
  pose proof (Z2Nat.id (lay_R L * lay_C L) ltac:(nia)) as Ea.
  generalize dependent (Z.to_nat (lay_R L * lay_C L)). intros a Ea.
  assert (Ha : (0 < a <= List.length locals)%nat) by nia.
  (* the active processes: the owner has the entry, the others zero *)
  destruct (owner_rank_facts L gi gj Hv) as [Hown _].
  destruct (owner_object L thisw gi gj Hv Hrk Hgi Hgj) as [Ao [HAo [Hlo _]]].
  assert (Hact : forall k D, (k < a)%nat -> nth_error locals k = Some D ->
             fm_el D gi gj
             = if owner_rank L gi gj =? Z.of_nat k
               then layout_el L thisw gi gj else of_int 0).
  { intros k D Hk HD. destruct (Hnth _ _ HD) as [[A M] [HAM Hrun]]. cbn [fst snd] in Hrun.
    apply nth_error_combine_inv in HAM. destruct HAM as [HA HM].
    pose proof (proj2 Hrk _ _ HA) as Hl.
    destruct (Hdims M (nth_error_In _ _ HM)) as [HMm HMn].
    destruct (copy_to_FullMatrix_local_el L (Z.of_nat k) A M Hv Hl ltac:(lia)
                HMm HMn) as [D' [Hrun' Hel]].
    rewrite Hrun in Hrun'. inversion Hrun'. subst D'.
    rewrite (Hel gi gj Hgi Hgj).
    destruct (Z.eqb_spec (owner_rank L gi gj) (Z.of_nat k)) as [E|E]; [|reflexivity].
    unfold layout_el. rewrite E, Nat2Z.id, HA. reflexivity. }
  rewrite MPI_sum_el.
  2:{ intros M rest E. rewrite (Hact 0%nat M) by (try lia; rewrite E; reflexivity).
      destruct (owner_rank L gi gj =? Z.of_nat 0); assumption. }
  2:{ destruct locals; [cbn in Ha; lia | discriminate]. }
  rewrite <- (firstn_skipn a locals) at 1. rewrite map_app, fold_left_app.
  (* the inactive processes pass their dense matrices on *)
  assert (Hin : skipn a locals = skipn a matrixw).
  { apply nth_error_ext. intros k. rewrite !nth_error_skipn.
    destruct (nth_error locals (a + k)) as [D|] eqn:HD.
    - destruct (Hnth _ _ HD) as [[A M] [HAM Hrun]]. cbn [fst snd] in Hrun.
      apply nth_error_combine_inv in HAM. destruct HAM as [HA HM]. rewrite HM.
      pose proof (proj2 Hrk _ _ HA) as Hl.
      unfold copy_to_FullMatrix_local_unchecked in Hrun.
      apply bind_Ok_inv in Hrun. destruct Hrun as [? [_ Hrun]].
      apply bind_Ok_inv in Hrun. destruct Hrun as [? [_ Hrun]].
      rewrite (hl_grid _ _ _ Hl), layout_grid_active in Hrun.
      rewrite (proj2 (Z.ltb_ge _ _)) in Hrun by lia.
      inversion Hrun. reflexivity.
    - apply nth_error_None in HD. symmetry. apply nth_error_None.
      pose proof (proj1 Hrk). lia. }
  rewrite Hin. f_equal.
  apply (fold_plus_single _ H00 H0v Hv0 _ (Z.to_nat (owner_rank L gi gj))).
  - destruct (nth_error locals (Z.to_nat (owner_rank L gi gj))) as [D|] eqn:HD.
    + rewrite nth_error_map, nth_error_firstn.
      destruct (Nat.ltb_spec (Z.to_nat (owner_rank L gi gj)) a) as [Hlt|Hge];
        [|lia].
      rewrite HD. cbn [option_map]. f_equal.
      rewrite (Hact _ D Hlt HD). rewrite Z2Nat.id by lia. rewrite Z.eqb_refl. reflexivity.
    + apply nth_error_None in HD. lia.
  - intros k x Hx Hne. rewrite nth_error_map, nth_error_firstn in Hx.
    destruct (Nat.ltb_spec k a) as [Hlt|Hge]; [|discriminate Hx].
    destruct (nth_error locals k) as [D|] eqn:HD; [|discriminate Hx].
    cbn [option_map] in Hx. inversion Hx. rewrite (Hact _ D Hlt HD).
    destruct (Z.eqb_spec (owner_rank L gi gj) (Z.of_nat k)) as [E|E]; [|reflexivity].
    exfalso. apply Hne. rewrite E, Nat2Z.id. reflexivity.
Qed.

(** ** Writing into the local table *)

Lemma list_set_length (T : Type) (l : list T) (k : nat) (v : T) :
  List.length (list_set l k v) = List.length l.
Proof.
  revert k. induction l as [|x l IH]; intros [|k]; cbn [list_set List.length];
    try reflexivity. rewrite IH. reflexivity.
Qed.

Lemma nth_list_set_same (T : Type) (l : list T) (k : nat) (v d : T) :
  (k < List.length l)%nat -> nth k (list_set l k v) d = v.
Proof.
  revert k. induction l as [|x l IH]; intros [|k] H; cbn [List.length] in H;
    cbn [list_set nth]; try lia; [reflexivity|]. apply IH. lia.
Qed.

Lemma nth_list_set_other (T : Type) (l : list T) (k k' : nat) (v d : T) :
  k' <> k -> nth k' (list_set l k v) d = nth k' l d.
Proof.
  revert k k'. induction l as [|x l IH]; intros [|k] [|k'] H; cbn [list_set nth];
    try reflexivity; try congruence. apply IH. congruence.
Qed.

Lemma set_values_id (A : ScaLAPACKMatrix) : set_values A (values A) = A.
Proof. destruct A. reflexivity. Qed.

Lemma for_loop_emb (X Y : Type) (emb : Y -> X) (lo hi : Z)
  (body : Z -> X -> X) (f : Z -> Y -> Y) (y0 : Y) :
  (forall i y, lo <= i < hi -> body i (emb y) = emb (f i y)) ->
  for_loop lo hi body (emb y0) = emb (for_loop lo hi f y0).
Proof.
  intros Hbody. unfold for_loop.
  assert (Haux : forall (l : list Z) (y : Y),
             (forall i, In i l -> lo <= i < hi) ->
             fold_left (fun acc i => body i acc) l (emb y)
             = emb (fold_left (fun acc i => f i acc) l y)).
  { induction l as [|i l IH]; intros y Hin.
    - reflexivity.
    - cbn [fold_left]. rewrite Hbody by (apply Hin; left; reflexivity).
      apply IH. intros k Hk. apply Hin. right. exact Hk. }
  apply Haux. intros i Hi. apply In_zrange. exact Hi.
Qed.

(** Positions of a column-major table with [nr] rows. *)
Lemma column_major_injective (nr i j i' j' : Z) :
  0 <= i < nr -> 0 <= j -> 0 <= i' < nr -> 0 <= j' ->
  Z.to_nat (j * nr + i) = Z.to_nat (j' * nr + i') -> i = i' /\ j = j'.
Proof.
  intros Hi Hj Hi' Hj' H.
  assert (E : j * nr + i = j' * nr + i') by nia.
  assert (j = j') by nia. subst j'. split; lia.
Qed.

(** The scatter of a family of values over the local table of a process. *)
Lemma scatter_values (vals : list Number) (nr nc : Z) (f : Z -> Z -> Number -> Number) :
  0 <= nr -> 0 <= nc -> List.length vals = Z.to_nat (nr * nc) ->
  let vals' := scatter (fun (l : list Number) (k : nat) => nth k l (of_int 0))
                 (fun l k v => list_set l k v) nr nc
                 (fun i j => Z.to_nat (j * nr + i)) f vals in
  List.length vals' = List.length vals
  /\ forall i j, 0 <= i < nr -> 0 <= j < nc ->
       nth (Z.to_nat (j * nr + i)) vals' (of_int 0)
       = f i j (nth (Z.to_nat (j * nr + i)) vals (of_int 0)).
Proof.
  intros Hnr Hnc Hlen. cbv zeta. split.
  - unfold scatter.
    apply (for_loop_invariant (list Number)
             (fun _ l => List.length l = List.length vals)); [lia | reflexivity |].
    intros i l Hi Hl.
    apply (for_loop_invariant (list Number)
             (fun _ l => List.length l = List.length vals)); [lia | exact Hl |].
    intros j l' Hj Hl'. rewrite list_set_length. exact Hl'.
  - destruct (scatter_spec (list Number) nat Number
                (fun l k => nth k l (of_int 0)) (fun l k v => list_set l k v)
                (fun l k => (k < List.length l)%nat)
                (fun l k v H => nth_list_set_same Number l k v (of_int 0) H)
                (fun l k k' v H => nth_list_set_other Number l k k' v (of_int 0) H)
                (fun l k k' v H => eq_ind_r (fun n => (k' < n)%nat) H
                                     (list_set_length Number l k v))
                nr nc (fun i j => Z.to_nat (j * nr + i)) f
                (fun i j i' j' Hi Hj Hi' Hj' H =>
                   column_major_injective nr i j i' j' Hi (proj1 Hj) Hi' (proj1 Hj') H)
                vals Hnr Hnc) as [Hin _].
    + intros i j Hi Hj. rewrite Hlen. nia.
    + exact Hin.
Qed.

(** ** Assignment from a replicated dense matrix *)

(** What [operator =] leaves on an active process: at every local position,
    the entry of the dense matrix at the global position. *)
Lemma assign_FullMatrix_active (L : Layout) (r : Z) (A : ScaLAPACKMatrix)
  (M : FullMatrix) :
  Layout_valid L -> has_layout L r A -> 0 <= r < lay_R L * lay_C L ->
  fm_m M = lay_m L -> fm_n M = lay_n L ->
  exists vals,
    assign_FullMatrix A M = Ok (set_state (set_values A vals) matrix)
    /\ List.length vals = List.length (values A)
    /\ forall li lj, 0 <= li < n_local_rows A -> 0 <= lj < n_local_columns A ->
         local_el (set_values A vals) li lj
         = fm_el M (global_row_of A li) (global_column_of A lj).
Proof.
  intros Hv Hl Hr HMm HMn.
  destruct (has_layout_local_sizes L r A Hv Hl Hr) as [Hnlr [Hnlc [Htab Hlen]]].
  pose (f := fun (i j : Z) (_ : Number) =>
               fm_el M (global_row_of A i) (global_column_of A j)).
  destruct (scatter_values (values A) (n_local_rows A) (n_local_columns A) f
              ltac:(lia) ltac:(lia) Hlen) as [Hlen' Hel].
  cbv zeta in Hlen', Hel.
  set (vals := scatter _ _ _ _ _ f (values A)) in *.
  exists vals. split; [|split; [exact Hlen'|]].
  - unfold assign_FullMatrix.
    rewrite (Assert_true (n_rows A =? fm_m M))
      by (apply Z.eqb_eq; rewrite (hl_n_rows _ _ _ Hl); congruence).
    rewrite (Assert_true (n_columns A =? fm_n M))
      by (apply Z.eqb_eq; rewrite (hl_n_columns _ _ _ Hl); congruence).
    cbn [bind]. rewrite (hl_grid _ _ _ Hl), layout_grid_active.
    rewrite (proj2 (Z.ltb_lt _ _)) by lia.
    rewrite <- (set_values_id A) at 2.
    rewrite (for_loopM_emb ScaLAPACKMatrix (list Number) (set_values A) 0 (n_local_rows A) _
               (fun i l =>
                  for_loop 0 (n_local_columns A)
                    (fun j l' =>
                       list_set l' (Z.to_nat (j * n_local_rows A + i))
                         (f i j (nth (Z.to_nat (j * n_local_rows A + i)) l' (of_int 0))))
                    l)).
    + reflexivity.
    + intros i y Hi.
      destruct (global_row_of_Ok L r A i Hv Hl Hr Hi) as [Hgi [Hri _]].
      change (global_row (set_values A y) i) with (global_row A i).
      rewrite Hgi. cbn [bind].
      change (n_local_columns (set_values A y)) with (n_local_columns A).
      apply for_loopM_emb. intros j y' Hj.
      destruct (global_column_of_Ok L r A j Hv Hl Hr Hj) as [Hgj [Hrj _]].
      change (global_column (set_values A y') j) with (global_column A j).
      rewrite Hgj. cbn [bind]. unfold set_local_el, f.
      cbn [set_values table_n_rows values]. rewrite Htab.
      pose proof Hv as [_ [Hm [_ [Hn _]]]].
      rewrite !to_signed_small by lia. reflexivity.
  - intros li lj Hli Hlj. unfold local_el. cbn [set_values table_n_rows values].
    rewrite Htab. rewrite (Hel li lj Hli Hlj). reflexivity.
Qed.

Lemma Forall2_nth_error_intro (T U : Type) (R : T -> U -> Prop) (l1 : list T) (l2 : list U) :
  List.length l2 = List.length l1 ->
  (forall k x y, nth_error l1 k = Some x -> nth_error l2 k = Some y -> R x y) ->
  Forall2 R l1 l2.
Proof.
  revert l2. induction l1 as [|x l1 IH]; intros [|y l2] Hlen H; cbn [List.length] in Hlen;
    try discriminate Hlen.
  - constructor.
  - constructor.
    + apply (H 0%nat); reflexivity.
    + apply IH; [congruence|]. intros k a b Ha Hb. apply (H (S k)); assumption.
Qed.

(** An object stays in its layout when its buffer is overwritten in place
    and its state is set. *)
Lemma in_layout_update (L : Layout) (k : Z) (A : ScaLAPACKMatrix)
  (v : list Number) (s : State) :
  in_layout L k A -> List.length v = List.length (values A) ->
  in_layout L k (set_state (set_values A v) s).
Proof.
  unfold in_layout, as_constructed. intros H Hlen.
  cbn [set_state set_values set_work property values table_n_rows table_n_cols state grid
         n_rows n_columns row_block_size column_block_size n_local_rows n_local_columns
         descriptor work iwork uplo first_process_row first_process_column
         submatrix_row submatrix_column] in *.
  rewrite Hlen. exact H.
Qed.

Lemma in_layout_set_state (L : Layout) (k : Z) (A : ScaLAPACKMatrix) (s : State) :
  in_layout L k A -> in_layout L k (set_state A s).
Proof.
  intros H. rewrite <- (set_values_id A). apply in_layout_update; [exact H | reflexivity].
Qed.

(** The element of a world of results, from the element of the arguments. *)
Lemma mapM_combine_nth (T U V : Type) (f : T * U -> Result V)
  (l1 : list T) (l2 : list U) (l' : list V) :
  List.length l2 = List.length l1 ->
  mapM f (combine l1 l2) = Ok l' ->
  List.length l' = List.length l1
  /\ forall k x, nth_error l1 k = Some x ->
       exists y z, nth_error l2 k = Some y /\ nth_error l' k = Some z /\ f (x, y) = Ok z.
Proof.
  intros Hlen H. destruct (mapM_Ok_nth _ _ _ _ _ H) as [Hl Hnth].
  rewrite length_combine, Hlen, Nat.min_id in Hl. split; [exact Hl|].
  intros k x Hx.
  assert (Hk : (k < List.length l1)%nat) by (apply nth_error_Some; congruence).
  destruct (nth_error l' k) as [z|] eqn:Hz.
  - destruct (Hnth k z Hz) as [[x' y] [Hxy Hf]].
    apply nth_error_combine_inv in Hxy. destruct Hxy as [Hx' Hy].
    rewrite Hx in Hx'. inversion Hx'. subst x'.
    exists y, z. repeat split; assumption.
  - apply nth_error_None in Hz. lia.
Qed.

(** [operator =] into a distributed matrix, as all processes run it with
    dense matrices that hold [F]: it returns, the matrix keeps its layout and
    its property, its state is [matrix], and it holds [F]. *)
Lemma assign_FullMatrix_world (L : Layout) (s : State) (p : Property)
  (thisw : World ScaLAPACKMatrix) (matrixw : World FullMatrix) (F : Z -> Z -> Number) :
  Layout_valid L -> distributed L s p thisw ->
  List.length matrixw = List.length thisw ->
  (forall M, In M matrixw ->
     fm_m M = lay_m L /\ fm_n M = lay_n L
     /\ forall i j, 0 <= i < lay_m L -> 0 <= j < lay_n L -> fm_el M i j = F i j) ->
  exists Aw',
    mapM (fun AM => assign_FullMatrix (fst AM) (snd AM)) (combine thisw matrixw) = Ok Aw'
    /\ distributed L matrix p Aw'
    /\ forall gi gj, 0 <= gi < lay_m L -> 0 <= gj < lay_n L ->
         layout_el L Aw' gi gj = F gi gj.
Proof.
  intros Hv Hd Hlen HM.
  destruct (distributed_ranked L s p thisw Hv Hd) as [Hrk Hsp].
  pose proof Hv as [Hmb [Hm [Hnb [Hn [HR [HC [HP Hctx]]]]]]].
  (* every process returns *)
  assert (Hone : forall k A M,
             nth_error thisw k = Some A -> nth_error matrixw k = Some M ->
             exists vals,
               assign_FullMatrix A M = Ok (set_state (set_values A vals) matrix)
               /\ List.length vals = List.length (values A)
               /\ (Z.of_nat k < lay_R L * lay_C L ->
                   forall li lj, 0 <= li < n_local_rows A -> 0 <= lj < n_local_columns A ->
                     local_el (set_values A vals) li lj
                     = fm_el M (global_row_of A li) (global_column_of A lj))).
  { intros k A M HA HMk. pose proof (proj2 Hrk k A HA) as Hl.
    destruct (HM M (nth_error_In _ _ HMk)) as [HMm [HMn _]].
    destruct (Z_lt_le_dec (Z.of_nat k) (lay_R L * lay_C L)) as [Hact|Hin].
    - destruct (assign_FullMatrix_active L (Z.of_nat k) A M Hv Hl ltac:(lia) HMm HMn)
        as [vals [Hrun [Hvl Hel]]].
      exists vals. split; [exact Hrun|]. split; [exact Hvl|]. intros _. exact Hel.
    - exists (values A). split; [|split; [reflexivity | lia]].
      unfold assign_FullMatrix.
      rewrite (Assert_true (n_rows A =? fm_m M))
        by (apply Z.eqb_eq; rewrite (hl_n_rows _ _ _ Hl); congruence).
      rewrite (Assert_true (n_columns A =? fm_n M))
        by (apply Z.eqb_eq; rewrite (hl_n_columns _ _ _ Hl); congruence).
      cbn [bind]. rewrite (hl_grid _ _ _ Hl), layout_grid_active.
      rewrite (proj2 (Z.ltb_ge _ _)) by lia. cbn [bind].
      rewrite set_values_id. reflexivity. }
  destruct (mapM_Ok_exists _ _ (fun AM => assign_FullMatrix (fst AM) (snd AM))
              (combine thisw matrixw)) as [Aw' Hrun].
  { intros [A M] Hin. cbn [fst snd]. apply In_nth_error in Hin. destruct Hin as [k Hk].
    apply nth_error_combine_inv in Hk. destruct Hk as [HA HMk].
    destruct (Hone k A M HA HMk) as [vals [Hr _]]. eexists. exact Hr. }
  exists Aw'. split; [exact Hrun|].
  destruct (mapM_combine_nth _ _ _ _ _ _ _ Hlen Hrun) as [Hlen' Hnth].
  assert (Hd' : distributed L matrix p Aw').
  { unfold distributed in *. destruct (Forall2_nth_error _ _ _ _ _ Hd) as [Hl1 Hn1].
    apply Forall2_nth_error_intro; [congruence|].
    intros k rk A' Hrk' HA'.
    destruct (nth_error thisw k) as [A|] eqn:HA.
    2: { apply nth_error_None in HA.
         assert ((k < List.length Aw')%nat) by (apply nth_error_Some; congruence). lia. }
    destruct (Hn1 k A HA) as [rk' [Hrk'' [Hil [Hs Hp]]]].
    rewrite Hrk' in Hrk''. inversion Hrk''. subst rk'.
    destruct (Hnth k A HA) as [M [A'' [HMk [HA'' Hf]]]].
    rewrite HA' in HA''. inversion HA''. subst A''. cbn [fst snd] in Hf.
    destruct (Hone k A M HA HMk) as [vals [Hr [Hvl _]]].
    rewrite Hr in Hf. inversion Hf. subst A'.
    split; [apply in_layout_update; assumption|]. split; [reflexivity | exact Hp]. }
  split; [exact Hd'|].
  intros gi gj Hgi Hgj.
  destruct (owner_rank_facts L gi gj Hv) as [Hown _].
  destruct (owner_object L thisw gi gj Hv Hrk Hgi Hgj) as [A [HA [Hl _]]].
  destruct (Hnth _ A HA) as [M [A' [HMk [HA' Hf]]]]. cbn [fst snd] in Hf.
  destruct (Hone _ A M HA HMk) as [vals [Hr [Hvl Hel]]].
  rewrite Hr in Hf. inversion Hf. subst A'.
  destruct (has_layout_owner L _ A gi gj Hv Hl Hgi Hgj eq_refl) as [Hli [Hlj [Hrow Hcol]]].
  unfold layout_el. rewrite HA'.
  change (local_el (set_state ?X _) ?i ?j) with (local_el X i j).
  rewrite Hel by (try rewrite Z2Nat.id by lia; assumption || lia).
  unfold global_row_of, global_column_of. rewrite Hrow, Hcol.
  rewrite !to_signed_small by lia.
  destruct (HM M (nth_error_In _ _ HMk)) as [_ [_ HF]]. apply HF; assumption.
Qed.

(** ** The fill keeps the stored half *)

Lemma for_loop_preserves (S : Type) (P : S -> Prop) (lo hi : Z)
  (body : Z -> S -> S) (s : S) :
  P s -> (forall i x, lo <= i < hi -> P x -> P (body i x)) ->
  P (for_loop lo hi body s).
Proof.
  intros Hs Hstep. destruct (Z_le_gt_dec lo hi) as [Hle|Hgt].
  - apply (for_loop_invariant S (fun _ x => P x)); assumption.
  - rewrite for_loop_empty by lia. exact Hs.
Qed.

Lemma fill_keeps_stored (A : ScaLAPACKMatrix) (M : FullMatrix) (a b : Z) :
  stored (property A) a b ->
  fm_el (copy_to_FullMatrix_fill_unchecked A M) a b = fm_el M a b.
Proof.
  unfold stored, copy_to_FullMatrix_fill_unchecked. intros Hst.
  destruct (property A); try reflexivity.
  - apply (for_loop_preserves FullMatrix (fun X => fm_el X a b = fm_el M a b));
      [reflexivity|].
    intros i X Hi HX.
    apply (for_loop_preserves FullMatrix (fun X => fm_el X a b = fm_el M a b));
      [exact HX|].
    intros j X' Hj HX'. cbn [fm_put fm_el].
    destruct (Z.eqb_spec a i); destruct (Z.eqb_spec b j); cbn [andb]; try exact HX'. lia.
  - apply (for_loop_preserves FullMatrix (fun X => fm_el X a b = fm_el M a b));
      [reflexivity|].
    intros i X Hi HX.
    apply (for_loop_preserves FullMatrix (fun X => fm_el X a b = fm_el M a b));
      [exact HX|].
    intros j X' Hj HX'. cbn [fm_put fm_el].
    destruct (Z.eqb_spec a i); destruct (Z.eqb_spec b j); cbn [andb]; try exact HX'. lia.
Qed.

(** ** [copy_to (FullMatrix &)] as a whole *)

(** What every process receives at a stored position: the entry plus what
    the inactive processes had in their dense matrices. *)
Lemma copy_to_FullMatrix_world (L : Layout) (s : State) (p : Property)
  (thisw : World ScaLAPACKMatrix) (matrixw : World FullMatrix) :
  plus (of_int 0) (of_int 0) = of_int 0 ->
  Layout_valid L -> distributed L s p thisw ->
  (p = lower_triangular \/ p = upper_triangular -> lay_m L = lay_n L) ->
  List.length matrixw = List.length thisw ->
  (forall M, In M matrixw -> fm_m M = lay_m L /\ fm_n M = lay_n L) ->
  exists Dw,
    copy_to_FullMatrix thisw matrixw = Ok Dw
    /\ List.length Dw = List.length thisw
    /\ forall r D, nth_error Dw r = Some D ->
         forall gi gj, 0 <= gi < lay_m L -> 0 <= gj < lay_n L -> stored p gi gj ->
           plus (of_int 0) (layout_el L thisw gi gj) = layout_el L thisw gi gj ->
           plus (layout_el L thisw gi gj) (of_int 0) = layout_el L thisw gi gj ->
           fm_el D gi gj
           = fold_left plus
               (map (fun M => fm_el M gi gj)
                  (skipn (Z.to_nat (lay_R L * lay_C L)) matrixw))
               (layout_el L thisw gi gj).
Proof.
  intros H00 Hv Hd Hsq Hlen Hdims.
  destruct (distributed_ranked L s p thisw Hv Hd) as [Hrk Hsp].
  destruct (copy_to_FullMatrix_Ok L thisw matrixw Hv Hrk Hlen Hdims) as [Dw [Hrun HlenD]].
  exists Dw. split.
  { apply (copy_to_FullMatrix_checks_pass L); try assumption.
    intros k A HA Hp. apply Hsq. rewrite <- (proj2 (Hsp k A HA)). exact Hp. }
  split; [exact HlenD|].
  intros r D HD gi gj Hgi Hgj Hst H0v Hv0.
  unfold copy_to_FullMatrix_unchecked in Hrun.
  apply bind_Ok_inv in Hrun. destruct Hrun as [locals [Hloc Hrun]].
  inversion Hrun as [HDw]. clear Hrun. subst Dw.
  apply nth_error_map_inv in HD. destruct HD as [[A Lo] [HAL ->]].
  apply nth_error_combine_inv in HAL. destruct HAL as [HA HL]. cbn [fst snd].
  destruct (Hsp r A HA) as [_ Hp].
  rewrite fill_keeps_stored by (rewrite Hp; exact Hst).
  apply (copy_to_FullMatrix_sum L thisw matrixw locals Lo gi gj); assumption.
Qed.

(** X1: [operator = (const FullMatrix &)], run by all processes of a
    distributed matrix with dense matrices of its shape that hold the same
    entries [F], returns on every process; the matrix keeps its layout and
    property, its state becomes [matrix], and at every position it holds the
    entry of the dense matrix and nothing else. *)
Theorem assign_FullMatrix_distributes (L : Layout) (s : State) (p : Property)
  (thisw : World ScaLAPACKMatrix) (matrixw : World FullMatrix) (F : Z -> Z -> Number) :
  Layout_valid L -> distributed L s p thisw ->
  List.length matrixw = List.length thisw ->
  (forall M, In M matrixw ->
     fm_m M = lay_m L /\ fm_n M = lay_n L
     /\ forall i j, 0 <= i < lay_m L -> 0 <= j < lay_n L -> fm_el M i j = F i j) ->
  exists Aw',
    assign_FullMatrix_all thisw matrixw = Ok Aw'
    /\ distributed L matrix p Aw'
    /\ forall gi gj v,
         entry Aw' gi gj v <-> 0 <= gi < lay_m L /\ 0 <= gj < lay_n L /\ v = F gi gj.
Proof.
  intros Hv Hd Hlen HM.
  destruct (assign_FullMatrix_world L s p thisw matrixw F Hv Hd Hlen HM)
    as [Aw' [Hrun [Hd' Hel]]].
  exists Aw'. split; [exact Hrun|]. split; [exact Hd'|].
  destruct (distributed_ranked L matrix p Aw' Hv Hd') as [Hrk' _].
  intros gi gj v. split.
  - intros He. destruct (entry_unique L Aw' gi gj v Hv Hrk' He) as [Hgi [Hgj Hval]].
    split; [exact Hgi|]. split; [exact Hgj|]. rewrite Hval. apply Hel; assumption.
  - intros [Hgi [Hgj ->]]. rewrite <- (Hel gi gj Hgi Hgj).
    apply entry_layout_el; assumption.
Qed.


(** X3: [operator =] followed by [copy_to (FullMatrix &)] gives the dense
    matrix back: when all processes assign dense matrices that hold [F] and
    then copy into dense matrices that are zero on the processes outside the
    grid, both calls return on every process and every process receives [F]
    at every stored position where zero is neutral for the sum with the entry
    ([0 + F = F] and [F + 0 = F]: for [float] and [double] every entry but
    the negative zero).  This is of a matrix that is square when its property
    is triangular, and of a number type where zero plus zero is zero. *)
Theorem assign_then_copy_to_FullMatrix (L : Layout) (s : State) (p : Property)
  (thisw : World ScaLAPACKMatrix) (matrixw outw : World FullMatrix)
  (F : Z -> Z -> Number) :
  plus (of_int 0) (of_int 0) = of_int 0 ->
  Layout_valid L -> distributed L s p thisw ->
  (p = lower_triangular \/ p = upper_triangular -> lay_m L = lay_n L) ->
  List.length matrixw = List.length thisw ->
  (forall M, In M matrixw ->
     fm_m M = lay_m L /\ fm_n M = lay_n L
     /\ forall i j, 0 <= i < lay_m L -> 0 <= j < lay_n L -> fm_el M i j = F i j) ->
  List.length outw = List.length thisw ->
  (forall M, In M outw -> fm_m M = lay_m L /\ fm_n M = lay_n L) ->
  (forall M i j, In M (skipn (Z.to_nat (lay_R L * lay_C L)) outw) ->
                 fm_el M i j = of_int 0) ->
  exists Aw' Dw,
    assign_FullMatrix_all thisw matrixw = Ok Aw'
    /\ copy_to_FullMatrix Aw' outw = Ok Dw
    /\ List.length Dw = List.length thisw
    /\ forall r D, nth_error Dw r = Some D ->
         forall gi gj, 0 <= gi < lay_m L -> 0 <= gj < lay_n L -> stored p gi gj ->
           plus (of_int 0) (F gi gj) = F gi gj ->
           plus (F gi gj) (of_int 0) = F gi gj ->
           fm_el D gi gj = F gi gj.
Proof.
  intros H00 Hv Hd Hsq Hlen HM Hlen2 Hdims2 Hzero.
  destruct (assign_FullMatrix_world L s p thisw matrixw F Hv Hd Hlen HM)
    as [Aw' [Hrun [Hd' Hel]]].
  assert (HlenA : List.length Aw' = List.length thisw).
  { destruct (distributed_ranked L matrix p Aw' Hv Hd') as [[Hl1 _] _].
    destruct (distributed_ranked L s p thisw Hv Hd) as [[Hl2 _] _]. congruence. }
  destruct (copy_to_FullMatrix_world L matrix p Aw' outw H00 Hv Hd' Hsq
              ltac:(congruence) Hdims2) as [Dw [Hrun2 [HlenD Hel2]]].
  exists Aw', Dw. split; [exact Hrun|]. split; [exact Hrun2|].
  split; [congruence|].
  intros r D HD gi gj Hgi Hgj Hst H0v Hv0.
  rewrite <- (Hel gi gj Hgi Hgj) in H0v, Hv0.
  rewrite (Hel2 r D HD gi gj Hgi Hgj Hst H0v Hv0).
  rewrite (fold_plus_zeros _ Hv0).
  - apply Hel; assumption.
  - intros x Hx. apply in_map_iff in Hx. destruct Hx as [M [<- HMin]]. apply Hzero. exact HMin.
Qed.

(** ** Scaling of rows and columns *)

(** The scatter over the local table, column by column. *)
Lemma scatter_values_by_column (vals : list Number) (nr nc : Z)
  (f : Z -> Z -> Number -> Number) :
  0 <= nr -> 0 <= nc -> List.length vals = Z.to_nat (nr * nc) ->
  let vals' := scatter (fun (l : list Number) (k : nat) => nth k l (of_int 0))
                 (fun l k v => list_set l k v) nc nr
                 (fun j i => Z.to_nat (j * nr + i)) f vals in
  List.length vals' = List.length vals
  /\ forall j i, 0 <= j < nc -> 0 <= i < nr ->
       nth (Z.to_nat (j * nr + i)) vals' (of_int 0)
       = f j i (nth (Z.to_nat (j * nr + i)) vals (of_int 0)).
Proof.
  intros Hnr Hnc Hlen. cbv zeta. split.
  - unfold scatter.
    apply (for_loop_invariant (list Number)
             (fun _ l => List.length l = List.length vals)); [lia | reflexivity |].
    intros i l Hi Hl.
    apply (for_loop_invariant (list Number)
             (fun _ l => List.length l = List.length vals)); [lia | exact Hl |].
    intros j l' Hj Hl'. rewrite list_set_length. exact Hl'.
  - destruct (scatter_spec (list Number) nat Number
                (fun l k => nth k l (of_int 0)) (fun l k v => list_set l k v)
                (fun l k => (k < List.length l)%nat)
                (fun l k v H => nth_list_set_same Number l k v (of_int 0) H)
                (fun l k k' v H => nth_list_set_other Number l k k' v (of_int 0) H)
                (fun l k k' v H => eq_ind_r (fun n => (k' < n)%nat) H
                                     (list_set_length Number l k v))
                nc nr (fun j i => Z.to_nat (j * nr + i)) f
                (fun j i j' i' Hj Hi Hj' Hi' H =>
                   match column_major_injective nr i j i' j' Hi (proj1 Hj) Hi' (proj1 Hj') H
                   with conj a b => conj b a end)
                vals Hnc Hnr) as [Hin _].
    + intros j i Hj Hi. rewrite Hlen. nia.
    + exact Hin.
Qed.

(** What [scale_columns] leaves on an active process. *)
Lemma scale_columns_active (L : Layout) (r : Z) (A : ScaLAPACKMatrix)
  (factors : list Number) :
  Layout_valid L -> has_layout L r A -> 0 <= r < lay_R L * lay_C L ->
  Z.of_nat (List.length factors) = lay_n L ->
  exists vals,
    scale_columns A factors = Ok (set_values A vals)
    /\ List.length vals = List.length (values A)
    /\ forall li lj, 0 <= li < n_local_rows A -> 0 <= lj < n_local_columns A ->
         local_el (set_values A vals) li lj
         = times (local_el A li lj)
             (nth (Z.to_nat (global_column_of A lj)) factors (of_int 0)).
Proof.
  intros Hv Hl Hr Hf.
  destruct (has_layout_local_sizes L r A Hv Hl Hr) as [Hnlr [Hnlc [Htab Hlen]]].
  pose proof Hv as [_ [Hm [Hnb [Hn _]]]].
  pose (f := fun (j i : Z) (x : Number) =>
               times x (nth (Z.to_nat (global_column_of A j)) factors (of_int 0))).
  destruct (scatter_values_by_column (values A) (n_local_rows A) (n_local_columns A) f
              ltac:(lia) ltac:(lia) Hlen) as [Hlen' Hel].
  cbv zeta in Hlen', Hel.
  set (vals := scatter _ _ _ _ _ f (values A)) in *.
  exists vals. split; [|split; [exact Hlen'|]].
  - unfold scale_columns, internal_scale_columns.
    rewrite (hl_grid _ _ _ Hl), layout_grid_active.
    rewrite (proj2 (Z.ltb_lt _ _)) by lia.
    rewrite (hl_n_columns _ _ _ Hl), to_unsigned_small by lia.
    rewrite Assert_true by (apply Z.eqb_eq; lia). cbn [bind].
    rewrite to_unsigned_small by lia.
    rewrite <- (set_values_id A) at 2.
    rewrite (for_loopM_emb ScaLAPACKMatrix (list Number) (set_values A)
               0 (n_local_columns A) _
               (fun j l =>
                  for_loop 0 (n_local_rows A)
                    (fun i l' =>
                       list_set l' (Z.to_nat (j * n_local_rows A + i))
                         (f j i (nth (Z.to_nat (j * n_local_rows A + i)) l' (of_int 0))))
                    l)).
    + reflexivity.
    + intros j y Hj.
      destruct (global_column_of_Ok L r A j Hv Hl Hr Hj) as [Hgj _].
      change (global_column (set_values A y) j) with (global_column A j).
      rewrite Hgj. cbn [bind]. f_equal.
      change (n_local_rows (set_values A y)) with (n_local_rows A).
      rewrite to_unsigned_small by lia.
      apply for_loop_emb. intros i y' Hi.
      unfold set_local_el, local_el, f.
      cbn [set_values table_n_rows values]. rewrite Htab. reflexivity.
  - intros li lj Hli Hlj. unfold local_el. cbn [set_values table_n_rows values].
    rewrite Htab. rewrite (Hel lj li Hlj Hli). reflexivity.
Qed.

(** What [scale_rows] leaves on an active process. *)
Lemma scale_rows_active (L : Layout) (r : Z) (A : ScaLAPACKMatrix)
  (factors : list Number) :
  Layout_valid L -> has_layout L r A -> 0 <= r < lay_R L * lay_C L ->
  Z.of_nat (List.length factors) = lay_m L ->
  exists vals,
    scale_rows A factors = Ok (set_values A vals)
    /\ List.length vals = List.length (values A)
    /\ forall li lj, 0 <= li < n_local_rows A -> 0 <= lj < n_local_columns A ->
         local_el (set_values A vals) li lj
         = times (local_el A li lj)
             (nth (Z.to_nat (global_row_of A li)) factors (of_int 0)).
Proof.
  intros Hv Hl Hr Hf.
  destruct (has_layout_local_sizes L r A Hv Hl Hr) as [Hnlr [Hnlc [Htab Hlen]]].
  pose proof Hv as [Hmb [Hm [Hnb [Hn _]]]].
  pose (f := fun (i j : Z) (x : Number) =>
               times x (nth (Z.to_nat (global_row_of A i)) factors (of_int 0))).
  destruct (scatter_values (values A) (n_local_rows A) (n_local_columns A) f
              ltac:(lia) ltac:(lia) Hlen) as [Hlen' Hel].
  cbv zeta in Hlen', Hel.
  set (vals := scatter _ _ _ _ _ f (values A)) in *.
  exists vals. split; [|split; [exact Hlen'|]].
  - unfold scale_rows, internal_scale_rows.
    rewrite (hl_grid _ _ _ Hl), layout_grid_active.
    rewrite (proj2 (Z.ltb_lt _ _)) by lia.
    rewrite (hl_n_rows _ _ _ Hl), to_unsigned_small by lia.
    rewrite Assert_true by (apply Z.eqb_eq; lia). cbn [bind].
    rewrite to_unsigned_small by lia.
    rewrite <- (set_values_id A) at 2.
    rewrite (for_loopM_emb ScaLAPACKMatrix (list Number) (set_values A)
               0 (n_local_rows A) _
               (fun i l =>
                  for_loop 0 (n_local_columns A)
                    (fun j l' =>
                       list_set l' (Z.to_nat (j * n_local_rows A + i))
                         (f i j (nth (Z.to_nat (j * n_local_rows A + i)) l' (of_int 0))))
                    l)).
    + reflexivity.
    + intros i y Hi.
      destruct (global_row_of_Ok L r A i Hv Hl Hr Hi) as [Hgi _].
      change (global_row (set_values A y) i) with (global_row A i).
      rewrite Hgi. cbn [bind]. f_equal.
      change (n_local_columns (set_values A y)) with (n_local_columns A).
      rewrite to_unsigned_small by lia.
      apply for_loop_emb. intros j y' Hj.
      unfold set_local_el, local_el, f.
      cbn [set_values table_n_rows values]. rewrite Htab. reflexivity.
  - intros li lj Hli Hlj. unfold local_el. cbn [set_values table_n_rows values].
    rewrite Htab. rewrite (Hel li lj Hli Hlj). reflexivity.
Qed.

Lemma set_state_same (A : ScaLAPACKMatrix) (s : State) :
  state A = s -> set_state A s = A.
Proof. intros <-. destruct A. reflexivity. Qed.

(** An operation that overwrites the buffer of every active process in place
    and sets the state: what it leaves as a whole.  [g] is what the operation
    writes at a position, from the global position and the old value. *)
Lemma in_place_world (L : Layout) (s s' : State) (p : Property)
  (thisw : World ScaLAPACKMatrix) (op : ScaLAPACKMatrix -> Result ScaLAPACKMatrix)
  (g : Z -> Z -> Number -> Number) :
  Layout_valid L -> distributed L s p thisw ->
  (forall k A, nth_error thisw k = Some A -> Z.of_nat k < lay_R L * lay_C L ->
     exists vals,
       op A = Ok (set_state (set_values A vals) s')
       /\ List.length vals = List.length (values A)
       /\ forall li lj, 0 <= li < n_local_rows A -> 0 <= lj < n_local_columns A ->
            local_el (set_values A vals) li lj
            = g (global_row_of A li) (global_column_of A lj) (local_el A li lj)) ->
  (forall k A, nth_error thisw k = Some A -> lay_R L * lay_C L <= Z.of_nat k ->
     op A = Ok (set_state A s')) ->
  exists Aw',
    mapM op thisw = Ok Aw'
    /\ distributed L s' p Aw'
    /\ forall gi gj, 0 <= gi < lay_m L -> 0 <= gj < lay_n L ->
         layout_el L Aw' gi gj = g gi gj (layout_el L thisw gi gj).
Proof.
  intros Hv Hd Hact Hina.
  destruct (distributed_ranked L s p thisw Hv Hd) as [Hrk Hsp].
  pose proof Hv as [Hmb [Hm [Hnb [Hn [HR [HC [HP Hctx]]]]]]].
  assert (Hone : forall k A, nth_error thisw k = Some A ->
             exists vals, op A = Ok (set_state (set_values A vals) s')
                          /\ List.length vals = List.length (values A)).
  { intros k A HA. destruct (Z_lt_le_dec (Z.of_nat k) (lay_R L * lay_C L)) as [Hk|Hk].
    - destruct (Hact k A HA Hk) as [vals [H1 [H2 _]]]. exists vals. split; assumption.
    - exists (values A). rewrite set_values_id. split; [apply (Hina k A HA Hk) | reflexivity]. }
  destruct (mapM_Ok_exists _ _ op thisw) as [Aw' Hrun].
  { intros A Hin. apply In_nth_error in Hin. destruct Hin as [k Hk].
    destruct (Hone k A Hk) as [vals [H1 _]]. eexists. exact H1. }
  exists Aw'. split; [exact Hrun|].
  destruct (mapM_Ok_nth _ _ _ _ _ Hrun) as [Hlen' Hnth].
  assert (Hnth' : forall k A, nth_error thisw k = Some A ->
             exists A', nth_error Aw' k = Some A' /\ op A = Ok A').
  { intros k A HA.
    assert (Hk : (k < List.length thisw)%nat) by (apply nth_error_Some; congruence).
    destruct (nth_error Aw' k) as [A'|] eqn:HA'.
    - destruct (Hnth k A' HA') as [A0 [HA0 Hop]]. rewrite HA in HA0. inversion HA0. subst A0.
      exists A'. split; [reflexivity | exact Hop].
    - apply nth_error_None in HA'. lia. }
  assert (Hd' : distributed L s' p Aw').
  { unfold distributed in *. destruct (Forall2_nth_error _ _ _ _ _ Hd) as [Hl1 Hn1].
    apply Forall2_nth_error_intro; [congruence|].
    intros k rk A' Hrk' HA'.
    destruct (Hnth k A' HA') as [A [HA Hop]].
    destruct (Hn1 k A HA) as [rk' [Hrk'' [Hil [Hs Hp]]]].
    rewrite Hrk' in Hrk''. inversion Hrk''. subst rk'.
    destruct (Hone k A HA) as [vals [Hr Hvl]].
    rewrite Hr in Hop. inversion Hop. subst A'.
    split; [apply in_layout_update; assumption|]. split; [reflexivity | exact Hp]. }
  split; [exact Hd'|].
  intros gi gj Hgi Hgj.
  destruct (owner_rank_facts L gi gj Hv) as [Hown _].
  destruct (owner_object L thisw gi gj Hv Hrk Hgi Hgj) as [A [HA [Hl _]]].
  destruct (Hnth' _ A HA) as [A' [HA' Hop]].
  destruct (Hact _ A HA ltac:(rewrite Z2Nat.id by lia; lia)) as [vals [Hr [Hvl Hel]]].
  rewrite Hr in Hop. inversion Hop. subst A'.
  destruct (has_layout_owner L _ A gi gj Hv Hl Hgi Hgj eq_refl) as [Hli [Hlj [Hrow Hcol]]].
  unfold layout_el. rewrite HA', HA.
  change (local_el (set_state ?X _) ?i ?j) with (local_el X i j).
  rewrite Hel by assumption.
  unfold global_row_of, global_column_of. rewrite Hrow, Hcol.
  rewrite !to_signed_small by lia. reflexivity.
Qed.

(** The entries after an operation that maps the value at every position. *)
Lemma entry_mapped (L : Layout) (Aw Aw' : World ScaLAPACKMatrix)
  (g : Z -> Z -> Number -> Number) :
  Layout_valid L -> ranked L Aw -> ranked L Aw' ->
  (forall gi gj, 0 <= gi < lay_m L -> 0 <= gj < lay_n L ->
     layout_el L Aw' gi gj = g gi gj (layout_el L Aw gi gj)) ->
  forall gi gj v,
    entry Aw' gi gj v <-> exists a, entry Aw gi gj a /\ v = g gi gj a.
Proof.
  intros Hv Hrk Hrk' Hel gi gj v. split.
  - intros He. destruct (entry_unique L Aw' gi gj v Hv Hrk' He) as [Hgi [Hgj Hval]].
    exists (layout_el L Aw gi gj). split; [apply entry_layout_el; assumption|].
    rewrite Hval. apply Hel; assumption.
  - intros [a [He ->]].
    destruct (entry_unique L Aw gi gj a Hv Hrk He) as [Hgi [Hgj ->]].
    rewrite <- (Hel gi gj Hgi Hgj). apply entry_layout_el; assumption.
Qed.

(** X4: [scale_columns] with one factor per column, run by all processes of
    a distributed matrix, returns on every process, keeps layout, state and
    property, and leaves at every position the old entry times the factor of
    its column, and nothing else. *)
Theorem scale_columns_scales (L : Layout) (s : State) (p : Property)
  (thisw : World ScaLAPACKMatrix) (factors : list Number) :
  Layout_valid L -> distributed L s p thisw ->
  Z.of_nat (List.length factors) = lay_n L ->
  exists Aw',
    mapM (fun A => scale_columns A factors) thisw = Ok Aw'
    /\ distributed L s p Aw'
    /\ forall gi gj v,
         entry Aw' gi gj v
         <-> exists a, entry thisw gi gj a
                       /\ v = times a (nth (Z.to_nat gj) factors (of_int 0)).
Proof.
  intros Hv Hd Hf.
  destruct (distributed_ranked L s p thisw Hv Hd) as [Hrk Hsp].
  destruct (in_place_world L s s p thisw (fun A => scale_columns A factors)
              (fun _ gj a => times a (nth (Z.to_nat gj) factors (of_int 0))) Hv Hd)
    as [Aw' [Hrun [Hd' Hel]]].
  - intros k A HA Hk.
    destruct (scale_columns_active L (Z.of_nat k) A factors Hv (proj2 Hrk k A HA) ltac:(lia) Hf)
      as [vals [Hrun [Hlen Hel]]].
    exists vals. rewrite set_state_same by apply (Hsp k A HA).
    split; [exact Hrun|]. split; assumption.
  - intros k A HA Hk. rewrite set_state_same by apply (Hsp k A HA). unfold scale_columns.
    rewrite (hl_grid _ _ _ (proj2 Hrk k A HA)), layout_grid_active.
    rewrite (proj2 (Z.ltb_ge _ _)) by lia. reflexivity.
  - exists Aw'. split; [exact Hrun|]. split; [exact Hd'|].
    destruct (distributed_ranked L s p Aw' Hv Hd') as [Hrk' _].
    apply (entry_mapped L thisw Aw'
             (fun _ gj a => times a (nth (Z.to_nat gj) factors (of_int 0)))); assumption.
Qed.

(** X5: [scale_rows] with one factor per row, run by all processes of a
    distributed matrix, returns on every process, keeps layout, state and
    property, and leaves at every position the old entry times the factor of
    its row, and nothing else. *)
Theorem scale_rows_scales (L : Layout) (s : State) (p : Property)
  (thisw : World ScaLAPACKMatrix) (factors : list Number) :
  Layout_valid L -> distributed L s p thisw ->
  Z.of_nat (List.length factors) = lay_m L ->
  exists Aw',
    mapM (fun A => scale_rows A factors) thisw = Ok Aw'
    /\ distributed L s p Aw'
    /\ forall gi gj v,
         entry Aw' gi gj v
         <-> exists a, entry thisw gi gj a
                       /\ v = times a (nth (Z.to_nat gi) factors (of_int 0)).
Proof.
  intros Hv Hd Hf.
  destruct (distributed_ranked L s p thisw Hv Hd) as [Hrk Hsp].
  destruct (in_place_world L s s p thisw (fun A => scale_rows A factors)
              (fun gi _ a => times a (nth (Z.to_nat gi) factors (of_int 0))) Hv Hd)
    as [Aw' [Hrun [Hd' Hel]]].
  - intros k A HA Hk.
    destruct (scale_rows_active L (Z.of_nat k) A factors Hv (proj2 Hrk k A HA) ltac:(lia) Hf)
      as [vals [Hrun [Hlen Hel]]].
    exists vals. rewrite set_state_same by apply (Hsp k A HA).
    split; [exact Hrun|]. split; assumption.
  - intros k A HA Hk. rewrite set_state_same by apply (Hsp k A HA). unfold scale_rows.
    rewrite (hl_grid _ _ _ (proj2 Hrk k A HA)), layout_grid_active.
    rewrite (proj2 (Z.ltb_ge _ _)) by lia. reflexivity.
  - exists Aw'. split; [exact Hrun|]. split; [exact Hd'|].
    destruct (distributed_ranked L s p Aw' Hv Hd') as [Hrk' _].
    apply (entry_mapped L thisw Aw'
             (fun gi _ a => times a (nth (Z.to_nat gi) factors (of_int 0)))); assumption.
Qed.

(** X6: with a number of factors other than the number of columns (rows),
    [scale_columns] ([scale_rows]) throws [ExcDimensionMismatch] on the
    processes of the grid, while a process outside the grid returns with its
    object untouched: the size is checked on active processes only. *)
Theorem scale_wrong_size (L : Layout) (r : Z) (A : ScaLAPACKMatrix)
  (factors : list Number) :
  Layout_valid L -> has_layout L r A ->
  (Z.of_nat (List.length factors) <> lay_n L ->
   scale_columns A factors
   = if r <? lay_R L * lay_C L
     then Throw (ExcDimensionMismatch (lay_n L) (Z.of_nat (List.length factors)))
     else Ok A)
  /\ (Z.of_nat (List.length factors) <> lay_m L ->
      scale_rows A factors
      = if r <? lay_R L * lay_C L
        then Throw (ExcDimensionMismatch (lay_m L) (Z.of_nat (List.length factors)))
        else Ok A).
Proof.
  intros Hv Hl. pose proof Hv as [Hmb [Hm [Hnb [Hn _]]]].
  unfold scale_columns, scale_rows, internal_scale_columns, internal_scale_rows.
  rewrite (hl_grid _ _ _ Hl), layout_grid_active.
  rewrite (hl_n_columns _ _ _ Hl), (hl_n_rows _ _ _ Hl).
  rewrite (to_unsigned_small (lay_n L)), (to_unsigned_small (lay_m L)) by lia.
  split; intros Hne; destruct (r <? lay_R L * lay_C L); try reflexivity;
    rewrite (proj2 (Z.eqb_neq _ _)) by lia; reflexivity.
Qed.

(** ** Copy of the whole matrix, entry by entry *)

(** An object stays in its layout when its buffer is overwritten in place
    and its state and property are set. *)
Lemma in_layout_update_property (L : Layout) (k : Z) (B : ScaLAPACKMatrix)
  (v : list Number) (s : State) (p : Property) :
  Layout_valid L -> in_layout L k B -> List.length v = List.length (values B) ->
  in_layout L k (set_property (set_state (set_values B v) s) p).
Proof.
  intros Hv H Hlen. pose proof Hv as [Hmb [Hm [Hnb [Hn [HR [HC [HP Hctx]]]]]]].
  unfold in_layout in *.
  rewrite ScaLAPACKMatrix_ctor_Ok in H |- * by (cbn; lia).
  rewrite layout_grid_active in *.
  injection H as H'. f_equal.
  transitivity (set_property (as_constructed B) p).
  - rewrite <- H'. destruct (k <? lay_R L * lay_C L); reflexivity.
  - unfold as_constructed.
    cbn [set_state set_values set_work set_property property values table_n_rows
           table_n_cols state grid n_rows n_columns row_block_size column_block_size
           n_local_rows n_local_columns descriptor work iwork uplo first_process_row
           first_process_column submatrix_row submatrix_column].
    rewrite Hlen. reflexivity.
Qed.

(** [copy_to] on one process when the kernel redistributes: the grid objects
    or the block sizes differ. *)
Lemma copy_to_redistributes_any (LA LB : Layout) (Aw : World ScaLAPACKMatrix)
  (k : Z) (A B : ScaLAPACKMatrix) :
  Layout_valid LA -> Layout_valid LB ->
  has_layout LA k A -> has_layout LB k B ->
  lay_m LB = lay_m LA -> lay_n LB = lay_n LA ->
  lay_address LA <> lay_address LB \/ lay_mb LA <> lay_mb LB \/ lay_nb LA <> lay_nb LB ->
  copy_to Aw A B = Ok (redistributed Aw A B).
Proof.
  intros HvA HvB HlA HlB Hm Hn Hdiff. unfold copy_to.
  rewrite (hl_n_rows _ _ _ HlA), (hl_n_rows _ _ _ HlB), Hm, Z.eqb_refl.
  rewrite (hl_n_columns _ _ _ HlA), (hl_n_columns _ _ _ HlB), Hn, Z.eqb_refl.
  cbn [Assert bind].
  assert (HdA : (if mpi_process_is_active (grid A)
                 then AssertThrow (desc_at DTYPE_ (descriptor A) =? 1)
                        (ExcMessage "Copying of ScaLAPACK matrices only implemented for dense matrices")
                 else Ok tt) = Ok tt).
  { rewrite (hl_grid _ _ _ HlA), layout_grid_active.
    destruct (Z.ltb_spec k (lay_R LA * lay_C LA)) as [Hact|_]; [|reflexivity].
    destruct (hl_active _ _ _ HlA Hact) as [_ [_ [_ [Hd _]]]]. rewrite Hd. reflexivity. }
  assert (HdB : (if mpi_process_is_active (grid B)
                 then AssertThrow (desc_at DTYPE_ (descriptor B) =? 1)
                        (ExcMessage "Copying of ScaLAPACK matrices only implemented for dense matrices")
                 else Ok tt) = Ok tt).
  { rewrite (hl_grid _ _ _ HlB), layout_grid_active.
    destruct (Z.ltb_spec k (lay_R LB * lay_C LB)) as [Hact|_]; [|reflexivity].
    destruct (hl_active _ _ _ HlB Hact) as [_ [_ [_ [Hd _]]]]. rewrite Hd. reflexivity. }
  rewrite HdA, HdB. cbn [bind].
  assert (Hc : negb (grid_address (grid A) =? grid_address (grid B))
               || negb (row_block_size A =? row_block_size B)
               || negb (column_block_size A =? column_block_size B) = true).
  { rewrite (hl_grid _ _ _ HlA), (hl_grid _ _ _ HlB).
    rewrite (hl_row_block_size _ _ _ HlA), (hl_row_block_size _ _ _ HlB).
    rewrite (hl_column_block_size _ _ _ HlA), (hl_column_block_size _ _ _ HlB).
    cbn [layout_grid make_ProcessGrid grid_address].
    destruct (Z.eqb_spec (lay_address LA) (lay_address LB));
      destruct (Z.eqb_spec (lay_mb LA) (lay_mb LB));
      destruct (Z.eqb_spec (lay_nb LA) (lay_nb LB)); try reflexivity.
    exfalso. destruct Hdiff as [H|[H|H]]; contradiction. }
  rewrite Hc. unfold redistributed.
  rewrite (hl_n_rows _ _ _ HlA), (hl_n_columns _ _ _ HlA). reflexivity.
Qed.

(** [copy_to] on one process when source and destination share the grid
    object and the block sizes: the buffer is copied as it is. *)
Lemma copy_to_same_layout (L : Layout) (Aw : World ScaLAPACKMatrix)
  (k : Z) (A B : ScaLAPACKMatrix) :
  Layout_valid L -> has_layout L k A -> has_layout L k B ->
  copy_to Aw A B
  = Ok (set_property
          (set_state (if k <? lay_R L * lay_C L then set_values B (values A) else B)
             (state A))
          (property A)).
Proof.
  intros Hv HlA HlB. unfold copy_to.
  rewrite (hl_n_rows _ _ _ HlA), (hl_n_rows _ _ _ HlB), Z.eqb_refl.
  rewrite (hl_n_columns _ _ _ HlA), (hl_n_columns _ _ _ HlB), Z.eqb_refl.
  cbn [Assert bind].
  rewrite (hl_grid _ _ _ HlA), (hl_grid _ _ _ HlB), layout_grid_active.
  rewrite (hl_row_block_size _ _ _ HlA), (hl_row_block_size _ _ _ HlB).
  rewrite (hl_column_block_size _ _ _ HlA), (hl_column_block_size _ _ _ HlB).
  rewrite !Z.eqb_refl. cbn [negb orb].
  destruct (Z.ltb_spec k (lay_R L * lay_C L)) as [Hact|Hin].
  - destruct (hl_active _ _ _ HlA Hact) as [_ [_ [_ [HdA _]]]].
    destruct (hl_active _ _ _ HlB Hact) as [_ [_ [_ [HdB _]]]].
    rewrite HdA, HdB. reflexivity.
  - reflexivity.
Qed.

(** The copy of a whole matrix as all processes run it, for every pair of
    layouts of the same shape in one job: it returns, the destination keeps
    its layout, takes the state and the property of the source, and holds
    the entries of the source. *)
Lemma copy_to_world_any (LA LB : Layout) (s sB : State) (p pB : Property)
  (Aw Bw : World ScaLAPACKMatrix) :
  Layout_valid LA -> Layout_valid LB ->
  distributed LA s p Aw -> distributed LB sB pB Bw ->
  lay_m LB = lay_m LA -> lay_n LB = lay_n LA -> lay_P LB = lay_P LA ->
  (lay_address LB = lay_address LA ->
   lay_R LB = lay_R LA /\ lay_C LB = lay_C LA /\ lay_comm LB = lay_comm LA
   /\ lay_context LB = lay_context LA) ->
  exists Bw',
    mapM (fun tt => copy_to Aw (fst tt) (snd tt)) (combine Aw Bw) = Ok Bw'
    /\ distributed LB s p Bw'
    /\ (forall gi gj, 0 <= gi < lay_m LA -> 0 <= gj < lay_n LA ->
                      layout_el LB Bw' gi gj = layout_el LA Aw gi gj).
Proof.
  intros HvA HvB HdA HdB Hm Hn HP Hsame.
  destruct (distributed_ranked LA s p Aw HvA HdA) as [HrA HspA].
  destruct (distributed_ranked LB sB pB Bw HvB HdB) as [HrB _].
  assert (Hlen : List.length Bw = List.length Aw).
  { rewrite (proj1 HrA), (proj1 HrB), HP. reflexivity. }
  (* the destination of every process, with its new buffer *)
  assert (Hone : forall k A B,
             nth_error Aw k = Some A -> nth_error Bw k = Some B ->
             exists v, copy_to Aw A B = Ok (set_property (set_state (set_values B v) s) p)
                       /\ List.length v = List.length (values B)
                       /\ forall gi gj, 0 <= gi < lay_m LA -> 0 <= gj < lay_n LA ->
                            Z.of_nat k = owner_rank LB gi gj ->
                            local_el (set_values B v) (local_row LB gi) (local_column LB gj)
                            = layout_el LA Aw gi gj).
  { intros k A B HA HB.
    pose proof (proj2 HrA k A HA) as HlA. pose proof (proj2 HrB k B HB) as HlB.
    destruct (HspA k A HA) as [Hs Hp].
    assert (Hred : lay_address LA <> lay_address LB \/ lay_mb LA <> lay_mb LB
                   \/ lay_nb LA <> lay_nb LB ->
              exists v,
                copy_to Aw A B = Ok (set_property (set_state (set_values B v) s) p)
                /\ List.length v = List.length (values B)
                /\ forall gi gj, 0 <= gi < lay_m LA -> 0 <= gj < lay_n LA ->
                     Z.of_nat k = owner_rank LB gi gj ->
                     local_el (set_values B v) (local_row LB gi) (local_column LB gj)
                     = layout_el LA Aw gi gj).
    { (* the kernel redistributes *)
      intros Hdiff.
      rewrite (copy_to_redistributes_any LA LB Aw (Z.of_nat k) A B HvA HvB HlA HlB Hm Hn
                 Hdiff).
      unfold redistributed. rewrite Hs, Hp.
      destruct (mpi_process_is_active (grid B) && (0 <? Z.of_nat (List.length (values B))))
        eqn:Hc.
      + eexists. split; [reflexivity|]. split.
        * rewrite pgemr2d_length. apply andb_true_iff in Hc. destruct Hc as [Hact _].
          destruct (whole_operand_faithful B) as [_ [_ [_ [_ [_ Hvals]]]]].
          rewrite (Hvals Hact). reflexivity.
        * intros gi gj Hgi Hgj Hk.
          rewrite (hl_n_rows _ _ _ HlA), (hl_n_columns _ _ _ HlA).
          rewrite (hl_submatrix_row _ _ _ HlA), (hl_submatrix_column _ _ _ HlA).
          rewrite (hl_submatrix_row _ _ _ HlB), (hl_submatrix_column _ _ _ HlB).
          apply (pgemr2d_owner_el LA LB Aw Bw); try assumption.
          rewrite <- Hk, Nat2Z.id. exact HB.
      + exists (values B). rewrite set_values_id. split; [reflexivity|].
        split; [reflexivity|]. intros gi gj Hgi Hgj Hk. exfalso.
        destruct (owner_rank_facts LB gi gj HvB) as [Ho _].
        destruct (hl_active _ _ _ HlB ltac:(lia)) as [Hr1 [Hc1 [_ [_ Hvl]]]].
        assert (Hact0 : mpi_process_is_active (grid B) = true).
        { rewrite (hl_grid _ _ _ HlB), layout_grid_active. apply Z.ltb_lt. lia. }
        rewrite Hact0 in Hc. cbn [andb] in Hc. apply Z.ltb_ge in Hc.
        destruct (has_layout_owner LB _ B gi gj HvB HlB ltac:(lia) ltac:(lia) (eq_sym Hk))
          as [Hli [Hlj _]].
        rewrite Hvl in Hc. nia. }
    destruct (Z.eq_dec (lay_address LA) (lay_address LB)) as [Ea|Na];
      [|apply Hred; left; exact Na].
    destruct (Z.eq_dec (lay_mb LA) (lay_mb LB)) as [Emb|Nmb];
      [|apply Hred; right; left; exact Nmb].
    destruct (Z.eq_dec (lay_nb LA) (lay_nb LB)) as [Enb|Nnb];
      [|apply Hred; right; right; exact Nnb].
    (* the same grid object and the same block sizes: the buffer is copied *)
    clear Hred.
    destruct (Hsame (eq_sym Ea)) as [ER [EC [Ecomm Ectx]]].
    assert (EL : LB = LA).
    { destruct LA, LB. cbn in *. subst. reflexivity. }
    subst LB.
    rewrite (copy_to_same_layout LA Aw (Z.of_nat k) A B HvA HlA HlB), Hs, Hp.
    destruct (Z.ltb_spec (Z.of_nat k) (lay_R LA * lay_C LA)) as [Hact|Hin].
    + exists (values A). split; [reflexivity|].
      destruct (hl_active _ _ _ HlA Hact) as [HrA1 [HcA1 [HtA [_ HvA1]]]].
      destruct (hl_active _ _ _ HlB Hact) as [HrB1 [HcB1 [HtB [_ HvB1]]]].
      split; [congruence|].
      intros gi gj Hgi Hgj Hk. unfold layout_el. rewrite <- Hk, Nat2Z.id, HA.
      unfold local_el. cbn [set_values table_n_rows values]. congruence.
    + exists (values B). rewrite set_values_id. split; [reflexivity|].
      split; [reflexivity|].
      intros gi gj Hgi Hgj Hk. destruct (owner_rank_facts LA gi gj HvA) as [Ho _]. lia. }
  destruct (mapM_Ok_exists _ _ (fun tt => copy_to Aw (fst tt) (snd tt)) (combine Aw Bw))
    as [Bw' Hrun].
  { intros [A B] Hin. cbn [fst snd]. apply In_nth_error in Hin. destruct Hin as [k Hk].
    apply nth_error_combine_inv in Hk. destruct Hk as [HA HB].
    destruct (Hone k A B HA HB) as [v [Hr _]]. eexists. exact Hr. }
  exists Bw'. split; [exact Hrun|].
  destruct (mapM_combine_nth _ _ _ _ _ _ _ Hlen Hrun) as [Hlen' Hnth].
  assert (Hd' : distributed LB s p Bw').
  { unfold distributed in *. destruct (Forall2_nth_error _ _ _ _ _ HdB) as [Hl1 Hn1].
    apply Forall2_nth_error_intro; [congruence|].
    intros k rk B' Hrk' HB'.
    destruct (nth_error Aw k) as [A|] eqn:HA.
    2: { apply nth_error_None in HA.
         assert ((k < List.length Bw')%nat) by (apply nth_error_Some; congruence). lia. }
    destruct (Hnth k A HA) as [B [B'' [HB [HB'' Hf]]]].
    rewrite HB' in HB''. inversion HB''. subst B''. cbn [fst snd] in Hf.
    destruct (Hn1 k B HB) as [rk' [Hrk'' [Hil _]]].
    rewrite Hrk' in Hrk''. inversion Hrk''. subst rk'.
    destruct (Hone k A B HA HB) as [v [Hr [Hvl _]]].
    rewrite Hr in Hf. inversion Hf. subst B'.
    split; [apply in_layout_update_property; assumption|]. split; reflexivity. }
  split; [exact Hd'|].
  intros gi gj Hgi Hgj.
  destruct (owner_rank_facts LB gi gj HvB) as [Hown _].
  pose proof HvB as [_ [_ [_ [_ [_ [_ [HPB _]]]]]]].
  destruct (ranked_nth LB Bw (owner_rank LB gi gj) HrB ltac:(lia)) as [B [HB HlB]].
  destruct (ranked_nth LA Aw (owner_rank LB gi gj) HrA ltac:(lia)) as [A [HA HlA]].
  destruct (Hnth _ A HA) as [B0 [B' [HB0 [HB' Hf]]]]. cbn [fst snd] in Hf.
  rewrite HB in HB0. inversion HB0. subst B0.
  destruct (Hone _ A B HA HB) as [v [Hr [Hvl Hel]]].
  rewrite Hr in Hf. inversion Hf. subst B'.
  unfold layout_el at 1. rewrite HB'.
  change (local_el (set_property (set_state ?X _) _) ?i ?j) with (local_el X i j).
  apply Hel; try assumption. rewrite Z2Nat.id by lia. reflexivity.
Qed.

(** X7: [copy_to (ScaLAPACKMatrix &)] between two distributed matrices of
    the same shape in one job, whatever their grids and block sizes, returns
    on every process; the destination keeps its layout, takes the state and the
    property of the source, and holds at every position the entry of the
    source and nothing else. *)
Theorem copy_to_copies_every_entry (LA LB : Layout) (s sB : State) (p pB : Property)
  (Aw Bw : World ScaLAPACKMatrix) :
  Layout_valid LA -> Layout_valid LB ->
  distributed LA s p Aw -> distributed LB sB pB Bw ->
  lay_m LB = lay_m LA -> lay_n LB = lay_n LA -> lay_P LB = lay_P LA ->
  (lay_address LB = lay_address LA ->
   lay_R LB = lay_R LA /\ lay_C LB = lay_C LA /\ lay_comm LB = lay_comm LA
   /\ lay_context LB = lay_context LA) ->
  exists Bw',
    mapM (fun tt => copy_to Aw (fst tt) (snd tt)) (combine Aw Bw) = Ok Bw'
    /\ distributed LB s p Bw'
    /\ forall gi gj v, entry Bw' gi gj v <-> entry Aw gi gj v.
Proof.
  intros HvA HvB HdA HdB Hm Hn HP Hsame.
  destruct (copy_to_world_any LA LB s sB p pB Aw Bw HvA HvB HdA HdB Hm Hn HP Hsame)
    as [Bw' [Hrun [Hd' Hel]]].
  exists Bw'. split; [exact Hrun|]. split; [exact Hd'|].
  destruct (distributed_ranked LA s p Aw HvA HdA) as [HrA _].
  destruct (distributed_ranked LB s p Bw' HvB Hd') as [HrB' _].
  intros gi gj v. split; intros He.
  - destruct (entry_unique LB Bw' gi gj v HvB HrB' He) as [Hgi [Hgj ->]].
    rewrite Hel by lia. apply entry_layout_el; try assumption; lia.
  - destruct (entry_unique LA Aw gi gj v HvA HrA He) as [Hgi [Hgj ->]].
    rewrite <- Hel by lia. apply entry_layout_el; try assumption; lia.
Qed.

(** ** Copy of a sub-block, entry by entry *)

(** The operand of the sub-block copy on a process of the grid and on a
    process outside. *)
Lemma submatrix_operand_active (L : Layout) (k : Z) (A : ScaLAPACKMatrix) :
  Layout_valid L -> has_layout L k A -> 0 <= k < lay_R L * lay_C L ->
  submatrix_operand A = make_Operand (values A) (descriptor A) (grid A).
Proof.
  intros Hv Hl Hk. pose proof Hv as [_ [_ [_ [_ [HR [HC _]]]]]].
  unfold submatrix_operand, Cblacs_gridinfo. rewrite (hl_grid _ _ _ Hl).
  cbn [layout_grid make_ProcessGrid n_process_rows n_process_columns this_process_row
         this_process_column].
  rewrite (proj2 (Z.ltb_lt k (lay_R L * lay_C L))) by lia.
  pose proof (Z.mod_pos_bound k (lay_R L) ltac:(lia)) as Hm.
  assert (Hd : 0 <= k / lay_R L < lay_C L).
  { split; [apply Z.div_pos; lia|]. apply Z.div_lt_upper_bound; lia. }
  rewrite (proj2 (Z.leb_le 0 (k mod lay_R L))), (proj2 (Z.ltb_lt (k mod lay_R L) (lay_R L)))
    by lia.
  rewrite (proj2 (Z.leb_le 0 (k / lay_R L))), (proj2 (Z.ltb_lt (k / lay_R L) (lay_C L)))
    by lia.
  reflexivity.
Qed.

Lemma submatrix_operand_inactive (L : Layout) (k : Z) (A : ScaLAPACKMatrix) :
  has_layout L k A -> lay_R L * lay_C L <= k ->
  op_participates (submatrix_operand A) = false
  /\ op_participates (make_Operand (values A) (descriptor A) (grid A)) = false.
Proof.
  intros Hl Hk. destruct (hl_inactive _ _ _ Hl Hk) as [Hd _]. split.
  - unfold submatrix_operand, Cblacs_gridinfo. rewrite (hl_grid _ _ _ Hl).
    cbn [layout_grid make_ProcessGrid n_process_rows n_process_columns this_process_row
           this_process_column].
    rewrite (proj2 (Z.ltb_ge k (lay_R L * lay_C L))) by lia. reflexivity.
  - unfold op_participates, make_Operand. cbn [op_desc]. rewrite Hd. reflexivity.
Qed.

(** A search that meets the same participating operands finds the same. *)
Lemma find_participating (f : Operand -> bool) (l l' : list Operand) :
  (forall o, f o = true -> op_participates o = true) ->
  Forall2 (fun o o' => op_participates o = true \/ op_participates o' = true -> o = o') l l' ->
  find f l = find f l'.
Proof.
  intros Hf H. induction H as [|o o' l l' Ho _ IH]; [reflexivity|].
  cbn [find].
  destruct (f o) eqn:E.
  - rewrite <- (Ho (or_introl (Hf o E))), E. reflexivity.
  - destruct (f o') eqn:E'.
    + rewrite (Ho (or_intror (Hf o' E'))) in E. congruence.
    + exact IH.
Qed.

(** A kernel reads the same entries from two worlds of operands that agree
    on the participating processes. *)
Lemma operand_el_participating (l l' : list Operand) (gi gj : Z) :
  Forall2 (fun o o' => op_participates o = true \/ op_participates o' = true -> o = o') l l' ->
  operand_el l gi gj = operand_el l' gi gj.
Proof.
  intros H. unfold operand_el.
  rewrite (find_participating op_participates l l' (fun o E => E) H).
  destruct (find op_participates l') as [o0|]; [|reflexivity].
  rewrite (find_participating _ l l'
             (fun o E => proj1 (proj1 (andb_true_iff _ _)
                                  (proj1 (proj1 (andb_true_iff _ _) E)))) H).
  reflexivity.
Qed.

(** The sub-block copy reads the source as it is distributed. *)
Lemma submatrix_operand_el (L : Layout) (Aw : World ScaLAPACKMatrix) (gi gj : Z) :
  Layout_valid L -> ranked L Aw ->
  0 <= gi < lay_m L -> 0 <= gj < lay_n L ->
  operand_el (map submatrix_operand Aw) gi gj = layout_el L Aw gi gj.
Proof.
  intros Hv Hrk Hgi Hgj.
  rewrite <- (operand_el_layout L Aw (fun X => make_Operand (values X) (descriptor X) (grid X))
                gi gj Hv Hrk make_Operand_faithful Hgi Hgj).
  apply operand_el_participating.
  apply Forall2_nth_error_intro; [rewrite !length_map; reflexivity|].
  intros k o o' Ho Ho'.
  apply nth_error_map_inv in Ho. destruct Ho as [A [HA ->]].
  apply nth_error_map_inv in Ho'. destruct Ho' as [A' [HA' ->]].
  rewrite HA in HA'. inversion HA'. subst A'.
  pose proof (proj2 Hrk k A HA) as Hl.
  destruct (Z_lt_le_dec (Z.of_nat k) (lay_R L * lay_C L)) as [Hk|Hk].
  - intros _. apply (submatrix_operand_active L (Z.of_nat k)); try assumption. lia.
  - destruct (submatrix_operand_inactive L (Z.of_nat k) A Hl Hk) as [H1 H2].
    intros [H|H]; congruence.
Qed.

Lemma mapM_combine_snd (T U V : Type) (f : T * U -> Result V) (g : U -> Result V)
  (l1 : list T) (l2 : list U) :
  List.length l1 = List.length l2 ->
  (forall k x y, nth_error l1 k = Some x -> nth_error l2 k = Some y -> f (x, y) = g y) ->
  mapM f (combine l1 l2) = mapM g l2.
Proof.
  revert l2. induction l1 as [|x l1 IH]; intros [|y l2] Hlen H; cbn [List.length] in Hlen;
    try discriminate Hlen; [reflexivity|].
  cbn [combine mapM]. rewrite (H 0%nat x y eq_refl eq_refl).
  rewrite (IH l2); [reflexivity | congruence |].
  intros k a b Ha Hb. apply (H (S k)); assumption.
Qed.

(** The sub-block copy on one process, when the block lies in both
    matrices. *)
Lemma copy_to_submatrix_run (LA LB : Layout) (Aw Bw : World ScaLAPACKMatrix)
  (k : Z) (A B : ScaLAPACKMatrix) (offset_A offset_B sz : Z * Z) :
  Layout_valid LA -> Layout_valid LB -> has_layout LA k A -> has_layout LB k B ->
  lay_comm LB = lay_comm LA ->
  1 <= fst sz -> 1 <= snd sz ->
  0 <= fst offset_A -> fst offset_A + fst sz <= lay_m LA ->
  0 <= snd offset_A -> snd offset_A + snd sz <= lay_n LA ->
  0 <= fst offset_B -> fst offset_B + fst sz <= lay_m LB ->
  0 <= snd offset_B -> snd offset_B + snd sz <= lay_n LB ->
  copy_to_submatrix Aw Bw A B offset_A offset_B sz
  = Ok (block_copied Aw offset_A offset_B sz B).
Proof.
  intros HvA HvB HlA HlB Hcomm Hs1 Hs2 Ha1 Ha2 Ha3 Ha4 Hb1 Hb2 Hb3 Hb4.
  pose proof HvA as [_ [HmA [_ [HnA _]]]]. pose proof HvB as [_ [HmB [_ [HnB _]]]].
  unfold copy_to_submatrix.
  rewrite (proj2 (Z.eqb_neq (fst sz) 0)), (proj2 (Z.eqb_neq (snd sz) 0)) by lia.
  cbn [orb].
  rewrite (hl_n_rows _ _ _ HlA), (hl_n_columns _ _ _ HlA).
  rewrite (hl_n_rows _ _ _ HlB), (hl_n_columns _ _ _ HlB).
  rewrite !to_unsigned_small by lia.
  rewrite (Assert_true (fst offset_A <? _)) by (apply Z.ltb_lt; lia).
  rewrite (Assert_true (snd offset_A <? _)) by (apply Z.ltb_lt; lia).
  rewrite (Assert_true (fst offset_B <? _)) by (apply Z.ltb_lt; lia).
  rewrite (Assert_true (snd offset_B <? _)) by (apply Z.ltb_lt; lia).
  rewrite (hl_grid _ _ _ HlA), (hl_grid _ _ _ HlB).
  cbn [layout_grid make_ProcessGrid mpi_communicator].
  rewrite Assert_true by (apply Z.eqb_eq; congruence).
  reflexivity.
Qed.

(** The sub-block copy as all processes run it. *)
Lemma copy_to_submatrix_world (LA LB : Layout) (sA sB : State) (pA pB : Property)
  (Aw Bw : World ScaLAPACKMatrix) (offset_A offset_B sz : Z * Z) :
  Layout_valid LA -> Layout_valid LB ->
  distributed LA sA pA Aw -> distributed LB sB pB Bw ->
  lay_P LB = lay_P LA -> lay_comm LB = lay_comm LA ->
  1 <= fst sz -> 1 <= snd sz ->
  0 <= fst offset_A -> fst offset_A + fst sz <= lay_m LA ->
  0 <= snd offset_A -> snd offset_A + snd sz <= lay_n LA ->
  0 <= fst offset_B -> fst offset_B + fst sz <= lay_m LB ->
  0 <= snd offset_B -> snd offset_B + snd sz <= lay_n LB ->
  exists Bw',
    mapM (fun tt => copy_to_submatrix Aw Bw (fst tt) (snd tt) offset_A offset_B sz)
      (combine Aw Bw) = Ok Bw'
    /\ distributed LB matrix pB Bw'
    /\ forall gi gj, 0 <= gi < lay_m LB -> 0 <= gj < lay_n LB ->
         layout_el LB Bw' gi gj
         = if in_block offset_B sz gi gj
           then layout_el LA Aw (gi - fst offset_B + fst offset_A)
                  (gj - snd offset_B + snd offset_A)
           else layout_el LB Bw gi gj.
Proof.
  intros HvA HvB HdA HdB HP Hcomm Hs1 Hs2 Ha1 Ha2 Ha3 Ha4 Hb1 Hb2 Hb3 Hb4.
  destruct (distributed_ranked LA sA pA Aw HvA HdA) as [HrA _].
  destruct (distributed_ranked LB sB pB Bw HvB HdB) as [HrB _].
  rewrite (mapM_combine_snd _ _ _ _
             (fun B => Ok (block_copied Aw offset_A offset_B sz B))).
  2: { rewrite (proj1 HrA), (proj1 HrB), HP. reflexivity. }
  2: { intros k A B HA HB. cbn [fst snd].
       apply (copy_to_submatrix_run LA LB Aw Bw (Z.of_nat k)); try assumption.
       - apply (proj2 HrA). exact HA.
       - apply (proj2 HrB). exact HB. }
  apply (in_place_world LB sB matrix pB Bw
           (fun B => Ok (block_copied Aw offset_A offset_B sz B))
           (fun gi gj old =>
              if in_block offset_B sz gi gj
              then layout_el LA Aw (gi - fst offset_B + fst offset_A)
                     (gj - snd offset_B + snd offset_A)
              else old) HvB HdB).
  - intros k B HB Hk. pose proof (proj2 HrB k B HB) as HlB.
    destruct (has_layout_local_sizes LB (Z.of_nat k) B HvB HlB ltac:(lia))
      as [Hnlr [Hnlc [Htab Hlen]]].
    pose proof (submatrix_operand_active LB (Z.of_nat k) B HvB HlB ltac:(lia)) as Hop.
    assert (Hpart : op_participates (submatrix_operand B) = true).
    { rewrite Hop.
      rewrite (participates_iff_active LB
                 (fun X => make_Operand (values X) (descriptor X) (grid X))
                 (Z.of_nat k) B HvB make_Operand_faithful HlB).
      apply Z.ltb_lt. exact Hk. }
    unfold block_copied. rewrite Hpart, andb_true_r.
    destruct (Z.ltb_spec 0 (Z.of_nat (List.length (values B)))) as [Hne|Hemp].
    + eexists. split; [reflexivity|]. split.
      * rewrite pgemr2d_length, Hop. reflexivity.
      * intros li lj Hli Hlj.
        destruct (global_row_of_Ok LB _ B li HvB HlB ltac:(lia) Hli) as [_ [Hgi [Hor Hlr]]].
        destruct (global_column_of_Ok LB _ B lj HvB HlB ltac:(lia) Hlj)
          as [_ [Hgj [Hoc Hlc]]].
        set (gi := global_row_of B li) in *. set (gj := global_column_of B lj) in *.
        pose proof HvB as [_ [_ [_ [_ [HR _]]]]].
        assert (Hown : owner_rank LB gi gj = Z.of_nat k).
        { unfold owner_rank. symmetry. apply rank_of_coordinates; assumption. }
        assert (HBo : nth_error Bw (Z.to_nat (owner_rank LB gi gj)) = Some B).
        { rewrite Hown, Nat2Z.id. exact HB. }
        destruct (owner_position LB Bw
                    (fun X => make_Operand (values X) (descriptor X) (grid X))
                    gi gj B HvB HrB make_Operand_faithful Hgi Hgj HBo) as [Hq [Hqr Hqc]].
        rewrite <- Hlr, <- Hlc in Hq, Hqr, Hqc.
        unfold local_el at 1. cbn [set_values table_n_rows values].
        unfold pgemr2d. rewrite Hpart, Hop.
        change (op_values (make_Operand (values B) (descriptor B) (grid B))) with (values B).
        rewrite nth_map_zrange by exact Hq.
        rewrite Hqr, Hqc.
        replace (fst offset_B + 1 - 1) with (fst offset_B) by lia.
        replace (snd offset_B + 1 - 1) with (snd offset_B) by lia.
        replace (fst offset_A + 1 - 1) with (fst offset_A) by lia.
        replace (snd offset_A + 1 - 1) with (snd offset_A) by lia.
        unfold in_block.
        destruct ((fst offset_B <=? gi) && (gi <? fst offset_B + fst sz)
                  && (snd offset_B <=? gj) && (gj <? snd offset_B + snd sz)) eqn:Hin.
        -- apply andb_true_iff in Hin. destruct Hin as [Hin H4].
           apply andb_true_iff in Hin. destruct Hin as [Hin H3].
           apply andb_true_iff in Hin. destruct Hin as [H1 H2].
           apply Z.leb_le in H1. apply Z.ltb_lt in H2.
           apply Z.leb_le in H3. apply Z.ltb_lt in H4.
           apply (submatrix_operand_el LA Aw); try assumption; lia.
        -- reflexivity.
    + exists (values B). rewrite set_values_id. split; [reflexivity|].
      split; [reflexivity|]. intros li lj Hli Hlj. exfalso. rewrite Hlen in Hemp. nia.
  - intros k B HB Hk. pose proof (proj2 HrB k B HB) as HlB.
    destruct (submatrix_operand_inactive LB (Z.of_nat k) B HlB Hk) as [Hp _].
    unfold block_copied. rewrite Hp, andb_false_r. reflexivity.
Qed.

(** X8: the copy of a non-empty sub-block that lies in both matrices,
    between two distributed matrices on one communicator, returns on every
    process; the destination keeps its layout and property, its state becomes
    [matrix], the block at [offset_B] holds the entries of the block of the
    source at [offset_A], and every entry outside the block is as it was. *)
Theorem copy_to_submatrix_copies_block
  (LA LB : Layout) (sA sB : State) (pA pB : Property)
  (Aw Bw : World ScaLAPACKMatrix) (offset_A offset_B sz : Z * Z) :
  Layout_valid LA -> Layout_valid LB ->
  distributed LA sA pA Aw -> distributed LB sB pB Bw ->
  lay_P LB = lay_P LA -> lay_comm LB = lay_comm LA ->
  1 <= fst sz -> 1 <= snd sz ->
  0 <= fst offset_A -> fst offset_A + fst sz <= lay_m LA ->
  0 <= snd offset_A -> snd offset_A + snd sz <= lay_n LA ->
  0 <= fst offset_B -> fst offset_B + fst sz <= lay_m LB ->
  0 <= snd offset_B -> snd offset_B + snd sz <= lay_n LB ->
  exists Bw',
    mapM (fun tt => copy_to_submatrix Aw Bw (fst tt) (snd tt) offset_A offset_B sz)
      (combine Aw Bw) = Ok Bw'
    /\ distributed LB matrix pB Bw'
    /\ forall gi gj v,
         entry Bw' gi gj v
         <-> if in_block offset_B sz gi gj
             then entry Aw (gi - fst offset_B + fst offset_A)
                    (gj - snd offset_B + snd offset_A) v
             else entry Bw gi gj v.
Proof.
  intros HvA HvB HdA HdB HP Hcomm Hs1 Hs2 Ha1 Ha2 Ha3 Ha4 Hb1 Hb2 Hb3 Hb4.
  destruct (copy_to_submatrix_world LA LB sA sB pA pB Aw Bw offset_A offset_B sz
              HvA HvB HdA HdB HP Hcomm Hs1 Hs2 Ha1 Ha2 Ha3 Ha4 Hb1 Hb2 Hb3 Hb4)
    as [Bw' [Hrun [Hd' Hel]]].
  exists Bw'. split; [exact Hrun|]. split; [exact Hd'|].
  destruct (distributed_ranked LA sA pA Aw HvA HdA) as [HrA _].
  destruct (distributed_ranked LB sB pB Bw HvB HdB) as [HrB _].
  destruct (distributed_ranked LB matrix pB Bw' HvB Hd') as [HrB' _].
  intros gi gj v. unfold in_block in *.
  destruct ((fst offset_B <=? gi) && (gi <? fst offset_B + fst sz)
            && (snd offset_B <=? gj) && (gj <? snd offset_B + snd sz)) eqn:Hin.
  - apply andb_true_iff in Hin. destruct Hin as [Hin H4].
    apply andb_true_iff in Hin. destruct Hin as [Hin H3].
    apply andb_true_iff in Hin. destruct Hin as [H1 H2].
    apply Z.leb_le in H1. apply Z.ltb_lt in H2. apply Z.leb_le in H3. apply Z.ltb_lt in H4.
    assert (Hb : (fst offset_B <=? gi) && (gi <? fst offset_B + fst sz)
                 && (snd offset_B <=? gj) && (gj <? snd offset_B + snd sz) = true).
    { rewrite (proj2 (Z.leb_le _ _) H1), (proj2 (Z.ltb_lt _ _) H2),
        (proj2 (Z.leb_le _ _) H3), (proj2 (Z.ltb_lt _ _) H4). reflexivity. }
    pose proof (Hel gi gj ltac:(lia) ltac:(lia)) as E. rewrite Hb in E.
    split; intros He.
    + destruct (entry_unique LB Bw' gi gj v HvB HrB' He) as [_ [_ ->]].
      rewrite E. apply entry_layout_el; try assumption; lia.
    + destruct (entry_unique LA Aw _ _ v HvA HrA He) as [_ [_ ->]].
      rewrite <- E. apply entry_layout_el; try assumption; lia.
  - split; intros He.
    + destruct (entry_unique LB Bw' gi gj v HvB HrB' He) as [Hgi [Hgj ->]].
      pose proof (Hel gi gj Hgi Hgj) as E. rewrite Hin in E.
      rewrite E. apply entry_layout_el; assumption.
    + destruct (entry_unique LB Bw gi gj v HvB HrB He) as [Hgi [Hgj ->]].
      pose proof (Hel gi gj Hgi Hgj) as E. rewrite Hin in E.
      rewrite <- E. apply entry_layout_el; assumption.
Qed.

(** ** Multiplication *)

(** [mult] on one process of three matrices on one grid with the shapes and
    block sizes it asserts. *)
Lemma mult_run (LA LB LC : Layout) (Aw Bw : World ScaLAPACKMatrix) (k : Z)
  (A B C : ScaLAPACKMatrix) (b c : Number) (transpose_A transpose_B : bool) :
  has_layout LA k A -> has_layout LB k B -> has_layout LC k C ->
  same_grid LA LB -> same_grid LC LB ->
  mult_compatible transpose_A transpose_B LA LB LC ->
  mult Aw A b Bw B c C transpose_A transpose_B
  = Ok (multiplied Aw b Bw c transpose_A transpose_B
          (if transpose_A then lay_m LA else lay_n LA) C).
Proof.
  intros HlA HlB HlC [Ha1 [Ha2 [Ha3 _]]] [Hc1 [Hc2 [Hc3 _]]] Hcompat.
  unfold mult, multiplied.
  rewrite (hl_grid _ _ _ HlA), (hl_grid _ _ _ HlB), (hl_grid _ _ _ HlC).
  rewrite !layout_grid_active.
  cbn [layout_grid make_ProcessGrid grid_address].
  rewrite (Assert_true (lay_address LA =? lay_address LB)) by (apply Z.eqb_eq; exact Ha1).
  rewrite (Assert_true (lay_address LC =? lay_address LB)) by (apply Z.eqb_eq; exact Hc1).
  rewrite (hl_n_rows _ _ _ HlA), (hl_n_columns _ _ _ HlA),
    (hl_n_rows _ _ _ HlB), (hl_n_columns _ _ _ HlB),
    (hl_n_rows _ _ _ HlC), (hl_n_columns _ _ _ HlC),
    (hl_row_block_size _ _ _ HlA), (hl_column_block_size _ _ _ HlA),
    (hl_row_block_size _ _ _ HlB), (hl_column_block_size _ _ _ HlB),
    (hl_row_block_size _ _ _ HlC), (hl_column_block_size _ _ _ HlC),
    (hl_submatrix_row _ _ _ HlA), (hl_submatrix_column _ _ _ HlA),
    (hl_submatrix_row _ _ _ HlB), (hl_submatrix_column _ _ _ HlB),
    (hl_submatrix_row _ _ _ HlC), (hl_submatrix_column _ _ _ HlC).
  rewrite Ha2, Ha3, Hc2, Hc3.
  destruct transpose_A, transpose_B; cbn [negb andb]; unfold mult_compatible in Hcompat;
    destruct Hcompat as [E1 [E2 [E3 [E4 [E5 E6]]]]];
    rewrite E1, E2, E3, E4, E5, E6, !Z.eqb_refl; reflexivity.
Qed.

Lemma mapM_combine3 (T U V W : Type) (f : T * U * V -> Result W) (g : V -> Result W)
  (l1 : list T) (l2 : list U) (l3 : list V) :
  List.length l1 = List.length l3 -> List.length l2 = List.length l3 ->
  (forall k x y z, nth_error l1 k = Some x -> nth_error l2 k = Some y ->
                   nth_error l3 k = Some z -> f (x, y, z) = g z) ->
  mapM f (combine (combine l1 l2) l3) = mapM g l3.
Proof.
  intros H1 H2 H. apply mapM_combine_snd.
  - rewrite length_combine, H1, H2. apply Nat.min_id.
  - intros k [x y] z Hxy Hz. apply nth_error_combine_inv in Hxy. destruct Hxy as [Hx Hy].
    apply (H k); assumption.
Qed.

(** [mult] as all processes run it. *)
Lemma mult_world (LA LB LC : Layout) (sA sB sC : State) (pA pB pC : Property)
  (Aw Bw Cw : World ScaLAPACKMatrix) (b c : Number) (transpose_A transpose_B : bool) :
  Layout_valid LA -> Layout_valid LB -> Layout_valid LC ->
  distributed LA sA pA Aw -> distributed LB sB pB Bw -> distributed LC sC pC Cw ->
  same_grid LA LB -> same_grid LC LB ->
  mult_compatible transpose_A transpose_B LA LB LC ->
  exists Cw',
    mult_all Aw b Bw c Cw transpose_A transpose_B = Ok Cw'
    /\ distributed LC matrix pC Cw'
    /\ forall gi gj, 0 <= gi < lay_m LC -> 0 <= gj < lay_n LC ->
         layout_el LC Cw' gi gj
         = plus
             (times b
                (dot (if transpose_A then lay_m LA else lay_n LA)
                   (fun l => if transpose_A then layout_el LA Aw l gi
                             else layout_el LA Aw gi l)
                   (fun l => if transpose_B then layout_el LB Bw gj l
                             else layout_el LB Bw l gj)))
             (times c (layout_el LC Cw gi gj)).
Proof.
  intros HvA HvB HvC HdA HdB HdC HgA HgC Hcompat.
  destruct (distributed_ranked LA sA pA Aw HvA HdA) as [HrA _].
  destruct (distributed_ranked LB sB pB Bw HvB HdB) as [HrB _].
  destruct (distributed_ranked LC sC pC Cw HvC HdC) as [HrC _].
  pose proof HgA as [_ [_ [_ [HPA _]]]]. pose proof HgC as [_ [_ [_ [HPC _]]]].
  set (kk := if transpose_A then lay_m LA else lay_n LA).
  unfold mult_all.
  rewrite (mapM_combine3 _ _ _ _ _
             (fun C => Ok (multiplied Aw b Bw c transpose_A transpose_B kk C))).
  2: { rewrite (proj1 HrA), (proj1 HrC). congruence. }
  2: { rewrite (proj1 HrB), (proj1 HrC). congruence. }
  2: { intros k A B C HA HB HC. cbn [fst snd].
       apply (mult_run LA LB LC Aw Bw (Z.of_nat k)); try assumption.
       - apply (proj2 HrA). exact HA.
       - apply (proj2 HrB). exact HB.
       - apply (proj2 HrC). exact HC. }
  apply (in_place_world LC sC matrix pC Cw
           (fun C => Ok (multiplied Aw b Bw c transpose_A transpose_B kk C))
           (fun gi gj old =>
              plus
                (times b
                   (dot kk
                      (fun l => if transpose_A then layout_el LA Aw l gi
                                else layout_el LA Aw gi l)
                      (fun l => if transpose_B then layout_el LB Bw gj l
                                else layout_el LB Bw l gj)))
                (times c old)) HvC HdC).
  - intros k C HC Hk. pose proof (proj2 HrC k C HC) as HlC.
    destruct (has_layout_local_sizes LC (Z.of_nat k) C HvC HlC ltac:(lia))
      as [Hnlr [Hnlc [Htab Hlen]]].
    assert (Hact : mpi_process_is_active (grid C) = true).
    { rewrite (hl_grid _ _ _ HlC), layout_grid_active. apply Z.ltb_lt. exact Hk. }
    unfold multiplied. rewrite Hact.
    eexists. split; [reflexivity|]. split.
    + unfold pgemm. rewrite length_map_zrange. reflexivity.
    + intros li lj Hli Hlj.
      destruct (global_row_of_Ok LC _ C li HvC HlC ltac:(lia) Hli) as [_ [Hgi [Hor Hlr]]].
      destruct (global_column_of_Ok LC _ C lj HvC HlC ltac:(lia) Hlj) as [_ [Hgj [Hoc Hlc]]].
      set (gi := global_row_of C li) in *. set (gj := global_column_of C lj) in *.
      pose proof HvC as [_ [_ [_ [_ [HR _]]]]].
      assert (Hown : owner_rank LC gi gj = Z.of_nat k).
      { unfold owner_rank. symmetry. apply rank_of_coordinates; assumption. }
      assert (HCo : nth_error Cw (Z.to_nat (owner_rank LC gi gj)) = Some C).
      { rewrite Hown, Nat2Z.id. exact HC. }
      destruct (owner_position LC Cw
                  (fun X => make_Operand (values X) (descriptor X) (grid X))
                  gi gj C HvC HrC make_Operand_faithful Hgi Hgj HCo) as [Hq [Hqr Hqc]].
      rewrite <- Hlr, <- Hlc in Hq, Hqr, Hqc.
      unfold local_el. cbn [set_values table_n_rows values].
      unfold pgemm.
      change (op_values (make_Operand (values C) (descriptor C) (grid C))) with (values C).
      rewrite nth_map_zrange by exact Hq.
      rewrite Hqr, Hqc.
      rewrite (hl_n_rows _ _ _ HlC), (hl_n_columns _ _ _ HlC).
      replace (1 - 1) with 0 by lia.
      rewrite (proj2 (Z.leb_le 0 gi)), (proj2 (Z.ltb_lt gi (0 + lay_m LC))) by lia.
      rewrite (proj2 (Z.leb_le 0 gj)), (proj2 (Z.ltb_lt gj (0 + lay_n LC))) by lia.
      cbn [andb]. f_equal. f_equal. unfold dot.
      apply for_loop_ext. intros l acc Hl. f_equal.
      replace (gi - 0) with gi by lia. replace (gj - 0) with gj by lia.
      rewrite !Z.add_0_r.
      assert (HA : forall x y, 0 <= x < lay_m LA -> 0 <= y < lay_n LA ->
                   operand_el
                     (map (fun X => make_Operand (values X) (descriptor X) (grid X)) Aw) x y
                   = layout_el LA Aw x y).
      { intros x y Hx Hy. apply operand_el_layout; try assumption.
        apply make_Operand_faithful. }
      assert (HB : forall x y, 0 <= x < lay_m LB -> 0 <= y < lay_n LB ->
                   operand_el
                     (map (fun X => make_Operand (values X) (descriptor X) (grid X)) Bw) x y
                   = layout_el LB Bw x y).
      { intros x y Hx Hy. apply operand_el_layout; try assumption.
        apply make_Operand_faithful. }
      unfold kk in Hl. unfold mult_compatible in Hcompat.
      destruct transpose_A, transpose_B; cbn [Ascii.eqb Bool.eqb andb];
        destruct Hcompat as [E1 [E2 [E3 _]]];
        rewrite HA, HB by lia; reflexivity.
  - intros k C HC Hk. pose proof (proj2 HrC k C HC) as HlC.
    unfold multiplied. rewrite (hl_grid _ _ _ HlC), layout_grid_active.
    rewrite (proj2 (Z.ltb_ge _ _) Hk). reflexivity.
Qed.

(** The sum of the loop depends on the terms in range only. *)
Lemma dot_ext (k : Z) (a a' b b' : Z -> Number) :
  (forall l, 0 <= l < k -> a l = a' l) -> (forall l, 0 <= l < k -> b l = b' l) ->
  dot k a b = dot k a' b'.
Proof.
  intros Ha Hb. unfold dot. apply for_loop_ext. intros l acc Hl.
  rewrite (Ha l Hl), (Hb l Hl). reflexivity.
Qed.

(** X9: [mult (b, B, c, C, transpose_A, transpose_B)] on three distributed
    matrices on one grid, with the shapes and block sizes it asserts, returns
    on every process; C keeps its layout and property, its state becomes
    [matrix], and at every position C holds exactly
    [b * sum_l op(A)(i,l) * op(B)(l,j) + c * C(i,j)] of the old entries, the
    sum running over the rows of A when A is transposed and over its columns
    otherwise. *)
Theorem mult_computes_product
  (LA LB LC : Layout) (sA sB sC : State) (pA pB pC : Property)
  (Aw Bw Cw : World ScaLAPACKMatrix) (b c : Number) (transpose_A transpose_B : bool) :
  Layout_valid LA -> Layout_valid LB -> Layout_valid LC ->
  distributed LA sA pA Aw -> distributed LB sB pB Bw -> distributed LC sC pC Cw ->
  same_grid LA LB -> same_grid LC LB ->
  mult_compatible transpose_A transpose_B LA LB LC ->
  exists Cw',
    mult_all Aw b Bw c Cw transpose_A transpose_B = Ok Cw'
    /\ distributed LC matrix pC Cw'
    /\ forall gi gj, 0 <= gi < lay_m LC -> 0 <= gj < lay_n LC ->
         let k := if transpose_A then lay_m LA else lay_n LA in
         forall (a b' : Z -> Number) (cv : Number),
           (forall l, 0 <= l < k ->
                      entry Aw (if transpose_A then l else gi)
                        (if transpose_A then gi else l) (a l)) ->
           (forall l, 0 <= l < k ->
                      entry Bw (if transpose_B then gj else l)
                        (if transpose_B then l else gj) (b' l)) ->
           entry Cw gi gj cv ->
           forall v, entry Cw' gi gj v
                     <-> v = plus (times b (dot k a b')) (times c cv).
Proof.
  intros HvA HvB HvC HdA HdB HdC HgA HgC Hcompat.
  destruct (mult_world LA LB LC sA sB sC pA pB pC Aw Bw Cw b c transpose_A transpose_B
              HvA HvB HvC HdA HdB HdC HgA HgC Hcompat) as [Cw' [Hrun [Hd' Hel]]].
  exists Cw'. split; [exact Hrun|]. split; [exact Hd'|].
  destruct (distributed_ranked LA sA pA Aw HvA HdA) as [HrA _].
  destruct (distributed_ranked LB sB pB Bw HvB HdB) as [HrB _].
  destruct (distributed_ranked LC sC pC Cw HvC HdC) as [HrC _].
  destruct (distributed_ranked LC matrix pC Cw' HvC Hd') as [HrC' _].
  intros gi gj Hgi Hgj k a b' cv Ha Hb Hc v.
  destruct (entry_unique LC Cw gi gj cv HvC HrC Hc) as [_ [_ Hcv]].
  assert (E : layout_el LC Cw' gi gj = plus (times b (dot k a b')) (times c cv)).
  { rewrite (Hel gi gj Hgi Hgj), <- Hcv. f_equal. f_equal. apply dot_ext.
    - intros l Hl. destruct (entry_unique LA Aw _ _ _ HvA HrA (Ha l Hl)) as [_ [_ Hal]].
      rewrite Hal. destruct transpose_A; reflexivity.
    - intros l Hl. destruct (entry_unique LB Bw _ _ _ HvB HrB (Hb l Hl)) as [_ [_ Hbl]].
      rewrite Hbl. destruct transpose_B; reflexivity. }
  split.
  - intros He. destruct (entry_unique LC Cw' gi gj v HvC HrC' He) as [_ [_ ->]]. exact E.
  - intros ->. rewrite <- E. apply entry_layout_el; assumption.
Qed.

(** ** The states of a matrix across operations *)

Section StateMachine.

Variable ppotrf : ascii -> Z -> list Number -> Z -> Z -> list Z -> list Number * Z.
Variable ppotri : ascii -> Z -> list Number -> Z -> Z -> list Z -> list Number * Z.

Variable psyev :
  ascii -> ascii -> Z -> list Number -> Z -> Z -> list Z -> list Number ->
  option (list Number) -> Z -> Z -> list Z -> list Number -> Z -> psyev_out.

Variable psyevx :
  ascii -> ascii -> ascii -> Z -> list Number -> Z -> Z -> list Z ->
  Number -> Number -> Z -> Z -> Number -> Z -> Z -> list Number -> Number ->
  option (list Number) -> Z -> Z -> list Z ->
  list Number -> Z -> list Z -> Z -> list Z -> list Z -> list Number -> psyevx_out.

Variable plamch : Z -> ascii -> Number.

Variable pgesvd :
  ascii -> ascii -> Z -> Z -> list Number -> Z -> Z -> list Z -> list Number ->
  option (list Number * Z * Z * list Z) -> option (list Number * Z * Z * list Z) ->
  list Number -> Z -> pgesvd_out.

Variable pgels :
  ascii -> Z -> Z -> Z -> list Number -> Z -> Z -> list Z ->
  list Number -> Z -> Z -> list Z -> list Number -> Z -> pgels_out.

Variable ppocon :
  ascii -> Z -> list Number -> Z -> Z -> list Z -> Number -> Number ->
  list Number -> Z -> list Z -> Z -> ppocon_out.

Variable plange : ascii -> Z -> Z -> list Number -> Z -> Z -> list Z -> list Number -> Number.

Variable plansy :
  ascii -> ascii -> Z -> list Number -> Z -> Z -> list Z -> list Number -> Number.

Variable ilcm_ : Z -> Z -> Z.
Variable iceil_ : Z -> Z -> Z.
Variable ceil_to_int : Number -> Z.

Lemma compute_SVD_state (this : ScaLAPACKMatrix)
  (sv_of_all : World (ProcessGrid * list Number)) (U VT : option ScaLAPACKMatrix)
  (s : list Number) (this' : ScaLAPACKMatrix) (U' VT' : option ScaLAPACKMatrix) :
  compute_SVD pgesvd this sv_of_all U VT = Ok (s, this', U', VT') ->
  state this = matrix /\ state this' = unusable /\ property this' = general.
Proof.
  unfold compute_SVD. intros H. cbv zeta in H.
  apply bind_Ok_inv in H. destruct H as [? [Hs H]].
  apply Assert_Ok_inv, State_eqb_eq in Hs.
  do 4 (apply bind_Ok_inv in H; destruct H as [? [_ H]]).
  destruct x3 as [[[sv1 this1] U1] VT1]. inversion H. repeat split. exact Hs.
Qed.

Lemma least_squares_state (this B : ScaLAPACKMatrix) (transpose : bool)
  (this' B' : ScaLAPACKMatrix) :
  least_squares pgels this B transpose = Ok (this', B') ->
  state this = matrix /\ state this' = unusable /\ state B' = matrix.
Proof.
  unfold least_squares. intros H. cbv zeta in H.
  apply bind_Ok_inv in H. destruct H as [? [_ H]].
  apply bind_Ok_inv in H. destruct H as [? [Hs H]].
  apply Assert_Ok_inv, State_eqb_eq in Hs.
  apply bind_Ok_inv in H. destruct H as [? [HsB H]].
  apply Assert_Ok_inv, State_eqb_eq in HsB.
  do 4 (apply bind_Ok_inv in H; destruct H as [? [_ H]]).
  apply bind_Ok_inv in H. destruct H as [r [Hr H]].
  inversion H. subst. split; [exact Hs|]. split; [reflexivity|].
  destruct (mpi_process_is_active (grid this)).
  - do 2 (apply bind_Ok_inv in Hr; destruct Hr as [? [_ Hr]]).
    inversion Hr. exact HsB.
  - inversion Hr. exact HsB.
Qed.

Lemma eigenpairs_symmetric_state (this : ScaLAPACKMatrix)
  (m_of_all : World (ProcessGrid * Z)) (ev_of_all : World (ProcessGrid * list Number))
  (compute_eigenvectors : bool) (eigenvalue_idx : Z * Z)
  (eigenvalue_limits : Number * Number) (ev : list Number) (this' : ScaLAPACKMatrix) :
  eigenpairs_symmetric psyev psyevx plamch this m_of_all ev_of_all compute_eigenvectors
    eigenvalue_idx eigenvalue_limits = Ok (ev, this') ->
  state this' = (if compute_eigenvectors then eigenvalues else unusable).
Proof.
  unfold eigenpairs_symmetric. intros H. cbv zeta in H.
  do 5 (apply bind_Ok_inv in H; destruct H as [? [_ H]]).
  destruct x3 as [[this1 m1] ev1].
  destruct compute_eigenvectors; inversion H; reflexivity.
Qed.

(** What the operations that check the state answer in a state that is
    none of [matrix], [inverse_matrix], [cholesky]. *)
Lemma refused_in_state (this : ScaLAPACKMatrix) :
  state this = unusable \/ state this = eigenvalues ->
  (forall sv_of_all U VT,
      compute_SVD pgesvd this sv_of_all U VT
      = Throw (ExcMessage "Matrix has to be in Matrix state before calling this function."))
  /\ (forall B transpose,
         grid_address (grid this) = grid_address (grid B) ->
         least_squares pgels this B transpose
         = Throw (ExcMessage "Matrix has to be in Matrix state before calling this function."))
  /\ (forall m_of_all ev_of_all compute_eigenvectors eigenvalue_idx eigenvalue_limits,
         eigenpairs_symmetric psyev psyevx plamch this m_of_all ev_of_all
           compute_eigenvectors eigenvalue_idx eigenvalue_limits
         = Throw (ExcMessage "Matrix has to be in Matrix state before calling this function."))
  /\ (forall rcond_of_all a_norm,
         reciprocal_condition_number ppocon ceil_to_int this rcond_of_all a_norm
         = Throw (ExcMessage "Matrix has to be in Cholesky state before calling this function."))
  /\ (forall res_of_all,
         l1_norm plange plansy ilcm_ iceil_ this res_of_all
         = Throw (ExcMessage "norms can be called in matrix state only.")
         /\ linfty_norm plange plansy ilcm_ iceil_ this res_of_all
            = Throw (ExcMessage "norms can be called in matrix state only.")
         /\ frobenius_norm plange plansy ilcm_ iceil_ this res_of_all
            = Throw (ExcMessage "norms can be called in matrix state only.")).
Proof.
  intros Hs.
  assert (H1 : State_eqb (state this) matrix = false) by (destruct Hs as [-> | ->]; reflexivity).
  assert (H2 : State_eqb (state this) cholesky = false)
    by (destruct Hs as [-> | ->]; reflexivity).
  assert (H3 : State_eqb (state this) inverse_matrix = false)
    by (destruct Hs as [-> | ->]; reflexivity).
  split; [|split; [|split; [|split]]].
  - intros. unfold compute_SVD. rewrite H1. reflexivity.
  - intros B t Hg. unfold least_squares. rewrite Hg, Z.eqb_refl, H1. reflexivity.
  - intros. unfold eigenpairs_symmetric. rewrite H1. reflexivity.
  - intros. unfold reciprocal_condition_number. rewrite H2. reflexivity.
  - intros. unfold l1_norm, linfty_norm, frobenius_norm, norm_symmetric, norm_general.
    rewrite H1, H3. destruct (Property_eqb (property this) symmetric); repeat split.
Qed.

(** X10: a matrix that [compute_SVD], [least_squares] or
    [eigenpairs_symmetric] has returned is in state [unusable] or
    [eigenvalues], and every operation that checks the state then refuses it
    with its message: [compute_SVD], [least_squares] (for a right-hand side on
    the same grid), [eigenpairs_symmetric], [reciprocal_condition_number] and
    the three norms. *)
Theorem consumed_matrix_is_refused (this' : ScaLAPACKMatrix) :
  ((exists this sv_of_all U VT s U' VT',
       compute_SVD pgesvd this sv_of_all U VT = Ok (s, this', U', VT'))
   \/ (exists this B transpose B',
          least_squares pgels this B transpose = Ok (this', B'))
   \/ (exists this m_of_all ev_of_all compute_eigenvectors eigenvalue_idx
              eigenvalue_limits ev,
          eigenpairs_symmetric psyev psyevx plamch this m_of_all ev_of_all
            compute_eigenvectors eigenvalue_idx eigenvalue_limits = Ok (ev, this'))) ->
  (state this' = unusable \/ state this' = eigenvalues)
  /\ (forall sv_of_all U VT,
         compute_SVD pgesvd this' sv_of_all U VT
         = Throw (ExcMessage "Matrix has to be in Matrix state before calling this function."))
  /\ (forall B transpose,
         grid_address (grid this') = grid_address (grid B) ->
         least_squares pgels this' B transpose
         = Throw (ExcMessage "Matrix has to be in Matrix state before calling this function."))
  /\ (forall m_of_all ev_of_all compute_eigenvectors eigenvalue_idx eigenvalue_limits,
         eigenpairs_symmetric psyev psyevx plamch this' m_of_all ev_of_all
           compute_eigenvectors eigenvalue_idx eigenvalue_limits
         = Throw (ExcMessage "Matrix has to be in Matrix state before calling this function."))
  /\ (forall rcond_of_all a_norm,
         reciprocal_condition_number ppocon ceil_to_int this' rcond_of_all a_norm
         = Throw (ExcMessage "Matrix has to be in Cholesky state before calling this function."))
  /\ (forall res_of_all,
         l1_norm plange plansy ilcm_ iceil_ this' res_of_all
         = Throw (ExcMessage "norms can be called in matrix state only.")
         /\ linfty_norm plange plansy ilcm_ iceil_ this' res_of_all
            = Throw (ExcMessage "norms can be called in matrix state only.")
         /\ frobenius_norm plange plansy ilcm_ iceil_ this' res_of_all
            = Throw (ExcMessage "norms can be called in matrix state only.")).
Proof.
  intros H.
  assert (Hs : state this' = unusable \/ state this' = eigenvalues).
  { destruct H as [H|[H|H]].
    - destruct H as [this [sv [U [VT [s [U' [VT' H]]]]]]].
      left. apply (compute_SVD_state _ _ _ _ _ _ _ _ H).
    - destruct H as [this [B [t [B' H]]]].
      left. apply (least_squares_state _ _ _ _ _ H).
    - destruct H as [this [m [ev [ce [idx [lim [evs H]]]]]]].
      rewrite (eigenpairs_symmetric_state _ _ _ _ _ _ _ _ H).
      destruct ce; [right | left]; reflexivity. }
  split; [exact Hs|]. apply refused_in_state. exact Hs.
Qed.

Lemma compute_cholesky_factorization_state (this this1 : ScaLAPACKMatrix) :
  compute_cholesky_factorization ppotrf this = Ok this1 ->
  state this1 = cholesky
  /\ property this1
     = (if Ascii.eqb (uplo this) "L"%char then lower_triangular else upper_triangular).
Proof.
  unfold compute_cholesky_factorization. intros H.
  apply bind_Ok_inv in H. destruct H as [? [_ H]].
  apply bind_Ok_inv in H. destruct H as [t [Ht H]].
  inversion H. split; [reflexivity|]. cbn [set_state set_property property].
  destruct (mpi_process_is_active (grid this)).
  - destruct (ppotrf _ _ _ _ _ _) as [A_loc info].
    apply bind_Ok_inv in Ht. destruct Ht as [? [_ Ht]]. inversion Ht. reflexivity.
  - inversion Ht. reflexivity.
Qed.

Lemma invert_state (this this2 : ScaLAPACKMatrix) :
  invert ppotrf ppotri this = Ok this2 -> state this2 = inverse_matrix.
Proof.
  unfold invert. intros H.
  apply bind_Ok_inv in H. destruct H as [t1 [_ H]].
  apply bind_Ok_inv in H. destruct H as [t2 [_ H]].
  inversion H. reflexivity.
Qed.

Lemma norm_returns (this : ScaLAPACKMatrix) (res_of_all : World (ProcessGrid * Number)) :
  state this = matrix \/ state this = inverse_matrix ->
  (exists v this', l1_norm plange plansy ilcm_ iceil_ this res_of_all = Ok (v, this'))
  /\ (exists v this', linfty_norm plange plansy ilcm_ iceil_ this res_of_all = Ok (v, this'))
  /\ (exists v this',
         frobenius_norm plange plansy ilcm_ iceil_ this res_of_all = Ok (v, this')).
Proof.
  intros Hs.
  assert (H1 : State_eqb (state this) matrix || State_eqb (state this) inverse_matrix = true)
    by (destruct Hs as [-> | ->]; reflexivity).
  unfold l1_norm, linfty_norm, frobenius_norm, norm_symmetric, norm_general.
  rewrite H1.
  destruct (Property_eqb (property this) symmetric); cbn [Assert bind];
    repeat split; eexists; eexists; reflexivity.
Qed.

(** X11: the reciprocal condition number is available exactly between the
    factorization and the inversion, the norms exactly outside: once
    [compute_cholesky_factorization] has returned, the three norms throw and
    [reciprocal_condition_number] returns (for a kernel that reports success),
    leaving all but the scratch arrays as they are; once [invert] has then
    returned, [reciprocal_condition_number] throws and the norms return. *)
Theorem condition_number_between_factorization_and_inversion
  (this this1 : ScaLAPACKMatrix) :
  compute_cholesky_factorization ppotrf this = Ok this1 ->
  (forall res_of_all,
      l1_norm plange plansy ilcm_ iceil_ this1 res_of_all
      = Throw (ExcMessage "norms can be called in matrix state only.")
      /\ linfty_norm plange plansy ilcm_ iceil_ this1 res_of_all
         = Throw (ExcMessage "norms can be called in matrix state only.")
      /\ frobenius_norm plange plansy ilcm_ iceil_ this1 res_of_all
         = Throw (ExcMessage "norms can be called in matrix state only."))
  /\ (ppocon_succeeds ppocon ->
      forall rcond_of_all a_norm,
      exists rcond w iw,
        reciprocal_condition_number ppocon ceil_to_int this1 rcond_of_all a_norm
        = Ok (rcond, set_work this1 w iw))
  /\ (forall this2,
         invert ppotrf ppotri this1 = Ok this2 ->
         (forall rcond_of_all a_norm,
             reciprocal_condition_number ppocon ceil_to_int this2 rcond_of_all a_norm
             = Throw (ExcMessage
                        "Matrix has to be in Cholesky state before calling this function."))
         /\ forall res_of_all,
              (exists v this3,
                  l1_norm plange plansy ilcm_ iceil_ this2 res_of_all = Ok (v, this3))
              /\ (exists v this3,
                     linfty_norm plange plansy ilcm_ iceil_ this2 res_of_all = Ok (v, this3))
              /\ (exists v this3,
                     frobenius_norm plange plansy ilcm_ iceil_ this2 res_of_all
                     = Ok (v, this3))).
Proof.
  intros Hc. destruct (compute_cholesky_factorization_state this this1 Hc) as [Hs1 _].
  split; [|split].
  - intros res.
    unfold l1_norm, linfty_norm, frobenius_norm, norm_symmetric, norm_general.
    rewrite Hs1. destruct (Property_eqb (property this1) symmetric); repeat split.
  - intros Hk rc a. unfold reciprocal_condition_number. rewrite Hs1.
    cbn [State_eqb Assert bind].
    destruct (mpi_process_is_active (grid this1)).
    + cbv zeta. rewrite !Hk. cbn [Z.eqb AssertThrow bind fst snd].
      eexists. eexists. eexists. reflexivity.
    + cbn [bind fst snd]. exists (send_to_inactive rc (grid this1) (of_int 0)).
      exists (work this1), (iwork this1). f_equal. f_equal.
      destruct this1. reflexivity.
  - intros this2 Hi. pose proof (invert_state this1 this2 Hi) as Hs2. split.
    + intros rc a. unfold reciprocal_condition_number. rewrite Hs2. reflexivity.
    + intros res. apply norm_returns. right. exact Hs2.
Qed.


End StateMachine.

(** ** The checkpoint file *)

(** [save] through one process: the file it leaves. *)
Lemma save_serial_run (L : Layout) (s : State) (p : Property)
  (Aw : World ScaLAPACKMatrix) (chunk_size : Z * Z) (address context : Z)
  (file0 : option HDF5File) :
  Layout_valid L -> distributed L s p Aw -> chunk_size_allowed L chunk_size ->
  address <> lay_address L -> 0 <= context ->
  exists A0 T0 c0,
    nth_error Aw 0 = Some A0
    /\ save_chunk_size A0 chunk_size = Ok c0
    /\ save false Aw chunk_size address context file0 = Ok (Some (serial_file A0 T0 c0))
    /\ List.length (values T0) = Z.to_nat (lay_m L * lay_n L)
    /\ forall gi gj, 0 <= gi < lay_m L -> 0 <= gj < lay_n L ->
         nth (Z.to_nat (gj * lay_m L + gi)) (values T0) (of_int 0) = layout_el L Aw gi gj.
Proof.
  intros Hv Hd Hchunk Ha Hc.
  destruct (distributed_ranked L s p Aw Hv Hd) as [Hrk Hsp].
  destruct (save_chunk_size_world L Aw chunk_size Hv Hrk Hchunk) as [chunks [Hchunks Hclen]].
  destruct (gather_tmp_world L Aw address context Hv Hc Hrk) as [tmpw [Htmpw [HrT _]]].
  pose proof (gather_layout_valid L address context Hv Hc) as HvT.
  destruct (copy_to_world L (gather_layout L address context) s p Aw tmpw
              Hv HvT Hrk HrT Hsp eq_refl eq_refl eq_refl ltac:(cbn; congruence))
    as [tmpw' [Hcopy [HrT' [_ Hel]]]].
  pose proof Hv as [_ [_ [_ [_ [HR [HC [HP _]]]]]]].
  assert (HPpos : 1 <= lay_P L) by nia.
  pose proof (proj1 Hrk) as HlenA. pose proof (proj1 HrT') as HlenT.
  cbn [gather_layout lay_P] in HlenT.
  destruct Aw as [|A0 Aw'] eqn:EA; [cbn in HlenA; lia|]. rewrite <- EA in *.
  destruct tmpw' as [|T0 Tw'] eqn:ET; [cbn in HlenT; lia|]. rewrite <- ET in *.
  destruct chunks as [|c0 cs] eqn:EC; [rewrite EA in Hclen; cbn in Hclen; lia|].
  rewrite <- EC in *.
  exists A0, T0, c0.
  split; [rewrite EA; reflexivity|].
  split.
  { destruct (mapM_Ok_nth _ _ _ _ _ Hchunks) as [_ Hn].
    destruct (Hn 0%nat c0 ltac:(rewrite EC; reflexivity)) as [A [HA Hs0]].
    rewrite EA in HA. inversion HA. subst A. exact Hs0. }
  split.
  { unfold save. rewrite Hchunks. cbn [bind]. unfold save_serial.
    rewrite Htmpw. cbn [bind]. rewrite Hcopy. cbn [bind]. f_equal.
    rewrite EA, ET, EC. cbn [combine fold_left fst snd].
    rewrite fold_left_unchanged.
    - unfold save_serial_write.
      rewrite (gather_active L address context 0 T0
                 (proj2 HrT' 0%nat T0 ltac:(rewrite ET; reflexivity))).
      reflexivity.
    - intros [[A T] c] acc Hin. cbn [fst snd].
      apply in_combine_l in Hin. apply in_combine_r in Hin.
      apply In_nth_error in Hin. destruct Hin as [k Hk].
      unfold save_serial_write.
      rewrite (gather_active L address context (S k) T
                 (proj2 HrT' (S k) T ltac:(rewrite ET; exact Hk))).
      reflexivity. }
  destruct (gathered_el L address context tmpw' 0 0 Hv Hc HrT')
    as [T0' [HT0' [_ [Hlen0 _]]]].
  rewrite ET in HT0'. inversion HT0'. subst T0'. clear HT0'.
  split; [exact Hlen0|].
  intros gi gj Hgi Hgj.
  destruct (gathered_el L address context tmpw' gi gj Hv Hc HrT')
    as [T0' [HT0' [_ [_ Hel0]]]].
  rewrite ET in HT0'. inversion HT0'. subst T0'. clear HT0'.
  rewrite <- (Hel0 Hgi Hgj). apply Hel; assumption.
Qed.

(** X13: the file [save] writes without parallel HDF5: the dataset "/matrix"
    has the dimensions (columns, rows) and the chunks (chunk columns, chunk
    rows), by default one column per chunk, and holds the matrix column by
    column, entry [(i, j)] at position [j * rows + i]; "/state" and
    "/property" hold the state and the property as enumeration values. *)
Theorem save_writes_columns (L : Layout) (s : State) (p : Property)
  (Aw : World ScaLAPACKMatrix) (chunk_size : Z * Z) (address context : Z)
  (file0 : option HDF5File) :
  Layout_valid L -> distributed L s p Aw -> chunk_size_allowed L chunk_size ->
  address <> lay_address L -> 0 <= context ->
  exists file,
    save false Aw chunk_size address context file0 = Ok (Some file)
    /\ h5_matrix_class file = hdf5_type_class
    /\ h5_matrix_dims file = (lay_n L, lay_m L)
    /\ h5_matrix_chunk file
       = (if (fst chunk_size =? invalid_unsigned_int)
             || (snd chunk_size =? invalid_unsigned_int)
          then (1, lay_m L) else (snd chunk_size, fst chunk_size))
    /\ List.length (h5_matrix file) = Z.to_nat (lay_m L * lay_n L)
    /\ (forall gi gj, 0 <= gi < lay_m L -> 0 <= gj < lay_n L ->
          entry Aw gi gj (nth (Z.to_nat (gj * lay_m L + gi)) (h5_matrix file) (of_int 0)))
    /\ h5_state file = Some (create_HDF5_state_enum_id, State_to_int s)
    /\ h5_property file = Some (create_HDF5_property_enum_id, Property_to_int p).
Proof.
  intros Hv Hd Hchunk Ha Hc.
  destruct (save_serial_run L s p Aw chunk_size address context file0 Hv Hd Hchunk Ha Hc)
    as [A0 [T0 [c0 [HA0 [Hc0 [Hsave [Hlen Hel]]]]]]].
  destruct (distributed_ranked L s p Aw Hv Hd) as [Hrk Hsp].
  pose proof (proj2 Hrk 0%nat A0 HA0) as Hl0. destruct (Hsp 0%nat A0 HA0) as [Hs0 Hp0].
  pose proof Hv as [Hmb [Hm [Hnb [Hn _]]]].
  assert (Hdata : h5_matrix (serial_file A0 T0 c0) = values T0).
  { cbn [serial_file write_state_and_property h5_matrix].
    rewrite (hl_n_rows _ _ _ Hl0), (hl_n_columns _ _ _ Hl0).
    apply firstn_all2. rewrite Hlen. lia. }
  exists (serial_file A0 T0 c0).
  split; [exact Hsave|]. split; [reflexivity|].
  split.
  { cbn [serial_file write_state_and_property h5_matrix_dims].
    rewrite (hl_n_rows _ _ _ Hl0), (hl_n_columns _ _ _ Hl0). reflexivity. }
  split.
  { cbn [serial_file write_state_and_property h5_matrix_chunk].
    unfold save_chunk_size in Hc0.
    apply bind_Ok_inv in Hc0. destruct Hc0 as [? [_ Hc0]].
    apply bind_Ok_inv in Hc0. destruct Hc0 as [? [_ Hc0]].
    inversion Hc0 as [E]. clear Hc0.
    destruct ((fst chunk_size =? invalid_unsigned_int)
              || (snd chunk_size =? invalid_unsigned_int)).
    - cbn [fst snd]. rewrite (hl_n_rows _ _ _ Hl0), to_unsigned_small by lia. reflexivity.
    - reflexivity. }
  split; [rewrite Hdata; exact Hlen|].
  split.
  { intros gi gj Hgi Hgj. rewrite Hdata, (Hel gi gj Hgi Hgj).
    apply entry_layout_el; assumption. }
  cbn [serial_file write_state_and_property h5_state h5_property].
  rewrite Hs0, Hp0. split; reflexivity.
Qed.

(** X14: [save] refuses a chunk size outside the matrix: unless one of the
    two numbers (two [unsigned int]) is the sentinel that asks for the
    default, a number of chunk rows that is zero or larger than the number of
    rows throws [ExcIndexRange], and so does, with chunk rows in range, a
    number of chunk columns that is zero or larger than the number of columns;
    the exception carries the number converted to [int], which from [2^31]
    on is negative.  No file is written, with or without parallel HDF5. *)
Theorem save_refuses_chunk_size (L : Layout) (s : State) (p : Property)
  (Aw : World ScaLAPACKMatrix) (chunk_size : Z * Z) (H5_HAVE_PARALLEL : bool)
  (address context : Z) (file0 : option HDF5File) :
  Layout_valid L -> distributed L s p Aw ->
  0 <= fst chunk_size < 2 ^ 32 -> 0 <= snd chunk_size < 2 ^ 32 ->
  fst chunk_size <> invalid_unsigned_int -> snd chunk_size <> invalid_unsigned_int ->
  (fst chunk_size = 0 \/ lay_m L < fst chunk_size ->
   save H5_HAVE_PARALLEL Aw chunk_size address context file0
   = Throw (ExcIndexRange (to_signed (fst chunk_size)) 1 (lay_m L + 1)))
  /\ (0 < fst chunk_size <= lay_m L ->
      snd chunk_size = 0 \/ lay_n L < snd chunk_size ->
      save H5_HAVE_PARALLEL Aw chunk_size address context file0
      = Throw (ExcIndexRange (to_signed (snd chunk_size)) 1 (lay_n L + 1))).
Proof.
  intros Hv Hd Hu1 Hu2 H1 H2.
  destruct (distributed_ranked L s p Aw Hv Hd) as [Hrk _].
  pose proof Hv as [Hmb [Hm [Hnb [Hn [HR [HC [HP _]]]]]]].
  assert (HPpos : 1 <= lay_P L) by nia.
  pose proof (proj1 Hrk) as HlenA.
  destruct Aw as [|A0 Aw']; [cbn in HlenA; lia|].
  pose proof (proj2 Hrk 0%nat A0 eq_refl) as Hl0.
  assert (Hcs : save_chunk_size A0 chunk_size
                = (Assert ((fst chunk_size <=? lay_m L) && (0 <? fst chunk_size))
                     (ExcIndexRange (to_signed (fst chunk_size)) 1 (lay_m L + 1)) ;;;
                   Assert ((snd chunk_size <=? lay_n L) && (0 <? snd chunk_size))
                     (ExcIndexRange (to_signed (snd chunk_size)) 1 (lay_n L + 1)) ;;;
                   Ok chunk_size)).
  { unfold save_chunk_size.
    rewrite (proj2 (Z.eqb_neq _ _) H1), (proj2 (Z.eqb_neq _ _) H2). cbn [orb].
    rewrite (hl_n_rows _ _ _ Hl0), (hl_n_columns _ _ _ Hl0).
    rewrite !to_unsigned_small by lia. reflexivity. }
  unfold save. cbn [mapM]. rewrite Hcs.
  split.
  - intros Hbad.
    assert (E : (fst chunk_size <=? lay_m L) && (0 <? fst chunk_size) = false).
    { apply andb_false_iff. destruct Hbad; [right; apply Z.ltb_ge | left; apply Z.leb_gt]; lia. }
    rewrite E. reflexivity.
  - intros Hok Hbad.
    rewrite (Assert_true ((fst chunk_size <=? lay_m L) && (0 <? fst chunk_size)))
      by (apply andb_true_iff; split; [apply Z.leb_le | apply Z.ltb_lt]; lia).
    assert (E : (snd chunk_size <=? lay_n L) && (0 <? snd chunk_size) = false).
    { apply andb_false_iff. destruct Hbad; [right; apply Z.ltb_ge | left; apply Z.leb_gt]; lia. }
    rewrite E. reflexivity.
Qed.

(** A step in two parts on every process, written on the pairs. *)
Lemma map_bind_combine (T U V : Type) (f : T -> Result U) (g : T -> U -> Result V)
  (l : list T) (ys : list U) :
  mapM f l = Ok ys ->
  map (fun x => y <- f x ;; g x y) l
  = map (fun tt => g (fst tt) (snd tt)) (combine l ys).
Proof.
  revert ys. induction l as [|x l IH]; intros ys H; cbn [mapM] in H.
  - inversion H. reflexivity.
  - destruct (f x) as [y|e] eqn:Hy; [|discriminate H]. cbn [bind] in H.
    destruct (mapM f l) as [ys'|e] eqn:Hys; [|discriminate H]. cbn [bind] in H.
    inversion H. subst ys. cbn [combine map fst snd]. rewrite Hy. cbn [bind].
    rewrite (IH ys' eq_refl). reflexivity.
Qed.

Lemma map_constant (T U : Type) (c : U) (l : list T) :
  map (fun _ => c) l = repeat c (List.length l).
Proof.
  induction l as [|x l IH]; cbn [map List.length repeat]; [reflexivity|].
  rewrite IH. reflexivity.
Qed.

(** X15: [load] (without parallel HDF5) of a file of another shape returns
    on no process: after [save] has written a matrix, [load] into a matrix
    with another number of columns, or with the same number of columns and
    another number of rows, throws on process 0, the one process of the 1x1
    grid, which reads the file, with the message that names the dimension;
    every other process throws nothing and waits in [send_to_inactive] for
    the process that has thrown. *)
Theorem load_refuses_other_shape (LA LB : Layout) (s sB : State) (p pB : Property)
  (Aw Bw : World ScaLAPACKMatrix) (chunk_size : Z * Z)
  (address1 context1 address2 context2 : Z) (file0 : option HDF5File) :
  Layout_valid LA -> Layout_valid LB ->
  distributed LA s p Aw -> distributed LB sB pB Bw ->
  chunk_size_allowed LA chunk_size ->
  address1 <> lay_address LA -> 0 <= context1 -> 0 <= context2 ->
  exists file,
    save false Aw chunk_size address1 context1 file0 = Ok (Some file)
    /\ (lay_n LB <> lay_n LA ->
        load_serial Bw address2 context2 (Some file)
        = Throws (ExcMessage "The number of columns of the matrix does not match the content of the archive")
          :: repeat
               (Waits (ExcMessage "The number of columns of the matrix does not match the content of the archive"))
               (Z.to_nat (lay_P LB) - 1))
    /\ (lay_n LB = lay_n LA -> lay_m LB <> lay_m LA ->
        load_serial Bw address2 context2 (Some file)
        = Throws (ExcMessage "The number of rows of the matrix does not match the content of the archive")
          :: repeat
               (Waits (ExcMessage "The number of rows of the matrix does not match the content of the archive"))
               (Z.to_nat (lay_P LB) - 1)).
Proof.
  intros HvA HvB HdA HdB Hchunk Ha1 Hc1 Hc2.
  destruct (distributed_ranked LA s p Aw HvA HdA) as [HrA _].
  destruct (distributed_ranked LB sB pB Bw HvB HdB) as [HrB _].
  destruct (gather_tmp_world LB Bw address2 context2 HvB Hc2 HrB) as [tmpw [Htmpw [HrT _]]].
  pose proof HvA as [HmbA [HmA [HnbA [HnA _]]]].
  pose proof HvB as [_ [_ [_ [_ [HR [HC [HP _]]]]]]].
  assert (HPpos : 1 <= lay_P LB) by nia.
  pose proof (proj1 HrB) as HlenB. pose proof (proj1 HrT) as HlenT.
  cbn [gather_layout lay_P] in HlenT.
  assert (HB : exists B0 Bw', Bw = B0 :: Bw').
  { destruct Bw as [|B0 Bw']; [cbn in HlenB; lia | eauto]. }
  destruct HB as [B0 [Bw' EB]].
  assert (HT : exists T0 Tw', tmpw = T0 :: Tw').
  { destruct tmpw as [|T0 Tw']; [cbn in HlenT; lia | eauto]. }
  destruct HT as [T0 [Tw' ET]].
  pose proof (proj2 HrB 0%nat B0 ltac:(rewrite EB; reflexivity)) as HlB0.
  pose proof (gather_active LB address2 context2 0 T0
                (proj2 HrT 0%nat T0 ltac:(rewrite ET; reflexivity))) as Hact0.
  (* the processes that do not read go on to the broadcast *)
  assert (Hothers : forall file tt, In tt (combine Bw' Tw') ->
             load_serial_read (fst tt) (snd tt) file = Ok (snd tt, -1, -1)).
  { intros file [B T] Hin. apply in_combine_r in Hin. cbn [fst snd].
    apply In_nth_error in Hin. destruct Hin as [k Hk].
    pose proof (gather_active LB address2 context2 (S k) T
                  (proj2 HrT (S k) T ltac:(rewrite ET; exact Hk))) as Hin.
    unfold load_serial_read. rewrite Hin. reflexivity. }
  assert (Hload : forall file msg,
             load_serial_read B0 T0 file = Throw (ExcMessage msg) ->
             load_serial Bw address2 context2 file
             = Throws (ExcMessage msg)
               :: repeat (Waits (ExcMessage msg)) (Z.to_nat (lay_P LB) - 1)).
  { intros file msg Hr. unfold load_serial, then_collective.
    rewrite (map_bind_combine _ _ _
               (fun this => load_serial_tmp this address2 context2)
               (fun this tmp => load_serial_read this tmp file) Bw tmpw)
      by (rewrite load_serial_tmp_eq; exact Htmpw).
    rewrite EB, ET. cbn [combine map mapM fst snd]. rewrite Hr. cbn [bind].
    f_equal. rewrite (map_ext_in _ _ _ (Hothers file)), map_map.
    rewrite map_constant. f_equal.
    rewrite length_combine. rewrite EB in HlenB. rewrite ET in HlenT.
    cbn [List.length] in HlenB, HlenT. lia. }
  destruct (save_serial_run LA s p Aw chunk_size address1 context1 file0
              HvA HdA Hchunk Ha1 Hc1) as [A0 [T1 [c0 [HA0 [_ [Hsave _]]]]]].
  pose proof (proj2 HrA 0%nat A0 HA0) as HlA0.
  exists (serial_file A0 T1 c0). split; [exact Hsave|].
  assert (Hread : load_serial_read B0 T0 (Some (serial_file A0 T1 c0))
                  = (AssertThrow (lay_n LA =? lay_n LB)
                       (ExcMessage "The number of columns of the matrix does not match the content of the archive") ;;;
                     AssertThrow (lay_m LA =? lay_m LB)
                       (ExcMessage "The number of rows of the matrix does not match the content of the archive") ;;;
                     let tmp1 := set_values T0
                                   (H5Dread_all (h5_matrix (serial_file A0 T1 c0)) (values T0)) in
                     sp <- read_state_and_property (serial_file A0 T1 c0) ;;
                     let tmp2 := set_property (set_state tmp1 (fst sp)) (snd sp) in
                     Ok (tmp2, State_to_int (state tmp2), Property_to_int (property tmp2)))).
  { unfold load_serial_read. rewrite Hact0.
    cbn [serial_file write_state_and_property h5_matrix_class h5_matrix_dims fst snd].
    rewrite Z.eqb_refl. cbn [AssertThrow bind].
    rewrite (hl_n_rows _ _ _ HlA0), (hl_n_columns _ _ _ HlA0).
    rewrite (hl_n_rows _ _ _ HlB0), (hl_n_columns _ _ _ HlB0).
    rewrite !to_signed_small by lia. reflexivity. }
  split.
  - intros Hne. apply Hload. rewrite Hread.
    rewrite (proj2 (Z.eqb_neq (lay_n LA) (lay_n LB))) by congruence. reflexivity.
  - intros Heq Hne. apply Hload. rewrite Hread.
    rewrite Heq, Z.eqb_refl.
    rewrite (proj2 (Z.eqb_neq (lay_m LA) (lay_m LB))) by congruence. reflexivity.
Qed.

(** X16: the matrix on the 1 x P grid that the parallel checkpoint path
    builds deals the columns in blocks of [n / P]: when the number of
    processes divides the number of columns, every process holds the one band
    of [n / P] columns that starts at [rank * (n / P)]; when it does not (and
    is not larger), process 0 holds the columns up to [n / P - 1] and next the
    column [(n / P) * P], so its columns are not one band. *)
Theorem parallel_tmp_columns (this : ScaLAPACKMatrix) (address context : Z) :
  1 <= n_rows this ->
  1 <= n_mpi_processes (grid this) <= n_columns this ->
  n_columns this < 2 ^ 31 ->
  let P := n_mpi_processes (grid this) in
  let rank := this_mpi_process (grid this) in
  (n_columns this mod P = 0 -> 0 <= rank < P ->
   exists tmp,
     parallel_tmp this address context = Ok tmp
     /\ n_local_columns tmp = n_columns this / P
     /\ forall j, 0 <= j < n_local_columns tmp ->
                  global_column tmp j = Ok (rank * n_local_columns tmp + j))
  /\ (n_columns this mod P <> 0 -> rank = 0 ->
      exists tmp,
        parallel_tmp this address context = Ok tmp
        /\ column_block_size tmp = n_columns this / P
        /\ global_column tmp (column_block_size tmp - 1) = Ok (column_block_size tmp - 1)
        /\ global_column tmp (column_block_size tmp) = Ok (column_block_size tmp * P)
        /\ column_block_size tmp < column_block_size tmp * P).
Proof.
  intros Hm HP Hn. cbv zeta. split.
  - intros Hdiv Hrank. apply parallel_tmp_bands; assumption.
  - intros Hndiv Hrank. apply parallel_tmp_wraps; assumption.
Qed.

(** ** Every position has one owner *)

(** The local sizes of an object outside the grid. *)
Lemma in_layout_inactive (L : Layout) (k : Z) (A : ScaLAPACKMatrix) :
  Layout_valid L -> in_layout L k A -> lay_R L * lay_C L <= k ->
  n_local_rows A = -1 /\ n_local_columns A = -1
  /\ mpi_process_is_active (grid A) = false.
Proof.
  intros Hv H Hk. pose proof Hv as [Hmb [Hm [Hnb [Hn [HR [HC [HP Hctx]]]]]]].
  unfold in_layout in H.
  rewrite ScaLAPACKMatrix_ctor_Ok in H by (cbn; lia).
  rewrite layout_grid_active, (proj2 (Z.ltb_ge _ _) Hk) in H.
  assert (H' : constructed_inactive (lay_m L) (lay_n L) (layout_grid L k)
                 (lay_mb L) (lay_nb L) (property A) = as_constructed A) by congruence.
  pose proof (f_equal n_local_rows H') as E1. pose proof (f_equal n_local_columns H') as E2.
  pose proof (f_equal grid H') as E3. cbn in E1, E2.
  change (layout_grid L k = grid A) in E3.
  split; [congruence|]. split; [congruence|].
  rewrite <- E3, layout_grid_active. apply Z.ltb_ge. exact Hk.
Qed.

(** X17: the block-cyclic distribution stores every position of the matrix
    once: for a distributed matrix, every position [(gi, gj)] of the shape is
    the image under [global_row] and [global_column] of a local position of an
    active process, and of one only; and [global_row] ([global_column])
    throws [ExcIndexRange] from the number of local rows (columns) on, which
    on a process outside the grid is at every index; the exception carries
    the index (an [unsigned int]) converted to [int]. *)
Theorem every_position_has_one_owner (L : Layout) (s : State) (p : Property)
  (Aw : World ScaLAPACKMatrix) :
  Layout_valid L -> distributed L s p Aw ->
  (forall gi gj, 0 <= gi < lay_m L -> 0 <= gj < lay_n L ->
     exists k A li lj,
       nth_error Aw k = Some A /\ mpi_process_is_active (grid A) = true
       /\ 0 <= li < n_local_rows A /\ 0 <= lj < n_local_columns A
       /\ global_row A li = Ok gi /\ global_column A lj = Ok gj)
  /\ (forall k k' A A' li lj li' lj' gi gj,
        nth_error Aw k = Some A -> nth_error Aw k' = Some A' ->
        0 <= li -> 0 <= lj -> 0 <= li' -> 0 <= lj' ->
        global_row A li = Ok gi -> global_column A lj = Ok gj ->
        global_row A' li' = Ok gi -> global_column A' lj' = Ok gj ->
        k = k' /\ li = li' /\ lj = lj'
        /\ 0 <= gi < lay_m L /\ 0 <= gj < lay_n L)
  /\ (forall k A i, nth_error Aw k = Some A -> 0 <= i < 2 ^ 32 ->
        (mpi_process_is_active (grid A) = true -> n_local_rows A <= i ->
         global_row A i = Throw (ExcIndexRange (to_signed i) 0 (n_local_rows A)))
        /\ (mpi_process_is_active (grid A) = true -> n_local_columns A <= i ->
            global_column A i
            = Throw (ExcIndexRange (to_signed i) 0 (n_local_columns A)))
        /\ (mpi_process_is_active (grid A) = false ->
            global_row A i = Throw (ExcIndexRange (to_signed i) 0 (-1))
            /\ global_column A i = Throw (ExcIndexRange (to_signed i) 0 (-1)))).
Proof.
  intros Hv Hd. destruct (distributed_ranked L s p Aw Hv Hd) as [Hrk _].
  pose proof Hv as [Hmb [Hm [Hnb [Hn [HR [HC [HP Hctx]]]]]]].
  assert (Hactive : forall k A, nth_error Aw k = Some A ->
            forall li g, global_row A li = Ok g \/ global_column A li = Ok g ->
            0 <= Z.of_nat k < lay_R L * lay_C L).
  { intros k A HA li g Hg. split; [lia|].
    destruct (Z_lt_le_dec (Z.of_nat k) (lay_R L * lay_C L)) as [Hk|Hk]; [exact Hk|].
    exfalso.
    destruct (Forall2_nth_error _ _ _ _ _ Hd) as [_ Hn1].
    destruct (Hn1 k A HA) as [rk [Hrk' [Hil _]]].
    apply nth_error_zrange in Hrk'. destruct Hrk' as [-> _].
    destruct (in_layout_inactive L (Z.of_nat k) A Hv Hil Hk) as [E1 [E2 _]].
    destruct Hg as [Hg|Hg].
    - unfold global_row in Hg. rewrite E1 in Hg. discriminate Hg.
    - unfold global_column in Hg. rewrite E2 in Hg. discriminate Hg. }
  split; [|split].
  - intros gi gj Hgi Hgj.
    destruct (owner_object L Aw gi gj Hv Hrk Hgi Hgj)
      as [A [HA [_ [Hact [_ [_ [Hli [Hlj [Hrow Hcol]]]]]]]]].
    exists (Z.to_nat (owner_rank L gi gj)), A, (local_row L gi), (local_column L gj).
    repeat split; try assumption; lia.
  - intros k k' A A' li lj li' lj' gi gj HA HA' Hli Hlj Hli' Hlj' Hr Hc Hr' Hc'.
    pose proof (Hactive k A HA li gi (or_introl Hr)) as Hk.
    pose proof (Hactive k' A' HA' li' gi (or_introl Hr')) as Hk'.
    destruct (global_row_position L _ A li gi Hv (proj2 Hrk k A HA) Hk Hli Hr)
      as [Hgi [Hor Hlr]].
    destruct (global_column_position L _ A lj gj Hv (proj2 Hrk k A HA) Hk Hlj Hc)
      as [Hgj [Hoc Hlc]].
    destruct (global_row_position L _ A' li' gi Hv (proj2 Hrk k' A' HA') Hk' Hli' Hr')
      as [_ [Hor' Hlr']].
    destruct (global_column_position L _ A' lj' gj Hv (proj2 Hrk k' A' HA') Hk' Hlj' Hc')
      as [_ [Hoc' Hlc']].
    pose proof (rank_of_coordinates (lay_R L) (Z.of_nat k) _ _ HR Hor Hoc) as E.
    pose proof (rank_of_coordinates (lay_R L) (Z.of_nat k') _ _ HR Hor' Hoc') as E'.
    repeat split; try lia; congruence.
  - intros k A i HA Hi.
    destruct (Forall2_nth_error _ _ _ _ _ Hd) as [_ Hn1].
    destruct (Hn1 k A HA) as [rk [Hrk' [Hil _]]].
    apply nth_error_zrange in Hrk'. destruct Hrk' as [-> _].
    pose proof (proj2 Hrk k A HA) as Hl.
    split; [|split].
    + intros Hact Hge. rewrite (hl_grid _ _ _ Hl), layout_grid_active in Hact.
      apply Z.ltb_lt in Hact.
      destruct (has_layout_local_sizes L (Z.of_nat k) A Hv Hl ltac:(lia)) as [Hnlr _].
      unfold global_row. rewrite (to_unsigned_small (n_local_rows A)) by lia.
      rewrite (proj2 (Z.ltb_ge i (n_local_rows A))) by lia.
      rewrite andb_false_r. reflexivity.
    + intros Hact Hge. rewrite (hl_grid _ _ _ Hl), layout_grid_active in Hact.
      apply Z.ltb_lt in Hact.
      destruct (has_layout_local_sizes L (Z.of_nat k) A Hv Hl ltac:(lia)) as [_ [Hnlc _]].
      unfold global_column. rewrite (to_unsigned_small (n_local_columns A)) by lia.
      rewrite (proj2 (Z.ltb_ge i (n_local_columns A))) by lia.
      rewrite andb_false_r. reflexivity.
    + intros Hact. rewrite (hl_grid _ _ _ Hl), layout_grid_active in Hact.
      apply Z.ltb_ge in Hact.
      destruct (in_layout_inactive L (Z.of_nat k) A Hv Hil Hact) as [E1 [E2 _]].
      unfold global_row, global_column. rewrite E1, E2. split; reflexivity.
Qed.

(** ** What the eigenvalue functions refuse *)

Section EigenpairsRefusals.

Variable psyev :
  ascii -> ascii -> Z -> list Number -> Z -> Z -> list Z -> list Number ->
  option (list Number) -> Z -> Z -> list Z -> list Number -> Z -> psyev_out.

Variable psyevx :
  ascii -> ascii -> ascii -> Z -> list Number -> Z -> Z -> list Z ->
  Number -> Number -> Z -> Z -> Number -> Z -> Z -> list Number -> Number ->
  option (list Number) -> Z -> Z -> list Z ->
  list Number -> Z -> list Z -> Z -> list Z -> list Z -> list Number -> psyevx_out.

Variable plamch : Z -> ascii -> Number.

(** X18: what the eigenvalue functions refuse, in the order of their checks:
    [eigenpairs_symmetric] a state other than [matrix], then a property other
    than [symmetric], then an index range together with a value range;
    [eigenpairs_symmetric_by_index] an index that is not below the number of
    rows (the first one first), with the index converted to [int] in the
    exception; [eigenpairs_symmetric_by_value] a limit that is NaN (the first
    one first).  The full index range [(0, n - 1)] is the
    request for all eigenpairs, with no range at all. *)
Theorem eigenpairs_symmetric_refusals (this : ScaLAPACKMatrix)
  (m_of_all : World (ProcessGrid * Z)) (ev_of_all : World (ProcessGrid * list Number))
  (compute_eigenvectors : bool) :
  (forall eigenvalue_idx eigenvalue_limits,
      state this <> matrix ->
      eigenpairs_symmetric psyev psyevx plamch this m_of_all ev_of_all
        compute_eigenvectors eigenvalue_idx eigenvalue_limits
      = Throw (ExcMessage "Matrix has to be in Matrix state before calling this function."))
  /\ (forall eigenvalue_idx eigenvalue_limits,
         state this = matrix -> property this <> symmetric ->
         eigenpairs_symmetric psyev psyevx plamch this m_of_all ev_of_all
           compute_eigenvectors eigenvalue_idx eigenvalue_limits
         = Throw (ExcMessage "Matrix has to be symmetric for this operation."))
  /\ (forall eigenvalue_idx eigenvalue_limits,
         state this = matrix -> property this = symmetric ->
         is_nan (fst eigenvalue_limits) = false -> is_nan (snd eigenvalue_limits) = false ->
         fst eigenvalue_idx <> invalid_unsigned_int ->
         snd eigenvalue_idx <> invalid_unsigned_int ->
         eigenpairs_symmetric psyev psyevx plamch this m_of_all ev_of_all
           compute_eigenvectors eigenvalue_idx eigenvalue_limits
         = Throw (ExcMessage
                    "Prescribing both the index and value range for the eigenvalues is ambiguous"))
  /\ (forall a b,
         to_unsigned (n_rows this) <= a ->
         eigenpairs_symmetric_by_index psyev psyevx plamch this m_of_all ev_of_all
           (a, b) compute_eigenvectors
         = Throw (ExcIndexRange (to_signed a) 0 (n_rows this)))
  /\ (forall a b,
         a < to_unsigned (n_rows this) -> to_unsigned (n_rows this) <= b ->
         eigenpairs_symmetric_by_index psyev psyevx plamch this m_of_all ev_of_all
           (a, b) compute_eigenvectors
         = Throw (ExcIndexRange (to_signed b) 0 (n_rows this)))
  /\ (forall x y,
         is_nan x = true ->
         eigenpairs_symmetric_by_value psyev psyevx plamch this m_of_all ev_of_all
           (x, y) compute_eigenvectors
         = Throw (ExcMessage "value_limits.first is NaN"))
  /\ (forall x y,
         is_nan x = false -> is_nan y = true ->
         eigenpairs_symmetric_by_value psyev psyevx plamch this m_of_all ev_of_all
           (x, y) compute_eigenvectors
         = Throw (ExcMessage "value_limits.second is NaN"))
  /\ (1 <= n_rows this < 2 ^ 32 ->
      eigenpairs_symmetric_by_index psyev psyevx plamch this m_of_all ev_of_all
        (0, n_rows this - 1) compute_eigenvectors
      = eigenpairs_symmetric psyev psyevx plamch this m_of_all ev_of_all
          compute_eigenvectors (invalid_unsigned_int, invalid_unsigned_int)
          (quiet_NaN, quiet_NaN)).
Proof.
  repeat split.
  - intros idx lim Hs. unfold eigenpairs_symmetric.
    destruct (State_eqb (state this) matrix) eqn:E; [|reflexivity].
    apply State_eqb_eq in E. contradiction.
  - intros idx lim Hs Hp. unfold eigenpairs_symmetric. rewrite Hs.
    destruct (Property_eqb (property this) symmetric) eqn:E; [|reflexivity].
    apply Property_eqb_eq in E. contradiction.
  - intros idx lim Hs Hp H1 H2 H3 H4. unfold eigenpairs_symmetric. rewrite Hs, Hp, H1, H2.
    rewrite (proj2 (Z.eqb_neq _ _) H3), (proj2 (Z.eqb_neq _ _) H4). reflexivity.
  - intros a b Ha. unfold eigenpairs_symmetric_by_index. cbn [fst snd].
    rewrite (proj2 (Z.ltb_ge a (to_unsigned (n_rows this)))) by lia. reflexivity.
  - intros a b Ha Hb. unfold eigenpairs_symmetric_by_index. cbn [fst snd].
    rewrite (proj2 (Z.ltb_lt a (to_unsigned (n_rows this)))) by lia.
    rewrite (proj2 (Z.ltb_ge b (to_unsigned (n_rows this)))) by lia.
    reflexivity.
  - intros x y Hx. unfold eigenpairs_symmetric_by_value. cbn [fst snd].
    rewrite Hx. reflexivity.
  - intros x y Hx Hy. unfold eigenpairs_symmetric_by_value. cbn [fst snd].
    rewrite Hx, Hy. reflexivity.
  - intros Hn. unfold eigenpairs_symmetric_by_index. cbn [fst snd].
    rewrite (to_unsigned_small (n_rows this)) by lia.
    rewrite (to_unsigned_small (n_rows this - 1)) by lia.
    rewrite (proj2 (Z.ltb_lt 0 _)) by lia. rewrite (proj2 (Z.ltb_lt (n_rows this - 1) _)) by lia.
    cbn [Assert bind]. unfold std_min, std_max.
    destruct (Z.ltb_spec (n_rows this - 1) 0) as [H|H]; [lia|].
    destruct (Z.ltb_spec 0 (n_rows this - 1)) as [H'|H']; cbn [fst snd].
    + rewrite !Z.eqb_refl. reflexivity.
    + replace (n_rows this - 1) with 0 by lia. reflexivity.
Qed.

End EigenpairsRefusals.

(** ** Addition of a multiple *)

(** The world [add] leaves is in the layout of A. *)
Lemma added_distributed (LA LB : Layout) (sA : State) (pA : Property)
  (Aw Bw : World ScaLAPACKMatrix) (alpha beta : Number) (transpose_B : bool) :
  Layout_valid LA -> distributed LA sA pA Aw -> ranked LB Bw -> lay_P LB = lay_P LA ->
  distributed LA matrix pA
    (map (fun tt => added (fst tt) Bw (snd tt) alpha beta transpose_B) (combine Aw Bw)).
Proof.
  intros Hv Hd HrB HP. destruct (distributed_ranked LA sA pA Aw Hv Hd) as [HrA _].
  unfold distributed in *. destruct (Forall2_nth_error _ _ _ _ _ Hd) as [Hl1 Hn1].
  apply Forall2_nth_error_intro.
  - rewrite length_map, length_combine, (proj1 HrA), (proj1 HrB), HP, Nat.min_id.
    rewrite <- (proj1 HrA). exact Hl1.
  - intros k rk A' Hrk' HA'.
    apply nth_error_map_inv in HA'. destruct HA' as [[A B] [HAB ->]].
    apply nth_error_combine_inv in HAB. destruct HAB as [HA HB]. cbn [fst snd].
    destruct (Hn1 k A HA) as [rk' [Hrk'' [Hil [Hs Hp]]]].
    rewrite Hrk' in Hrk''. inversion Hrk''. subst rk'.
    unfold added. destruct (mpi_process_is_active (grid A)).
    + split; [|split; [reflexivity | exact Hp]].
      apply in_layout_update; [exact Hil|].
      unfold pgeadd. rewrite length_map_zrange. reflexivity.
    + split; [|split; [reflexivity | exact Hp]].
      apply in_layout_set_state. exact Hil.
Qed.

(** X19: [add (a, B)] and [Tadd (a, B)], for A and B on one grid with the
    shapes and block sizes [add] asserts, return on every process, keep layout
    and property of A, set its state to [matrix] and leave at every position
    exactly [A(i,j) + a * B(i,j)], respectively [A(i,j) + a * B(j,i)], of the
    old entries.  The number type needs only that one is neutral for the
    product. *)
Theorem add_scaled_adds_multiple
  (LA LB : Layout) (sA sB : State) (pA pB : Property)
  (Aw Bw : World ScaLAPACKMatrix) (a : Number) (transpose_B : bool) :
  (forall x : Number, times (of_int 1) x = x) ->
  Layout_valid LA -> Layout_valid LB ->
  distributed LA sA pA Aw -> distributed LB sB pB Bw ->
  same_grid LB LA ->
  add_compatible transpose_B LA LB ->
  exists Aw',
    mapM (fun tt => (if transpose_B then Tadd else add_scaled) (fst tt) a Bw (snd tt))
      (combine Aw Bw) = Ok Aw'
    /\ distributed LA matrix pA Aw'
    /\ forall gi gj va vb,
         entry Aw gi gj va ->
         entry Bw (fst (op_position transpose_B gi gj))
           (snd (op_position transpose_B gi gj)) vb ->
         forall v, entry Aw' gi gj v <-> v = plus va (times a vb).
Proof.
  intros H1 HvA HvB HdA HdB [Haddr [HR [HC [HP _]]]] Hcompat.
  destruct (distributed_ranked LA sA pA Aw HvA HdA) as [HrA _].
  destruct (distributed_ranked LB sB pB Bw HvB HdB) as [HrB _].
  exists (map (fun tt => added (fst tt) Bw (snd tt) (of_int 1) a transpose_B) (combine Aw Bw)).
  pose proof (added_distributed LA LB sA pA Aw Bw (of_int 1) a transpose_B HvA HdA HrB HP)
    as Hd'.
  destruct (distributed_ranked LA matrix pA _ HvA Hd') as [HrA' _].
  split; [|split; [exact Hd'|]].
  - apply mapM_Ok_intro. intros [A B] Hin. cbn [fst snd].
    destruct (ranked_combine LA LB Aw Bw A B HrA HrB Hin) as [k [_ [_ [HlA HlB]]]].
    destruct transpose_B; unfold Tadd, add_scaled;
      apply (add_Ok LA LB (Z.of_nat k)); assumption.
  - intros gi gj va vb Ha Hb v.
    destruct (entry_unique LA Aw gi gj va HvA HrA Ha) as [Hgi [Hgj ->]].
    destruct (entry_unique LB Bw _ _ vb HvB HrB Hb) as [_ [_ ->]].
    pose proof (added_entry LA LB Aw Bw (of_int 1) a transpose_B gi gj
                  HvA HvB HrA HrB HP Hcompat Hgi Hgj) as He.
    rewrite H1 in He.
    split.
    + intros Hv. destruct (entry_unique LA _ gi gj v HvA HrA' Hv) as [_ [_ ->]].
      destruct (entry_unique LA _ gi gj _ HvA HrA' He) as [_ [_ Hu]].
      symmetry. exact Hu.
    + intros ->. exact He.
Qed.

(** ** The parallel checkpoint path: the file and the round trip *)

Lemma zrange_snoc (lo hi : Z) : lo <= hi -> zrange lo (hi + 1) = zrange lo hi ++ [hi].
Proof.
  intros H. unfold zrange.
  replace (Z.to_nat (hi + 1 - lo)) with (S (Z.to_nat (hi - lo))) by lia.
  rewrite seq_S, map_app. cbn [map]. f_equal. f_equal. lia.
Qed.

Lemma for_loop_snoc (S : Type) (lo hi : Z) (body : Z -> S -> S) (s : S) :
  lo <= hi -> for_loop lo (hi + 1) body s = body hi (for_loop lo hi body s).
Proof.
  intros H. unfold for_loop. rewrite zrange_snoc by exact H.
  rewrite fold_left_app. reflexivity.
Qed.

Lemma slab_start_0 (cols : list Z) : slab_start cols 0 = 0.
Proof. reflexivity. Qed.

Lemma slab_start_succ (cols : list Z) (r : Z) :
  0 <= r -> slab_start cols (r + 1) = slab_start cols r + nth (Z.to_nat r) cols 0.
Proof.
  intros H. unfold slab_start, hyperslab_offset. cbn [fst].
  rewrite for_loop_snoc by exact H. reflexivity.
Qed.

(** The starts of the hyperslabs grow with the rank. *)
Lemma slab_start_mono (cols : list Z) (r r' : Z) :
  (forall k, 0 <= nth k cols 0) -> 0 <= r <= r' ->
  slab_start cols r <= slab_start cols r'.
Proof.
  intros Hcols [Hr Hrr'].
  replace r' with (r + Z.of_nat (Z.to_nat (r' - r))) by lia.
  induction (Z.to_nat (r' - r)) as [|d IH].
  - rewrite Z.add_0_r. lia.
  - rewrite Nat2Z.inj_succ. unfold Z.succ. rewrite Z.add_assoc.
    rewrite slab_start_succ by lia.
    specialize (Hcols (Z.to_nat (r + Z.of_nat d))). lia.
Qed.

(** The blocks that [numroc_] deals to the processes add up to the whole:
    the sum over the ranks below [r], in closed form. *)
Lemma numroc_prefix (n nb P r : Z) :
  0 <= n -> 1 <= nb -> 1 <= P -> 0 <= r <= P ->
  for_loop 0 r (fun i acc => acc + numroc_ n nb i 0 P) 0
  = r * ((n / nb / P) * nb) + nb * Z.min r ((n / nb) mod P)
    + (if (n / nb) mod P <? r then n mod nb else 0).
Proof.
  intros Hn Hnb HP [Hr0 HrP].
  pose proof (Z.mod_pos_bound (n / nb) P ltac:(lia)) as Hextra.
  replace r with (Z.of_nat (Z.to_nat r)) in * by lia.
  induction (Z.to_nat r) as [|d IH].
  - cbn [Z.of_nat]. rewrite for_loop_empty by lia.
    destruct (Z.ltb_spec ((n / nb) mod P) 0); lia.
  - rewrite Nat2Z.inj_succ in *. unfold Z.succ in *.
    rewrite for_loop_snoc by lia. rewrite IH by lia.
    unfold numroc_. rewrite Z.sub_0_r.
    replace ((P + Z.of_nat d) mod P) with (Z.of_nat d)
      by (rewrite <- Z.add_mod_idemp_l, Z.mod_same, Z.add_0_l, Z.mod_small by lia;
          reflexivity).
    destruct (Z.ltb_spec ((n / nb) mod P) (Z.of_nat d));
      destruct (Z.ltb_spec ((n / nb) mod P) (Z.of_nat d + 1));
      destruct (Z.ltb_spec (Z.of_nat d) ((n / nb) mod P));
      destruct (Z.eqb_spec (Z.of_nat d) ((n / nb) mod P)); try lia.
    all: repeat match goal with
           | |- context [Z.min ?a ?b] =>
               first [rewrite (Z.min_l a b) by lia | rewrite (Z.min_r a b) by lia]
           end; lia.
Qed.

Lemma numroc_total (n nb P : Z) :
  0 <= n -> 1 <= nb -> 1 <= P ->
  for_loop 0 P (fun i acc => acc + numroc_ n nb i 0 P) 0 = n.
Proof.
  intros Hn Hnb HP. rewrite numroc_prefix by lia.
  pose proof (Z.mod_pos_bound (n / nb) P ltac:(lia)) as Hextra.
  destruct (Z.ltb_spec ((n / nb) mod P) P); [|lia].
  rewrite Z.min_r by lia.
  pose proof (Z.div_mod (n / nb) P ltac:(lia)) as H1.
  pose proof (Z.div_mod n nb ltac:(lia)) as H2. nia.
Qed.

Lemma numroc_nonneg (n nb i P : Z) :
  0 <= n -> 1 <= nb -> 1 <= P -> 0 <= numroc_ n nb i 0 P.
Proof.
  intros Hn Hnb HP. unfold numroc_.
  pose proof (Z.mod_pos_bound n nb ltac:(lia)).
  assert (0 <= n / nb / P * nb).
  { apply Z.mul_nonneg_nonneg; [|lia]. apply Z.div_pos; [|lia]. apply Z.div_pos; lia. }
  destruct (_ <? _); [lia|]. destruct (_ =? _); lia.
Qed.

(** ** Hyperslabs of whole rows *)

Lemma row_major_div (r c m : Z) : 0 <= c < m -> (r * m + c) / m = r.
Proof.
  intros H. rewrite Z.add_comm, Z.div_add by lia. rewrite Z.div_small by lia. lia.
Qed.

Lemma row_major_mod (r c m : Z) : 0 <= c < m -> (r * m + c) mod m = c.
Proof.
  intros H. rewrite Z.add_comm, Z.mod_add by lia. apply Z.mod_small. exact H.
Qed.

Lemma H5Dwrite_hyperslab_length (data : list Number) (dims offset count : Z * Z)
  (buffer : list Number) :
  List.length (H5Dwrite_hyperslab data dims offset count buffer) = List.length data.
Proof. unfold H5Dwrite_hyperslab. apply length_map_zrange. Qed.

(** Writing the rows from [o] on: the rows of the hyperslab come from the
    buffer, the others stay. *)
Lemma H5Dwrite_hyperslab_rows (data buffer : list Number) (n m o c r j : Z) :
  List.length data = Z.to_nat (n * m) ->
  0 <= r < n -> 0 <= j < m ->
  nth (Z.to_nat (r * m + j)) (H5Dwrite_hyperslab data (n, m) (o, 0) (c, m) buffer) (of_int 0)
  = if (o <=? r) && (r <? o + c)
    then nth (Z.to_nat ((r - o) * m + j)) buffer (of_int 0)
    else nth (Z.to_nat (r * m + j)) data (of_int 0).
Proof.
  intros Hlen Hr Hj. unfold H5Dwrite_hyperslab. cbn [fst snd].
  rewrite Hlen. rewrite Z2Nat.id by nia.
  rewrite nth_map_zrange by nia.
  rewrite row_major_div, row_major_mod by lia.
  replace (0 <=? j) with true by (symmetry; apply Z.leb_le; lia).
  replace (j <? 0 + m) with true by (symmetry; apply Z.ltb_lt; lia).
  rewrite !andb_true_r. rewrite Z.sub_0_r. reflexivity.
Qed.

Lemma H5Dread_hyperslab_length (data : list Number) (dims offset count : Z * Z)
  (buffer : list Number) :
  List.length (H5Dread_hyperslab data dims offset count buffer) = List.length buffer.
Proof. unfold H5Dread_hyperslab. apply length_map_zrange. Qed.

(** Reading the rows from [o] on into a buffer of just their size. *)
Lemma H5Dread_hyperslab_rows (data buffer : list Number) (n m o c k : Z) :
  List.length buffer = Z.to_nat (c * m) -> 0 <= k < c * m -> 1 <= m ->
  nth (Z.to_nat k) (H5Dread_hyperslab data (n, m) (o, 0) (c, m) buffer) (of_int 0)
  = nth (Z.to_nat ((o + k / m) * m + k mod m)) data (of_int 0).
Proof.
  intros Hlen Hk Hm. unfold H5Dread_hyperslab, hyperslab_position. cbn [fst snd].
  rewrite Hlen. rewrite Z2Nat.id by lia.
  rewrite nth_map_zrange by lia.
  replace (k <? c * m) with true by (symmetry; apply Z.ltb_lt; lia).
  rewrite Z.add_0_l. reflexivity.
Qed.

(** ** The matrix on the 1 x P grid *)

Lemma band_layout_valid (L : Layout) (address context : Z) :
  Layout_valid L -> 0 <= context -> lay_P L <= lay_n L ->
  Layout_valid (band_layout L address context).
Proof.
  intros [Hmb [Hm [Hnb [Hn [HR [HC [HP Hctx]]]]]]] Hc HPn.
  assert (HP1 : 1 <= lay_P L) by nia.
  unfold Layout_valid, band_layout.
  cbn [lay_m lay_n lay_mb lay_nb lay_R lay_C lay_P lay_context].
  assert (1 <= lay_n L / lay_P L) by (apply Z.div_le_lower_bound; lia).
  assert (lay_n L / lay_P L <= lay_n L) by (apply Z.div_le_upper_bound; nia).
  lia.
Qed.

(** Every process builds its object of the matrix on the 1 x P grid. *)
Lemma parallel_tmp_world (L : Layout) (Aw : World ScaLAPACKMatrix) (address context : Z) :
  Layout_valid L -> 0 <= context -> lay_P L <= lay_n L -> ranked L Aw ->
  exists tmpw,
    mapM (fun this => parallel_tmp this address context) Aw = Ok tmpw
    /\ ranked (band_layout L address context) tmpw
    /\ (forall k T, nth_error tmpw k = Some T -> state T = matrix /\ property T = general).
Proof.
  intros Hv Hc HPn Hrk.
  pose proof (band_layout_valid L address context Hv Hc HPn) as Hvt.
  pose proof Hv as [Hmb [Hm [Hnb [Hn [HR [HC [HP Hctx]]]]]]].
  assert (HP1 : 1 <= lay_P L) by nia.
  assert (Hctor : forall k A, nth_error Aw k = Some A ->
             parallel_tmp A address context
             = ScaLAPACKMatrix_ctor (lay_m L) (lay_n L)
                 (layout_grid (band_layout L address context) (Z.of_nat k))
                 (lay_m L) (lay_n L / lay_P L) general).
  { intros k A HA. pose proof (proj2 Hrk k A HA) as Hl. unfold parallel_tmp.
    rewrite (hl_grid _ _ _ Hl), (hl_n_rows _ _ _ Hl), (hl_n_columns _ _ _ Hl).
    cbn [layout_grid make_ProcessGrid n_mpi_processes mpi_communicator this_mpi_process].
    rewrite (to_unsigned_small (lay_P L)), (to_unsigned_small (lay_n L)) by lia.
    rewrite to_signed_small; [reflexivity|].
    assert (0 <= lay_n L / lay_P L) by (apply Z.div_pos; lia).
    assert (lay_n L / lay_P L <= lay_n L) by (apply Z.div_le_upper_bound; nia).
    lia. }
  destruct (mapM_Ok_exists _ _ (fun this => parallel_tmp this address context) Aw)
    as [tmpw Htmp].
  { intros A Hin. apply In_nth_error in Hin. destruct Hin as [k HA].
    rewrite (Hctor k A HA).
    destruct Hvt as [Hmb' [_ [Hnb' _]]].
    cbn [band_layout lay_m lay_n lay_mb lay_nb] in Hmb', Hnb'.
    rewrite ScaLAPACKMatrix_ctor_Ok; [eexists; reflexivity | | | |]; cbn; lia. }
  exists tmpw. split; [exact Htmp|].
  destruct (mapM_Ok_nth _ _ _ _ _ Htmp) as [Hlen Hnth].
  assert (Hall : forall k T, nth_error tmpw k = Some T ->
             has_layout (band_layout L address context) (Z.of_nat k) T
             /\ state T = matrix /\ property T = general).
  { intros k T HT. destruct (Hnth k T HT) as [A [HA Hrun]].
    rewrite (Hctor k A HA) in Hrun.
    apply (ctor_has_layout (band_layout L address context)); assumption. }
  split; [split|].
  - rewrite Hlen. exact (proj1 Hrk).
  - intros k T HT. apply (Hall k T HT).
  - intros k T HT. apply (Hall k T HT).
Qed.

(** An object of the matrix on the 1 x P grid: every process is active and
    holds whole columns. *)
Lemma band_object (L : Layout) (address context : Z) (Tw : World ScaLAPACKMatrix)
  (k : nat) (T : ScaLAPACKMatrix) :
  Layout_valid L -> 0 <= context -> lay_P L <= lay_n L ->
  ranked (band_layout L address context) Tw -> nth_error Tw k = Some T ->
  0 <= Z.of_nat k < lay_P L
  /\ this_mpi_process (grid T) = Z.of_nat k
  /\ n_rows T = lay_m L /\ n_columns T = lay_n L
  /\ n_local_rows T = lay_m L
  /\ table_n_rows T = lay_m L
  /\ n_local_columns T
     = numroc_ (lay_n L) (lay_n L / lay_P L) (Z.of_nat k) 0 (lay_P L)
  /\ List.length (values T) = Z.to_nat (n_local_columns T * lay_m L).
Proof.
  intros Hv Hc HPn Hrk HT.
  pose proof Hv as [Hmb [Hm [Hnb [Hn [HR [HC [HP Hctx]]]]]]].
  pose proof (proj2 Hrk k T HT) as Hl.
  assert (Hk : 0 <= Z.of_nat k < lay_P L).
  { split; [lia|]. pose proof (proj1 Hrk) as Hlen. cbn [band_layout lay_P] in Hlen.
    assert (k < List.length Tw)%nat by (apply nth_error_Some; congruence). lia. }
  destruct (hl_active _ _ _ Hl ltac:(cbn [band_layout lay_R lay_C]; lia))
    as [Hnlr [Hnlc [Htab [_ Hlen]]]].
  cbn [band_layout lay_m lay_n lay_mb lay_nb lay_R lay_C] in Hnlr, Hnlc.
  rewrite Z.mod_1_r in Hnlr. rewrite Z.div_1_r in Hnlc.
  rewrite numroc_whole in Hnlr by lia.
  split; [exact Hk|].
  split; [rewrite (hl_grid _ _ _ Hl); reflexivity|].
  split; [exact (hl_n_rows _ _ _ Hl)|]. split; [exact (hl_n_columns _ _ _ Hl)|].
  split; [exact Hnlr|]. split; [congruence|]. split; [exact Hnlc|].
  rewrite Hlen, Hnlr. f_equal. lia.
Qed.

(** The numbers of local columns gathered from the objects on the 1 x P
    grid: the hyperslabs lie one after the other within the dataset. *)
Lemma band_slabs (L : Layout) (address context : Z) (Tw : World ScaLAPACKMatrix) :
  Layout_valid L -> 0 <= context -> lay_P L <= lay_n L ->
  ranked (band_layout L address context) Tw ->
  let cols := map n_local_columns Tw in
  (forall k, 0 <= nth k cols 0)
  /\ (forall k T, nth_error Tw k = Some T -> nth k cols 0 = n_local_columns T)
  /\ (forall r, 0 <= r <= lay_P L -> 0 <= slab_start cols r <= lay_n L)
  /\ (forall k T, nth_error Tw k = Some T ->
        slab_start cols (Z.of_nat k) + n_local_columns T <= lay_n L)
  /\ (forall r, 0 <= r <= lay_P L ->
        slab_start cols r
        = for_loop 0 r
            (fun i acc => acc + numroc_ (lay_n L) (lay_n L / lay_P L) i 0 (lay_P L)) 0).
Proof.
  intros Hv Hc HPn Hrk cols.
  pose proof Hv as [Hmb [Hm [Hnb [Hn [HR [HC [HP Hctx]]]]]]].
  assert (HP1 : 1 <= lay_P L) by nia.
  assert (Hnb1 : 1 <= lay_n L / lay_P L) by (apply Z.div_le_lower_bound; lia).
  assert (Hnth : forall k T, nth_error Tw k = Some T -> nth k cols 0 = n_local_columns T).
  { intros k T HT. unfold cols.
    rewrite (nth_indep _ 0 (n_local_columns T))
      by (rewrite length_map; apply nth_error_Some; congruence).
    rewrite map_nth. f_equal. apply nth_error_nth. exact HT. }
  assert (Hcol : forall k, (k < List.length Tw)%nat ->
             nth k cols 0
             = numroc_ (lay_n L) (lay_n L / lay_P L) (Z.of_nat k) 0 (lay_P L)).
  { intros k Hk. destruct (nth_error Tw k) as [T|] eqn:HT.
    - rewrite (Hnth k T HT).
      apply (band_object L address context Tw k T Hv Hc HPn Hrk HT).
    - apply nth_error_None in HT. lia. }
  assert (Hpos : forall k, 0 <= nth k cols 0).
  { intros k. destruct (Nat.lt_ge_cases k (List.length Tw)) as [Hk|Hk].
    - rewrite (Hcol k Hk). apply numroc_nonneg; lia.
    - rewrite nth_overflow by (unfold cols; rewrite length_map; exact Hk). lia. }
  assert (Hlen : List.length Tw = Z.to_nat (lay_P L)) by exact (proj1 Hrk).
  assert (Hsum : forall r, 0 <= r <= lay_P L ->
             slab_start cols r
             = for_loop 0 r
                 (fun i acc => acc + numroc_ (lay_n L) (lay_n L / lay_P L) i 0 (lay_P L)) 0).
  { intros r Hr. unfold slab_start, hyperslab_offset. cbn [fst].
    apply for_loop_ext. intros i x Hi. f_equal.
    rewrite (Hcol (Z.to_nat i)) by lia. rewrite Z2Nat.id by lia. reflexivity. }
  assert (Htotal : slab_start cols (lay_P L) = lay_n L).
  { rewrite Hsum by lia. apply numroc_total; lia. }
  split; [exact Hpos|]. split; [exact Hnth|]. split; [|split].
  - intros r Hr. split.
    + rewrite <- (slab_start_0 cols). apply slab_start_mono; [exact Hpos | lia].
    + rewrite <- Htotal. apply slab_start_mono; [exact Hpos | lia].
  - intros k T HT.
    assert (Hk : (k < List.length Tw)%nat) by (apply nth_error_Some; congruence).
    rewrite <- (Hnth k T HT).
    replace (nth k cols 0) with (nth (Z.to_nat (Z.of_nat k)) cols 0)
      by (rewrite Nat2Z.id; reflexivity).
    rewrite <- slab_start_succ by lia.
    rewrite <- Htotal. apply slab_start_mono; [exact Hpos | lia].
  - exact Hsum.
Qed.

Lemma firstn_snoc (T : Type) (l : list T) (j : nat) (x : T) :
  nth_error l j = Some x -> firstn (S j) l = firstn j l ++ [x].
Proof.
  revert j. induction l as [|a l IH]; intros [|j] H; cbn in H; try discriminate H.
  - inversion H. reflexivity.
  - cbn [firstn app]. f_equal. apply IH. exact H.
Qed.

(** The dataset after every process has written its hyperslab: the columns
    of the process of rank [k] are the rows of the dataset from
    [slab_start cols k] on. *)
Lemma parallel_write_world (L : Layout) (address context : Z)
  (Tw : World ScaLAPACKMatrix) (data0 : list Number) :
  Layout_valid L -> 0 <= context -> lay_P L <= lay_n L ->
  ranked (band_layout L address context) Tw ->
  List.length data0 = Z.to_nat (lay_n L * lay_m L) ->
  let cols := map n_local_columns Tw in
  let data :=
    fold_left
      (fun d tmp =>
         let my_rank := this_mpi_process (grid tmp) in
         let count := (n_local_columns tmp, n_rows tmp) in
         let offset := hyperslab_offset cols my_rank in
         if 0 <? Z.of_nat (List.length (values tmp))
         then H5Dwrite_hyperslab d (lay_n L, lay_m L) offset count (values tmp)
         else d)
      Tw data0 in
  List.length data = Z.to_nat (lay_n L * lay_m L)
  /\ forall k T lc li,
       nth_error Tw k = Some T -> 0 <= lc < n_local_columns T -> 0 <= li < lay_m L ->
       nth (Z.to_nat ((slab_start cols (Z.of_nat k) + lc) * lay_m L + li)) data (of_int 0)
       = nth (Z.to_nat (lc * lay_m L + li)) (values T) (of_int 0).
Proof.
  intros Hv Hc HPn Hrk Hlen0 cols.
  pose proof Hv as [Hmb [Hm [Hnb [Hn [HR [HC [HP Hctx]]]]]]].
  destruct (band_slabs L address context Tw Hv Hc HPn Hrk) as [Hpos [Hnth [Hstart [Hend _]]]].
  fold cols in Hpos, Hnth, Hstart, Hend.
  set (step := fun (d : list Number) (tmp : ScaLAPACKMatrix) =>
         let my_rank := this_mpi_process (grid tmp) in
         let count := (n_local_columns tmp, n_rows tmp) in
         let offset := hyperslab_offset cols my_rank in
         if 0 <? Z.of_nat (List.length (values tmp))
         then H5Dwrite_hyperslab d (lay_n L, lay_m L) offset count (values tmp)
         else d).
  cbv zeta.
  assert (Hinv : forall j, (j <= List.length Tw)%nat ->
             List.length (fold_left step (firstn j Tw) data0) = Z.to_nat (lay_n L * lay_m L)
             /\ forall k T lc li,
                  (k < j)%nat -> nth_error Tw k = Some T ->
                  0 <= lc < n_local_columns T -> 0 <= li < lay_m L ->
                  nth (Z.to_nat ((slab_start cols (Z.of_nat k) + lc) * lay_m L + li))
                    (fold_left step (firstn j Tw) data0) (of_int 0)
                  = nth (Z.to_nat (lc * lay_m L + li)) (values T) (of_int 0)).
  { induction j as [|j IH]; intros Hj.
    - cbn [firstn fold_left]. split; [exact Hlen0|]. intros k T lc li Hk. lia.
    - destruct (IH ltac:(lia)) as [IHlen IHel].
      destruct (nth_error Tw j) as [Tj|] eqn:HTj;
        [|apply nth_error_None in HTj; lia].
      rewrite (firstn_snoc _ Tw j Tj HTj), fold_left_app. cbn [fold_left].
      set (d := fold_left step (firstn j Tw) data0) in *.
      destruct (band_object L address context Tw j Tj Hv Hc HPn Hrk HTj)
        as [Hjr [Hrank [Hnr [_ [_ [_ [_ Hvlen]]]]]]].
      pose proof (Hend j Tj HTj) as Hendj.
      pose proof (Hstart (Z.of_nat j) ltac:(lia)) as Hstartj.
      assert (Hcj : 0 <= n_local_columns Tj).
      { rewrite <- (Hnth j Tj HTj). apply Hpos. }
      assert (Hstep : step d Tj
                      = if 0 <? Z.of_nat (List.length (values Tj))
                        then H5Dwrite_hyperslab d (lay_n L, lay_m L)
                               (slab_start cols (Z.of_nat j), 0)
                               (n_local_columns Tj, lay_m L) (values Tj)
                        else d).
      { unfold step. cbv zeta. rewrite Hrank, Hnr. reflexivity. }
      rewrite Hstep. clear Hstep.
      destruct (Z.ltb_spec 0 (Z.of_nat (List.length (values Tj)))) as [Hne|Hempty].
      + split; [rewrite H5Dwrite_hyperslab_length; exact IHlen|].
        intros k T lc li Hk HT Hlc Hli.
        pose proof (Hend k T HT) as Hendk.
        pose proof (Hstart (Z.of_nat k) ltac:(lia)) as Hstartk.
        rewrite H5Dwrite_hyperslab_rows by (try exact IHlen; lia).
        destruct (Nat.eq_dec k j) as [->|Hkj].
        * rewrite HTj in HT. inversion HT. subst T.
          replace (slab_start cols (Z.of_nat j) <=? slab_start cols (Z.of_nat j) + lc)
            with true by (symmetry; apply Z.leb_le; lia).
          replace (slab_start cols (Z.of_nat j) + lc
                   <? slab_start cols (Z.of_nat j) + n_local_columns Tj)
            with true by (symmetry; apply Z.ltb_lt; lia).
          cbn [andb]. f_equal. f_equal. lia.
        * assert (Hlt : slab_start cols (Z.of_nat k) + n_local_columns T
                        <= slab_start cols (Z.of_nat j)).
          { rewrite <- (Hnth k T HT).
            replace (nth k cols 0) with (nth (Z.to_nat (Z.of_nat k)) cols 0)
              by (rewrite Nat2Z.id; reflexivity).
            rewrite <- slab_start_succ by lia.
            apply slab_start_mono; [exact Hpos | lia]. }
          replace (slab_start cols (Z.of_nat j) <=? slab_start cols (Z.of_nat k) + lc)
            with false by (symmetry; apply Z.leb_gt; lia).
          cbn [andb]. apply IHel; try assumption. lia.
      + split; [exact IHlen|].
        intros k T lc li Hk HT Hlc Hli.
        destruct (Nat.eq_dec k j) as [->|Hkj].
        * rewrite HTj in HT. inversion HT. subst T.
          assert (n_local_columns Tj * lay_m L <= 0) by lia. nia.
        * apply IHel; try assumption. lia. }
  destruct (Hinv (List.length Tw) (Nat.le_refl _)) as [Hl Hel].
  rewrite firstn_all in Hl, Hel.
  split; [exact Hl|].
  intros k T lc li HT Hlc Hli. apply Hel; try assumption.
  apply nth_error_Some. congruence.
Qed.

(** What a process reads back from that dataset: its own buffer. *)
Lemma parallel_read_own (data buf values2 : list Number) (n m o c : Z) :
  1 <= m -> 0 <= c ->
  List.length buf = Z.to_nat (c * m) -> List.length values2 = Z.to_nat (c * m) ->
  (forall lc li, 0 <= lc < c -> 0 <= li < m ->
     nth (Z.to_nat ((o + lc) * m + li)) data (of_int 0)
     = nth (Z.to_nat (lc * m + li)) buf (of_int 0)) ->
  H5Dread_hyperslab data (n, m) (o, 0) (c, m) values2 = buf.
Proof.
  intros Hm Hc Hlb Hl2 Hel.
  apply (nth_ext _ _ (of_int 0) (of_int 0)).
  - rewrite H5Dread_hyperslab_length. congruence.
  - intros k Hk. rewrite H5Dread_hyperslab_length, Hl2 in Hk.
    replace k with (Z.to_nat (Z.of_nat k)) by apply Nat2Z.id.
    rewrite H5Dread_hyperslab_rows by (try exact Hl2; lia).
    pose proof (Z.mod_pos_bound (Z.of_nat k) m ltac:(lia)) as Hmod.
    assert (Hdiv : 0 <= Z.of_nat k / m < c).
    { split; [apply Z.div_pos; lia|]. apply Z.div_lt_upper_bound; lia. }
    rewrite Hel by lia. f_equal. f_equal.
    pose proof (Z.div_mod (Z.of_nat k) m ltac:(lia)). lia.
Qed.

(** [save_parallel] as all processes run it: it returns, and the file holds
    the matrix redistributed onto the 1 x P grid, hyperslab after hyperslab,
    with the state and the property. *)
Lemma save_parallel_run (L : Layout) (s : State) (p : Property)
  (Aw : World ScaLAPACKMatrix) (chunks : World (Z * Z)) (address context : Z)
  (file0 : option HDF5File) :
  Layout_valid L -> 0 <= context -> lay_P L <= lay_n L ->
  distributed L s p Aw -> address <> lay_address L ->
  List.length chunks = List.length Aw ->
  exists A0 c0 data Tw,
    nth_error Aw 0 = Some A0 /\ nth_error chunks 0 = Some c0
    /\ save_parallel Aw chunks address context file0
       = Ok (Some (write_state_and_property A0
                     {| h5_matrix_class := hdf5_type_class;
                        h5_matrix_dims := (lay_n L, lay_m L);
                        h5_matrix_chunk := (snd c0, fst c0);
                        h5_matrix := data;
                        h5_state := None;
                        h5_property := None |}))
    /\ ranked (band_layout L address context) Tw
    /\ (forall gi gj, 0 <= gi < lay_m L -> 0 <= gj < lay_n L ->
          layout_el (band_layout L address context) Tw gi gj = layout_el L Aw gi gj)
    /\ List.length data = Z.to_nat (lay_n L * lay_m L)
    /\ (forall k T lc li,
          nth_error Tw k = Some T -> 0 <= lc < n_local_columns T -> 0 <= li < lay_m L ->
          nth (Z.to_nat ((slab_start (map n_local_columns Tw) (Z.of_nat k) + lc) * lay_m L
                         + li)) data (of_int 0)
          = nth (Z.to_nat (lc * lay_m L + li)) (values T) (of_int 0)).
Proof.
  intros Hv Hc HPn Hd Haddr Hclen.
  destruct (distributed_ranked L s p Aw Hv Hd) as [Hr Hsp].
  pose proof Hv as [Hmb [Hm [Hnb [Hn [HR [HC [HP Hctx]]]]]]].
  assert (HP1 : 1 <= lay_P L) by nia.
  pose proof (band_layout_valid L address context Hv Hc HPn) as Hvt.
  destruct (parallel_tmp_world L Aw address context Hv Hc HPn Hr) as [tmpw [Htmpw [HrT _]]].
  destruct (copy_to_world L (band_layout L address context) s p Aw tmpw
              Hv Hvt Hr HrT Hsp eq_refl eq_refl eq_refl
              ltac:(cbn [band_layout lay_address]; congruence))
    as [Tw [Hcopy [HrT' [_ Hel]]]].
  pose proof (proj1 Hr) as HlenA. pose proof (proj1 HrT') as HlenT.
  cbn [band_layout lay_P] in HlenT.
  destruct Aw as [|A0 Aw']; [cbn in HlenA; lia|].
  assert (ETw : exists T0 Tw', Tw = T0 :: Tw').
  { destruct Tw as [|T0 Tw']; [cbn in HlenT; lia|]. exists T0, Tw'. reflexivity. }
  destruct ETw as [T0 [Tw' ETw]].
  destruct chunks as [|c0 cs]; [cbn in Hclen; lia|].
  assert (HT0 : nth_error Tw 0 = Some T0) by (rewrite ETw; reflexivity).
  destruct (band_object L address context Tw 0 T0 Hv Hc HPn HrT' HT0)
    as [_ [Hrank0 [Hnr0 [Hnc0 _]]]].
  destruct (parallel_write_world L address context Tw
              (repeat (of_int 0) (Z.to_nat (lay_n L * lay_m L)))
              Hv Hc HPn HrT' (repeat_length _ _)) as [Hdlen Hdel].
  cbv zeta in Hdlen, Hdel.
  assert (Hhead : combine Tw (c0 :: cs) = (T0, c0) :: combine Tw' cs)
    by (rewrite ETw; reflexivity).
  assert (Hfold : forall written,
             fold_left
               (fun f (tt : ScaLAPACKMatrix * ScaLAPACKMatrix) =>
                  if this_mpi_process (grid (snd tt)) =? 0
                  then write_state_and_property (fst tt) f else f)
               (combine (A0 :: Aw') Tw) written
             = write_state_and_property A0 written).
  { intros written. rewrite ETw. cbn [combine fold_left fst snd].
    rewrite Hrank0, Z.eqb_refl.
    apply fold_left_unchanged.
    intros [A T] acc Hin. cbn [fst snd].
    apply in_combine_r in Hin. apply In_nth_error in Hin. destruct Hin as [k Hk].
    assert (HTk : nth_error Tw (S k) = Some T) by (rewrite ETw; exact Hk).
    destruct (band_object L address context Tw (S k) T Hv Hc HPn HrT' HTk)
      as [_ [Hrank _]].
    rewrite Hrank. destruct (Z.eqb_spec (Z.of_nat (S k)) 0); [lia | reflexivity]. }
  exists A0, c0. eexists. exists Tw.
  split; [reflexivity|]. split; [reflexivity|].
  split.
  { unfold save_parallel. rewrite Htmpw. cbn [bind]. rewrite Hcopy. cbn [bind].
    rewrite Hhead. cbv beta iota zeta. rewrite Hfold. rewrite Hnr0, Hnc0.
    cbn [fst snd h5_matrix h5_matrix_class h5_matrix_dims h5_matrix_chunk].
    reflexivity. }
  split; [exact HrT'|]. split; [exact Hel|].
  split; [exact Hdlen | exact Hdel].
Qed.

Lemma mapM_combine_by_index (T T' U V : Type) (f : T * U -> Result V) (h : T' * U -> V)
  (l1 : list T) (l1' : list T') (l2 : list U) :
  List.length l1 = List.length l2 -> List.length l1' = List.length l2 ->
  (forall k x x' y,
      nth_error l1 k = Some x -> nth_error l1' k = Some x' -> nth_error l2 k = Some y ->
      f (x, y) = Ok (h (x', y))) ->
  mapM f (combine l1 l2) = Ok (map h (combine l1' l2)).
Proof.
  revert l1 l1'. induction l2 as [|y l2 IH]; intros [|x l1] [|x' l1'] H1 H2 H;
    cbn [List.length] in H1, H2; try discriminate H1; try discriminate H2.
  - reflexivity.
  - cbn [combine mapM map]. rewrite (H 0%nat x x' y eq_refl eq_refl eq_refl). cbn [bind].
    rewrite (IH l1 l1') by
      (try lia; intros k a a' b Ha Ha' Hb; apply (H (S k)); assumption).
    reflexivity.
Qed.

(** [load_parallel] as all processes run it on the file of [save_parallel]. *)
Lemma load_parallel_run (LA LB : Layout) (s sB : State) (p pB : Property)
  (Sw Bw : World ScaLAPACKMatrix) (address1 context1 address2 context2 : Z)
  (file : HDF5File) :
  Layout_valid LA -> Layout_valid LB ->
  lay_m LB = lay_m LA -> lay_n LB = lay_n LA -> lay_P LB = lay_P LA ->
  0 <= context1 -> 0 <= context2 -> lay_P LA <= lay_n LA ->
  distributed LB sB pB Bw -> address2 <> lay_address LB ->
  ranked (band_layout LA address1 context1) Sw ->
  h5_matrix_class file = hdf5_type_class ->
  h5_matrix_dims file = (lay_n LA, lay_m LA) ->
  (forall k T lc li,
      nth_error Sw k = Some T -> 0 <= lc < n_local_columns T -> 0 <= li < lay_m LA ->
      nth (Z.to_nat ((slab_start (map n_local_columns Sw) (Z.of_nat k) + lc) * lay_m LA
                     + li)) (h5_matrix file) (of_int 0)
      = nth (Z.to_nat (lc * lay_m LA + li)) (values T) (of_int 0)) ->
  read_state_and_property file = Ok (s, p) ->
  exists Bw',
    load_parallel Bw address2 context2 (Some file) = Ok Bw'
    /\ ranked LB Bw'
    /\ (forall k B', nth_error Bw' k = Some B' -> state B' = s /\ property B' = p)
    /\ (forall gi gj, 0 <= gi < lay_m LA -> 0 <= gj < lay_n LA ->
          layout_el LB Bw' gi gj
          = layout_el (band_layout LA address1 context1) Sw gi gj).
Proof.
  intros HvA HvB Hm Hn HP Hc1 Hc2 HPn HdB Haddr HrS Hclass Hdims Hfile Hsp.
  destruct (distributed_ranked LB sB pB Bw HvB HdB) as [HrB _].
  pose proof HvA as [HmbA [HmA [HnbA [HnA [HRA [HCA [HPA HctxA]]]]]]].
  assert (HPnB : lay_P LB <= lay_n LB) by lia.
  pose proof (band_layout_valid LA address1 context1 HvA Hc1 HPn) as HvS.
  pose proof (band_layout_valid LB address2 context2 HvB Hc2 HPnB) as HvT.
  destruct (parallel_tmp_world LB Bw address2 context2 HvB Hc2 HPnB HrB)
    as [tmpw [Htmpw [HrT _]]].
  assert (HlenS : List.length Sw = List.length tmpw).
  { rewrite (proj1 HrS), (proj1 HrT). cbn [band_layout lay_P]. rewrite HP. reflexivity. }
  assert (HlenB : List.length Bw = List.length tmpw).
  { rewrite (proj1 HrB), (proj1 HrT). reflexivity. }
  (* both sides count the same local columns *)
  assert (Hcols : map n_local_columns tmpw = map n_local_columns Sw).
  { apply (nth_ext _ _ 0 0); [rewrite !length_map; congruence|].
    intros k Hk. rewrite length_map in Hk.
    destruct (nth_error tmpw k) as [T|] eqn:HT; [|apply nth_error_None in HT; lia].
    destruct (nth_error Sw k) as [S|] eqn:HS; [|apply nth_error_None in HS; lia].
    destruct (band_slabs LB address2 context2 tmpw HvB Hc2 HPnB HrT) as [_ [HnT _]].
    destruct (band_slabs LA address1 context1 Sw HvA Hc1 HPn HrS) as [_ [HnS _]].
    rewrite (HnT k T HT), (HnS k S HS).
    destruct (band_object LB address2 context2 tmpw k T HvB Hc2 HPnB HrT HT)
      as [_ [_ [_ [_ [_ [_ [-> _]]]]]]].
    destruct (band_object LA address1 context1 Sw k S HvA Hc1 HPn HrS HS)
      as [_ [_ [_ [_ [_ [_ [-> _]]]]]]].
    rewrite Hn, HP. reflexivity. }
  (* what every process reads *)
  assert (Hread : mapM (fun tt => load_parallel_read (fst tt) (snd tt)
                                    (map n_local_columns tmpw) (Some file))
                    (combine Bw tmpw)
                  = Ok (map (band_loaded s p) (combine Sw tmpw))).
  { apply mapM_combine_by_index; [exact HlenB | exact HlenS |].
    intros k B S T HB HS HT. cbn [fst snd].
    pose proof (proj2 HrB k B HB) as HlB.
    destruct (band_object LB address2 context2 tmpw k T HvB Hc2 HPnB HrT HT)
      as [Hk [Hrank [_ [_ [Hnlr [_ [HnlcT HlenT]]]]]]].
    destruct (band_object LA address1 context1 Sw k S HvA Hc1 HPn HrS HS)
      as [_ [_ [_ [_ [_ [_ [HnlcS HlenS']]]]]]].
    assert (Hnlc : n_local_columns T = n_local_columns S).
    { rewrite HnlcT, HnlcS, Hn, HP. reflexivity. }
    unfold load_parallel_read, band_loaded. cbn [fst snd].
    rewrite Hclass, Z.eqb_refl. cbn [AssertThrow bind]. rewrite Hdims. cbn [fst snd].
    rewrite (hl_n_rows _ _ _ HlB), (hl_n_columns _ _ _ HlB), Hm, Hn.
    rewrite !to_signed_small by lia. rewrite !Z.eqb_refl. cbn [AssertThrow bind].
    rewrite Hsp. cbn [bind fst snd]. rewrite Hrank, Hnlr, Hcols, Hm.
    change (hyperslab_offset (map n_local_columns Sw) (Z.of_nat k))
      with (slab_start (map n_local_columns Sw) (Z.of_nat k), 0).
    rewrite (parallel_read_own (h5_matrix file) (values S) (values T)
               (lay_n LA) (lay_m LA)
               (slab_start (map n_local_columns Sw) (Z.of_nat k)) (n_local_columns T));
      [reflexivity | lia | | | | ].
    - rewrite HnlcT. assert (1 <= lay_P LB) by nia.
      apply numroc_nonneg; [lia | | lia]. apply Z.div_le_lower_bound; lia.
    - rewrite HlenS', Hnlc. reflexivity.
    - rewrite HlenT, Hm. reflexivity.
    - intros lc li Hlc Hli. apply (Hfile k S lc li HS); lia. }
  set (Tw' := map (band_loaded s p) (combine Sw tmpw)) in *.
  assert (Hnth : forall k X, nth_error Tw' k = Some X ->
             exists S T, nth_error Sw k = Some S /\ nth_error tmpw k = Some T
                         /\ X = band_loaded s p (S, T)).
  { intros k X HX. apply nth_error_map_inv in HX. destruct HX as [[S T] [HST ->]].
    apply nth_error_combine_inv in HST. exists S, T.
    split; [apply HST|]. split; [apply HST | reflexivity]. }
  assert (HrT' : ranked (band_layout LB address2 context2) Tw').
  { split.
    - unfold Tw'. rewrite length_map, length_combine, HlenS, Nat.min_id. exact (proj1 HrT).
    - intros k X HX. destruct (Hnth k X HX) as [S [T [HS [HT ->]]]].
      unfold band_loaded. cbn [fst snd].
      apply has_layout_update; [exact (proj2 HrT k T HT)|].
      destruct (band_object LB address2 context2 tmpw k T HvB Hc2 HPnB HrT HT)
        as [_ [_ [_ [_ [_ [_ [HnlcT ->]]]]]]].
      destruct (band_object LA address1 context1 Sw k S HvA Hc1 HPn HrS HS)
        as [_ [_ [_ [_ [_ [_ [HnlcS ->]]]]]]].
      rewrite HnlcT, HnlcS, Hn, HP, Hm. reflexivity. }
  assert (HspT' : forall k X, nth_error Tw' k = Some X -> state X = s /\ property X = p).
  { intros k X HX. destruct (Hnth k X HX) as [S [T [_ [_ ->]]]]. split; reflexivity. }
  destruct (copy_to_world (band_layout LB address2 context2) LB s p Tw' Bw
              HvT HvB HrT' HrB HspT' eq_refl eq_refl eq_refl
              ltac:(cbn [band_layout lay_address]; congruence))
    as [Bw' [Hcopy [HrB' [HspB' Hel]]]].
  exists Bw'. split.
  { unfold load_parallel. rewrite Htmpw. cbn [bind]. cbv zeta. rewrite Hread. cbn [bind].
    fold Tw'. rewrite (mapM_combine_swap _ _ _ (copy_to Tw')). exact Hcopy. }
  split; [exact HrB'|]. split; [exact HspB'|].
  intros gi gj Hgi Hgj. cbn [band_layout lay_m lay_n] in Hel.
  rewrite Hel by lia.
  destruct (owner_object (band_layout LB address2 context2) Tw' gi gj HvT HrT'
              ltac:(cbn [band_layout lay_m]; lia) ltac:(cbn [band_layout lay_n]; lia))
    as [X [HX _]].
  assert (Hown : owner_rank (band_layout LB address2 context2) gi gj
                 = owner_rank (band_layout LA address1 context1) gi gj).
  { unfold owner_rank, owner_row, owner_column. cbn [band_layout lay_mb lay_nb lay_R lay_C].
    rewrite Hm, Hn, HP. reflexivity. }
  unfold layout_el. rewrite <- Hown, HX.
  destruct (Hnth _ X HX) as [S [T [HS [HT ->]]]]. rewrite HS.
  unfold local_row, local_column. cbn [band_layout lay_mb lay_nb lay_R lay_C].
  rewrite Hm, Hn, HP.
  unfold band_loaded, local_el. cbn [fst snd set_property set_state set_values values
                                      table_n_rows].
  destruct (band_object LB address2 context2 tmpw _ T HvB Hc2 HPnB HrT HT)
    as [_ [_ [_ [_ [_ [-> _]]]]]].
  destruct (band_object LA address1 context1 Sw _ S HvA Hc1 HPn HrS HS)
    as [_ [_ [_ [_ [_ [-> _]]]]]].
  rewrite Hm. reflexivity.
Qed.

(** X20: with parallel HDF5, [save] followed by [load] restores the matrix
    whenever there are at least as many columns as processes: on every
    process the state and the property are those at the time of [save], the
    shape is the same, and every position holds the value it held, and no
    other.  It holds for every grid of the saved and of the loading matrix,
    although the columns are not stored in their order when the number of
    processes does not divide their number. *)
Theorem save_load_parallel_round_trip
  (LA LB : Layout) (s sB : State) (p pB : Property)
  (Aw Bw : World ScaLAPACKMatrix) (chunk_size : Z * Z)
  (address1 context1 address2 context2 : Z) (file0 : option HDF5File) :
  Layout_valid LA -> Layout_valid LB ->
  lay_m LB = lay_m LA -> lay_n LB = lay_n LA -> lay_P LB = lay_P LA ->
  distributed LA s p Aw -> distributed LB sB pB Bw ->
  chunk_size_allowed LA chunk_size ->
  address1 <> lay_address LA -> address2 <> lay_address LB ->
  0 <= context1 -> 0 <= context2 ->
  lay_P LA <= lay_n LA ->
  exists file Bw',
    save true Aw chunk_size address1 context1 file0 = Ok (Some file)
    /\ load true Bw address2 context2 (Some file) = Ok Bw'
    /\ List.length Bw' = List.length Bw
    /\ (forall k B', nth_error Bw' k = Some B' ->
                     state B' = s /\ property B' = p
                     /\ n_rows B' = lay_m LA /\ n_columns B' = lay_n LA)
    /\ (forall gi gj, 0 <= gi < lay_m LA -> 0 <= gj < lay_n LA ->
                      exists v, entry Aw gi gj v /\ entry Bw' gi gj v)
    /\ (forall gi gj v, entry Aw gi gj v <-> entry Bw' gi gj v).
Proof.
  intros HvA HvB Hm Hn HP HdA HdB Hchunk Ha1 Ha2 Hc1 Hc2 HPn.
  destruct (distributed_ranked LA s p Aw HvA HdA) as [HrA HspA].
  destruct (distributed_ranked LB sB pB Bw HvB HdB) as [HrB _].
  destruct (save_chunk_size_world LA Aw chunk_size HvA HrA Hchunk)
    as [chunks [Hchunks Hclen]].
  destruct (save_parallel_run LA s p Aw chunks address1 context1 file0
              HvA Hc1 HPn HdA Ha1 Hclen)
    as [A0 [c0 [data [Sw [HA0 [_ [Hsave [HrS [HelS [_ Hfile]]]]]]]]]].
  destruct (HspA 0%nat A0 HA0) as [HsA0 HpA0].
  set (file := write_state_and_property A0
                 {| h5_matrix_class := hdf5_type_class;
                    h5_matrix_dims := (lay_n LA, lay_m LA);
                    h5_matrix_chunk := (snd c0, fst c0);
                    h5_matrix := data;
                    h5_state := None;
                    h5_property := None |}) in *.
  assert (Hsp : read_state_and_property file = Ok (s, p)).
  { unfold file. rewrite read_state_and_property_written, HsA0, HpA0. reflexivity. }
  destruct (load_parallel_run LA LB s sB p pB Sw Bw address1 context1 address2 context2
              file HvA HvB Hm Hn HP Hc1 Hc2 HPn HdB Ha2 HrS eq_refl eq_refl Hfile Hsp)
    as [Bw' [Hload [HrB' [HspB' HelB]]]].
  exists file, Bw'.
  split; [unfold save; rewrite Hchunks; exact Hsave|].
  split; [exact Hload|].
  split; [rewrite (proj1 HrB'), (proj1 HrB); reflexivity|].
  split.
  { intros k B' HB'. destruct (HspB' k B' HB') as [Hs' Hp'].
    pose proof (proj2 HrB' k B' HB') as Hl'.
    rewrite (hl_n_rows _ _ _ Hl'), (hl_n_columns _ _ _ Hl'). repeat split; assumption. }
  assert (Heq : forall gi gj, 0 <= gi < lay_m LA -> 0 <= gj < lay_n LA ->
                 layout_el LB Bw' gi gj = layout_el LA Aw gi gj).
  { intros gi gj Hgi Hgj. rewrite HelB by assumption. apply HelS; assumption. }
  split.
  - intros gi gj Hgi Hgj. exists (layout_el LA Aw gi gj). split.
    + apply entry_layout_el; assumption.
    + rewrite <- Heq by assumption. apply entry_layout_el; try assumption; lia.
  - intros gi gj v. split; intros Hentry.
    + destruct (entry_unique LA Aw gi gj v HvA HrA Hentry) as [Hgi [Hgj ->]].
      rewrite <- Heq by assumption. apply entry_layout_el; try assumption; lia.
    + destruct (entry_unique LB Bw' gi gj v HvB HrB' Hentry) as [Hgi [Hgj ->]].
      rewrite Heq by lia. apply entry_layout_el; try assumption; lia.
Qed.

(** ** The file of the parallel path when the processes divide the columns *)

(** With [P] dividing [n], the hyperslab of rank [r] starts at column
    [r * (n / P)]. *)
Lemma band_slab_start_divisible (L : Layout) (address context : Z)
  (Tw : World ScaLAPACKMatrix) (r : Z) :
  Layout_valid L -> 0 <= context -> lay_n L mod lay_P L = 0 ->
  ranked (band_layout L address context) Tw -> 0 <= r <= lay_P L ->
  lay_P L <= lay_n L
  /\ slab_start (map n_local_columns Tw) r = r * (lay_n L / lay_P L).
Proof.
  intros Hv Hc Hdiv Hrk Hr.
  pose proof Hv as [Hmb [Hm [Hnb [Hn [HR [HC [HP Hctx]]]]]]].
  assert (HP1 : 1 <= lay_P L) by nia.
  pose proof (Z.div_mod (lay_n L) (lay_P L) ltac:(lia)) as Hdm.
  rewrite Hdiv, Z.add_0_r in Hdm.
  assert (Hq : 1 <= lay_n L / lay_P L) by nia.
  assert (HPn : lay_P L <= lay_n L) by nia.
  split; [exact HPn|].
  destruct (band_slabs L address context Tw Hv Hc HPn Hrk) as [_ [_ [_ [_ Hsum]]]].
  rewrite (Hsum r Hr). rewrite numroc_prefix by lia.
  set (NB := lay_n L / lay_P L) in *.
  assert (HnNB : lay_n L / NB = lay_P L).
  { rewrite Hdm at 1. apply Z.div_mul. lia. }
  assert (HmodNB : lay_n L mod NB = 0).
  { rewrite Hdm at 1. apply Z.mod_mul. lia. }
  rewrite HnNB, HmodNB, Z.div_same, Z.mod_same by lia.
  rewrite Z.min_r by lia. destruct (0 <? r); lia.
Qed.

(** With [P] dividing [n], the dataset of the parallel path holds the matrix
    column by column. *)
Lemma band_file_columns (L : Layout) (address context : Z)
  (Tw : World ScaLAPACKMatrix) (data : list Number) (gi gj : Z) :
  Layout_valid L -> 0 <= context -> lay_n L mod lay_P L = 0 ->
  ranked (band_layout L address context) Tw ->
  (forall k T lc li,
      nth_error Tw k = Some T -> 0 <= lc < n_local_columns T -> 0 <= li < lay_m L ->
      nth (Z.to_nat ((slab_start (map n_local_columns Tw) (Z.of_nat k) + lc) * lay_m L
                     + li)) data (of_int 0)
      = nth (Z.to_nat (lc * lay_m L + li)) (values T) (of_int 0)) ->
  0 <= gi < lay_m L -> 0 <= gj < lay_n L ->
  nth (Z.to_nat (gj * lay_m L + gi)) data (of_int 0)
  = layout_el (band_layout L address context) Tw gi gj.
Proof.
  intros Hv Hc Hdiv Hrk Hfile Hgi Hgj.
  pose proof Hv as [Hmb [Hm [Hnb [Hn [HR [HC [HP Hctx]]]]]]].
  assert (HP1 : 1 <= lay_P L) by nia.
  destruct (band_slab_start_divisible L address context Tw 0 Hv Hc Hdiv Hrk ltac:(lia))
    as [HPn _].
  pose proof (band_layout_valid L address context Hv Hc HPn) as Hvt.
  pose proof (Z.div_mod (lay_n L) (lay_P L) ltac:(lia)) as Hdm.
  rewrite Hdiv, Z.add_0_r in Hdm.
  set (NB := lay_n L / lay_P L) in *.
  assert (HNB : 1 <= NB) by nia.
  pose proof (Z.div_mod gj NB ltac:(lia)) as Hgjdm.
  pose proof (Z.mod_pos_bound gj NB ltac:(lia)) as Hlc.
  assert (Hk : 0 <= gj / NB < lay_P L).
  { split; [apply Z.div_pos; lia|]. apply Z.div_lt_upper_bound; lia. }
  (* owner and local position of (gi, gj) on the 1 x P grid *)
  assert (Hown : owner_rank (band_layout L address context) gi gj = gj / NB).
  { unfold owner_rank, owner_row, owner_column, owner_and_local, indxg2p_.
    cbn [band_layout lay_mb lay_nb lay_R lay_C fst snd]. fold NB.
    rewrite Z.mod_1_r, Z.mul_1_r, Z.add_0_l, Z.add_0_l.
    replace (gj + 1 - 1) with gj by lia. apply Z.mod_small. exact Hk. }
  assert (Hlr : local_row (band_layout L address context) gi = gi).
  { unfold local_row, owner_and_local, indxg2l_.
    cbn [band_layout lay_mb lay_nb lay_R lay_C fst snd].
    replace (gi + 1 - 1) with gi by lia. rewrite Z.mul_1_r.
    rewrite Z.div_small, Z.mod_small by lia. lia. }
  assert (Hlcol : local_column (band_layout L address context) gj = gj mod NB).
  { unfold local_column, owner_and_local, indxg2l_.
    cbn [band_layout lay_mb lay_nb lay_R lay_C fst snd]. fold NB.
    replace (gj + 1 - 1) with gj by lia.
    rewrite (Z.div_small gj) by nia. lia. }
  destruct (ranked_nth _ Tw (gj / NB) Hrk ltac:(cbn [band_layout lay_P]; lia))
    as [T [HT _]].
  destruct (band_object L address context Tw _ T Hv Hc HPn Hrk HT)
    as [_ [_ [_ [_ [_ [Htab _]]]]]].
  (* the process holds n / P columns *)
  assert (Hnlc : n_local_columns T = NB).
  { destruct (band_slabs L address context Tw Hv Hc HPn Hrk) as [_ [Hnth _]].
    rewrite <- (Hnth _ T HT).
    pose proof (slab_start_succ (map n_local_columns Tw) (gj / NB) ltac:(lia)) as Hs.
    destruct (band_slab_start_divisible L address context Tw (gj / NB + 1)
                Hv Hc Hdiv Hrk ltac:(lia)) as [_ Hs1].
    destruct (band_slab_start_divisible L address context Tw (gj / NB)
                Hv Hc Hdiv Hrk ltac:(lia)) as [_ Hs0].
    fold NB in Hs1, Hs0. lia. }
  unfold layout_el. rewrite Hown, HT, Hlr, Hlcol. unfold local_el. rewrite Htab.
  rewrite <- (Hfile (Z.to_nat (gj / NB)) T (gj mod NB) gi HT) by lia.
  rewrite Z2Nat.id by lia.
  destruct (band_slab_start_divisible L address context Tw (gj / NB)
              Hv Hc Hdiv Hrk ltac:(lia)) as [_ ->].
  fold NB. f_equal. f_equal. lia.
Qed.

(** X21: when the number of processes divides the number of columns, [save]
    writes the same file with and without parallel HDF5: the same dataset,
    column by column, with the same dimensions and chunks, and the same state
    and property. *)
Theorem save_parallel_file_is_serial_file
  (L : Layout) (s : State) (p : Property) (Aw : World ScaLAPACKMatrix)
  (chunk_size : Z * Z) (address context : Z) (file0 : option HDF5File) :
  Layout_valid L -> distributed L s p Aw -> chunk_size_allowed L chunk_size ->
  address <> lay_address L -> 0 <= context ->
  lay_n L mod lay_P L = 0 ->
  exists file,
    save true Aw chunk_size address context file0 = Ok (Some file)
    /\ save false Aw chunk_size address context file0 = Ok (Some file).
Proof.
  intros Hv Hd Hchunk Ha Hc Hdiv.
  destruct (distributed_ranked L s p Aw Hv Hd) as [Hrk Hsp].
  pose proof Hv as [Hmb [Hm [Hnb [Hn [HR [HC [HP Hctx]]]]]]].
  assert (HP1 : 1 <= lay_P L) by nia.
  assert (HPn : lay_P L <= lay_n L).
  { pose proof (Z.div_mod (lay_n L) (lay_P L) ltac:(lia)) as Hdm.
    rewrite Hdiv, Z.add_0_r in Hdm.
    assert (Hq : 1 <= lay_n L / lay_P L) by nia. nia. }
  destruct (save_chunk_size_world L Aw chunk_size Hv Hrk Hchunk) as [chunks [Hchunks Hclen]].
  destruct (save_parallel_run L s p Aw chunks address context file0 Hv Hc HPn Hd Ha Hclen)
    as [A0 [c0 [data [Tw [HA0 [Hc0 [Hsave [HrT [HelT [Hdlen Hfile]]]]]]]]]].
  destruct (save_serial_run L s p Aw chunk_size address context file0 Hv Hd Hchunk Ha Hc)
    as [A0' [T0 [c0' [HA0' [Hc0' [Hserial [Hlen0 Hel0]]]]]]].
  rewrite HA0 in HA0'. inversion HA0'. subst A0'. clear HA0'.
  assert (c0' = c0).
  { destruct (mapM_Ok_nth _ _ _ _ _ Hchunks) as [_ Hn0].
    destruct (Hn0 0%nat c0 Hc0) as [A [HA HcA]]. rewrite HA0 in HA. inversion HA. subst A.
    rewrite Hc0' in HcA. inversion HcA. reflexivity. }
  subst c0'.
  eexists. split.
  { unfold save. rewrite Hchunks. cbn [bind]. exact Hsave. }
  rewrite Hserial. f_equal. f_equal. unfold serial_file.
  pose proof (proj2 Hrk 0%nat A0 HA0) as HlA0.
  rewrite (hl_n_rows _ _ _ HlA0), (hl_n_columns _ _ _ HlA0).
  f_equal. f_equal.
  rewrite firstn_all2 by (rewrite Hlen0; lia).
  apply (nth_ext _ _ (of_int 0) (of_int 0)).
  - rewrite Hlen0, Hdlen. f_equal. lia.
  - intros q Hq. rewrite Hlen0 in Hq.
    pose proof (Z.div_mod (Z.of_nat q) (lay_m L) ltac:(lia)) as Hqdm.
    pose proof (Z.mod_pos_bound (Z.of_nat q) (lay_m L) ltac:(lia)) as Hgi.
    assert (Hgj : 0 <= Z.of_nat q / lay_m L < lay_n L).
    { split; [apply Z.div_pos; lia|]. apply Z.div_lt_upper_bound; lia. }
    replace q with (Z.to_nat (Z.of_nat q / lay_m L * lay_m L + Z.of_nat q mod lay_m L))
      by lia.
    rewrite Hel0 by assumption.
    rewrite <- (HelT _ _ Hgi Hgj).
    symmetry. apply (band_file_columns L address context Tw data); assumption.
Qed.

(** ** The four products *)

Lemma product_all_mult_all (transpose_A transpose_B : bool)
  (Aw Cw Bw : World ScaLAPACKMatrix) (adding : bool) :
  product_all transpose_A transpose_B Aw Cw Bw adding
  = mult_all Aw (of_int 1) Bw (of_int (if adding then 1 else 0)) Cw
      transpose_A transpose_B.
Proof. destruct transpose_A, transpose_B, adding; reflexivity. Qed.

(** X22: [mmult], [Tmmult], [mTmult] and [TmTmult] compute [A B], [A^T B],
    [A B^T] and [A^T B^T]: on three distributed matrices on one grid, with
    the shapes and block sizes [mult] asserts for these transpositions, each
    returns on every process, C keeps its layout and property, its state
    becomes [matrix], and at every position C holds the sum
    [sum_l op(A)(i,l) * op(B)(l,j)] plus, when [adding] is set, its old entry
    (and otherwise plus zero times its old entry).  The number type needs
    only that one is neutral for the product. *)
Theorem products_compute
  (LA LB LC : Layout) (sA sB sC : State) (pA pB pC : Property)
  (Aw Bw Cw : World ScaLAPACKMatrix) (transpose_A transpose_B adding : bool) :
  (forall x : Number, times (of_int 1) x = x) ->
  Layout_valid LA -> Layout_valid LB -> Layout_valid LC ->
  distributed LA sA pA Aw -> distributed LB sB pB Bw -> distributed LC sC pC Cw ->
  same_grid LA LB -> same_grid LC LB ->
  mult_compatible transpose_A transpose_B LA LB LC ->
  exists Cw',
    product_all transpose_A transpose_B Aw Cw Bw adding = Ok Cw'
    /\ distributed LC matrix pC Cw'
    /\ forall gi gj, 0 <= gi < lay_m LC -> 0 <= gj < lay_n LC ->
         let k := if transpose_A then lay_m LA else lay_n LA in
         forall (a b' : Z -> Number) (cv : Number),
           (forall l, 0 <= l < k ->
                      entry Aw (if transpose_A then l else gi)
                        (if transpose_A then gi else l) (a l)) ->
           (forall l, 0 <= l < k ->
                      entry Bw (if transpose_B then gj else l)
                        (if transpose_B then l else gj) (b' l)) ->
           entry Cw gi gj cv ->
           forall v, entry Cw' gi gj v
                     <-> v = plus (dot k a b')
                              (if adding then cv else times (of_int 0) cv).
Proof.
  intros H1 HvA HvB HvC HdA HdB HdC HgA HgC Hcompat.
  rewrite product_all_mult_all.
  destruct (mult_world LA LB LC sA sB sC pA pB pC Aw Bw Cw (of_int 1)
              (of_int (if adding then 1 else 0)) transpose_A transpose_B
              HvA HvB HvC HdA HdB HdC HgA HgC Hcompat) as [Cw' [Hrun [Hd' Hel]]].
  exists Cw'. split; [exact Hrun|]. split; [exact Hd'|].
  destruct (distributed_ranked LA sA pA Aw HvA HdA) as [HrA _].
  destruct (distributed_ranked LB sB pB Bw HvB HdB) as [HrB _].
  destruct (distributed_ranked LC sC pC Cw HvC HdC) as [HrC _].
  destruct (distributed_ranked LC matrix pC Cw' HvC Hd') as [HrC' _].
  intros gi gj Hgi Hgj k a b' cv Ha Hb Hc v.
  destruct (entry_unique LC Cw gi gj cv HvC HrC Hc) as [_ [_ Hcv]].
  assert (E : layout_el LC Cw' gi gj
              = plus (dot k a b') (if adding then cv else times (of_int 0) cv)).
  { rewrite (Hel gi gj Hgi Hgj), <- Hcv, H1. f_equal.
    - apply dot_ext.
      + intros l Hl. destruct (entry_unique LA Aw _ _ _ HvA HrA (Ha l Hl)) as [_ [_ Hal]].
        rewrite Hal. destruct transpose_A; reflexivity.
      + intros l Hl. destruct (entry_unique LB Bw _ _ _ HvB HrB (Hb l Hl)) as [_ [_ Hbl]].
        rewrite Hbl. destruct transpose_B; reflexivity.
    - destruct adding; [apply H1 | reflexivity]. }
  split.
  - intros He. destruct (entry_unique LC Cw' gi gj v HvC HrC' He) as [_ [_ ->]]. exact E.
  - intros ->. rewrite <- E. apply entry_layout_el; assumption.
Qed.

End Properties.

(** * The properties at concrete inputs *)

Lemma L66_valid : Layout_valid L66.
Proof. unfold Layout_valid. cbn. lia. Qed.

Lemma L22_valid : Layout_valid L22.
Proof. unfold Layout_valid. cbn. lia. Qed.

Lemma W66_distributed : distributed L66 cholesky symmetric W66.
Proof. repeat constructor. Qed.

Lemma V66_distributed : distributed L66 matrix general V66.
Proof. repeat constructor. Qed.

Lemma Winv22_distributed : distributed L22 inverse_matrix lower_triangular Winv22.
Proof. repeat constructor. Qed.

Lemma Wcho22_distributed : distributed L22 cholesky lower_triangular Wcho22.
Proof. repeat constructor. Qed.

(** [save] and [load] on the 6x6 world, run: every process gets its buffer,
    the state and the property back. *)
Example save_load_W66 :
  (file <- save false W66 (invalid_unsigned_int, invalid_unsigned_int) 2000 1 None ;;
   load false V66 3000 2 file)
  = Ok W66.
Proof. vm_compute. reflexivity. Qed.

(** The same through [save_parallel] and [load_parallel]: with 6 columns on
    5 processes the block size is 1 and the columns are dealt cyclically, in
    the same way by both, so the matrix comes back. *)
Example save_load_parallel_W66 :
  (file <- save true W66 (invalid_unsigned_int, invalid_unsigned_int) 2000 1 None ;;
   load true V66 3000 2 file)
  = Ok W66.
Proof. vm_compute. reflexivity. Qed.

(** ** The checkpoint of a matrix with fewer columns than processes *)

(** C1 (the code at a failing input): the 6x6 symmetric matrix in blocks of 2
    on the 2x2 grid, in a job of seven processes.  Without parallel HDF5,
    [save] followed by [load] gives every process its matrix back.  With
    parallel HDF5 the 1x7 column grid gets the column block size
    [6 / 7 = 0], which the constructor refuses on every process: [save]
    throws and writes no file, and [load] throws on the file the other build
    wrote. *)
Theorem save_load_round_trip_more_processes_than_columns :
  (file <- save false W667 (invalid_unsigned_int, invalid_unsigned_int) 2000 1 None ;;
   load false W667 3000 2 file)
  = Ok W667
  /\ map (fun A => tmp <- parallel_tmp A 2000 1 ;; Ok (column_block_size tmp)) W667
     = repeat (Throw (ExcMessage "Column block size has to be positive.")) 7
  /\ save true W667 (invalid_unsigned_int, invalid_unsigned_int) 2000 1 None
     = Throw (ExcMessage "Column block size has to be positive.")
  /\ (file <- save false W667 (invalid_unsigned_int, invalid_unsigned_int) 2000 1 None ;;
      load true W667 3000 2 file)
     = Throw (ExcMessage "Column block size has to be positive.").
Proof. repeat split; vm_compute; reflexivity. Qed.

(** ** The parallel checkpoint path at widths the process count does not divide *)

(** C5 (the code at a failing input): with 5 columns on 2 processes the block
    size [NB] is 5 / 2 = 2, so the 1x2 column grid deals the columns in blocks
    of two: process 0 holds the columns 0, 1 and 4, which is not one band, and
    the file written has its columns in the order 0, 1, 4, 2, 3, unlike the
    file of the serial path.  With 1 column on 2 processes [NB] is 0 and both
    [save] and [load] stop at the constructor's check of the block size. *)
Theorem parallel_checkpoint_columns_not_contiguous :
  map (fun A => tmp <- parallel_tmp A 2000 1 ;; held_columns tmp) W25
  = [Ok [0; 1; 4]; Ok [2; 3]]
  /\ (file <- save true W25 (1, 1) 2000 1 None ;;
      Ok (option_map (fun f => h5_matrix f) file))
     = Ok (Some (map Some [0; 10; 1; 11; 4; 14; 2; 12; 3; 13]))
  /\ (file <- save false W25 (1, 1) 2000 1 None ;;
      Ok (option_map (fun f => h5_matrix f) file))
     = Ok (Some (map Some [0; 10; 1; 11; 2; 12; 3; 13; 4; 14]))
  /\ (file <- save true W25 (1, 1) 2000 1 None ;;
      Bw <- load false W25 3000 2 file ;;
      Ok (map values Bw))
     = Ok [map Some [0; 1; 4; 2; 3]; map Some [10; 11; 14; 12; 13]]
  /\ map (fun A => tmp <- parallel_tmp A 2000 1 ;; Ok (n_local_columns tmp)) W21
     = [Throw (ExcMessage "Column block size has to be positive.");
        Throw (ExcMessage "Column block size has to be positive.")]
  /\ save true W21 (1, 1) 2000 1 None
     = Throw (ExcMessage "Column block size has to be positive.")
  /\ (file <- save false W21 (1, 1) 2000 1 None ;; load true W21 3000 2 file)
     = Throw (ExcMessage "Column block size has to be positive.").
Proof. repeat split; vm_compute; reflexivity. Qed.

(** ** The theorems at concrete inputs *)

(** X23 for the 6x6 matrix of [W66], saved and then loaded into [V66]. *)
Lemma save_load_serial_round_trip_witness :
  exists (file : HDF5File) (Bw' : World (@ScaLAPACKMatrix ZN)),
    save false W66 (invalid_unsigned_int, invalid_unsigned_int) 2000 1 None = Ok (Some file)
    /\ load false V66 3000 2 (Some file) = Ok Bw'
    /\ List.length Bw' = List.length V66
    /\ (forall (k : nat) (B' : ScaLAPACKMatrix),
           nth_error Bw' k = Some B' ->
           state B' = cholesky /\ property B' = symmetric
           /\ n_rows B' = 6 /\ n_columns B' = 6)
    /\ (forall gi gj : Z, 0 <= gi < 6 -> 0 <= gj < 6 ->
           exists v : ZN, entry W66 gi gj v /\ entry Bw' gi gj v)
    /\ (forall (gi gj : Z) (v : ZN), entry W66 gi gj v <-> entry Bw' gi gj v).
Proof.
  apply (save_load_serial_round_trip L66 L66 cholesky matrix symmetric general W66 V66
           (invalid_unsigned_int, invalid_unsigned_int) 2000 1 3000 2 None).
  - exact L66_valid.
  - exact L66_valid.
  - reflexivity.
  - reflexivity.
  - reflexivity.
  - exact W66_distributed.
  - exact V66_distributed.
  - unfold chunk_size_allowed. cbn. lia.
  - cbn. lia.
  - cbn. lia.
  - lia.
  - lia.
Defined.

(** C2 for global index 13 in blocks of 2 on 3 processes, and on the object
    of process 0 of a 20x20 matrix. *)
Lemma block_cyclic_round_trip_witness :
  owner_and_local 13 2 3 0 = (0, 5)
  /\ local_to_global 5 2 0 0 3 = 13
  /\ global_row A20 5 = Ok 13
  /\ global_column A20 5 = Ok 13.
Proof.
  destruct (@block_cyclic_round_trip ZN 13 2 3 0) as [H1 [H2 H3]]; try lia.
  split; [reflexivity|].
  split; [exact H1|].
  split.
  - apply (H2 A20); try reflexivity. cbn. lia.
  - apply (H3 A20); try reflexivity. cbn. lia.
Defined.

(** C3 (as amended) for the 2x2 factor in state [inverse_matrix] and in state
    [cholesky]. *)
Lemma copy_to_FullMatrix_lower_triangular_witness :
  (exists Dw : World (@FullMatrix ZN),
      copy_to_FullMatrix Winv22 [zero22] = Ok Dw
      /\ List.length Dw = List.length Winv22
      /\ forall r D, nth_error Dw r = Some D ->
           (inverse_matrix = inverse_matrix ->
            forall i j, 0 <= i < 2 -> 0 <= j < 2 -> fm_el D i j = fm_el D j i)
           /\ (inverse_matrix <> inverse_matrix ->
               forall i j, 0 <= i -> i < j -> j < 2 -> fm_el D i j = Some 0))
  /\ (exists Dw : World (@FullMatrix ZN),
         copy_to_FullMatrix Wcho22 [zero22] = Ok Dw
         /\ List.length Dw = List.length Wcho22
         /\ forall r D, nth_error Dw r = Some D ->
              (cholesky = inverse_matrix ->
               forall i j, 0 <= i < 2 -> 0 <= j < 2 -> fm_el D i j = fm_el D j i)
              /\ (cholesky <> inverse_matrix ->
                  forall i j, 0 <= i -> i < j -> j < 2 -> fm_el D i j = Some 0)).
Proof.
  assert (Hdims : forall M : @FullMatrix ZN,
             In M [zero22] -> fm_m M = lay_m L22 /\ fm_n M = lay_n L22).
  { intros M [<-|[]]. split; reflexivity. }
  split.
  - exact (copy_to_FullMatrix_lower_triangular L22 inverse_matrix Winv22 [zero22]
             L22_valid eq_refl Winv22_distributed eq_refl Hdims).
  - exact (copy_to_FullMatrix_lower_triangular L22 cholesky Wcho22 [zero22]
             L22_valid eq_refl Wcho22_distributed eq_refl Hdims).
Defined.

(** C3, the symmetry the specification states, at a counterexample: a lower
    triangular factor in state [cholesky] or [matrix] is copied with zeros
    above the diagonal, so the dense matrix is not symmetric (entry (0, 1) is
    0, entry (1, 0) is 2); only in state [inverse_matrix] is the upper half
    the mirror image of the lower half. *)
Lemma copy_to_FullMatrix_zero_fill :
  map property Wcho22 = [lower_triangular]
  /\ map state Wcho22 = [cholesky]
  /\ fm_el (nth 0 (dense_of Wcho22) zero22) 0 1 = Some 0
  /\ fm_el (nth 0 (dense_of Wcho22) zero22) 1 0 = Some 2
  /\ fm_rows (nth 0 (dense_of Wcho22) zero22) = [[Some 1; Some 0]; [Some 2; Some 4]]
  /\ fm_rows (nth 0 (dense_of Wmat22) zero22) = [[Some 1; Some 0]; [Some 2; Some 4]]
  /\ fm_rows (nth 0 (dense_of Winv22) zero22) = [[Some 1; Some 2]; [Some 2; Some 4]].
Proof. repeat split; vm_compute; reflexivity. Qed.




(** C7 for [2 A + 3 B^T] on the 6x6 worlds. *)
Lemma add_computes_linear_combination_witness :
  exists Aw' : list (@ScaLAPACKMatrix ZN),
    mapM (fun tt => add (fst tt) V66 (snd tt) (Some 2) (Some 3) true) (combine W66 V66)
    = Ok Aw'
    /\ List.length Aw' = List.length W66
    /\ (forall (k : nat) (A' : ScaLAPACKMatrix),
           nth_error Aw' k = Some A' -> state A' = matrix)
    /\ (forall gi gj : Z, 0 <= gi < 6 -> 0 <= gj < 6 ->
           exists a b : ZN,
             entry W66 gi gj a
             /\ entry V66 (fst (op_position true gi gj)) (snd (op_position true gi gj)) b
             /\ entry Aw' gi gj (plus (times (Some 2) a) (times (Some 3) b)))
    /\ (forall (gi gj : Z) (a b v : ZN),
           entry W66 gi gj a ->
           entry V66 (fst (op_position true gi gj)) (snd (op_position true gi gj)) b ->
           entry Aw' gi gj v ->
           v = plus (times (Some 2) a) (times (Some 3) b)).
Proof.
  apply (add_computes_linear_combination L66 L66 cholesky matrix symmetric general
           W66 V66 (Some 2) (Some 3) true).
  - exact L66_valid.
  - exact L66_valid.
  - exact W66_distributed.
  - exact V66_distributed.
  - reflexivity.
  - reflexivity.
  - reflexivity.
  - reflexivity.
  - reflexivity.
  - unfold add_compatible. cbn. repeat split; reflexivity.
Defined.

(** [add] on the 6x6 worlds, run: 2 A + 3 B^T entry by entry, state
    [matrix], the property as it was. *)
Example add_W66_V66 :
  mapM (fun tt => add (fst tt) V66 (snd tt) (Some 2) (Some 3) true) (combine W66 V66)
  = Ok (example_world L66 matrix symmetric (fun i j => 2 * f66 i j + 3 * g66 j i)).
Proof. vm_compute. reflexivity. Qed.

(** C8 (as amended) for the copy of [A66] onto [B66]. *)
Lemma copy_to_transfers_state_and_property_witness :
  (exists dest' : @ScaLAPACKMatrix ZN,
      copy_to W66 A66 B66 = Ok dest'
      /\ state dest' = cholesky /\ property dest' = symmetric)
  /\ (forall (Bw : World ScaLAPACKMatrix) (offset_A offset_B submatrix_size : Z * Z),
         fst submatrix_size <> 0 -> snd submatrix_size <> 0 ->
         (forall B' : ScaLAPACKMatrix,
             copy_to_submatrix W66 Bw A66 B66 offset_A offset_B submatrix_size = Ok B' ->
             state B' = matrix)
         /\ (submatrix_in_range A66 B66 offset_A offset_B submatrix_size ->
             exists B' : ScaLAPACKMatrix,
               copy_to_submatrix W66 Bw A66 B66 offset_A offset_B submatrix_size
               = Ok B')).
Proof.
  apply (copy_to_transfers_state_and_property W66 A66 B66).
  - reflexivity.
  - reflexivity.
  - intros _. reflexivity.
  - intros _. reflexivity.
Defined.

(** C8, the aside of the specification on the sub-block copy, at a
    counterexample: the copy of a sub-block with no rows returns before it
    touches the destination, whose state stays what it was; a sub-block that
    is not empty leaves the state [matrix]. *)
Lemma copy_to_submatrix_empty_keeps_state :
  state A66 = cholesky
  /\ (B' <- copy_to_submatrix V66 W66 B66 A66 (0, 0) (0, 0) (0, 3) ;; Ok (state B'))
     = Ok cholesky
  /\ (B' <- copy_to_submatrix V66 W66 B66 A66 (0, 0) (0, 0) (2, 3) ;; Ok (state B'))
     = Ok matrix.
Proof. repeat split; vm_compute; reflexivity. Qed.

(** C9 for sub-blocks with no rows and with no columns, at offsets outside
    both matrices. *)
Lemma copy_to_submatrix_empty_is_identity_witness :
  copy_to_submatrix W66 V66 A66 B66 (100, 100) (7, 0) (0, 3) = Ok B66
  /\ copy_to_submatrix W66 V66 A66 B66 (100, 100) (7, 0) (3, 0) = Ok B66.
Proof.
  split.
  - apply copy_to_submatrix_empty_is_identity. left. reflexivity.
  - apply copy_to_submatrix_empty_is_identity. right. reflexivity.
Defined.

(** C10 for the index pair (1, 3) and the value pair (1, 5). *)
Lemma eigenpairs_symmetric_limits_in_either_order_witness :
  eigenpairs_symmetric_by_index idle_psyev idle_psyevx idle_plamch S66
    [(grid S66, 3)] [(grid S66, repeat (Some 0) 3)] (1, 3) true
  = eigenpairs_symmetric_by_index idle_psyev idle_psyevx idle_plamch S66
      [(grid S66, 3)] [(grid S66, repeat (Some 0) 3)] (3, 1) true
  /\ eigenpairs_symmetric_by_value idle_psyev idle_psyevx idle_plamch S66
       [(grid S66, 3)] [(grid S66, repeat (Some 0) 3)] (Some 1, Some 5) true
     = eigenpairs_symmetric_by_value idle_psyev idle_psyevx idle_plamch S66
         [(grid S66, 3)] [(grid S66, repeat (Some 0) 3)] (Some 5, Some 1) true.
Proof.
  destruct (eigenpairs_symmetric_limits_in_either_order idle_psyev idle_psyevx idle_plamch
              S66 [(grid S66, 3)] [(grid S66, repeat (Some 0) 3)] true) as [H1 H2].
  split.
  - apply H1. left. reflexivity.
  - apply H2; try reflexivity.
    intros H. discriminate H.
Defined.

(** ** The scalar type [ZN] *)

Lemma ZN_plus_zero_l (x : ZN) : plus (of_int 0) x = x.
Proof. destruct x as [x|]; [cbn; f_equal|]; reflexivity. Qed.

Lemma ZN_plus_zero_r (x : ZN) : plus x (of_int 0) = x.
Proof. destruct x as [x|]; [cbn; f_equal; lia | reflexivity]. Qed.

Lemma L66b_valid : Layout_valid L66b.
Proof. unfold Layout_valid. cbn. lia. Qed.

Lemma U66b_distributed : distributed L66b matrix general U66b.
Proof. repeat constructor. Qed.

Lemma dense66_holds_g66 (M : @FullMatrix ZN) :
  In M (repeat dense66 5) ->
  fm_m M = lay_m L66 /\ fm_n M = lay_n L66
  /\ forall i j, 0 <= i < lay_m L66 -> 0 <= j < lay_n L66 -> fm_el M i j = Some (g66 i j).
Proof. intros H. apply repeat_spec in H. subst M. repeat split. Qed.


Lemma zero66_shape (M : @FullMatrix ZN) :
  In M (repeat zero66 5) -> fm_m M = lay_m L66 /\ fm_n M = lay_n L66.
Proof. intros H. apply repeat_spec in H. subst M. split; reflexivity. Qed.

(** ** The further properties at concrete inputs *)

(** X1 for the 6x6 matrix on the 2x2 grid in the job of five processes. *)
Lemma assign_FullMatrix_distributes_witness :
  exists Aw' : World (@ScaLAPACKMatrix ZN),
    assign_FullMatrix_all W66 (repeat dense66 5) = Ok Aw'
    /\ distributed L66 matrix symmetric Aw'
    /\ forall gi gj v,
         entry Aw' gi gj v
         <-> 0 <= gi < lay_m L66 /\ 0 <= gj < lay_n L66 /\ v = Some (g66 gi gj).
Proof.
  exact (assign_FullMatrix_distributes L66 cholesky symmetric W66 (repeat dense66 5)
           (fun i j => Some (g66 i j)) L66_valid W66_distributed eq_refl dense66_holds_g66).
Defined.


(** Of a matrix that is not square the fill of the other triangle leaves
    the dense matrix: for the 3x2 matrix with property [lower_triangular] it
    writes at position (0, 2), and the dense matrix refuses the column. *)
Example copy_to_FullMatrix_W32 :
  copy_to_FullMatrix W32 [zero32] = Throw (ExcIndexRange 2 0 2)
  /\ exists Dw, copy_to_FullMatrix_unchecked W32 [zero32] = Ok Dw.
Proof. split; [vm_compute; reflexivity | eexists; vm_compute; reflexivity]. Qed.

(** X3 for the 6x6 matrix. *)
Lemma assign_then_copy_to_FullMatrix_witness :
  exists (Aw' : World (@ScaLAPACKMatrix ZN)) (Dw : World (@FullMatrix ZN)),
    assign_FullMatrix_all W66 (repeat dense66 5) = Ok Aw'
    /\ copy_to_FullMatrix Aw' (repeat zero66 5) = Ok Dw
    /\ List.length Dw = List.length W66
    /\ forall r D, nth_error Dw r = Some D ->
         forall gi gj, 0 <= gi < lay_m L66 -> 0 <= gj < lay_n L66 ->
           stored symmetric gi gj ->
           plus (of_int 0) (Some (g66 gi gj)) = Some (g66 gi gj) ->
           plus (Some (g66 gi gj)) (of_int 0) = Some (g66 gi gj) ->
           fm_el D gi gj = Some (g66 gi gj).
Proof.
  refine (assign_then_copy_to_FullMatrix L66 cholesky symmetric W66 (repeat dense66 5)
            (repeat zero66 5) (fun i j => Some (g66 i j))
            eq_refl L66_valid W66_distributed _ eq_refl
            dense66_holds_g66 eq_refl zero66_shape _).
  - intros [H|H]; discriminate H.
  - intros M i j H. change (In M [zero66]) in H. destruct H as [<-|[]]. reflexivity.
Defined.

(** X4 for the 6x6 matrix and the factors 1, ..., 6. *)
Lemma scale_columns_scales_witness :
  exists Aw' : World (@ScaLAPACKMatrix ZN),
    mapM (fun A => scale_columns A factors6) V66 = Ok Aw'
    /\ distributed L66 matrix general Aw'
    /\ forall gi gj v,
         entry Aw' gi gj v
         <-> exists a, entry V66 gi gj a
                       /\ v = times a (nth (Z.to_nat gj) factors6 (of_int 0)).
Proof.
  exact (scale_columns_scales L66 matrix general V66 factors6
           L66_valid V66_distributed eq_refl).
Defined.

(** X5 for the 6x6 matrix and the factors 1, ..., 6. *)
Lemma scale_rows_scales_witness :
  exists Aw' : World (@ScaLAPACKMatrix ZN),
    mapM (fun A => scale_rows A factors6) V66 = Ok Aw'
    /\ distributed L66 matrix general Aw'
    /\ forall gi gj v,
         entry Aw' gi gj v
         <-> exists a, entry V66 gi gj a
                       /\ v = times a (nth (Z.to_nat gi) factors6 (of_int 0)).
Proof.
  exact (scale_rows_scales L66 matrix general V66 factors6
           L66_valid V66_distributed eq_refl).
Defined.

(** The objects of a distributed world are in its layout. *)
Lemma V66_has_layout (k : nat) (A : @ScaLAPACKMatrix ZN) :
  nth_error V66 k = Some A -> has_layout L66 (Z.of_nat k) A.
Proof.
  exact (proj2 (proj1 (distributed_ranked L66 matrix general V66 L66_valid V66_distributed))
           k A).
Qed.

(** X6 for the 6x6 matrix and a single factor, on process 0 (in the grid) and
    on process 4 (outside). *)
Lemma scale_wrong_size_witness :
  scale_columns B66 [Some 1] = Throw (ExcDimensionMismatch 6 1)
  /\ scale_rows B66 [Some 1] = Throw (ExcDimensionMismatch 6 1)
  /\ scale_columns (example_object L66 matrix general g66 4) [Some 1]
     = Ok (example_object L66 matrix general g66 4)
  /\ scale_rows (example_object L66 matrix general g66 4) [Some 1]
     = Ok (example_object L66 matrix general g66 4).
Proof.
  destruct (scale_wrong_size L66 0 B66 [Some 1] L66_valid (V66_has_layout 0 B66 eq_refl))
    as [H1 H2].
  destruct (scale_wrong_size L66 4 (example_object L66 matrix general g66 4) [Some 1]
              L66_valid (V66_has_layout 4 _ eq_refl)) as [H3 H4].
  split; [exact (H1 ltac:(discriminate))|].
  split; [exact (H2 ltac:(discriminate))|].
  split; [exact (H3 ltac:(discriminate)) | exact (H4 ltac:(discriminate))].
Defined.

(** X7 for the 6x6 matrix, copied onto a 1x3 grid with blocks of 3. *)
Lemma copy_to_copies_every_entry_witness :
  exists Bw' : World (@ScaLAPACKMatrix ZN),
    mapM (fun tt => copy_to W66 (fst tt) (snd tt)) (combine W66 U66b) = Ok Bw'
    /\ distributed L66b cholesky symmetric Bw'
    /\ forall gi gj v, entry Bw' gi gj v <-> entry W66 gi gj v.
Proof.
  refine (copy_to_copies_every_entry L66 L66b cholesky matrix symmetric general W66 U66b
            L66_valid L66b_valid W66_distributed U66b_distributed eq_refl eq_refl eq_refl _).
  intros H. discriminate H.
Defined.

(** X8 for the block of 2x3 entries at (1, 2) of the 6x6 matrix, copied to
    (3, 0) of the matrix on the 1x3 grid. *)
Lemma copy_to_submatrix_copies_block_witness :
  exists Bw' : World (@ScaLAPACKMatrix ZN),
    mapM (fun tt => copy_to_submatrix W66 U66b (fst tt) (snd tt) (1, 2) (3, 0) (2, 3))
      (combine W66 U66b) = Ok Bw'
    /\ distributed L66b matrix general Bw'
    /\ forall gi gj v,
         entry Bw' gi gj v
         <-> if in_block (3, 0) (2, 3) gi gj
             then entry W66 (gi - 3 + 1) (gj - 0 + 2) v
             else entry U66b gi gj v.
Proof.
  refine (copy_to_submatrix_copies_block L66 L66b cholesky matrix symmetric general
            W66 U66b (1, 2) (3, 0) (2, 3) L66_valid L66b_valid W66_distributed
            U66b_distributed eq_refl eq_refl _ _ _ _ _ _ _ _ _ _); cbn; lia.
Defined.

(** The sub-block copy above, run: rows 3 and 4 of the destination hold rows
    1 and 2, columns 2 to 4, of the source. *)
Example copy_to_submatrix_W66_U66b :
  mapM (fun tt => copy_to_submatrix W66 U66b (fst tt) (snd tt) (1, 2) (3, 0) (2, 3))
    (combine W66 U66b)
  = Ok (example_world L66b matrix general
          (fun i j => if in_block (3, 0) (2, 3) i j then f66 (i - 2) (j + 2) else 0)).
Proof. vm_compute. reflexivity. Qed.

(** X9 for 2 A^T B + 3 C on the 6x6 matrices. *)
Lemma mult_computes_product_witness :
  exists Cw' : World (@ScaLAPACKMatrix ZN),
    mult_all W66 (Some 2) V66 (Some 3) V66 true false = Ok Cw'
    /\ distributed L66 matrix general Cw'
    /\ forall gi gj, 0 <= gi < lay_m L66 -> 0 <= gj < lay_n L66 ->
         let k := lay_m L66 in
         forall (a b' : Z -> ZN) (cv : ZN),
           (forall l, 0 <= l < k -> entry W66 l gi (a l)) ->
           (forall l, 0 <= l < k -> entry V66 l gj (b' l)) ->
           entry V66 gi gj cv ->
           forall v, entry Cw' gi gj v
                     <-> v = plus (times (Some 2) (dot k a b')) (times (Some 3) cv).
Proof.
  refine (mult_computes_product L66 L66 L66 cholesky matrix matrix symmetric general general
            W66 V66 V66 (Some 2) (Some 3) true false L66_valid L66_valid L66_valid
            W66_distributed V66_distributed V66_distributed _ _ _);
    repeat split; reflexivity.
Defined.

(** [mult] on the 6x6 worlds, run: [2 A^T B + 3 C] entry by entry. *)
Example mult_W66_V66 :
  mult_all W66 (Some 2) V66 (Some 3) V66 true false
  = Ok (example_world L66 matrix general
          (fun i j =>
             2 * fold_left (fun acc l => acc + f66 l i * g66 l j) (zrange 0 6) 0
             + 3 * g66 i j)).
Proof. vm_compute. reflexivity. Qed.

(** X2, run: the dense matrix of the process outside the grid is added to
    the gathered matrix. *)
Example copy_to_FullMatrix_V66_dense66 :
  match copy_to_FullMatrix V66 (repeat dense66 5) with
  | Ok (D :: _) =>
      fm_rows D = map (fun i => map (fun j => Some (2 * g66 i j)) (zrange 0 6)) (zrange 0 6)
  | _ => False
  end.
Proof. vm_compute. reflexivity. Qed.

Lemma ZN_times_one_l (x : ZN) : times (of_int 1) x = x.
Proof. destruct x as [x|]; [|reflexivity]. unfold times, of_int. cbn. destruct x; reflexivity. Qed.

Lemma L25_valid : Layout_valid L25.
Proof. unfold Layout_valid. cbn. lia. Qed.

Lemma W25_distributed : distributed L25 matrix general W25.
Proof. repeat constructor. Qed.

Lemma L36_valid : Layout_valid L36.
Proof. unfold Layout_valid. cbn. lia. Qed.

Lemma W36_distributed : distributed L36 matrix general W36.
Proof. repeat constructor. Qed.

(** X10 for the 6x6 matrix after the eigenvalues were computed without
    eigenvectors. *)
Lemma consumed_matrix_is_refused_witness :
  (state E66 = unusable \/ state E66 = LAPACKSupport.eigenvalues)
  /\ compute_SVD idle_pgesvd E66 [] None None
     = Throw (ExcMessage "Matrix has to be in Matrix state before calling this function.")
  /\ least_squares idle_pgels E66 B66 false
     = Throw (ExcMessage "Matrix has to be in Matrix state before calling this function.")
  /\ reciprocal_condition_number idle_ppocon ZN_ceil_to_int E66 [] (Some 1)
     = Throw (ExcMessage "Matrix has to be in Cholesky state before calling this function.")
  /\ frobenius_norm idle_plange idle_plansy Z.lcm ceil_quotient E66 []
     = Throw (ExcMessage "norms can be called in matrix state only.").
Proof.
  destruct (consumed_matrix_is_refused idle_psyev idle_psyevx idle_plamch idle_pgesvd
              idle_pgels idle_ppocon idle_plange idle_plansy Z.lcm ceil_quotient
              ZN_ceil_to_int E66) as (H1 & H2 & H3 & _ & H5 & H6).
  - right. right.
    exists S66, [(grid S66, 6)], [(grid S66, repeat (Some 0) 6)], false,
      (invalid_unsigned_int, invalid_unsigned_int), (None, None).
    eexists. vm_compute. reflexivity.
  - split; [exact H1|]. split; [apply H2|]. split; [apply H3; reflexivity|].
    split; [apply H5|]. apply (H6 []).
Defined.

(** X11 for the 6x6 symmetric matrix. *)
Lemma condition_number_between_factorization_and_inversion_witness :
  compute_cholesky_factorization idle_ppotrf S66 = Ok F66
  /\ l1_norm idle_plange idle_plansy Z.lcm ceil_quotient F66 []
     = Throw (ExcMessage "norms can be called in matrix state only.")
  /\ exists rcond w iw,
       reciprocal_condition_number idle_ppocon ZN_ceil_to_int F66 [] (Some 1)
       = Ok (rcond, set_work F66 w iw).
Proof.
  assert (H : compute_cholesky_factorization idle_ppotrf S66 = Ok F66)
    by (vm_compute; reflexivity).
  destruct (condition_number_between_factorization_and_inversion idle_ppotrf idle_ppotri
              idle_ppocon idle_plange idle_plansy Z.lcm ceil_quotient ZN_ceil_to_int
              S66 F66 H) as (H1 & H2 & _).
  split; [exact H|]. split; [apply (H1 [])|].
  apply H2. unfold ppocon_succeeds. intros. reflexivity.
Defined.


(** X13 for the 6x6 matrix in chunks of 2 rows and 3 columns. *)
Lemma save_writes_columns_witness :
  exists file : @HDF5File ZN,
    save false W66 (2, 3) 2000 1 None = Ok (Some file)
    /\ h5_matrix_class file = hdf5_type_class
    /\ h5_matrix_dims file = (lay_n L66, lay_m L66)
    /\ h5_matrix_chunk file
       = (if (fst (2, 3) =? invalid_unsigned_int) || (snd (2, 3) =? invalid_unsigned_int)
          then (1, lay_m L66) else (snd (2, 3), fst (2, 3)))
    /\ List.length (h5_matrix file) = Z.to_nat (lay_m L66 * lay_n L66)
    /\ (forall gi gj, 0 <= gi < lay_m L66 -> 0 <= gj < lay_n L66 ->
          entry W66 gi gj (nth (Z.to_nat (gj * lay_m L66 + gi)) (h5_matrix file) (of_int 0)))
    /\ h5_state file = Some (create_HDF5_state_enum_id, State_to_int cholesky)
    /\ h5_property file = Some (create_HDF5_property_enum_id, Property_to_int symmetric).
Proof.
  refine (save_writes_columns L66 cholesky symmetric W66 (2, 3) 2000 1 None
            L66_valid W66_distributed _ _ _).
  - right. right. cbn. lia.
  - cbn. lia.
  - lia.
Defined.

(** X14 for the 6x6 matrix: no chunk rows, 7 chunk columns, and
    4294967294 chunk rows, which the exception carries as -2. *)
Lemma save_refuses_chunk_size_witness :
  save true W66 (0, 3) 2000 1 None = Throw (ExcIndexRange 0 1 7)
  /\ save false W66 (2, 7) 2000 1 None = Throw (ExcIndexRange 7 1 7)
  /\ save false W66 (4294967294, 1) 2000 1 None = Throw (ExcIndexRange (-2) 1 7).
Proof.
  split; [|split].
  - refine (proj1 (save_refuses_chunk_size L66 cholesky symmetric W66 (0, 3) true 2000 1
                     None L66_valid W66_distributed _ _ _ _) _).
    + cbn. lia.
    + cbn. lia.
    + cbn. unfold invalid_unsigned_int. lia.
    + cbn. unfold invalid_unsigned_int. lia.
    + left. reflexivity.
  - refine (proj2 (save_refuses_chunk_size L66 cholesky symmetric W66 (2, 7) false 2000 1
                     None L66_valid W66_distributed _ _ _ _) _ _).
    + cbn. lia.
    + cbn. lia.
    + cbn. unfold invalid_unsigned_int. lia.
    + cbn. unfold invalid_unsigned_int. lia.
    + cbn. lia.
    + right. cbn. lia.
  - refine (proj1 (save_refuses_chunk_size L66 cholesky symmetric W66 (4294967294, 1)
                     false 2000 1 None L66_valid W66_distributed _ _ _ _) _).
    + cbn. lia.
    + cbn. lia.
    + cbn. unfold invalid_unsigned_int. lia.
    + cbn. unfold invalid_unsigned_int. lia.
    + right. cbn. lia.
Defined.

(** X15 for the file of the 6x6 matrix, loaded into the 2x5 and into the 3x6
    matrix, each in a job of two processes: process 0 throws, process 1
    waits. *)
Lemma load_refuses_other_shape_witness :
  (exists file : @HDF5File ZN,
      save false W66 (2, 3) 2000 1 None = Ok (Some file)
      /\ load_serial W25 3000 2 (Some file)
         = [Throws (ExcMessage "The number of columns of the matrix does not match the content of the archive");
            Waits (ExcMessage "The number of columns of the matrix does not match the content of the archive")])
  /\ (exists file : @HDF5File ZN,
         save false W66 (2, 3) 2000 1 None = Ok (Some file)
         /\ load_serial W36 3000 2 (Some file)
            = [Throws (ExcMessage "The number of rows of the matrix does not match the content of the archive");
               Waits (ExcMessage "The number of rows of the matrix does not match the content of the archive")]).
Proof.
  split.
  - destruct (load_refuses_other_shape L66 L25 cholesky matrix symmetric general W66 W25
                (2, 3) 2000 1 3000 2 None L66_valid L25_valid W66_distributed
                W25_distributed) as [file [Hs [Hc _]]].
    + right. right. cbn. lia.
    + cbn. lia.
    + lia.
    + lia.
    + exists file. split; [exact Hs|]. apply Hc. cbn. lia.
  - destruct (load_refuses_other_shape L66 L36 cholesky matrix symmetric general W66 W36
                (2, 3) 2000 1 3000 2 None L66_valid L36_valid W66_distributed
                W36_distributed) as [file [Hs [_ Hr]]].
    + right. right. cbn. lia.
    + cbn. lia.
    + lia.
    + lia.
    + exists file. split; [exact Hs|]. apply Hr; cbn; lia.
Defined.

(** X16 for 6 columns on 2 processes (process 1 holds the columns 3 to 5)
    and for 5 columns on 2 processes (process 0 holds the columns 0, 1, 4). *)
Lemma parallel_tmp_columns_witness :
  (exists tmp : @ScaLAPACKMatrix ZN,
      parallel_tmp (example_object L36 matrix general f25 1) 2000 1 = Ok tmp
      /\ n_local_columns tmp = 6 / 2
      /\ forall j, 0 <= j < n_local_columns tmp ->
                   global_column tmp j = Ok (1 * n_local_columns tmp + j))
  /\ (exists tmp : @ScaLAPACKMatrix ZN,
         parallel_tmp (example_object L25 matrix general f25 0) 2000 1 = Ok tmp
         /\ column_block_size tmp = 5 / 2
         /\ global_column tmp (column_block_size tmp - 1) = Ok (column_block_size tmp - 1)
         /\ global_column tmp (column_block_size tmp) = Ok (column_block_size tmp * 2)
         /\ column_block_size tmp < column_block_size tmp * 2).
Proof.
  split.
  - refine (proj1 (parallel_tmp_columns (example_object L36 matrix general f25 1) 2000 1
                     _ _ _) _ _); cbn; lia.
  - refine (proj2 (parallel_tmp_columns (example_object L25 matrix general f25 0) 2000 1
                     _ _ _) _ _); cbn; try lia; reflexivity.
Defined.

(** X17 for the 6x6 matrix: the position (3, 4) has an owner, the process
    outside the grid has no local index, and process 0, which holds 4 rows,
    refuses the local row 4294967295 with the index -1. *)
Lemma every_position_has_one_owner_witness :
  (exists k A li lj,
      nth_error W66 k = Some A /\ mpi_process_is_active (grid A) = true
      /\ 0 <= li < n_local_rows A /\ 0 <= lj < n_local_columns A
      /\ global_row A li = Ok 3 /\ global_column A lj = Ok 4)
  /\ global_row (example_object L66 cholesky symmetric f66 4) 0
     = Throw (ExcIndexRange 0 0 (-1))
  /\ global_row A66 4294967295 = Throw (ExcIndexRange (-1) 0 4).
Proof.
  destruct (every_position_has_one_owner L66 cholesky symmetric W66 L66_valid
              W66_distributed) as [H1 [_ H3]].
  split; [|split].
  - apply H1; cbn; lia.
  - destruct (H3 4%nat (example_object L66 cholesky symmetric f66 4) 0 eq_refl)
      as [_ [_ H]]; [lia|].
    apply H. reflexivity.
  - destruct (H3 0%nat A66 4294967295 eq_refl) as [H _]; [lia|].
    apply H; [reflexivity | cbn; lia].
Defined.

(** X18 for the 6x6 matrix in state [cholesky] and in state [matrix]. *)
Lemma eigenpairs_symmetric_refusals_witness :
  eigenpairs_symmetric idle_psyev idle_psyevx idle_plamch A66 [] [] true
    (invalid_unsigned_int, invalid_unsigned_int) (None, None)
  = Throw (ExcMessage "Matrix has to be in Matrix state before calling this function.")
  /\ eigenpairs_symmetric idle_psyev idle_psyevx idle_plamch S66 [] [] true
       (0, 1) (Some 0, Some 1)
     = Throw (ExcMessage
                "Prescribing both the index and value range for the eigenvalues is ambiguous")
  /\ eigenpairs_symmetric_by_index idle_psyev idle_psyevx idle_plamch S66 [] []
       (2, 6) true
     = Throw (ExcIndexRange 6 0 6)
  /\ eigenpairs_symmetric_by_index idle_psyev idle_psyevx idle_plamch S66 [] []
       (4294967295, 2) true
     = Throw (ExcIndexRange (-1) 0 6)
  /\ eigenpairs_symmetric_by_value idle_psyev idle_psyevx idle_plamch S66 [] []
       (Some 0, None) true
     = Throw (ExcMessage "value_limits.second is NaN").
Proof.
  destruct (eigenpairs_symmetric_refusals idle_psyev idle_psyevx idle_plamch A66 [] [] true)
    as [H1 _].
  destruct (eigenpairs_symmetric_refusals idle_psyev idle_psyevx idle_plamch S66 [] [] true)
    as (_ & _ & H3 & H4 & H5 & _ & H7 & _).
  split; [apply H1; discriminate|].
  split; [apply H3; try reflexivity; cbn; unfold invalid_unsigned_int; lia|].
  split; [apply (H5 2 6); cbn; lia|].
  split; [apply (H4 4294967295 2); cbn; lia|].
  apply H7; reflexivity.
Defined.

(** X19 for [A + 3 B] and [A + 3 B^T] on the 6x6 worlds. *)
Lemma add_scaled_adds_multiple_witness :
  (exists Aw' : World (@ScaLAPACKMatrix ZN),
      mapM (fun tt => add_scaled (fst tt) (Some 3) V66 (snd tt)) (combine W66 V66) = Ok Aw'
      /\ distributed L66 matrix symmetric Aw'
      /\ forall gi gj va vb,
           entry W66 gi gj va ->
           entry V66 (fst (op_position false gi gj)) (snd (op_position false gi gj)) vb ->
           forall v, entry Aw' gi gj v <-> v = plus va (times (Some 3) vb))
  /\ (exists Aw' : World (@ScaLAPACKMatrix ZN),
         mapM (fun tt => Tadd (fst tt) (Some 3) V66 (snd tt)) (combine W66 V66) = Ok Aw'
         /\ distributed L66 matrix symmetric Aw'
         /\ forall gi gj va vb,
              entry W66 gi gj va ->
              entry V66 (fst (op_position true gi gj)) (snd (op_position true gi gj)) vb ->
              forall v, entry Aw' gi gj v <-> v = plus va (times (Some 3) vb)).
Proof.
  split.
  - refine (add_scaled_adds_multiple L66 L66 cholesky matrix symmetric general W66 V66
              (Some 3) false ZN_times_one_l L66_valid L66_valid W66_distributed
              V66_distributed _ _); repeat split; cbn; lia.
  - refine (add_scaled_adds_multiple L66 L66 cholesky matrix symmetric general W66 V66
              (Some 3) true ZN_times_one_l L66_valid L66_valid W66_distributed
              V66_distributed _ _); repeat split; cbn; lia.
Defined.

(** [add (a, B)] on the 6x6 worlds, run. *)
Example add_scaled_W66_V66 :
  mapM (fun tt => add_scaled (fst tt) (Some 3) V66 (snd tt)) (combine W66 V66)
  = Ok (example_world L66 matrix symmetric (fun i j => f66 i j + 3 * g66 i j)).
Proof. vm_compute. reflexivity. Qed.

Lemma Z25_distributed : distributed L25 inverse_matrix symmetric Z25.
Proof. repeat constructor. Qed.

(** X20 for the 2x5 matrix on 2 processes, saved and loaded into [Z25]. *)
Lemma save_load_parallel_round_trip_witness :
  exists (file : @HDF5File ZN) (Bw' : World (@ScaLAPACKMatrix ZN)),
    save true W25 (1, 1) 2000 1 None = Ok (Some file)
    /\ load true Z25 3000 2 (Some file) = Ok Bw'
    /\ List.length Bw' = List.length Z25
    /\ (forall k B', nth_error Bw' k = Some B' ->
                     state B' = matrix /\ property B' = general
                     /\ n_rows B' = lay_m L25 /\ n_columns B' = lay_n L25)
    /\ (forall gi gj, 0 <= gi < lay_m L25 -> 0 <= gj < lay_n L25 ->
                      exists v, entry W25 gi gj v /\ entry Bw' gi gj v)
    /\ (forall gi gj v, entry W25 gi gj v <-> entry Bw' gi gj v).
Proof.
  refine (save_load_parallel_round_trip L25 L25 matrix inverse_matrix general symmetric
            W25 Z25 (1, 1) 2000 1 3000 2 None L25_valid L25_valid eq_refl eq_refl eq_refl
            W25_distributed Z25_distributed _ _ _ _ _ _).
  - right. right. cbn. lia.
  - cbn. lia.
  - cbn. lia.
  - lia.
  - lia.
  - cbn. lia.
Defined.

(** The round trip above, run: the columns lie in the file in the order
    0, 1, 4, 2, 3, and [load] puts them back. *)
Example save_load_parallel_W25 :
  (file <- save true W25 (1, 1) 2000 1 None ;; load true Z25 3000 2 file) = Ok W25.
Proof. vm_compute. reflexivity. Qed.

(** X21 for the 3x6 matrix on 2 processes. *)
Lemma save_parallel_file_is_serial_file_witness :
  exists file : @HDF5File ZN,
    save true W36 (1, 3) 2000 1 None = Ok (Some file)
    /\ save false W36 (1, 3) 2000 1 None = Ok (Some file).
Proof.
  refine (save_parallel_file_is_serial_file L36 matrix general W36 (1, 3) 2000 1 None
            L36_valid W36_distributed _ _ _ _).
  - right. right. cbn. lia.
  - cbn. lia.
  - lia.
  - reflexivity.
Defined.

(** X22 for [Tmmult] with [adding] on the 6x6 matrices: C + A^T B. *)
Lemma products_compute_witness :
  exists Cw' : World (@ScaLAPACKMatrix ZN),
    product_all true false W66 V66 V66 true = Ok Cw'
    /\ distributed L66 matrix general Cw'
    /\ forall gi gj, 0 <= gi < lay_m L66 -> 0 <= gj < lay_n L66 ->
         let k := lay_m L66 in
         forall (a b' : Z -> ZN) (cv : ZN),
           (forall l, 0 <= l < k -> entry W66 l gi (a l)) ->
           (forall l, 0 <= l < k -> entry V66 l gj (b' l)) ->
           entry V66 gi gj cv ->
           forall v, entry Cw' gi gj v <-> v = plus (dot k a b') cv.
Proof.
  refine (products_compute L66 L66 L66 cholesky matrix matrix symmetric general general
            W66 V66 V66 true false true ZN_times_one_l L66_valid L66_valid L66_valid
            W66_distributed V66_distributed V66_distributed _ _ _);
    repeat split; reflexivity.
Defined.

(** [mTmult] without [adding] on the 6x6 worlds, run: [A B^T]. *)
Example mTmult_W66_V66 :
  product_all false true W66 V66 V66 false
  = Ok (example_world L66 matrix general
          (fun i j => fold_left (fun acc l => acc + f66 i l * g66 j l) (zrange 0 6) 0)).
Proof. vm_compute. reflexivity. Qed.
